(** * Dendritic microcircuits: drivers, experiment bookkeeping and trace export

    A shallow embedding of
    - [src/ai/sacramento_main.py]  (three-layer sweep and training drivers),
    - [src/ai/experiments/AndOrExperiment.py]  (the AND/OR/XOR experiment),
    - [src/metrics/visualization_metrics/neuronparse.py]  (delta export),
    - [src/ai/experiments/visualization_extractor.py] and
      [src/metrics/visualization_metrics/visualization_extractor.py]
      (recording of the layers),
    together with a model of the layer operations they call.

    Python objects are mutated in place; here every driver is a computation
    in a state-and-exception monad [M S A := S -> result A * S].  When an
    exception is raised the state is the one reached at the raise point.
    Numbers that are floats in Python are rationals ([Q]) here, each float
    being the rational it stands for; printing is not modelled.  The layer
    operations, which are modelled from the specification, compute with
    rationals.  The one arithmetic operation that the code of the sources
    performs itself, the subtraction of [neuronparse.py], is IEEE 754
    binary64 subtraction, with its rounding, its infinities and nan. *)

From stdpp Require Import base option list strings gmap.
From stdpp Require Import pretty.
From Stdlib Require Import ZArith QArith Lia.
From Stdlib Require SpecFloat.

Set Default Proof Using "Type".
Local Open Scope nat_scope.

(** ** Exceptions and the state-and-exception monad *)

(** Python's built-in exceptions that the modelled code can raise, and the
    two error kinds of the layer interface. *)
Inductive Exn : Type :=
  | IndexError
  | ValueError
  | TypeError
  | AttributeError
  | DimensionMismatch
  | InvalidLayerRole.

Inductive result (A : Type) : Type :=
  | Ok (a : A)
  | Raise (e : Exn).
Arguments Ok {A} a.
Arguments Raise {A} e.

Definition M (S A : Type) : Type := S -> result A * S.

Definition ret {S A} (a : A) : M S A := fun s => (Ok a, s).

Definition bind {S A B} (m : M S A) (k : A -> M S B) : M S B :=
  fun s => match m s with
           | (Ok a, s') => k a s'
           | (Raise e, s') => (Raise e, s')
           end.

Definition raise {S A} (e : Exn) : M S A := fun s => (Raise e, s).
Definition gets {S A} (f : S -> A) : M S A := fun s => (Ok (f s), s).
Definition modify {S} (f : S -> S) : M S unit := fun s => (Ok tt, f s).

Declare Scope m_scope.
Delimit Scope m_scope with M.
Notation "'let*' x := m 'in' k" := (bind m (fun x => k))
  (at level 10, x name, m at level 100, k at level 200, only parsing) : m_scope.
Notation "m ;;; k" := (bind m (fun _ => k))
  (at level 100, k at level 200, right associativity, only parsing) : m_scope.
Local Open Scope m_scope.

(** [for _ in range(n): body] *)
Fixpoint repeatM {S} (n : nat) (body : M S unit) : M S unit :=
  match n with
  | O => ret tt
  | S n' => body ;;; repeatM n' body
  end.

(** [for x in xs: body x] *)
Fixpoint forM {S A} (xs : list A) (body : A -> M S unit) : M S unit :=
  match xs with
  | [] => ret tt
  | x :: xs' => body x ;;; forM xs' body
  end.

(** A value that may be missing: [None] raises [e]. *)
Definition orRaise {S A} (e : Exn) (o : option A) : M S A :=
  match o with
  | Some a => ret a
  | None => raise e
  end.

(** Run a computation on a component of the state. *)
Definition zoom {S T A} (proj : S -> T) (upd : T -> S -> S) (m : M T A) : M S A :=
  fun s => let '(r, t') := m (proj s) in (r, upd t' s).

(** ** The layer interface used by the drivers *)

(** A 2-D numpy array, by rows. *)
Abbreviation matrix := (list (list Q)).

(** Modelled from the spec: [ai/Layer.py] is not among the sources.  The
    drivers only call its methods, so the class [Layer] is an interface here:
    a type [L] of layer states and one state transformer per method, each of
    which may raise (spec section 7) and is otherwise an ordinary deterministic
    computation on the layer it owns (spec section 5).  A method that takes
    another layer reads it and changes only [self].  [R] is the state of the
    pseudo-random generator handed to the constructor. *)
Class LayerOps (L R : Type) : Type := {
  (** [Layer(rng, n_pyr, n_inhib, a, b, c, d)], the six sizes as the callers
      pass them ([None] as [None]); the generator is advanced. *)
  Layer_init : R -> nat -> nat -> option nat -> option nat -> option nat ->
               option nat -> L * R;
  (** [apply_inputs_to_test_self_predictive_convergence(inputs)];
      [None] when the caller passes no argument. *)
  apply_inputs_to_test_self_predictive_convergence : option (list Q) -> M L unit;
  update_dend_mps_via_ip : M L unit;
  (** [self.update_pyrs_basal_and_soma_ff(prev)] *)
  update_pyrs_basal_and_soma_ff : L -> M L unit;
  (** [self.update_pyrs_apical_soma_fb(next)] *)
  update_pyrs_apical_soma_fb : L -> M L unit;
  (** [nudge_output_layer_neurons( *targets, lambda_nudge=...)];
      [None] when the caller leaves [lambda_nudge] to its default. *)
  nudge_output_layer_neurons : list Q -> option Q -> M L unit;
  adjust_wts_lat_pi : M L unit;
  (** [self.adjust_wts_pp_ff(prev)] returns the rule-13 data point, a 2-D
      array. *)
  adjust_wts_pp_ff : L -> M L matrix;
  (** [map(lambda p: p.apical_mp, self.pyrs)] *)
  pyr_apical_mps : L -> list Q;
  (** the property [self.pyr_soma_mps] *)
  pyr_soma_mps : L -> list Q;
}.

(** A reference to a layer object: its index in the heap of layers. *)
Abbreviation ref := nat (only parsing).

(** The method calls the drivers make, as they appear in the source. *)
Inductive Call : Type :=
  | AdjustWtsLatPi (self : ref)
  | AdjustWtsPpFf (self prev : ref)
  | ApplyInputs (self : ref) (inputs : option (list Q))
  | UpdateDendMpsViaIp (self : ref)
  | UpdatePyrsBasalAndSomaFf (self prev : ref)
  | NudgeOutputLayerNeurons (self : ref) (targets : list Q) (lambda_nudge : option Q)
  | UpdatePyrsApicalSomaFb (self next : ref).

(** The mutable world the drivers of [sacramento_main.py] run in: the layer
    objects, the module-level array [rule13_post_data], and a log of the
    method calls made so far, oldest first (the log is not in the source; it
    records the order of the calls). *)
Record World (L : Type) : Type := mkWorld {
  heap : list L;
  calls : list Call;
  rule13_post_data : matrix;
}.
Arguments mkWorld {L} _ _ _.
Arguments heap {L} _.
Arguments calls {L} _.
Arguments rule13_post_data {L} _.

(** The world when [sacramento_main] has just been imported: no layers yet,
    and [rule13_post_data = np.array([[0, 0, 0, 0, 0]])]. *)
Definition initial_world {L : Type} : World L :=
  mkWorld [] [] [[0; 0; 0; 0; 0]]%Q.

(** The constants imported from [ai.config], which is not among the sources. *)
Record Config : Type := mkConfig {
  n_input_pyr_nrns : nat;
  n_hidden_pyr_nrns : nat;
  n_output_pyr_nrns : nat;
  nudge1 : Q;
  nudge2 : Q;
  wt_init_seed : Z;
}.

(** [numpy.random.default_rng(seed)] and [rng.integers(low, high)], which
    returns the number drawn and advances the generator. *)
Class Rng (R : Type) : Type := {
  default_rng : Z -> R;
  integers : Z -> Z -> R -> nat * R;
}.

(** [np.concatenate((a, b), axis=0)] on 2-D arrays: the rows of [b] must be
    as wide as those of [a], else numpy raises ValueError. *)
Definition np_concatenate_rows (a b : matrix) : result matrix :=
  if forallb (fun row => length row =? length (hd [] a)) b
  then Ok (a ++ b) else Raise ValueError.

Section Drivers.
Context {L R : Type} `{!LayerOps L R} `{!Rng R}.

Definition set_heap (h : list L) (w : World L) : World L :=
  mkWorld h (calls w) (rule13_post_data w).
Definition log_call (c : Call) (w : World L) : World L :=
  mkWorld (heap w) (calls w ++ [c]) (rule13_post_data w).
Definition set_rule13_post_data (d : matrix) (w : World L) : World L :=
  mkWorld (heap w) (calls w) d.

(** The object a reference points to.  A dangling reference, which Python
    cannot have for a parameter but [self.layers[i]] can, raises IndexError. *)
Definition deref (r : ref) : M (World L) L :=
  fun w => match heap w !! r with
           | Some l => (Ok l, w)
           | None => (Raise IndexError, w)
           end.

(** [self.meth(...)]: the call is logged, the method runs on the object and
    the object is updated in place (also when the method raises). *)
Definition call {A} (c : Call) (self : ref) (meth : M L A) : M (World L) A :=
  let* l := deref self in
  modify (log_call c) ;;;
  fun w => let '(r, l') := meth l in (r, set_heap (<[self := l']> (heap w)) w).

(** The same for a method whose argument is another layer. *)
Definition call_with {A} (c : Call) (self other : ref) (meth : L -> M L A)
    : M (World L) A :=
  let* _ := deref self in
  let* o := deref other in
  call c self (meth o).

(** *** sacramento_main.py *)

(** [build_small_three_layer_network]; [get_rng()] of [ai.config] is taken
    as a fresh generator seeded with [wt_init_seed].  Returns the three
    layers as references. *)
Definition build_small_three_layer_network (cfg : Config)
    : M (World L) (ref * ref * ref) :=
  fun w =>
    let rng := default_rng (wt_init_seed cfg) in
    let '(l1, rng1) := Layer_init rng (n_input_pyr_nrns cfg) 1 None (Some 2) (Some 3) (Some 1) in
    let '(l2, rng2) := Layer_init rng1 (n_hidden_pyr_nrns cfg) 3 (Some 2) (Some 3) (Some 2) (Some 3) in
    let '(l3, _) := Layer_init rng2 (n_output_pyr_nrns cfg) 0 (Some 3) None None None in
    let n := length (heap w) in
    (Ok (n, n + 1, n + 2), set_heap (heap w ++ [l1; l2; l3]) w).

Definition do_ff_sweep (l1 l2 l3 : ref) : M (World L) unit :=
  call (ApplyInputs l1 None) l1
       (apply_inputs_to_test_self_predictive_convergence None) ;;;
  call (UpdateDendMpsViaIp l1) l1 update_dend_mps_via_ip ;;;
  call_with (UpdatePyrsBasalAndSomaFf l2 l1) l2 l1 update_pyrs_basal_and_soma_ff ;;;
  call (UpdateDendMpsViaIp l2) l2 update_dend_mps_via_ip ;;;
  call_with (UpdatePyrsBasalAndSomaFf l3 l2) l3 l2 update_pyrs_basal_and_soma_ff.

Definition do_fb_sweep (l1 l2 l3 : ref) : M (World L) unit :=
  call_with (UpdatePyrsApicalSomaFb l2 l3) l2 l3 update_pyrs_apical_soma_fb ;;;
  call_with (UpdatePyrsApicalSomaFb l1 l2) l1 l2 update_pyrs_apical_soma_fb.

(** [layer3.nudge_output_layer_neurons(2.0, -2.0, lambda_nudge=0.8)] *)
Definition nudge_layer3_fixed (layer3 : ref) : M (World L) unit :=
  call (NudgeOutputLayerNeurons layer3 [2; -2]%Q (Some (8 # 10)%Q)) layer3
       (nudge_output_layer_neurons [2; -2]%Q (Some (8 # 10)%Q)).

Definition train_1_step_rule_16b_only (layer1 layer2 layer3 : ref)
    (nudge_predicate : bool) : M (World L) unit :=
  call (AdjustWtsLatPi layer2) layer2 adjust_wts_lat_pi ;;;
  call (AdjustWtsLatPi layer1) layer1 adjust_wts_lat_pi ;;;
  do_ff_sweep layer1 layer2 layer3 ;;;
  (if nudge_predicate then nudge_layer3_fixed layer3 else ret tt) ;;;
  do_fb_sweep layer1 layer2 layer3.

Definition train_1_step_rule_16b_and_rule_13 (layer1 layer2 layer3 : ref)
    (nudge_predicate : bool) : M (World L) unit :=
  call (AdjustWtsLatPi layer2) layer2 adjust_wts_lat_pi ;;;
  let* data_pt := call_with (AdjustWtsPpFf layer3 layer2) layer3 layer2 adjust_wts_pp_ff in
  (fun w => match np_concatenate_rows (rule13_post_data w) data_pt with
            | Ok d => (Ok tt, set_rule13_post_data d w)
            | Raise e => (Raise e, w)
            end) ;;;
  call (AdjustWtsLatPi layer1) layer1 adjust_wts_lat_pi ;;;
  call_with (AdjustWtsPpFf layer2 layer1) layer2 layer1 adjust_wts_pp_ff ;;;
  do_ff_sweep layer1 layer2 layer3 ;;;
  (if nudge_predicate then nudge_layer3_fixed layer3 else ret tt) ;;;
  do_fb_sweep layer1 layer2 layer3.

Definition train_to_self_predictive_state (layer1 layer2 layer3 : ref)
    (n_steps : nat) : M (World L) unit :=
  do_ff_sweep layer1 layer2 layer3 ;;;
  do_fb_sweep layer1 layer2 layer3 ;;;
  repeatM n_steps (train_1_step_rule_16b_only layer1 layer2 layer3 false).

(** The driver [nudge_output_layer(layer1, layer2, layer3)]. *)
Definition nudge_output_layer (cfg : Config) (layer1 layer2 layer3 : ref)
    : M (World L) unit :=
  call (NudgeOutputLayerNeurons layer3 [nudge1 cfg; nudge2 cfg] (Some (8 # 10)%Q))
       layer3
       (nudge_output_layer_neurons [nudge1 cfg; nudge2 cfg] (Some (8 # 10)%Q)) ;;;
  do_fb_sweep layer1 layer2 layer3.

End Drivers.

(** ** AndOrExperiment.py *)

(** [params: MultiDict], read with [params.get(key, default, type=int)]: the
    entries that convert to an integer; any other key reads as its default. *)
Definition params_get (params : gmap string Z) (key : string) (default : Z) : Z :=
  match params !! key with
  | Some v => v
  | None => default
  end.

(** Modelled from the spec: [ai/experiments/Experiment.py], the base class, is
    not among the sources.  Of it the experiment uses the network builder,
    which the spec describes as building a fixed-size layer chain with seeded
    random initial weights: the seed is read from the parameters, the chain
    is built from a generator seeded with it. *)
Class ExperimentBase (L R : Type) : Type := {
  wt_init_seed_default : Z;
  build_small_two_layer_network : R -> nat -> nat -> list L;
}.

(** The four entries of the dictionary [self._metrics], one array per input
    pattern each: a 2-row array of layer-1 apical potentials, and 1-D arrays
    of the three output potentials. *)
Record Metrics : Type := mkMetrics {
  KEY_LAYER_1 : list matrix;
  KEY_OUTPUT_ACTIVATIONS_AND : list (list Q);
  KEY_OUTPUT_ACTIVATIONS_OR : list (list Q);
  KEY_OUTPUT_ACTIVATIONS_XOR : list (list Q);
}.

Record AndOrExperiment (L R : Type) : Type := mkAndOrExperiment {
  __label_init_seed : Z;
  __self_prediction_steps : Z;
  __training_steps : Z;
  _current_step : nat;
  _nudge_steps : list nat;
  _current_X_index : option nat;
  _current_X : option (list Q);
  _current_label : option (list Q);
  _rng_labels : R;
  _metrics : Metrics;
  (** [self.layers] is the heap of [world]: layer [i] is reference [i]. *)
  world : World L;
}.
Arguments mkAndOrExperiment {L R} _ _ _ _ _ _ _ _ _ _ _.
Arguments __label_init_seed {L R} _.
Arguments __self_prediction_steps {L R} _.
Arguments __training_steps {L R} _.
Arguments _current_step {L R} _.
Arguments _nudge_steps {L R} _.
Arguments _current_X_index {L R} _.
Arguments _current_X {L R} _.
Arguments _current_label {L R} _.
Arguments _rng_labels {L R} _.
Arguments _metrics {L R} _.
Arguments world {L R} _.

Definition _X : matrix := [[0; 0]; [0; 1]; [1; 0]; [1; 1]]%Q.
Definition _Y : matrix := [[0; 0; 0]; [0; 1; 1]; [0; 1; 1]; [1; 1; 0]]%Q.

(** [np.append(a, column, axis=1)] for a 2-D array [a] and a column vector:
    the column must have as many entries as [a] has rows. *)
Definition np_append_column (a : matrix) (column : list Q) : result matrix :=
  if length a =? length column
  then Ok (zip_with (fun row x => row ++ [x]) a column)
  else Raise ValueError.

Section Experiment.
Context {L R : Type} `{!LayerOps L R} `{!Rng R} `{!ExperimentBase L R}.

Abbreviation Exp := (AndOrExperiment L R).

Definition set_current_step (n : nat) (e : Exp) : Exp :=
  mkAndOrExperiment (__label_init_seed e) (__self_prediction_steps e)
    (__training_steps e) n (_nudge_steps e) (_current_X_index e) (_current_X e)
    (_current_label e) (_rng_labels e) (_metrics e) (world e).
Definition set_nudge_steps (ns : list nat) (e : Exp) : Exp :=
  mkAndOrExperiment (__label_init_seed e) (__self_prediction_steps e)
    (__training_steps e) (_current_step e) ns (_current_X_index e) (_current_X e)
    (_current_label e) (_rng_labels e) (_metrics e) (world e).
Definition set_current_X_index (i : option nat) (e : Exp) : Exp :=
  mkAndOrExperiment (__label_init_seed e) (__self_prediction_steps e)
    (__training_steps e) (_current_step e) (_nudge_steps e) i (_current_X e)
    (_current_label e) (_rng_labels e) (_metrics e) (world e).
Definition set_current_X (x : option (list Q)) (e : Exp) : Exp :=
  mkAndOrExperiment (__label_init_seed e) (__self_prediction_steps e)
    (__training_steps e) (_current_step e) (_nudge_steps e) (_current_X_index e) x
    (_current_label e) (_rng_labels e) (_metrics e) (world e).
Definition set_current_label (y : option (list Q)) (e : Exp) : Exp :=
  mkAndOrExperiment (__label_init_seed e) (__self_prediction_steps e)
    (__training_steps e) (_current_step e) (_nudge_steps e) (_current_X_index e)
    (_current_X e) y (_rng_labels e) (_metrics e) (world e).
Definition set_rng_labels (r : R) (e : Exp) : Exp :=
  mkAndOrExperiment (__label_init_seed e) (__self_prediction_steps e)
    (__training_steps e) (_current_step e) (_nudge_steps e) (_current_X_index e)
    (_current_X e) (_current_label e) r (_metrics e) (world e).
Definition set_metrics (m : Metrics) (e : Exp) : Exp :=
  mkAndOrExperiment (__label_init_seed e) (__self_prediction_steps e)
    (__training_steps e) (_current_step e) (_nudge_steps e) (_current_X_index e)
    (_current_X e) (_current_label e) (_rng_labels e) m (world e).
Definition set_world (w : World L) (e : Exp) : Exp :=
  mkAndOrExperiment (__label_init_seed e) (__self_prediction_steps e)
    (__training_steps e) (_current_step e) (_nudge_steps e) (_current_X_index e)
    (_current_X e) (_current_label e) (_rng_labels e) (_metrics e) w.

(** A driver of the layers, run on [self.layers]. *)
Definition on_layers {A} (m : M (World L) A) : M Exp A := zoom world set_world m.

(** [AndOrExperiment.__init__(params)]; the layers are built later, by
    [build_network].  The experiment does not use [sacramento_main], so its
    world starts without layers, calls or rule-13 data. *)
Definition AndOrExperiment_init (params : gmap string Z) : Exp :=
  let seed := params_get params "label_init_seed" 42 in
  mkAndOrExperiment
    seed
    (params_get params "self_prediction_steps" 400)
    (params_get params "training_steps" 190)
    0
    (replicate 4 0)
    None None None
    (default_rng seed)
    (mkMetrics (replicate (length _X) [[]; []])
               (replicate (length _X) [])
               (replicate (length _X) [])
               (replicate (length _X) []))
    (mkWorld [] [] []).

(** [build_network]: [self.build_small_two_layer_network(2, 3)]. *)
Definition build_network (params : gmap string Z) : M Exp unit :=
  modify (fun e =>
    let rng := default_rng (params_get params "wt_init_seed" wt_init_seed_default) in
    set_world (set_heap (build_small_two_layer_network rng 2 3) (world e)) e).

Definition __do_ff_sweep : M Exp unit :=
  let* _ := on_layers (deref 0) in
  let* x := gets _current_X in
  (* [self._current_X.tolist()] on [None] *)
  let* inputs := orRaise AttributeError x in
  on_layers (
    call (ApplyInputs 0 (Some inputs)) 0
         (apply_inputs_to_test_self_predictive_convergence (Some inputs)) ;;;
    call (UpdateDendMpsViaIp 0) 0 update_dend_mps_via_ip ;;;
    call_with (UpdatePyrsBasalAndSomaFf 1 0) 1 0 update_pyrs_basal_and_soma_ff ;;;
    call (UpdateDendMpsViaIp 1) 1 update_dend_mps_via_ip).

Definition __do_fb_sweep : M Exp unit :=
  on_layers (call_with (UpdatePyrsApicalSomaFb 0 1) 0 1 update_pyrs_apical_soma_fb).

(** [self.layers[1].nudge_output_layer_neurons( *self._current_label)]
    followed by the FB sweep; unpacking [None] raises TypeError. *)
Definition __nudge_output_layer : M Exp unit :=
  let* _ := on_layers (deref 1) in
  let* y := gets _current_label in
  let* label := orRaise TypeError y in
  on_layers (call (NudgeOutputLayerNeurons 1 label None) 1
                  (nudge_output_layer_neurons label None)) ;;;
  __do_fb_sweep.

Definition _hook_pre_train_step : M Exp unit :=
  modify (fun e => set_current_step (_current_step e + 1) e) ;;;
  let* step := gets _current_step in
  (if step =? 400 then
     forM (seq 0 4) (fun i =>
       let* m := gets (fun e => KEY_LAYER_1 (_metrics e)) in
       let* a := orRaise IndexError (m !! i) in
       let* row0 := orRaise IndexError (a !! 0) in
       let* ns := gets _nudge_steps in
       if i <? length ns
       then modify (set_nudge_steps (<[i := length row0]> ns))
       else raise IndexError)
   else ret tt) ;;;
  let* rng := gets _rng_labels in
  let '(index, rng') := integers 0 (Z.of_nat (length _X)) rng in
  modify (set_rng_labels rng') ;;;
  modify (set_current_X_index (Some index)) ;;;
  let* x := orRaise IndexError (_X !! index) in
  modify (set_current_X (Some x)) ;;;
  let* y := orRaise IndexError (_Y !! index) in
  modify (set_current_label (Some y)).

(** [self._metrics[key][i] = np.append(self._metrics[key][i], v)] on the
    1-D arrays of output potentials. *)
Definition append_output (rows : list (list Q)) (i : nat) (v : option Q)
    : result (list (list Q)) :=
  match rows !! i, v with
  | Some row, Some x => Ok (<[i := row ++ [x]]> rows)
  | _, _ => Raise IndexError
  end.

Definition _hook_post_train_step : M Exp unit :=
  let* hp := gets (fun e => heap (world e)) in
  match hp with
  | [l1; l2] =>
      let* oi := gets _current_X_index in
      (* indexing a list with [None] *)
      let* i := orRaise TypeError oi in
      let* m := gets _metrics in
      let* a := orRaise IndexError (KEY_LAYER_1 m !! i) in
      match np_append_column a (pyr_apical_mps l1) with
      | Raise e => raise e
      | Ok a' =>
          modify (set_metrics (mkMetrics (<[i := a']> (KEY_LAYER_1 m))
                    (KEY_OUTPUT_ACTIVATIONS_AND m) (KEY_OUTPUT_ACTIVATIONS_OR m)
                    (KEY_OUTPUT_ACTIVATIONS_XOR m))) ;;;
          let* m := gets _metrics in
          match append_output (KEY_OUTPUT_ACTIVATIONS_AND m) i (pyr_soma_mps l2 !! 0) with
          | Raise e => raise e
          | Ok r =>
              modify (set_metrics (mkMetrics (KEY_LAYER_1 m) r
                        (KEY_OUTPUT_ACTIVATIONS_OR m) (KEY_OUTPUT_ACTIVATIONS_XOR m)))
          end ;;;
          let* m := gets _metrics in
          match append_output (KEY_OUTPUT_ACTIVATIONS_OR m) i (pyr_soma_mps l2 !! 1) with
          | Raise e => raise e
          | Ok r =>
              modify (set_metrics (mkMetrics (KEY_LAYER_1 m)
                        (KEY_OUTPUT_ACTIVATIONS_AND m) r (KEY_OUTPUT_ACTIVATIONS_XOR m)))
          end ;;;
          let* m := gets _metrics in
          match append_output (KEY_OUTPUT_ACTIVATIONS_XOR m) i (pyr_soma_mps l2 !! 2) with
          | Raise e => raise e
          | Ok r =>
              modify (set_metrics (mkMetrics (KEY_LAYER_1 m)
                        (KEY_OUTPUT_ACTIVATIONS_AND m) (KEY_OUTPUT_ACTIVATIONS_OR m) r))
          end
      end
  | _ => raise ValueError (* [l1, l2 = self.layers] *)
  end.

Definition _train_1_step (nudge_predicate : bool) : M Exp unit :=
  let* hp := gets (fun e => heap (world e)) in
  match hp with
  | [_; _] =>
      on_layers (call (AdjustWtsLatPi 0) 0 adjust_wts_lat_pi) ;;;
      on_layers (call_with (AdjustWtsPpFf 1 0) 1 0 adjust_wts_pp_ff) ;;;
      __do_ff_sweep ;;;
      (if nudge_predicate then
         let* y := gets _current_label in
         let* label := orRaise TypeError y in
         on_layers (call (NudgeOutputLayerNeurons 1 label (Some (8 # 10)%Q)) 1
                         (nudge_output_layer_neurons label (Some (8 # 10)%Q)))
       else ret tt) ;;;
      __do_fb_sweep
  | _ => raise ValueError (* [l1, l2 = self.layers] *)
  end.

(** Modelled from the spec: [Experiment.train(n_steps, nudge_predicate)] of
    the absent base class; it repeats a training step [n_steps] times, each
    step between the two hooks that [AndOrExperiment] overrides. *)
Definition train (n_steps : Z) (nudge_predicate : bool) : M Exp unit :=
  repeatM (Z.to_nat n_steps)
    (_hook_pre_train_step ;;; _train_1_step nudge_predicate ;;; _hook_post_train_step).

Definition run : M Exp unit :=
  let* sp := gets __self_prediction_steps in
  train sp false ;;;
  __nudge_output_layer ;;;
  let* ts := gets __training_steps in
  train ts true.

(** The experiment object from its parameters: [__init__], then
    [build_network]. *)
Definition new_experiment (params : gmap string Z) : Exp :=
  (build_network params (AndOrExperiment_init params)).2.

(** [len(self._metrics[KEY_LAYER_1][i][0])] for every input pattern [i]: how
    many steps have been recorded for it, which is also the position of
    the next one in its graph. *)
Definition record_counts (e : Exp) : list nat :=
  (fun a : matrix => length (default [] (a !! 0))) <$> KEY_LAYER_1 (_metrics e).

(** The experiment when nudging begins in [run]: after the first, un-nudged
    call of [train]. *)
Definition nudging_start (e : Exp) : Exp :=
  (train (__self_prediction_steps e) false e).2.

End Experiment.

(** ** The layer operations, from the specification *)

(** Modelled from the spec: [ai/Layer.py] is not among the sources.  The data
    model is that of spec section 3 and the operations are those of section
    4.2, with the error kinds of section 7.  What the spec leaves open (the
    squashing function, how basal and apical potentials combine in the soma,
    the two local learning rules, the defaults of omitted arguments, the
    random initial weights) is a field of [Numerics]. *)
Module SpecLayer.

Inductive LayerRole : Type := INPUT | HIDDEN | OUTPUT.

Record PyrNRN : Type := mkPyrNRN {
  pyr_id_num : nat;
  apical_mp : Q;
  basal_mp : Q;
  soma_mp : Q;
  soma_act : Q;
}.

Record InhibNRN : Type := mkInhibNRN {
  inhib_id_num : nat;
  dend_mp : Q;
  inhib_soma_mp : Q;
  inhib_soma_act : Q;
}.

(** The four weight matrices of a layer, rows indexed by the receiving
    neuron: FF from the previous layer's pyramids, FB from the next
    layer's pyramids, PI from this layer's interneurons to its pyramids,
    IP from this layer's pyramids to its interneurons. *)
Record Weights : Type := mkWeights {
  wts_ff : matrix;
  wts_fb : matrix;
  wts_pi : matrix;
  wts_ip : matrix;
}.

Record Layer : Type := mkLayer {
  id_num : nat;
  role : LayerRole;
  pyrs : list PyrNRN;
  inhibs : list InhibNRN;
  weights : Weights;
}.

(** What the specification names but does not define. *)
Class Numerics (R : Type) : Type := mkNumerics {
  (** the squashing nonlinearity *)
  logsig : Q -> Q;
  (** the somatic potential of a pyramidal neuron from its basal and its
      apical potential *)
  pyr_soma : Q -> Q -> Q;
  (** the somatic potential of an interneuron from its dendritic potential *)
  inhib_soma : Q -> Q;
  (** the local rule of [adjust_lateral_weights]: the new PI and IP weights
      of a layer *)
  rule_16b : Layer -> matrix * matrix;
  (** the local rule of [adjust_ff_weights]: the new FF weights of a layer,
      given the layer before it, and the diagnostic record *)
  rule_13 : Layer -> Layer -> matrix * matrix;
  (** the stimulus applied when the caller passes none *)
  default_inputs : list Q;
  (** the nudge strength when the caller passes none *)
  default_lambda_nudge : Q;
  (** the constructor, which draws the initial weights *)
  new_layer : R -> nat -> nat -> option nat -> option nat -> option nat ->
              option nat -> Layer * R;
}.

Definition set_pyrs (ps : list PyrNRN) (l : Layer) : Layer :=
  mkLayer (id_num l) (role l) ps (inhibs l) (weights l).
Definition set_inhibs (ns : list InhibNRN) (l : Layer) : Layer :=
  mkLayer (id_num l) (role l) (pyrs l) ns (weights l).
Definition set_weights (w : Weights) (l : Layer) : Layer :=
  mkLayer (id_num l) (role l) (pyrs l) (inhibs l) w.

(** The terminal layer is the one with the role of the output. *)
Definition is_terminal (l : Layer) : bool :=
  match role l with OUTPUT => true | _ => false end.

(** The weighted sum of [v] by one row of a weight matrix. *)
Definition weighted_sum (row v : list Q) : Q :=
  foldr Qplus 0%Q (zip_with Qmult row v).

(** One weighted sum per row; the matrix must have [n] rows of the length
    of [v]. *)
Definition weighted_sums (W : matrix) (n : nat) (v : list Q) : result (list Q) :=
  if (length W =? n) && forallb (fun row => length row =? length v) W
  then Ok (map (fun row => weighted_sum row v) W)
  else Raise DimensionMismatch.

Section Operations.
Context {R : Type} `{!Numerics R}.

Definition with_basal (b : Q) (p : PyrNRN) : PyrNRN :=
  mkPyrNRN (pyr_id_num p) (apical_mp p) b (soma_mp p) (soma_act p).

(** The soma potential and activation re-derived from the dendrites. *)
Definition derive_soma (p : PyrNRN) : PyrNRN :=
  let s := pyr_soma (basal_mp p) (apical_mp p) in
  mkPyrNRN (pyr_id_num p) (apical_mp p) (basal_mp p) s (logsig s).

Definition with_basal_ff (b : Q) (p : PyrNRN) : PyrNRN :=
  derive_soma (with_basal b p).

Definition with_apical_fb (a : Q) (p : PyrNRN) : PyrNRN :=
  derive_soma (mkPyrNRN (pyr_id_num p) a (basal_mp p) (soma_mp p) (soma_act p)).

Definition with_dend (d : Q) (n : InhibNRN) : InhibNRN :=
  let s := inhib_soma d in
  mkInhibNRN (inhib_id_num n) d s (logsig s).

Definition with_soma_act (a : Q) (p : PyrNRN) : PyrNRN :=
  mkPyrNRN (pyr_id_num p) (apical_mp p) (basal_mp p) (soma_mp p) a.

(** Modelled from the spec: [apply_inputs] of the absent [ai/Layer.py].  It
    "sets each pyramidal neuron's basal potential directly from an external
    input vector"; "vector length equals pyramidal count; fails with a
    dimension-mismatch error otherwise". *)
Definition apply_inputs (inputs : list Q) : M Layer unit :=
  fun l =>
    if length inputs =? length (pyrs l)
    then (Ok tt, set_pyrs (zip_with with_basal inputs (pyrs l)) l)
    else (Raise DimensionMismatch, l).

(** Modelled from the spec: [update_basal_and_soma_ff] of the absent
    [ai/Layer.py].  "For each pyramidal neuron, computes basal potential as
    the weighted sum of the upstream layer's pyramidal somatic activations
    using this layer's incoming FF weight matrix, then derives soma activation
    via the nonlinearity"; a matrix of the wrong shape is a dimension
    mismatch. *)
Definition update_basal_and_soma_ff (prev : Layer) : M Layer unit :=
  fun l =>
    match weighted_sums (wts_ff (weights l)) (length (pyrs l))
                        (map soma_act (pyrs prev)) with
    | Ok basal => (Ok tt, set_pyrs (zip_with with_basal_ff basal (pyrs l)) l)
    | Raise e => (Raise e, l)
    end.

(** Modelled from the spec: [update_dendrite_via_inhibitory_plasticity] of
    the absent [ai/Layer.py].  It "updates each inhibitory neuron's dendritic
    potential as the weighted sum of this layer's own pyramidal somatic
    activations (via the IP weight matrix), then derives its somatic
    activation". *)
Definition update_dendrite_via_inhibitory_plasticity : M Layer unit :=
  fun l =>
    match weighted_sums (wts_ip (weights l)) (length (inhibs l))
                        (map soma_act (pyrs l)) with
    | Ok dend => (Ok tt, set_inhibs (zip_with with_dend dend (inhibs l)) l)
    | Raise e => (Raise e, l)
    end.

(** Modelled from the spec: [update_apical_and_soma_fb] of the absent
    [ai/Layer.py].  "For each pyramidal neuron, computes the apical potential
    as a combination of (a) weighted somatic activations of the downstream
    layer's pyramidal neurons via the FB weight matrix, minus (b) weighted
    somatic activations of this layer's own inhibitory neurons via the lateral
    PI weight matrix"; the soma follows, as the name says. *)
Definition update_apical_and_soma_fb (next : Layer) : M Layer unit :=
  fun l =>
    match weighted_sums (wts_fb (weights l)) (length (pyrs l))
                        (map soma_act (pyrs next)),
          weighted_sums (wts_pi (weights l)) (length (pyrs l))
                        (map inhib_soma_act (inhibs l)) with
    | Ok fb, Ok lat =>
        (Ok tt, set_pyrs (zip_with with_apical_fb (zip_with Qminus fb lat) (pyrs l)) l)
    | Raise e, _ | _, Raise e => (Raise e, l)
    end.

(** The blend [(1-λ)*current + λ*target]. *)
Definition nudged (lambda_nudge target current : Q) : Q :=
  ((1 - lambda_nudge) * current + lambda_nudge * target)%Q.

(** Modelled from the spec: [nudge_output_layer] of the absent
    [ai/Layer.py].  "Only valid on the terminal layer"; it "blends each
    pyramidal neuron's somatic activation toward a supplied target value by a
    weighted combination (1-λ)*current + λ*target"; "nudging a non-terminal
    layer fails with InvalidLayerRole". *)
Definition nudge_output_layer (targets : list Q) (lambda_nudge : Q) : M Layer unit :=
  fun l =>
    if negb (is_terminal l) then (Raise InvalidLayerRole, l)
    else if negb (length targets =? length (pyrs l)) then (Raise DimensionMismatch, l)
    else (Ok tt,
          set_pyrs (zip_with (fun t p => with_soma_act (nudged lambda_nudge t (soma_act p)) p)
                             targets (pyrs l)) l).

(** Modelled from the spec: [adjust_lateral_weights] of the absent
    [ai/Layer.py].  It "updates the PI and IP weight matrices using a local
    Hebbian-style rule"; "requesting lateral-weight adjustment on a layer
    without inhibitory neurons" is an InvalidLayerRole error. *)
Definition adjust_lateral_weights : M Layer unit :=
  fun l =>
    match inhibs l with
    | [] => (Raise InvalidLayerRole, l)
    | _ => let '(pi, ip) := rule_16b l in
           (Ok tt, set_weights (mkWeights (wts_ff (weights l)) (wts_fb (weights l)) pi ip) l)
    end.

(** Modelled from the spec: [adjust_ff_weights] of the absent [ai/Layer.py].
    It "updates the incoming FF weight matrix using a local rule" and
    "returns a record [soma_act, predicted_act, target_values]". *)
Definition adjust_ff_weights (prev : Layer) : M Layer matrix :=
  fun l =>
    let '(ff, data_pt) := rule_13 l prev in
    (Ok data_pt,
     set_weights (mkWeights ff (wts_fb (weights l)) (wts_pi (weights l))
                            (wts_ip (weights l))) l).

(** The operations under the names the drivers call them by. *)
#[global] Instance ops : LayerOps Layer R := {|
  Layer_init := new_layer;
  apply_inputs_to_test_self_predictive_convergence o :=
    apply_inputs (default (default_inputs) o);
  update_dend_mps_via_ip := update_dendrite_via_inhibitory_plasticity;
  update_pyrs_basal_and_soma_ff := update_basal_and_soma_ff;
  update_pyrs_apical_soma_fb := update_apical_and_soma_fb;
  nudge_output_layer_neurons ts o :=
    nudge_output_layer ts (default (default_lambda_nudge) o);
  adjust_wts_lat_pi := adjust_lateral_weights;
  adjust_wts_pp_ff := adjust_ff_weights;
  pyr_apical_mps l := map apical_mp (pyrs l);
  pyr_soma_mps l := map soma_mp (pyrs l);
|}.
End Operations.

End SpecLayer.

(** ** neuronparse.py *)

Module NeuronParser.

(** A 1-D numpy array of floats. *)
Abbreviation ndarray := (list Q).

(** Computations that raise but touch no state. *)
Definition rbind {A B} (r : result A) (k : A -> result B) : result B :=
  match r with
  | Ok a => k a
  | Raise e => Raise e
  end.
Notation "'let?' x := r 'in' k" := (rbind r (fun x => k))
  (at level 10, x name, r at level 100, k at level 200, only parsing).

Definition lookup_or_raise {A} (l : list A) (i : nat) : result A :=
  match l !! i with
  | Some a => Ok a
  | None => Raise IndexError
  end.

Fixpoint mapR {A B} (f : A -> result B) (xs : list A) : result (list B) :=
  match xs with
  | [] => Ok []
  | x :: xs' => let? y := f x in let? ys := mapR f xs' in Ok (y :: ys)
  end.

Definition liftR {S A} (r : result A) : M S A := fun s => (r, s).

(** A [np.float64] as arithmetic returns it: a finite number, by the
    rational it stands for (a zero without its sign), an infinity or nan. *)
Inductive float64 : Type :=
  | Finite (x : Q)
  | Inf (negative : bool)
  | Nan.

(** The binary64 float of a number: the number itself when it is a float,
    else the float nearest to it (ties to even), an infinity when that is
    out of range.  The quotient of numerator and denominator is rounded
    once, by the division of [SpecFloat]. *)
Definition binary64_of_Q (x : Q) : SpecFloat.spec_float :=
  match Qnum x with
  | Z0 => SpecFloat.S754_zero false
  | Zpos n =>
      SpecFloat.SFdiv 53 1024 (SpecFloat.S754_finite false n 0)
                              (SpecFloat.S754_finite false (Qden x) 0)
  | Zneg n =>
      SpecFloat.SFdiv 53 1024 (SpecFloat.S754_finite true n 0)
                              (SpecFloat.S754_finite false (Qden x) 0)
  end.

Definition float64_of_binary64 (f : SpecFloat.spec_float) : float64 :=
  match f with
  | SpecFloat.S754_zero _ => Finite 0
  | SpecFloat.S754_infinity s => Inf s
  | SpecFloat.S754_nan => Nan
  | SpecFloat.S754_finite s m e =>
      Finite (Qred (inject_Z (if s then Zneg m else Zpos m) * 2 ^ e))
  end.

(** [a - b] on two [np.float64]: the difference rounded to the nearest
    float, an infinity on overflow, nan for the difference of two equal
    infinities. *)
Definition float64_sub (a b : Q) : float64 :=
  float64_of_binary64 (SpecFloat.SFsub 53 1024 (binary64_of_Q a) (binary64_of_Q b)).

(** Whether a number is in the range of the finite floats. *)
Definition in_float64_range (x : Q) : bool :=
  match binary64_of_Q x with
  | SpecFloat.S754_zero _ | SpecFloat.S754_finite _ _ _ => true
  | _ => false
  end.

(** The JSON document: one entry per time, each with the neurons of every
    layer as key-value records. *)
Record TimeEntry : Type := mkTimeEntry {
  time : nat;
  layers : list (list (list (string * Q)));
}.

(** The files the parser works on.  [text_arrays] is what lines 67-77 of
    [__file_to_list_of_arrays] make of a file's text: the arrays parsed
    from its lines, or the exception raised while opening or parsing.
    [json_files] are the JSON files written so far, latest first. *)
Record Files : Type := mkFiles {
  text_arrays : string -> result (list ndarray);
  json_files : list (string * list TimeEntry);
}.

(** [int(x)] for a float: truncation towards zero. *)
Definition int_of (x : Q) : Z := Z.quot (Qnum x) (Z.pos (Qden x)).

(** [range(0, stop, step)] for a step that is not negative. *)
Definition range_step (stop step : nat) : result (list nat) :=
  if step =? 0 then Raise ValueError
  else Ok (map (fun k => k * step) (seq 0 ((stop + step - 1) / step))).

(** The maximum of the first entries, starting from 0. *)
Fixpoint max_layer (layer_amount : Q) (parsed_arrays : list ndarray) : result Q :=
  match parsed_arrays with
  | [] => Ok layer_amount
  | array :: rest =>
      let? a0 := lookup_or_raise array 0 in
      max_layer (if Qle_bool a0 layer_amount then layer_amount else a0) rest
  end.

(** [for i in range(layer_amount): arrays_separated_by_layer[i].append(grouped_arrays[i])] *)
Fixpoint regroup_one (grouped_arrays : list ndarray) (indices : list nat)
    (arrays_separated_by_layer : list (list ndarray)) : result (list (list ndarray)) :=
  match indices with
  | [] => Ok arrays_separated_by_layer
  | i :: rest =>
      let? a := lookup_or_raise grouped_arrays i in
      let? layer := lookup_or_raise arrays_separated_by_layer i in
      regroup_one grouped_arrays rest (<[i := layer ++ [a]]> arrays_separated_by_layer)
  end.

Fixpoint regroup (groups : list (list ndarray)) (layer_amount : nat)
    (arrays_separated_by_layer : list (list ndarray)) : result (list (list ndarray)) :=
  match groups with
  | [] => Ok arrays_separated_by_layer
  | grouped_arrays :: rest =>
      let? acc := regroup_one grouped_arrays (seq 0 layer_amount) arrays_separated_by_layer in
      regroup rest layer_amount acc
  end.

(** Lines 79-100 of [__file_to_list_of_arrays]. *)
Definition separate_by_layer (parsed_arrays : list ndarray) : result (list (list ndarray)) :=
  let? m := max_layer 0%Q parsed_arrays in
  let layer_amount := Z.to_nat (int_of m) in
  let arrays_separated_by_layer := replicate layer_amount [] in
  let? starts := range_step (length parsed_arrays) layer_amount in
  let parsed_arrays_by_layer_count :=
    map (fun n => take layer_amount (drop n parsed_arrays)) starts in
  regroup parsed_arrays_by_layer_count layer_amount arrays_separated_by_layer.

Definition __file_to_list_of_arrays (file_name : string) : M Files (list (list ndarray)) :=
  let* parsed_arrays := (fun fs => (text_arrays fs file_name, fs)) in
  liftR (separate_by_layer parsed_arrays).

(** The inner loop of [__calculate_deltas] over [enumerate(current_array)],
    from position [index] on.  The entries of a delta are numpy floats: a
    value of the array as it is, or the float difference of two values. *)
Fixpoint delta_from (neuron_data_length : nat) (previous_array : ndarray)
    (index : nat) (current_array : list Q) : result (list float64) :=
  match current_array with
  | [] => Ok []
  | value :: rest =>
      let? d :=
        (if index =? 0 then Ok []
         else if negb ((index - 1) mod neuron_data_length =? 0)
              then let? p := lookup_or_raise previous_array index in
                   Ok [float64_sub p value]
              else Ok [Finite value]) in
      let? ds := delta_from neuron_data_length previous_array (S index) rest in
      Ok (d ++ ds)
  end.

Fixpoint deltas_from (neuron_data_length : nat) (previous_array : ndarray)
    (list_of_arrays : list ndarray) : result (list (list float64)) :=
  match list_of_arrays with
  | [] => Ok []
  | current_array :: rest =>
      let? delta := delta_from neuron_data_length previous_array 0 current_array in
      let? deltas := deltas_from neuron_data_length current_array rest in
      Ok (delta :: deltas)
  end.

Definition __calculate_deltas (list_of_arrays : list ndarray) (mode : string)
    : result (list (list float64)) :=
  let neuron_data_length := if String.eqb mode "p" then 5 else 4 in
  let? previous_array := lookup_or_raise list_of_arrays 0 in
  deltas_from neuron_data_length previous_array list_of_arrays.

Definition __zip_delta_array (num_layers : nat)
    (delta_array : list (list (list float64))) : result (list (list float64)) :=
  let? first := lookup_or_raise delta_array 0 in
  mapR (fun i =>
          let? layer := lookup_or_raise delta_array (i mod num_layers) in
          lookup_or_raise layer (i / num_layers))
       (seq 0 (length first * num_layers)).

(** [__zipped_delta_to_json(zipped_delta_array, num_layers, mode)], at
    the types its only caller passes: both arguments are deltas, that is
    lists of floats.  Its third statement, [[[] for _ in range(num_layers)]],
    raises TypeError on a list; the two before it build an empty list and a
    zero, and nothing after it is reached. *)
Definition __zipped_delta_to_json (zipped_delta_array num_layers : list float64)
    (mode : string) : result (list TimeEntry) :=
  Raise TypeError.

(** [s.replace(old, new)] for a non-empty [old]; [skip] characters of a
    match are still to be dropped. *)
Fixpoint replace_from (old new : string) (skip : nat) (s : string) : string :=
  match s with
  | EmptyString => EmptyString
  | String c s' =>
      match skip with
      | S k => replace_from old new k s'
      | O => if String.prefix old s
             then String.append new (replace_from old new (String.length old - 1) s')
             else String c (replace_from old new 0 s')
      end
  end.

(** [with open(json_file, "w") as file: json.dump(json_output, file)] *)
Definition write_json (json_file : string) (json_output : list TimeEntry)
    : M Files unit :=
  modify (fun fs => mkFiles (text_arrays fs) ((json_file, json_output) :: json_files fs)).

Definition __list_of_arrays_to_delta (list_of_arrays : list (list ndarray))
    (file_name mode : string) : M Files unit :=
  let* delta_array := liftR (mapR (fun array => __calculate_deltas array mode) list_of_arrays) in
  let num_layers := length list_of_arrays in
  let* zipped := liftR (__zip_delta_array num_layers delta_array) in
  (* [zipped_delta_array, num_layers = ...] *)
  match zipped with
  | [zipped_delta_array; num_layers] =>
      let* json_output := liftR (__zipped_delta_to_json zipped_delta_array num_layers mode) in
      write_json (replace_from ".txt" "_Delta.json" 0 file_name) json_output
  | _ => raise ValueError
  end.

Definition file_to_delta (file_name mode : string) : M Files unit :=
  let* list_of_arrays := __file_to_list_of_arrays file_name in
  __list_of_arrays_to_delta list_of_arrays file_name mode.

End NeuronParser.

(** ** A small concrete instance, to run the model on *)

Module Example.
Import SpecLayer.

(** A linear congruential generator standing in for numpy's. *)
#[global] Instance lcg : Rng Z := {|
  default_rng seed := seed;
  integers low high r :=
    let r' := ((r * 1103515245 + 12345) mod 2147483648)%Z in
    (Z.to_nat (low + (r' / 65536) mod (high - low))%Z, r');
|}.

(** [rows] x [cols] initial weights in [-1, 1], in steps of a tenth. *)
Fixpoint draw_row (cols : nat) (r : Z) : list Q * Z :=
  match cols with
  | O => ([], r)
  | S c => let '(n, r1) := integers 0 21 r in
           let '(row, r2) := draw_row c r1 in
           (((Z.of_nat n - 10) # 10)%Q :: row, r2)
  end.
Fixpoint draw_matrix (rows cols : nat) (r : Z) : matrix * Z :=
  match rows with
  | O => ([], r)
  | S k => let '(row, r1) := draw_row cols r in
           let '(m, r2) := draw_matrix k cols r1 in
           (row :: m, r2)
  end.

Definition example_new_layer (r : Z) (n_pyr n_inhib : nat)
    (n_ff n_ip n_fb n_pi : option nat) : Layer * Z :=
  let '(ff, r1) := draw_matrix n_pyr (default 0 n_ff) r in
  let '(ip, r2) := draw_matrix n_inhib (default 0 n_ip) r1 in
  let '(fb, r3) := draw_matrix n_pyr (default 0 n_fb) r2 in
  let '(pi, r4) := draw_matrix n_pyr (default 0 n_pi) r3 in
  (mkLayer 0
     (match n_ff, n_fb with None, _ => INPUT | _, None => OUTPUT | _, _ => HIDDEN end)
     (map (fun i => mkPyrNRN i 0 0 0 0) (seq 0 n_pyr))
     (map (fun i => mkInhibNRN i 0 0 0) (seq 0 n_inhib))
     (mkWeights ff fb pi ip),
   r4).

(** A hard threshold as the squashing function, with values 0 and 1; the
    learning rules keep the weights as they are. *)
#[global] Instance numerics : Numerics Z := {|
  logsig x := if Qle_bool x 0 then 0%Q else 1%Q;
  pyr_soma b a := (b + a)%Q;
  inhib_soma d := d;
  rule_16b l := (wts_pi (weights l), wts_ip (weights l));
  rule_13 l prev := (wts_ff (weights l), [[0; 0; 0; 0; 0]]%Q);
  default_inputs := [1 # 2; 1 # 2]%Q;
  default_lambda_nudge := (8 # 10)%Q;
  new_layer := example_new_layer;
|}.

Definition config : Config := mkConfig 2 3 2 2 (-2) 42.

#[global] Instance base : ExperimentBase Layer Z := {|
  wt_init_seed_default := 42%Z;
  build_small_two_layer_network r n_in n_out :=
    let '(l1, r1) := example_new_layer r n_in n_out None (Some n_in) (Some n_out) (Some n_out) in
    let '(l2, _) := example_new_layer r1 n_out 0 (Some n_in) None None None in
    [l1; l2];
|}.

(** The world after [build_small_three_layer_network]: layers 0, 1, 2. *)
Definition world3 : World Layer :=
  (build_small_three_layer_network config initial_world).2.

(** The experiment object after [__init__] and [build_network]. *)
Definition experiment (params : gmap string Z) : AndOrExperiment Layer Z :=
  new_experiment params.

(** An input layer and an output layer on their own. *)
Definition input_layer : Layer :=
  mkLayer 1 INPUT [mkPyrNRN 0 0 0 0 (1 # 2); mkPyrNRN 1 0 0 0 (1 # 2)]
          [mkInhibNRN 0 0 0 0]
          (mkWeights [[]; []] [[1; 0; 1]; [0; 1; 0]] [[1]; [1]] [[1; 1]])%Q.

Definition output_layer : Layer :=
  mkLayer 3 OUTPUT [mkPyrNRN 0 0 (1 # 2) (1 # 2) (3 # 4); mkPyrNRN 1 0 0 0 (1 # 4)]
          []
          (mkWeights [[1; 1; 1]; [1; 0; 1]] [[]; []] [[]; []] [])%Q.

(** A recorded file of pyramidal data: two layers with one neuron each,
    two time steps.  Each line is the layer number followed by the
    neuron's id, apical, basal and soma potentials and activation. *)
Definition recorded_arrays : list (list Q) :=
  [[1; 0; 1 # 10; 2 # 10; 3 # 10; 1]; [2; 0; 0; 5 # 10; 5 # 10; 1];
   [1; 0; 0; 2 # 10; 2 # 10; 1]; [2; 0; 1 # 10; 4 # 10; 5 # 10; 1]]%Q.

Definition files : NeuronParser.Files :=
  NeuronParser.mkFiles
    (fun name => if String.eqb name "run_pyramidal.txt"
                 then Ok recorded_arrays else Raise ValueError)
    [].

End Example.

(** ** What a computation leaves alone *)

(** A computation that leaves an observation [f] of the state as it is,
    whether it returns or raises. *)
Definition keeps {S T A} (f : S -> T) (m : M S A) : Prop :=
  forall s, f (m s).2 = f s.

(** ** The order of the method calls *)

(** A computation [m], started in state [s], makes the calls [full] in this
    order and no others: the log grows by [full] when [m] returns, and by a
    prefix of [full] when [m] raises. *)
Definition emits {S A} (log : S -> list Call) (m : M S A) (s : S)
    (full : list Call) : Prop :=
  exists made,
    log (m s).2 = log s ++ made /\
    made `prefix_of` full /\
    (forall a, (m s).1 = Ok a -> made = full).

Definition ff_sweep_calls (l1 l2 l3 : ref) : list Call :=
  [ApplyInputs l1 None; UpdateDendMpsViaIp l1;
   UpdatePyrsBasalAndSomaFf l2 l1; UpdateDendMpsViaIp l2;
   UpdatePyrsBasalAndSomaFf l3 l2].

Definition fb_sweep_calls (l1 l2 l3 : ref) : list Call :=
  [UpdatePyrsApicalSomaFb l2 l3; UpdatePyrsApicalSomaFb l1 l2].

Definition when (b : bool) (c : Call) : list Call := if b then [c] else [].

Definition rule_16b_only_calls (l1 l2 l3 : ref) (nudge_predicate : bool) : list Call :=
  [AdjustWtsLatPi l2; AdjustWtsLatPi l1]
  ++ ff_sweep_calls l1 l2 l3
  ++ when nudge_predicate (NudgeOutputLayerNeurons l3 [2; -2]%Q (Some (8 # 10)%Q))
  ++ fb_sweep_calls l1 l2 l3.

Definition rule_16b_and_rule_13_calls (l1 l2 l3 : ref) (nudge_predicate : bool)
    : list Call :=
  [AdjustWtsLatPi l2; AdjustWtsPpFf l3 l2; AdjustWtsLatPi l1; AdjustWtsPpFf l2 l1]
  ++ ff_sweep_calls l1 l2 l3
  ++ when nudge_predicate (NudgeOutputLayerNeurons l3 [2; -2]%Q (Some (8 # 10)%Q))
  ++ fb_sweep_calls l1 l2 l3.

(** The same for the two layers of [AndOrExperiment], references 0 and 1. *)
Definition and_or_ff_sweep_calls (inputs : list Q) : list Call :=
  [ApplyInputs 0 (Some inputs); UpdateDendMpsViaIp 0;
   UpdatePyrsBasalAndSomaFf 1 0; UpdateDendMpsViaIp 1].

Definition and_or_fb_sweep_calls : list Call := [UpdatePyrsApicalSomaFb 0 1].

Definition and_or_step_calls (inputs label : list Q) (nudge_predicate : bool)
    : list Call :=
  [AdjustWtsLatPi 0; AdjustWtsPpFf 1 0]
  ++ and_or_ff_sweep_calls inputs
  ++ when nudge_predicate (NudgeOutputLayerNeurons 1 label (Some (8 # 10)%Q))
  ++ and_or_fb_sweep_calls.

Fixpoint nondecreasing (ns : list nat) : bool :=
  match ns with
  | a :: (b :: _) as rest => (a <=? b) && nondecreasing rest
  | _ => true
  end.

(** The five stages of a training step, in the order the specification lists
    them: lateral adjustment, feed-forward adjustment, FF sweep, nudging,
    FB sweep. *)
Definition stage (c : Call) : nat :=
  match c with
  | AdjustWtsLatPi _ => 0
  | AdjustWtsPpFf _ _ => 1
  | ApplyInputs _ _ | UpdateDendMpsViaIp _ | UpdatePyrsBasalAndSomaFf _ _ => 2
  | NudgeOutputLayerNeurons _ _ _ => 3
  | UpdatePyrsApicalSomaFb _ _ => 4
  end.

(** The same with the two kinds of weight adjustment taken as one stage. *)
Definition coarse_stage (c : Call) : nat :=
  match c with
  | AdjustWtsLatPi _ | AdjustWtsPpFf _ _ => 0
  | ApplyInputs _ _ | UpdateDendMpsViaIp _ | UpdatePyrsBasalAndSomaFf _ _ => 1
  | NudgeOutputLayerNeurons _ _ _ => 2
  | UpdatePyrsApicalSomaFb _ _ => 3
  end.

Definition is_nudge (c : Call) : bool :=
  match c with NudgeOutputLayerNeurons _ _ _ => true | _ => false end.

(** The three kinds of call of an FF sweep, in the order the specification
    lists them: the inputs, then the basal updates, then the dendrite
    updates. *)
Definition ff_stage (c : Call) : nat :=
  match c with
  | ApplyInputs _ _ => 0
  | UpdatePyrsBasalAndSomaFf _ _ => 1
  | _ => 2
  end.


(** The order in which the specification lists the stages of a training
    step, read as the order of the calls. *)
Definition in_stated_step_order (cs : list Call) : bool :=
  nondecreasing (map stage cs).

(** The order in which the specification lists the calls of an FF sweep. *)
Definition in_stated_ff_order (cs : list Call) : bool :=
  nondecreasing (map ff_stage cs).

(** Weight adjustments first, then the FF sweep, then nudging, then the FB
    sweep. *)
Definition adjustments_then_sweeps (cs : list Call) : bool :=
  nondecreasing (map coarse_stage cs).

(** The log of an experiment is the log of its layers' world. *)
Definition exp_calls {L R} (e : AndOrExperiment L R) : list Call := calls (world e).

(** The weight matrices of all the layers of a world. *)
Definition heap_weights (w : World SpecLayer.Layer) : list SpecLayer.Weights :=
  SpecLayer.weights <$> heap w.

(** The weight matrices of the layers of an experiment. *)
Definition layer_weights {R} (e : AndOrExperiment SpecLayer.Layer R)
    : list SpecLayer.Weights :=
  heap_weights (world e).

(** ** Bookkeeping of the experiment *)

(** The parts of an experiment that only [__init__] sets. *)
Definition parameters {L R} (e : AndOrExperiment L R) : Z * Z * Z :=
  (__label_init_seed e, __self_prediction_steps e, __training_steps e).

(** Everything of the experiment but its layers. *)
Definition book {L R} (e : AndOrExperiment L R) :=
  (parameters e, _current_step e, _nudge_steps e, _current_X_index e,
   _current_X e, _current_label e, _rng_labels e, _metrics e).

(** Everything of the experiment but the recorded metrics. *)
Definition all_but_metrics {L R} (e : AndOrExperiment L R) :=
  (parameters e, _current_step e, _nudge_steps e, _current_X_index e,
   _current_X e, _current_label e, _rng_labels e, world e).

(** What the hook before a training step leaves alone. *)
Definition untouched_by_pre_hook {L R} (e : AndOrExperiment L R) :=
  (parameters e, _metrics e, world e).

(** The arrays of recorded metrics and the list of positions have the shape
    [__init__] gives them: four input patterns, two rows of apical potentials
    for each. *)
Definition well_shaped {L R} (e : AndOrExperiment L R) : Prop :=
  length (KEY_LAYER_1 (_metrics e)) = 4 /\
  Forall (fun a : matrix => length a = 2) (KEY_LAYER_1 (_metrics e)) /\
  length (_nudge_steps e) = 4.

(** The bookkeeping is consistent: one recorded column per counted step,
    and positions that are still zero before step 400 and add up to 399
    from step 400 on. *)
Definition counted {L R} (e : AndOrExperiment L R) : Prop :=
  well_shaped e /\
  sum_list (record_counts e) = _current_step e /\
  (_current_step e < 400 -> _nudge_steps e = replicate 4 0) /\
  (400 <= _current_step e -> sum_list (_nudge_steps e) = 399).

(** ** visualization_extractor.py *)

(** [ai/experiments/visualization_extractor.py] and
    [metrics/visualization_metrics/visualization_extractor.py] hold the same
    class but for [close]: the second one hands its two files to the parser
    before closing them. *)
Module VisualExtractor.
Import SpecLayer.

(** A text file opened with [open(name, "a")]: its name, the strings written
    through this handle so far, and whether the handle has been closed. *)
Record TextFile : Type := mkTextFile {
  name : string;
  written : list string;
  closed : bool;
}.

Record VisualExtractor : Type := mkVisualExtractor {
  pyramidal_weights : list Q;
  interneuron_weights : list Q;
  output_file_p : TextFile;
  output_file_i : TextFile;
}.

(** [file.write(data)]; writing to a closed file raises ValueError. *)
Definition write (data : string) (file : TextFile) : result TextFile :=
  if closed file then Raise ValueError
  else Ok (mkTextFile (name file) (written file ++ [data]) false).

(** [file.close()]; closing a closed file does nothing. *)
Definition close_file (file : TextFile) : TextFile :=
  mkTextFile (name file) (written file) true.

(** An integer attribute stored in a float array. *)
Definition float_of_nat (n : nat) : Q := inject_Z (Z.of_nat n).

Definition newline : string := String (Ascii.ascii_of_nat 10) EmptyString.

Definition set_pyramidal_weights (a : list Q) (self : VisualExtractor) : VisualExtractor :=
  mkVisualExtractor a (interneuron_weights self) (output_file_p self) (output_file_i self).
Definition set_interneuron_weights (a : list Q) (self : VisualExtractor) : VisualExtractor :=
  mkVisualExtractor (pyramidal_weights self) a (output_file_p self) (output_file_i self).
Definition set_output_file_p (f : TextFile) (self : VisualExtractor) : VisualExtractor :=
  mkVisualExtractor (pyramidal_weights self) (interneuron_weights self) f (output_file_i self).
Definition set_output_file_i (f : TextFile) (self : VisualExtractor) : VisualExtractor :=
  mkVisualExtractor (pyramidal_weights self) (interneuron_weights self) (output_file_p self) f.

(** [self.pyramidal_weights = np.append(self.pyramidal_weights, x)] *)
Definition append_pyramidal (x : Q) : M VisualExtractor unit :=
  modify (fun self => set_pyramidal_weights (pyramidal_weights self ++ [x]) self).
Definition append_interneuron (x : Q) : M VisualExtractor unit :=
  modify (fun self => set_interneuron_weights (interneuron_weights self ++ [x]) self).

(** [VisualExtractor(file_name)] *)
Definition VisualExtractor_init (file_name : string) : VisualExtractor :=
  mkVisualExtractor [] []
    (mkTextFile (file_name +:+ "_pyramidal.txt") [] false)
    (mkTextFile (file_name +:+ "_interneuron.txt") [] false).

Definition __pyramidal_data_extraction (layer : Layer) : M VisualExtractor unit :=
  append_pyramidal (float_of_nat (id_num layer)) ;;;
  forM (pyrs layer) (fun neuron =>
    append_pyramidal (float_of_nat (pyr_id_num neuron)) ;;;
    append_pyramidal (apical_mp neuron) ;;;
    append_pyramidal (basal_mp neuron) ;;;
    append_pyramidal (soma_mp neuron) ;;;
    append_pyramidal (soma_act neuron)).

Definition __interneuron_data_extraction (layer : Layer) : M VisualExtractor unit :=
  append_interneuron (float_of_nat (id_num layer)) ;;;
  forM (inhibs layer) (fun neuron =>
    append_interneuron (float_of_nat (inhib_id_num neuron)) ;;;
    append_interneuron (inhib_soma_mp neuron) ;;;
    append_interneuron (inhib_soma_act neuron) ;;;
    append_interneuron (dend_mp neuron)).

Section Writing.
(** [np.array2string], with the print options set by [__init__]. *)
Context (array2string : list Q -> string).

Definition write_pyramidal : M VisualExtractor unit :=
  fun self =>
    match write (array2string (pyramidal_weights self) +:+ newline) (output_file_p self) with
    | Ok f => (Ok tt, set_output_file_p f self)
    | Raise e => (Raise e, self)
    end.

Definition write_interneuron : M VisualExtractor unit :=
  fun self =>
    match write (array2string (interneuron_weights self) +:+ newline) (output_file_i self) with
    | Ok f => (Ok tt, set_output_file_i f self)
    | Raise e => (Raise e, self)
    end.

Definition layers_to_file (layers : list Layer) : M VisualExtractor unit :=
  forM layers (fun l =>
    __pyramidal_data_extraction l ;;;
    write_pyramidal ;;;
    modify (set_pyramidal_weights [])) ;;;
  forM layers (fun l =>
    __interneuron_data_extraction l ;;;
    write_interneuron ;;;
    modify (set_interneuron_weights [])).
End Writing.

(** [close] of [ai/experiments/visualization_extractor.py]. *)
Definition close : M VisualExtractor unit :=
  modify (fun self => set_output_file_i (close_file (output_file_i self)) self) ;;;
  modify (fun self => set_output_file_p (close_file (output_file_p self)) self).

(** The array that [__pyramidal_data_extraction] builds for a layer from an
    empty array: the layer number, then five numbers per pyramidal neuron. *)
Definition pyramidal_array (layer : Layer) : list Q :=
  float_of_nat (id_num layer)
  :: flat_map (fun neuron => [float_of_nat (pyr_id_num neuron); apical_mp neuron;
                              basal_mp neuron; soma_mp neuron; soma_act neuron])
              (pyrs layer).

(** The same for [__interneuron_data_extraction]: four numbers per
    interneuron. *)
Definition interneuron_array (layer : Layer) : list Q :=
  float_of_nat (id_num layer)
  :: flat_map (fun neuron => [float_of_nat (inhib_id_num neuron); inhib_soma_mp neuron;
                              inhib_soma_act neuron; dend_mp neuron])
              (inhibs layer).

End VisualExtractor.

(** [metrics/visualization_metrics/visualization_extractor.py]: the extractor
    together with the files its parser works on. *)
Module MetricsVisualExtractor.
Import VisualExtractor.

Record State : Type := mkState {
  extractor : VisualExtractor;
  files : NeuronParser.Files;
}.

Definition set_extractor (x : VisualExtractor) (s : State) : State :=
  mkState x (files s).
Definition set_files (fs : NeuronParser.Files) (s : State) : State :=
  mkState (extractor s) fs.

Definition layers_to_file (array2string : list Q -> string) (layers : list SpecLayer.Layer)
    : M State unit :=
  zoom extractor set_extractor (VisualExtractor.layers_to_file array2string layers).

(** The two files of the extractor, as [close] goes through them. *)
Inductive OutputFile : Type := OutputFileI | OutputFileP.

Definition get_file (which : OutputFile) (self : VisualExtractor) : TextFile :=
  match which with
  | OutputFileI => output_file_i self
  | OutputFileP => output_file_p self
  end.

Definition set_file (which : OutputFile) (f : TextFile) (self : VisualExtractor)
    : VisualExtractor :=
  match which with
  | OutputFileI => set_output_file_i f self
  | OutputFileP => set_output_file_p f self
  end.

Definition close : M State unit :=
  forM [(OutputFileI, "i"); (OutputFileP, "p")] (fun '(file, mode) =>
    let* file_name := gets (fun s => name (get_file file (extractor s))) in
    zoom files set_files (NeuronParser.file_to_delta file_name mode) ;;;
    modify (fun s => set_extractor (set_file file (close_file (get_file file (extractor s)))
                                             (extractor s)) s)).

End MetricsVisualExtractor.

(** ** [__zipped_delta_to_json] on the arguments its docstring names *)

(** [NeuronParser.__zipped_delta_to_json] above is the method at the types
    its only caller passes.  Here it is on "a zipped delta array, the number
    of layers, and a mode": a list of deltas and a number that is not
    negative. *)
Module JsonExport.
Import NeuronParser.

(** How the method ends: it returns, or raises one of the exceptions of
    [Exn], or ZeroDivisionError, which nothing else in this development
    raises. *)
Inductive outcome (A : Type) : Type :=
  | Returns (a : A)
  | Raises (e : Exn)
  | ZeroDivisionError.
Arguments Returns {A} a.
Arguments Raises {A} e.
Arguments ZeroDivisionError {A}.

Definition obind {A B} (r : outcome A) (k : A -> outcome B) : outcome B :=
  match r with
  | Returns a => k a
  | Raises e => Raises e
  | ZeroDivisionError => ZeroDivisionError
  end.
Notation "'let!' x := r 'in' k" := (obind r (fun x => k))
  (at level 10, x name, r at level 100, k at level 200, only parsing).

(** A neuron of the JSON document: a Python dict, as its items in order. *)
Abbreviation neuron := (list (string * Q)).

(** [delta[i]] *)
Definition item (delta : list Q) (i : nat) : outcome Q :=
  match delta !! i with
  | Some x => Returns x
  | None => Raises IndexError
  end.

(** [int(a > b)] *)
Definition int_of_gt (a b : Q) : Q := if Qle_bool a b then 0%Q else 1%Q.

(** The body of the inner loop at position [i], up to [continue]: no dict
    at a position inside a neuron's block or in an unknown mode ([None]),
    else the dict, whose entries are read from the delta in order. *)
Definition neuron_at (mode : string) (delta : list Q) (i : nat)
    : option (outcome neuron) :=
  if String.eqb mode "p" && (i mod 5 =? 0) then
    Some (let! id := item delta i in
          let! apical := item delta (i + 1) in
          let! basal := item delta (i + 2) in
          let! soma := item delta (i + 3) in
          let! threshold := item delta (i + 4) in
          Returns [("id", id); ("apical", apical); ("basal", basal); ("soma", soma);
                   ("firing", int_of_gt soma threshold)])
  else if String.eqb mode "i" && (i mod 4 =? 0) then
    Some (let! id := item delta i in
          let! dend := item delta (i + 1) in
          let! soma := item delta (i + 2) in
          let! threshold := item delta (i + 3) in
          Returns [("id", id); ("dend", dend); ("soma", soma);
                   ("firing", int_of_gt soma threshold)])
  else None.

(** [for i, _ in enumerate(delta): ... layers[l].append(layer)] *)
Fixpoint fill (mode : string) (delta : list Q) (indices : list nat) (l : nat)
    (layers : list (list neuron)) : outcome (list (list neuron)) :=
  match indices with
  | [] => Returns layers
  | i :: rest =>
      match neuron_at mode delta i with
      | None => fill mode delta rest l layers
      | Some r =>
          let! layer := r in
          match layers !! l with
          | Some slot => fill mode delta rest l (<[l := slot ++ [layer]]> layers)
          | None => Raises IndexError
          end
      end
  end.

(** The variables of the outer loop: [l], [layers] and [json_output]. *)
Record Loop : Type := mkLoop {
  l : nat;
  layers : list (list neuron);
  json_output : list TimeEntry;
}.

(** One round of the outer loop, for the delta at position [t]. *)
Definition round (mode : string) (num_layers t : nat) (delta : list Q) (s : Loop)
    : outcome Loop :=
  let! filled := fill mode delta (seq 0 (length delta)) (l s) (layers s) in
  if num_layers =? 0 then ZeroDivisionError
  else
    let l' := (l s + 1) mod num_layers in
    if l' =? num_layers - 1
    then Returns (mkLoop l' (replicate num_layers [])
                         (json_output s ++ [mkTimeEntry (t / 3) filled]))
    else Returns (mkLoop l' filled (json_output s)).

Fixpoint rounds (mode : string) (num_layers t : nat) (zipped_delta_array : list (list Q))
    (s : Loop) : outcome Loop :=
  match zipped_delta_array with
  | [] => Returns s
  | delta :: rest =>
      let! s' := round mode num_layers t delta s in
      rounds mode num_layers (S t) rest s'
  end.

Definition __zipped_delta_to_json (zipped_delta_array : list (list Q)) (num_layers : nat)
    (mode : string) : outcome (list TimeEntry) :=
  let! s := rounds mode num_layers 0 zipped_delta_array
                   (mkLoop 0 (replicate num_layers []) []) in
  Returns (json_output s).

(** How many rounds from a value of [l] to the round that appends an entry. *)
Definition until_entry (num_layers l : nat) : nat :=
  if l + 2 <=? num_layers then num_layers - 2 - l else num_layers - 1.

End JsonExport.

(** ** The pilot experiments of [sacramento_main.py] *)

(** The experiments collect apical potentials in Python lists.  A list is
    created by the experiment and handed to [train_data] together with a
    layer; [train_data] appends to it in place, so two calls that are given
    the same list extend the same object.  The lists are kept in a store
    next to the world, and a list is referred to by its index there. *)
Record Lab (L : Type) : Type := mkLab {
  lab_world : World L;
  lists : list (list (list Q));
}.
Arguments mkLab {L} _ _.
Arguments lab_world {L} _.
Arguments lists {L} _.

Section Pilots.
Context {L R : Type} `{!LayerOps L R} `{!Rng R}.

Definition set_lab_world (w : World L) (s : Lab L) : Lab L := mkLab w (lists s).

(** A driver of the layers, run in an experiment. *)
Definition in_world {A} (m : M (World L) A) : M (Lab L) A :=
  zoom lab_world set_lab_world m.

(** [data = []] *)
Definition new_list : M (Lab L) ref :=
  fun s => (Ok (length (lists s)), mkLab (lab_world s) (lists s ++ [[]])).

(** [data.append(row)] *)
Definition list_append (data : ref) (row : list Q) : M (Lab L) unit :=
  modify (fun s => mkLab (lab_world s) (alter (fun rows => rows ++ [row]) data (lists s))).

(** The rows of a list, read when the experiment returns it. *)
Definition read_list (data : ref) : M (Lab L) (list (list Q)) :=
  gets (fun s => default [] (lists s !! data)).

(** [layer.pyrs[i].apical_mp] *)
Definition apical_mp_of (layer : ref) (i : nat) : M (Lab L) Q :=
  let* l := in_world (deref layer) in
  orRaise IndexError (pyr_apical_mps l !! i).

(** [train_data(n_steps, learn_cb, *inputs)]: [inputs] are pairs of a list
    and a layer. *)
Definition train_data (n_steps : Z) (learn_cb : M (Lab L) unit)
    (inputs : list (ref * ref)) : M (Lab L) unit :=
  repeatM (Z.to_nat n_steps)
    (learn_cb ;;;
     forM inputs (fun '(data, layer) =>
       let* l := in_world (deref layer) in
       list_append data (pyr_apical_mps l))).

Definition run_pilot_experiment_1a (layer1 layer2 layer3 : ref)
    : M (Lab L) (list (list Q) * list (list Q)) :=
  in_world (do_ff_sweep layer1 layer2 layer3) ;;;
  in_world (do_fb_sweep layer1 layer2 layer3) ;;;
  let* data1 := new_list in
  let* data2 := new_list in
  repeatM 150
    (in_world (train_1_step_rule_16b_only layer1 layer2 layer3 false) ;;;
     let* a0 := apical_mp_of layer1 0 in
     let* a1 := apical_mp_of layer1 1 in
     list_append data1 [a0; a1] ;;;
     let* b0 := apical_mp_of layer2 0 in
     let* b1 := apical_mp_of layer2 1 in
     let* b2 := apical_mp_of layer2 2 in
     list_append data2 [b0; b1; b2]) ;;;
  let* d1 := read_list data1 in
  let* d2 := read_list data2 in
  ret (d1, d2).

Definition run_pilot_experiment_1b (layer1 layer2 layer3 : ref)
    : M (Lab L) (list (list Q) * list (list Q) * matrix) :=
  in_world (do_ff_sweep layer1 layer2 layer3) ;;;
  in_world (do_fb_sweep layer1 layer2 layer3) ;;;
  let* data1 := new_list in
  let* data2 := new_list in
  repeatM 150
    (in_world (train_1_step_rule_16b_and_rule_13 layer1 layer2 layer3 false) ;;;
     let* a0 := apical_mp_of layer1 0 in
     let* a1 := apical_mp_of layer1 1 in
     list_append data1 [a0; a1] ;;;
     let* b0 := apical_mp_of layer2 0 in
     let* b1 := apical_mp_of layer2 1 in
     let* b2 := apical_mp_of layer2 2 in
     list_append data2 [b0; b1; b2]) ;;;
  let* d1 := read_list data1 in
  let* d2 := read_list data2 in
  let* post := gets (fun s => rule13_post_data (lab_world s)) in
  ret (d1, d2, post).

Definition run_pilot_experiment_2_rule_16b_only (cfg : Config)
    (layer1 layer2 layer3 : ref) : M (Lab L) unit :=
  in_world (train_to_self_predictive_state layer1 layer2 layer3 40) ;;;
  in_world (nudge_output_layer cfg layer1 layer2 layer3) ;;;
  repeatM 40 (in_world (train_1_step_rule_16b_only layer1 layer2 layer3 true)) ;;;
  in_world (do_ff_sweep layer1 layer2 layer3).

Definition run_pilot_experiment_2b_rule_16b_and_rule_13 (cfg : Config)
    (layer1 layer2 layer3 : ref) : M (Lab L) (list (list Q) * list (list Q)) :=
  in_world (train_to_self_predictive_state layer1 layer2 layer3 150) ;;;
  in_world (nudge_output_layer cfg layer1 layer2 layer3) ;;;
  let* data1 := new_list in
  let* data2 := new_list in
  let* data3 := new_list in
  train_data 200
    (in_world (train_1_step_rule_16b_and_rule_13 layer1 layer2 layer3 true))
    [(data1, layer1); (data2, layer2); (data3, layer3)] ;;;
  in_world (do_ff_sweep layer1 layer2 layer3) ;;;
  let* d1 := read_list data1 in
  let* d2 := read_list data2 in
  ret (d1, d2).

Definition run_pilot_exp_1b_concat_2b (cfg : Config) (layer1 layer2 layer3 : ref)
    (steps_to_self_pred : Z) : M (Lab L) (list (list Q) * list (list Q) * matrix) :=
  in_world (do_ff_sweep layer1 layer2 layer3) ;;;
  in_world (do_fb_sweep layer1 layer2 layer3) ;;;
  let* data1 := new_list in
  let* data2 := new_list in
  let* data3 := new_list in
  train_data steps_to_self_pred
    (in_world (train_1_step_rule_16b_and_rule_13 layer1 layer2 layer3 false))
    [(data1, layer1); (data2, layer2); (data3, layer3)] ;;;
  in_world (nudge_output_layer cfg layer1 layer2 layer3) ;;;
  train_data 200
    (in_world (train_1_step_rule_16b_and_rule_13 layer1 layer2 layer3 true))
    [(data1, layer1); (data2, layer2); (data3, layer3)] ;;;
  in_world (do_ff_sweep layer1 layer2 layer3) ;;;
  let* d1 := read_list data1 in
  let* d2 := read_list data2 in
  (* [rule13_post_data[1:].tolist()] *)
  let* post := gets (fun s => drop 1 (rule13_post_data (lab_world s))) in
  ret (d1, d2, post).

Definition main (cfg : Config) : M (Lab L) (list (list Q) * list (list Q) * matrix) :=
  let* layers := in_world (build_small_three_layer_network cfg) in
  let '(layer1, layer2, layer3) := layers in
  run_pilot_exp_1b_concat_2b cfg layer1 layer2 layer3 400.

End Pilots.

(** The calls of [nudge_output_layer(layer1, layer2, layer3)]. *)
Definition nudge_output_layer_calls (cfg : Config) (l1 l2 l3 : ref) : list Call :=
  NudgeOutputLayerNeurons l3 [nudge1 cfg; nudge2 cfg] (Some (8 # 10)%Q)
  :: fb_sweep_calls l1 l2 l3.

(** The calls of [run_pilot_exp_1b_concat_2b]. *)
Definition concat_2b_calls (cfg : Config) (l1 l2 l3 : ref) (steps_to_self_pred : Z)
    : list Call :=
  ff_sweep_calls l1 l2 l3 ++ fb_sweep_calls l1 l2 l3
  ++ concat (replicate (Z.to_nat steps_to_self_pred)
                       (rule_16b_and_rule_13_calls l1 l2 l3 false))
  ++ nudge_output_layer_calls cfg l1 l2 l3
  ++ concat (replicate 200 (rule_16b_and_rule_13_calls l1 l2 l3 true))
  ++ ff_sweep_calls l1 l2 l3.

(** The log of an experiment is the log of its world. *)
Definition lab_calls {L} (s : Lab L) : list Call := calls (lab_world s).

(** The number of rows of a list of the store. *)
Definition rows {L} (s : Lab L) (data : ref) : nat :=
  length (default [] (lists s !! data)).

(** The calls of the other pilot experiments. *)
Definition pilot_1a_calls (l1 l2 l3 : ref) : list Call :=
  ff_sweep_calls l1 l2 l3 ++ fb_sweep_calls l1 l2 l3
  ++ concat (replicate 150 (rule_16b_only_calls l1 l2 l3 false)).

Definition pilot_1b_calls (l1 l2 l3 : ref) : list Call :=
  ff_sweep_calls l1 l2 l3 ++ fb_sweep_calls l1 l2 l3
  ++ concat (replicate 150 (rule_16b_and_rule_13_calls l1 l2 l3 false)).

Definition self_predictive_calls (l1 l2 l3 : ref) (n_steps : nat) : list Call :=
  ff_sweep_calls l1 l2 l3 ++ fb_sweep_calls l1 l2 l3
  ++ concat (replicate n_steps (rule_16b_only_calls l1 l2 l3 false)).

Definition pilot_2_calls (cfg : Config) (l1 l2 l3 : ref) : list Call :=
  self_predictive_calls l1 l2 l3 40
  ++ nudge_output_layer_calls cfg l1 l2 l3
  ++ concat (replicate 40 (rule_16b_only_calls l1 l2 l3 true))
  ++ ff_sweep_calls l1 l2 l3.

Definition pilot_2b_calls (cfg : Config) (l1 l2 l3 : ref) : list Call :=
  self_predictive_calls l1 l2 l3 150
  ++ nudge_output_layer_calls cfg l1 l2 l3
  ++ concat (replicate 200 (rule_16b_and_rule_13_calls l1 l2 l3 true))
  ++ ff_sweep_calls l1 l2 l3.

(** How many of the calls nudge the output layer. *)
Definition count_nudges (cs : list Call) : nat := length (List.filter is_nudge cs).

(** ** The graphs of [AndOrExperiment.py] *)

Module AndOrGraphs.

(** The classes [Graph], [GraphType] and [Serie] of the package [metrics]
    are used as constructors only; a graph is the record of the arguments
    it is built from.  [extra] is the nested dictionary
    [{"annotations": {"xaxis": [...], "yaxis": [...]}}], of which the
    graphs of layer 1 have no "yaxis" entry. *)
Inductive GraphType : Type := LINE.

Record Serie : Type := mkSerie {
  serie_title : string;
  serie_data : list Q;
}.

(** [{"x": ..., "label": {"text": ...}}] *)
Record XAnnotation : Type := mkXAnnotation {
  x : nat;
  label_text : string;
}.

(** [{"y": ..., "borderColor": ...}] *)
Record YAnnotation : Type := mkYAnnotation {
  y : Q;
  borderColor : string;
}.

Record Annotations : Type := mkAnnotations {
  xaxis_annotations : list XAnnotation;
  yaxis_annotations : option (list YAnnotation);
}.

Record Graph : Type := mkGraph {
  type : GraphType;
  title : string;
  precision : nat;
  series : list Serie;
  xaxis : string;
  yaxis : string;
  extra : Annotations;
}.

(** The values of the four keys of [self._metrics]. *)
Definition key_layer_1 : string := "layer1".
Definition key_output_activations_and : string := "Output activations AND".
Definition key_output_activations_or : string := "Output activations OR".
Definition key_output_activations_xor : string := "Output activations XOR".

(** An entry of [_X] or [_Y] in an f-string: these are integer arrays, and
    their entries have one digit. *)
Definition str_int (entry : Q) : string := pretty (Qnum entry).

(** A row of [_X] or [_Y] in an f-string: [[0 1 1]]. *)
Definition str_row (row : list Q) : string :=
  "[" +:+ String.concat " " (map str_int row) +:+ "]".

Section Graphs.
Context {L R : Type}.
Import NeuronParser.

Abbreviation Exp := (AndOrExperiment L R).

(** The graph of input pattern [i] in [__extract_layer_metrics(key)]; the
    data are those of [KEY_LAYER_1], the only key it is called with. *)
Definition layer_graph (self : Exp) (key : string) (i : nat) : result Graph :=
  let? xi := lookup_or_raise _X i in
  let? yi := lookup_or_raise _Y i in
  let? a := lookup_or_raise (KEY_LAYER_1 (_metrics self)) i in
  let? row0 := lookup_or_raise a 0 in
  let? row1 := lookup_or_raise a 1 in
  let? n := lookup_or_raise (_nudge_steps self) i in
  Ok (mkGraph LINE
        (key +:+ " Apical MPs: X=" +:+ str_row xi +:+ "; Y=" +:+ str_row yi)
        2
        [mkSerie "PyrNRN 1" row0; mkSerie "PyrNRN 2" row1]
        "Training steps"
        "Membrane potential (mV)"
        (mkAnnotations [mkXAnnotation n "nudged"] None)).

Definition __extract_layer_metrics (self : Exp) (key : string) : result (list Graph) :=
  mapR (layer_graph self key) (seq 0 (length _X)).

(** The graph of input pattern [i] in
    [__extract_output_activations_metrics(key, label_index)]; [data] is
    [self._metrics[key]]. *)
Definition output_graph (self : Exp) (key : string) (data : list (list Q))
    (label_index : nat) (i : nat) : result Graph :=
  let? xi := lookup_or_raise _X i in
  let? yi := lookup_or_raise _Y i in
  let? label := lookup_or_raise yi label_index in
  let? values := lookup_or_raise data i in
  let? n := lookup_or_raise (_nudge_steps self) i in
  Ok (mkGraph LINE
        (key +:+ ": X=" +:+ str_row xi +:+ "; Y=" +:+ str_int label)
        2
        [mkSerie "Soma MP" values]
        "Training steps"
        "Membrane potential (mV)"
        (mkAnnotations [mkXAnnotation n "nudged"]
                       (Some [mkYAnnotation (1 # 2) "red"]))).

Definition __extract_output_activations_metrics (self : Exp) (key : string)
    (data : list (list Q)) (label_index : nat) : result (list Graph) :=
  mapR (output_graph self key data label_index) (seq 0 (length _X)).

Definition extract_metrics (self : Exp) : result (list Graph) :=
  let? layer1_mps := __extract_layer_metrics self key_layer_1 in
  let? output_acts_and :=
    __extract_output_activations_metrics self key_output_activations_and
      (KEY_OUTPUT_ACTIVATIONS_AND (_metrics self)) 0 in
  let? output_acts_or :=
    __extract_output_activations_metrics self key_output_activations_or
      (KEY_OUTPUT_ACTIVATIONS_OR (_metrics self)) 1 in
  let? output_acts_xor :=
    __extract_output_activations_metrics self key_output_activations_xor
      (KEY_OUTPUT_ACTIVATIONS_XOR (_metrics self)) 2 in
  Ok (layer1_mps ++ output_acts_and ++ output_acts_or ++ output_acts_xor).

(** The recordings of input pattern [i] all have [n] points, and the
    position of its annotation is one of them or the next. *)
Definition pattern_charted (self : Exp) (i n : nat) : Prop :=
  exists row0 row1 a_and a_or a_xor m,
    KEY_LAYER_1 (_metrics self) !! i = Some [row0; row1] /\
    KEY_OUTPUT_ACTIVATIONS_AND (_metrics self) !! i = Some a_and /\
    KEY_OUTPUT_ACTIVATIONS_OR (_metrics self) !! i = Some a_or /\
    KEY_OUTPUT_ACTIVATIONS_XOR (_metrics self) !! i = Some a_xor /\
    _nudge_steps self !! i = Some m /\
    length row0 = n /\ length row1 = n /\
    length a_and = n /\ length a_or = n /\ length a_xor = n /\
    m <= n.

(** The metrics are in step: every input pattern has as many points in
    each of its five recordings. *)
Definition charted (self : Exp) : Prop :=
  length (KEY_LAYER_1 (_metrics self)) = 4 /\
  length (_nudge_steps self) = 4 /\
  forall i, i < 4 -> exists n, pattern_charted self i n.

End Graphs.

End AndOrGraphs.

Section Reachable.
Context {L R : Type} `{!LayerOps L R} `{!Rng R} `{!ExperimentBase L R}.

(** The methods of the experiment that change it. *)
Inductive Method : Type :=
  | BuildNetwork (params : gmap string Z)
  | HookPreTrainStep
  | Train1Step (nudge_predicate : bool)
  | HookPostTrainStep
  | NudgeOutputLayer
  | DoFfSweep
  | DoFbSweep.

Definition run_method (m : Method) : M (AndOrExperiment L R) unit :=
  match m with
  | BuildNetwork params => build_network params
  | HookPreTrainStep => _hook_pre_train_step
  | Train1Step nudge_predicate => _train_1_step nudge_predicate
  | HookPostTrainStep => _hook_post_train_step
  | NudgeOutputLayer => __nudge_output_layer
  | DoFfSweep => __do_ff_sweep
  | DoFbSweep => __do_fb_sweep
  end.

(** The experiments that [__init__] and any sequence of method calls that
    return lead to. *)
Inductive reachable : AndOrExperiment L R -> Prop :=
  | reachable_init params : reachable (AndOrExperiment_init params)
  | reachable_call e m e' :
      reachable e -> run_method m e = (Ok tt, e') -> reachable e'.

End Reachable.

(** ** The text of a recording: lines 27-77 of [__file_to_list_of_arrays] *)

(** A string is the sequence of its characters, a character being one of the
    first 256 code points.  [float] is a parameter: what Python's [float]
    makes of a string, [None] when it raises ValueError.  [np.array] on the
    list of strings keeps them as they are (the text has no NUL character),
    and [np.append] adds a number at the end. *)
Module ArrayText.
Import Stdlib.Strings.Ascii.
Import NeuronParser.

(** A file opened for reading is the list of the lines not yet read, each
    as [readline] returns it less its final newline.  At the end of the
    file [readline] returns the empty string. *)
Definition readline (file : list string) : string * list string :=
  match file with
  | [] => ("", [])
  | line :: rest => (line, rest)
  end.

(** [s.endswith(suffix)] *)
Fixpoint endswith (suffix s : string) : bool :=
  String.eqb s suffix
  || match s with
     | EmptyString => false
     | String _ s' => endswith suffix s'
     end.

(** [s.removesuffix(suffix)] *)
Definition removesuffix (suffix s : string) : string :=
  if endswith suffix s
  then String.substring 0 (String.length s - String.length suffix) s
  else s.

(** [c.isspace()] for a character below 256. *)
Definition isspace (c : ascii) : bool :=
  let n := nat_of_ascii c in
  ((9 <=? n) && (n <=? 13)) || ((28 <=? n) && (n <=? 32)) || (n =? 133) || (n =? 160).

Fixpoint lstrip (s : string) : string :=
  match s with
  | EmptyString => EmptyString
  | String c s' => if isspace c then lstrip s' else s
  end.

Fixpoint rstrip (s : string) : string :=
  match s with
  | EmptyString => EmptyString
  | String c s' =>
      match rstrip s' with
      | EmptyString => if isspace c then EmptyString else String c EmptyString
      | r => String c r
      end
  end.

(** [s.strip()] *)
Definition strip (s : string) : string := rstrip (lstrip s).

(** The loop of [get_complete_line]: while the line does not end with a
    bracket, the next line is read and, unless it is empty, added after a
    space. *)
Fixpoint continue_line (line : string) (file : list string) : string * list string :=
  if endswith "]" line then (line, file)
  else
    match file with
    | [] => (line, [])
    | next_line :: rest =>
        if String.eqb next_line "" then (line, rest)
        else continue_line (line +:+ " " +:+ next_line) rest
    end.

Definition get_complete_line (file : list string) : string * list string :=
  let '(line, file) := readline file in
  if String.eqb line "" then ("", file)
  else
    let '(line, file) := continue_line line file in
    (strip line, file).

(** [re.sub(r" +", r", ", line)]: every maximal run of spaces becomes a
    comma and a space.  [in_run] tells that the character before was a
    space. *)
Fixpoint sub_spaces (in_run : bool) (s : string) : string :=
  match s with
  | EmptyString => EmptyString
  | String c s' =>
      if Ascii.eqb c " " then
        if in_run then sub_spaces true s' else ", " +:+ sub_spaces true s'
      else String c (sub_spaces false s')
  end.

(** [re.sub(r"\n", "", s)], [s.replace("[", "")] and [s.replace("]", "")]:
    every occurrence of a character is removed. *)
Fixpoint remove_char (c : ascii) (s : string) : string :=
  match s with
  | EmptyString => EmptyString
  | String c' s' => if Ascii.eqb c' c then remove_char c s' else String c' (remove_char c s')
  end.

(** [re.sub(r"\.\,", ",", s)]: a dot before a comma is removed. *)
Fixpoint sub_dot_comma (s : string) : string :=
  match s with
  | EmptyString => EmptyString
  | String c s1 =>
      match s1 with
      | String c2 s2 =>
          if Ascii.eqb c "." && Ascii.eqb c2 ","
          then String "," (sub_dot_comma s2)
          else String c (sub_dot_comma s1)
      | EmptyString => String c EmptyString
      end
  end.

(** One more character in front of the first piece. *)
Definition cons_first (c : ascii) (pieces : list string) : list string :=
  match pieces with
  | piece :: rest => String c piece :: rest
  | [] => [String c EmptyString]
  end.

(** [s.split(", ")] *)
Fixpoint split_comma_space (s : string) : list string :=
  match s with
  | EmptyString => [EmptyString]
  | String c s1 =>
      match s1 with
      | String c2 s2 =>
          if Ascii.eqb c "," && Ascii.eqb c2 " "
          then EmptyString :: split_comma_space s2
          else cons_first c (split_comma_space s1)
      | EmptyString => [String c EmptyString]
      end
  end.

(** The strings of [numbers] in [parse_into_np_array]. *)
Definition numbers_of (line : string) : list string :=
  split_comma_space
    (remove_char "]"
       (remove_char "["
          (sub_dot_comma (remove_char (ascii_of_nat 10) (sub_spaces false line))))).

Section Parse.
Context (float : string -> option Q).

(** [for number in numbers: ...] *)
Fixpoint parse_numbers (numbers : list string) (output_array : ndarray) : result ndarray :=
  match numbers with
  | [] => Ok output_array
  | number :: rest =>
      if negb (String.eqb number "") && negb (endswith "1." number) then
        match float number with
        | Some x => parse_numbers rest (output_array ++ [x])
        | None => Raise ValueError
        end
      else if negb (String.eqb number "") then
        match float (removesuffix "1." number) with
        | Some x => parse_numbers rest (output_array ++ [x])
        | None => Raise ValueError
        end
      else parse_numbers rest output_array
  end.

Definition parse_into_np_array (line : string) : result ndarray :=
  parse_numbers (numbers_of line) [].

(** [while True: ...] of lines 70-77.  Every round but the last reads at
    least one line, so [fuel] rounds are enough when [fuel] is greater than
    the number of lines; [None] when the rounds are used up. *)
Fixpoint read_loop (fuel : nat) (file : list string) (parsed_arrays : list ndarray)
    : option (result (list ndarray)) :=
  match fuel with
  | O => None
  | S fuel' =>
      let '(line, file) := get_complete_line file in
      if String.eqb line "" then Some (Ok parsed_arrays)
      else
        match parse_into_np_array line with
        | Ok array => read_loop fuel' file (parsed_arrays ++ [array])
        | Raise e => Some (Raise e)
        end
  end.

(** [parsed_arrays] after the loop, for a file of the given lines. *)
Definition read_arrays (file : list string) : option (result (list ndarray)) :=
  read_loop (S (length file)) file [].

End Parse.

(** No space, newline, bracket or comma. *)
Fixpoint plain (s : string) : bool :=
  match s with
  | EmptyString => true
  | String c s' =>
      negb (Ascii.eqb c " " || Ascii.eqb c (ascii_of_nat 10) || Ascii.eqb c "["
            || Ascii.eqb c "]" || Ascii.eqb c ",")
      && plain s'
  end.

(** The lines that one array is printed on: all but the last do not end
    with a bracket, and none is empty. *)
Definition wrapped (lines : list string) (last_line : string) : Prop :=
  Forall (fun line => line <> "" /\ endswith "]" line = false) lines /\
  endswith "]" last_line = true.

End ArrayText.

(** ** Notions used to state the properties of the export *)

Section Notions.
Import SpecLayer VisualExtractor NeuronParser.

(** The [i]-th array of every group. *)
Definition column (i : nat) (groups : list (list ndarray)) : list ndarray :=
  omap (fun g : list ndarray => g !! i) groups.

(** The groups of [n] arrays cut from the recording. *)
Definition groups_of (n : nat) (parsed_arrays : list ndarray) (count : nat)
    : list (list ndarray) :=
  map (fun s => take n (drop s parsed_arrays)) (map (fun k => k * n) (seq 0 count)).

(** The number of values per neuron that [__calculate_deltas] assumes. *)
Definition neuron_data_length (mode : string) : nat :=
  if String.eqb mode "p" then 5 else 4.

(** The array that [current_array] is compared with: the one before it,
    and for the first array [previous_array] as it was set before the
    loop. *)
Definition previous_of (previous_array : ndarray) (list_of_arrays : list ndarray)
    (k : nat) : ndarray :=
  match k with
  | O => previous_array
  | S k' => default [] (list_of_arrays !! k')
  end.

(** The change of a pyramidal neuron between two recordings, as the delta
    lists it: the neuron's number, then the float difference, previous
    minus current, for each of its four values. *)
Definition pyramidal_change (previous current : PyrNRN) : list float64 :=
  [Finite (float_of_nat (pyr_id_num current));
   float64_sub (apical_mp previous) (apical_mp current);
   float64_sub (basal_mp previous) (basal_mp current);
   float64_sub (soma_mp previous) (soma_mp current);
   float64_sub (soma_act previous) (soma_act current)].

(** The same for an interneuron and its three values. *)
Definition interneuron_change (previous current : InhibNRN) : list float64 :=
  [Finite (float_of_nat (inhib_id_num current));
   float64_sub (inhib_soma_mp previous) (inhib_soma_mp current);
   float64_sub (inhib_soma_act previous) (inhib_soma_act current);
   float64_sub (dend_mp previous) (dend_mp current)].

(** The values of a delta all of whose entries are finite. *)
Definition finite_values (delta : list float64) : option (list Q) :=
  mapM (fun x => match x with Finite v => Some v | _ => None end) delta.

(** The numbers that the extractor writes for one neuron. *)
Definition pyramidal_block (neuron : PyrNRN) : list Q :=
  [float_of_nat (pyr_id_num neuron); apical_mp neuron; basal_mp neuron;
   soma_mp neuron; soma_act neuron].

Definition interneuron_block (neuron : InhibNRN) : list Q :=
  [float_of_nat (inhib_id_num neuron); inhib_soma_mp neuron; inhib_soma_act neuron;
   dend_mp neuron].

End Notions.

(** How often a list is among the inputs of [train_data]. *)
Definition hits (inputs : list (ref * ref)) (data : ref) : nat :=
  length (filter (fun p => p.1 = data) inputs).

(** Two lists of the store with [k] rows each, of two and of three values. *)
Definition two_and_three {L} (data1 data2 : ref) (k : nat) (s : Lab L) : Prop :=
  exists r1 r2,
    lists s !! data1 = Some r1 /\ lists s !! data2 = Some r2 /\
    length r1 = k /\ length r2 = k /\
    Forall (fun row : list Q => length row = 2) r1 /\
    Forall (fun row : list Q => length row = 3) r2.

(** ** Further concrete inputs *)

Module Sample.
Import SpecLayer.

(** A recorded file of pyramidal data of a single layer with one neuron,
    two time steps. *)
Definition one_layer_arrays : list (list Q) :=
  [[1; 0; 1 # 10; 2 # 10; 3 # 10; 1]; [1; 0; 0; 2 # 10; 2 # 10; 1]]%Q.

Definition one_layer_files : NeuronParser.Files :=
  NeuronParser.mkFiles
    (fun name => if String.eqb name "one_pyramidal.txt"
                 then Ok one_layer_arrays else Raise ValueError)
    [].

(** Zipped deltas of pyramidal data: two layers with one neuron each, two
    time steps. *)
Definition zipped_deltas : list (list Q) :=
  [[0; 0; 0; 0; 0]; [0; 0; 0; 0; 0];
   [0; 1 # 10; 0; 1 # 10; 0]; [0; -1 # 10; 1 # 10; 0; 0]]%Q.

(** A stand-in for [np.array2string]: the number of entries. *)
Definition array2string (a : list Q) : string := pretty (length a).

(** The three-layer network of the example with no list created yet. *)
Definition lab : Lab Layer := mkLab Example.world3 [].

(** The experiment of the example after the hook before its first
    training step. *)
Definition selected : AndOrExperiment Layer Z :=
  (_hook_pre_train_step (Example.experiment ∅)).2.

(** Two layers, numbered 1 and 2, with one pyramidal neuron and one
    interneuron each, at two times. *)
Definition snapshots : list (list Layer) :=
  [[mkLayer 1 INPUT [mkPyrNRN 0 0 0 0 (1 # 2)] [mkInhibNRN 0 0 0 (1 # 2)]
            (mkWeights [] [] [] []);
    mkLayer 2 OUTPUT [mkPyrNRN 0 0 (1 # 2) (1 # 2) 1] [mkInhibNRN 0 0 0 0]
            (mkWeights [] [] [] [])];
   [mkLayer 1 INPUT [mkPyrNRN 0 (1 # 10) 0 (1 # 10) (1 # 2)] [mkInhibNRN 0 (1 # 10) 0 1]
            (mkWeights [] [] [] []);
    mkLayer 2 OUTPUT [mkPyrNRN 0 0 (1 # 4) (1 # 4) 1] [mkInhibNRN 0 0 (1 # 2) 1]
            (mkWeights [] [] [] [])]]%Q.

(** A layer of one pyramidal neuron and one interneuron at two times.  The
    soma potential of the pyramidal neuron falls from 1 to 0 and its
    activation from 1 to 2^-60, which is less than the floats next to 1
    are apart. *)
Definition before : Layer :=
  mkLayer 1 INPUT [mkPyrNRN 0 0 0 1 1] [mkInhibNRN 0 1 0 1] (mkWeights [] [] [] []).
Definition after : Layer :=
  mkLayer 1 INPUT [mkPyrNRN 0 0 0 0 (1 # 2 ^ 60)] [mkInhibNRN 0 0 0 (1 # 2 ^ 60)]
          (mkWeights [] [] [] []).

(** A stand-in for [float]: unsigned integers in decimal, with or without
    a final dot; every other string is refused. *)
Fixpoint float_digits (n : nat) (s : string) : option Q :=
  match s with
  | EmptyString => Some (inject_Z (Z.of_nat n))
  | String c s' =>
      let d := Ascii.nat_of_ascii c in
      if (48 <=? d) && (d <=? 57) then float_digits (10 * n + (d - 48)) s'
      else if (d =? 46) && String.eqb s' "" then Some (inject_Z (Z.of_nat n))
      else None
  end.

Definition float (s : string) : option Q :=
  match s with
  | EmptyString => None
  | String c _ =>
      let d := Ascii.nat_of_ascii c in
      if (48 <=? d) && (d <=? 57) then float_digits 0 s else None
  end.

End Sample.

(** ** Notions used to compare two runs *)

(** What the hook before a training step sets from the label generator:
    the generator itself, the index drawn, the input pattern and its
    label. *)
Definition selection {L R} (e : AndOrExperiment L R)
    : R * option nat * option (list Q) * option (list Q) :=
  (_rng_labels e, _current_X_index e, _current_X e, _current_label e).

(** [rng.integers(0, len(X))] and the pattern and the label at the index
    drawn. *)
Definition select {R} `{!Rng R} (rng : R)
    : R * option nat * option (list Q) * option (list Q) :=
  let '(index, rng') := integers 0 (Z.of_nat (length _X)) rng in
  (rng', Some index, _X !! index, _Y !! index).

(** The selection after [n] more draws. *)
Definition selection_after {R} `{!Rng R} (n : nat)
    (sel : R * option nat * option (list Q) * option (list Q))
    : R * option nat * option (list Q) * option (list Q) :=
  Nat.iter n (fun sel => select sel.1.1.1) sel.

(** Two computations, run from states that [P] relates, end alike: both
    return, with results and states that [Q] relates, or both raise the
    same exception. *)
Definition related {S1 S2 A1 A2} (P : S1 -> S2 -> Prop) (m1 : M S1 A1) (m2 : M S2 A2)
    (Q : A1 -> A2 -> S1 -> S2 -> Prop) : Prop :=
  forall s1 s2, P s1 s2 ->
    match m1 s1, m2 s2 with
    | (Ok a1, s1'), (Ok a2, s2') => Q a1 a2 s1' s2'
    | (Raise e1, _), (Raise e2, _) => e1 = e2
    | _, _ => False
    end.

(** The same with equal results and states related as before. *)
Definition agree {S1 S2 A} (P : S1 -> S2 -> Prop) (m1 : M S1 A) (m2 : M S2 A) : Prop :=
  related P m1 m2 (fun a1 a2 s1 s2 => a1 = a2 /\ P s1 s2).

(** Two lists hold the same three objects, one from position [k1] on and
    the other from position [k2] on. *)
Definition same_at {A} (k1 k2 : nat) (l1 l2 : list A) : Prop :=
  forall i, i < 3 -> l1 !! (k1 + i) = l2 !! (k2 + i).

(** A reference into the first list and the one that corresponds to it in
    the second. *)
Definition paired (k1 k2 : nat) (x1 x2 : ref) : Prop :=
  exists i, i < 3 /\ x1 = k1 + i /\ x2 = k2 + i.

(** Two worlds whose layers at [k1], [k1 + 1], [k1 + 2] and at [k2],
    [k2 + 1], [k2 + 2] are the same, and whose rule-13 data are [r1] and
    [r2] followed by the same rows. *)
Definition alike {L} (k1 k2 : ref) (r1 r2 : matrix) (w1 w2 : World L) : Prop :=
  same_at k1 k2 (heap w1) (heap w2) /\
  exists new, rule13_post_data w1 = r1 ++ new /\ rule13_post_data w2 = r2 ++ new.

(** Two experiments whose worlds are alike and whose lists are related by
    [same_lists]. *)
Definition alike_labs {L} (k1 k2 : ref) (r1 r2 : matrix)
    (same_lists : list (list (list Q)) -> list (list (list Q)) -> Prop)
    (s1 s2 : Lab L) : Prop :=
  alike k1 k2 r1 r2 (lab_world s1) (lab_world s2) /\ same_lists (lists s1) (lists s2).

(** What two runs of [main] return, compared: the same exception, or the
    same two lists of apical potentials and rule-13 data that are [rest1]
    and [rest2] followed by the same rows. *)
Definition same_but_rule13 (rest1 rest2 : matrix)
    (r1 r2 : result (list (list Q) * list (list Q) * matrix)) : Prop :=
  match r1, r2 with
  | Ok (d1, d2, p1), Ok (d1', d2', p2) =>
      d1 = d1' /\ d2 = d2' /\ exists new, p1 = rest1 ++ new /\ p2 = rest2 ++ new
  | Raise e1, Raise e2 => e1 = e2
  | _, _ => False
  end.

(** The process when [sacramento_main] has just been imported. *)
Definition fresh_lab {L} : Lab L := mkLab initial_world [].

(** * Proofs *)

(** ** The monad *)

Lemma bind_ok {S A B} (m : M S A) (k : A -> M S B) s a s' :
  m s = (Ok a, s') -> bind m k s = k a s'.
Proof. unfold bind. by intros ->. Qed.

Lemma bind_raise {S A B} (m : M S A) (k : A -> M S B) s e s' :
  m s = (Raise e, s') -> bind m k s = (Raise e, s').
Proof. unfold bind. by intros ->. Qed.

Lemma bind_inv_ok {S A B} (m : M S A) (k : A -> M S B) s b s2 :
  bind m k s = (Ok b, s2) ->
  exists a s1, m s = (Ok a, s1) /\ k a s1 = (Ok b, s2).
Proof.
  unfold bind. destruct (m s) as [[a|e] s1]; [|done].
  intros Hk. by exists a, s1.
Qed.

(** A computation that returns, with the state it leaves. *)
Lemma returns_with_state {S A} (m : M S A) (s : S) (a : A) :
  (m s).1 = Ok a -> m s = (Ok a, (m s).2).
Proof. intros H. destruct (m s) as [r s']. simpl in H. by subst r. Qed.

(** From [bind m k s = (Ok b, s2)] in [H]: the result [a] and state [s1] of
    [m], kept as [Hm], and what is left of [H], the run of [k a]. *)
Ltac bind_inv H a s1 Hm :=
  let Hk := fresh in
  destruct (bind_inv_ok _ _ _ _ _ H) as (a & s1 & Hm & Hk);
  clear H; rename Hk into H.

(** ** Observations that a computation keeps *)

Section Keeps.
Context {S T : Type} (f : S -> T).

Lemma keeps_ret {A} (a : A) : keeps f (ret a).
Proof. done. Qed.

Lemma keeps_raise {A} (x : Exn) : keeps f (raise (A:=A) x).
Proof. done. Qed.

Lemma keeps_gets {A} (g : S -> A) : keeps f (gets g).
Proof. done. Qed.

Lemma keeps_orRaise {A} (x : Exn) (o : option A) : keeps f (orRaise x o).
Proof. intros s. by destruct o. Qed.

Lemma keeps_modify (g : S -> S) : (forall s, f (g s) = f s) -> keeps f (modify g).
Proof. intros Hg s. apply Hg. Qed.

Lemma keeps_bind {A B} (m : M S A) (k : A -> M S B) :
  keeps f m -> (forall a, keeps f (k a)) -> keeps f (bind m k).
Proof.
  intros Hm Hk s. unfold bind. specialize (Hm s).
  destruct (m s) as [[a|x] s1]; simpl in *; [|done].
  by rewrite Hk.
Qed.

Lemma keeps_forM {A} (xs : list A) (body : A -> M S unit) :
  (forall x, keeps f (body x)) -> keeps f (forM xs body).
Proof.
  intros Hbody. induction xs as [|x xs IH]; simpl; [apply keeps_ret|].
  apply keeps_bind; [apply Hbody | by intros _].
Qed.

Lemma keeps_repeatM (n : nat) (body : M S unit) :
  keeps f body -> keeps f (repeatM n body).
Proof.
  intros Hbody. induction n as [|n IH]; simpl; [apply keeps_ret|].
  apply keeps_bind; [apply Hbody | by intros _].
Qed.
End Keeps.

(** ** Call sequences of the drivers *)

Section Emits.
Context {S : Type} (log : S -> list Call).

Lemma emits_ret {A} (a : A) s : emits log (ret a) s [].
Proof. exists []. simpl. by rewrite app_nil_r. Qed.

Lemma emits_silent {A} (m : M S A) s :
  log (m s).2 = log s -> emits log m s [].
Proof. intros Hlog. exists []. by rewrite Hlog, app_nil_r. Qed.

Lemma emits_bind {A B} (m : M S A) (k : A -> M S B) s f1 f2 :
  emits log m s f1 ->
  (forall a, (m s).1 = Ok a -> emits log (k a) (m s).2 f2) ->
  emits log (bind m k) s (f1 ++ f2).
Proof.
  intros (made1 & Hlog1 & Hpre1 & Hfull1) Hk. unfold emits, bind.
  destruct (m s) as [[a|e] s1]; simpl in *.
  - destruct (Hk a eq_refl) as (made2 & Hlog2 & Hpre2 & Hfull2).
    rewrite (Hfull1 a eq_refl) in Hlog1.
    exists (f1 ++ made2). split; [|split].
    + by rewrite Hlog2, Hlog1, app_assoc.
    + by apply prefix_app.
    + intros b Hb. by rewrite (Hfull2 b Hb).
  - exists made1. split; [done|]. split; [by apply prefix_app_r|done].
Qed.

Lemma emits_bind_silent {A B} (m : M S A) (k : A -> M S B) s full :
  emits log m s [] ->
  (forall a, (m s).1 = Ok a -> emits log (k a) (m s).2 full) ->
  emits log (bind m k) s full.
Proof. intros Hm Hk. by apply (emits_bind m k s [] full). Qed.

Lemma emits_bind_cons {A B} (m : M S A) (k : A -> M S B) s c full :
  emits log m s [c] ->
  (forall a, (m s).1 = Ok a -> emits log (k a) (m s).2 full) ->
  emits log (bind m k) s (c :: full).
Proof. intros Hm Hk. by apply (emits_bind m k s [c] full). Qed.

Lemma emits_if {A} (b : bool) (m : M S A) (a : A) s c :
  emits log m s [c] -> emits log (if b then m else ret a) s (when b c).
Proof. destruct b; [by intros ?|]. intros _. apply emits_ret. Qed.
End Emits.

Section DriverCalls.
Context {L R : Type} `{!LayerOps L R} `{!Rng R}.

Lemma deref_inv r (w : World L) :
  (deref r w).2 = w.
Proof. unfold deref. by destruct (heap w !! r). Qed.

Lemma emits_deref r (w : World L) : emits calls (deref r) w [].
Proof. apply emits_silent. by rewrite deref_inv. Qed.

Lemma emits_call {A} c self (meth : M L A) (w : World L) :
  emits calls (call c self meth) w [c].
Proof.
  unfold emits, call, deref, bind, modify.
  destruct (heap w !! self) as [l|]; simpl.
  - destruct (meth l) as [r l']. exists [c]. simpl. split; [done|]. by split.
  - exists []. simpl. split; [by rewrite app_nil_r|]. split; [apply prefix_nil|done].
Qed.

Lemma emits_call_with {A} c self other (meth : L -> M L A) (w : World L) :
  emits calls (call_with c self other meth) w [c].
Proof.
  unfold call_with.
  apply emits_bind_silent; [apply emits_deref|]. intros _ _. rewrite deref_inv.
  apply emits_bind_silent; [apply emits_deref|]. intros o _. rewrite deref_inv.
  apply emits_call.
Qed.

Lemma do_ff_sweep_emits l1 l2 l3 (w : World L) :
  emits calls (do_ff_sweep l1 l2 l3) w (ff_sweep_calls l1 l2 l3).
Proof.
  unfold do_ff_sweep, ff_sweep_calls.
  repeat (apply emits_bind_cons;
          [first [apply emits_call | apply emits_call_with] | intros _ _]).
  apply emits_call_with.
Qed.

Lemma do_fb_sweep_emits l1 l2 l3 (w : World L) :
  emits calls (do_fb_sweep l1 l2 l3) w (fb_sweep_calls l1 l2 l3).
Proof.
  unfold do_fb_sweep, fb_sweep_calls.
  apply emits_bind_cons; [apply emits_call_with | intros _ _].
  apply emits_call_with.
Qed.

Lemma nudge_layer3_fixed_emits l3 (w : World L) :
  emits calls (nudge_layer3_fixed l3) w
        [NudgeOutputLayerNeurons l3 [2; -2]%Q (Some (8 # 10)%Q)].
Proof. apply emits_call. Qed.

Lemma sweeps_emit l1 l2 l3 (nudge_predicate : bool) (w : World L) :
  emits calls
    (do_ff_sweep l1 l2 l3 ;;;
     (if nudge_predicate then nudge_layer3_fixed l3 else ret tt) ;;;
     do_fb_sweep l1 l2 l3) w
    (ff_sweep_calls l1 l2 l3
     ++ when nudge_predicate (NudgeOutputLayerNeurons l3 [2; -2]%Q (Some (8 # 10)%Q))
     ++ fb_sweep_calls l1 l2 l3).
Proof.
  apply emits_bind; [apply do_ff_sweep_emits | intros _ _].
  apply emits_bind; [apply emits_if, nudge_layer3_fixed_emits | intros _ _].
  apply do_fb_sweep_emits.
Qed.

Lemma train_1_step_rule_16b_only_emits l1 l2 l3 nudge_predicate (w : World L) :
  emits calls (train_1_step_rule_16b_only l1 l2 l3 nudge_predicate) w
        (rule_16b_only_calls l1 l2 l3 nudge_predicate).
Proof.
  unfold train_1_step_rule_16b_only, rule_16b_only_calls. simpl.
  do 2 (apply emits_bind_cons; [apply emits_call | intros _ _]).
  apply sweeps_emit.
Qed.

Lemma train_1_step_rule_16b_and_rule_13_emits l1 l2 l3 nudge_predicate (w : World L) :
  emits calls (train_1_step_rule_16b_and_rule_13 l1 l2 l3 nudge_predicate) w
        (rule_16b_and_rule_13_calls l1 l2 l3 nudge_predicate).
Proof.
  unfold train_1_step_rule_16b_and_rule_13, rule_16b_and_rule_13_calls. simpl.
  apply emits_bind_cons; [apply emits_call | intros _ _].
  apply emits_bind_cons; [apply emits_call_with | intros data_pt _].
  apply emits_bind_silent.
  { apply emits_silent.
    by destruct (np_concatenate_rows _ data_pt). }
  intros _ _.
  apply emits_bind_cons; [apply emits_call | intros _ _].
  apply emits_bind_cons; [apply emits_call_with | intros _ _].
  apply sweeps_emit.
Qed.
End DriverCalls.

Section ExperimentCalls.
Context {L R : Type} `{!LayerOps L R} `{!Rng R} `{!ExperimentBase L R}.

Abbreviation Exp := (AndOrExperiment L R).

Lemma emits_raise {S A} (log : S -> list Call) (x : Exn) s full :
  emits log (raise (A:=A) x) s full.
Proof.
  exists []. simpl. split; [by rewrite app_nil_r|]. split; [apply prefix_nil|done].
Qed.

Lemma emits_gets {S A} (log : S -> list Call) (f : S -> A) s :
  emits log (gets f) s [].
Proof. by apply emits_silent. Qed.

Lemma emits_orRaise {S A} (log : S -> list Call) (x : Exn) (o : option A) s :
  emits log (orRaise x o) s [].
Proof. apply emits_silent. by destruct o. Qed.

Lemma on_layers_state {A} (m : M (World L) A) (e : Exp) :
  (on_layers m e).2 = set_world (m (world e)).2 e.
Proof. unfold on_layers, zoom. by destruct (m (world e)). Qed.

Lemma on_layers_result {A} (m : M (World L) A) (e : Exp) :
  (on_layers m e).1 = (m (world e)).1.
Proof. unfold on_layers, zoom. by destruct (m (world e)). Qed.

Lemma on_layers_emits {A} (m : M (World L) A) (e : Exp) full :
  emits calls m (world e) full -> emits exp_calls (on_layers m) e full.
Proof.
  intros (made & Hlog & Hpre & Hfull). exists made.
  rewrite on_layers_state, on_layers_result. by repeat split.
Qed.

Lemma __do_ff_sweep_emits (e : Exp) :
  emits exp_calls __do_ff_sweep e (and_or_ff_sweep_calls (default [] (_current_X e))).
Proof.
  unfold __do_ff_sweep.
  apply emits_bind_silent; [apply on_layers_emits, emits_deref|]. intros _ _.
  rewrite on_layers_state, deref_inv.
  apply emits_bind_silent; [apply emits_gets|]. intros x [= <-]. simpl.
  apply emits_bind_silent; [apply emits_orRaise|]. intros inputs Hx.
  destruct (_current_X e) as [x|] eqn:HX; simpl in *; [|done].
  injection Hx as <-.
  apply on_layers_emits. unfold and_or_ff_sweep_calls.
  repeat (apply emits_bind_cons;
          [first [apply emits_call | apply emits_call_with] | intros _ _]).
  apply emits_call.
Qed.

Lemma __do_fb_sweep_emits (e : Exp) :
  emits exp_calls __do_fb_sweep e and_or_fb_sweep_calls.
Proof. apply on_layers_emits, emits_call_with. Qed.

Lemma __nudge_output_layer_emits (e : Exp) :
  emits exp_calls __nudge_output_layer e
    (NudgeOutputLayerNeurons 1 (default [] (_current_label e)) None
     :: and_or_fb_sweep_calls).
Proof.
  unfold __nudge_output_layer.
  apply emits_bind_silent; [apply on_layers_emits, emits_deref|]. intros _ _.
  rewrite on_layers_state, deref_inv.
  apply emits_bind_silent; [apply emits_gets|]. intros y [= <-]. simpl.
  apply emits_bind_silent; [apply emits_orRaise|]. intros label Hy.
  destruct (_current_label e) as [y|] eqn:HY; simpl in *; [|done].
  injection Hy as <-.
  apply emits_bind_cons; [apply on_layers_emits, emits_call|]. intros _ _.
  apply __do_fb_sweep_emits.
Qed.

Lemma set_world_set_world (w w' : World L) (e : Exp) :
  set_world w (set_world w' e) = set_world w e.
Proof. done. Qed.

(** The FF sweep changes nothing of the experiment but its layers. *)
Lemma __do_ff_sweep_state (e : Exp) :
  exists w, (__do_ff_sweep e).2 = set_world w e.
Proof.
  unfold __do_ff_sweep, bind, gets, orRaise, on_layers, zoom.
  destruct (deref 0 (world e)) as [[?|?] w0]; simpl; [|by eexists].
  destruct (_current_X e); simpl; [|by eexists].
  match goal with |- context [let '(_, _) := ?m in _] => destruct m end.
  rewrite set_world_set_world. by eexists.
Qed.

Lemma _train_1_step_emits (nudge_predicate : bool) (e : Exp) :
  emits exp_calls (_train_1_step nudge_predicate) e
    (and_or_step_calls (default [] (_current_X e)) (default [] (_current_label e))
                       nudge_predicate).
Proof.
  unfold _train_1_step.
  apply emits_bind_silent; [apply emits_gets|]. intros hp _. simpl.
  destruct hp as [|l1 [|l2 [|l3 hp]]]; try apply emits_raise.
  unfold and_or_step_calls. simpl.
  apply emits_bind_cons; [apply on_layers_emits, emits_call|]. intros _ _.
  rewrite on_layers_state.
  apply emits_bind_cons; [apply on_layers_emits, emits_call_with|]. intros _ _.
  rewrite on_layers_state.
  set (e2 := set_world _ (set_world _ e)).
  change (_current_X e) with (_current_X e2).
  change (_current_label e) with (_current_label e2).
  clearbody e2.
  apply (emits_bind _ _ _ _ (and_or_ff_sweep_calls _)); [apply __do_ff_sweep_emits|].
  intros _ _. simpl.
  destruct (__do_ff_sweep_state e2) as [w3 ->].
  change (_current_label e2) with (_current_label (set_world w3 e2)).
  generalize (set_world w3 e2). clear e2 w3. intros e3.
  apply (emits_bind _ _ _ _ (when nudge_predicate _)).
  - destruct nudge_predicate; simpl; [|apply emits_ret].
    apply emits_bind_silent; [apply emits_gets|]. intros y [= <-]. simpl.
    apply emits_bind_silent; [apply emits_orRaise|]. intros label Hy.
    destruct (_current_label e3) as [y|]; simpl in *; [|done].
    injection Hy as <-.
    apply on_layers_emits, emits_call.
  - intros _ _. apply __do_fb_sweep_emits.
Qed.
End ExperimentCalls.

(** ** C1 and C2: the order of a training step *)

(** C1, as stated, does not hold: in the three-layer training step with both
    learning rules the weight adjustments are interleaved (lateral on layer 2,
    feed-forward into layer 3, lateral on layer 1, feed-forward into layer 2),
    so a feed-forward adjustment is made before the last lateral one.  The
    step below returns normally and its calls are not in the stated order of
    stages. *)
Lemma train_step_adjustments_interleaved :
  let m := train_1_step_rule_16b_and_rule_13 0 1 2 false in
  (m Example.world3).1 = Ok tt /\
  in_stated_step_order (calls (m Example.world3).2) = false.
Proof. by vm_compute. Qed.

(** C1, amended: a training step makes all its weight adjustments first (a
    lateral one on every layer but the output, a feed-forward one into every
    layer but the input), then the calls of the FF sweep, then the nudge if
    and only if the flag is set, then the calls of the FB sweep.  In the
    two-layer experiment the lateral adjustment comes before the feed-forward
    one; in the three-layer driver the adjustments alternate, top layer first.
    (The three-layer step that uses rule 16b alone makes the lateral
    adjustments only, then the same sweeps.)  When a call raises, the calls
    made so far are a prefix of the sequence. *)
Theorem train_step_call_order {L R : Type} `{!LayerOps L R} `{!Rng R}
    `{!ExperimentBase L R} :
  (forall l1 l2 l3 nudge_predicate (w : World L),
     emits calls (train_1_step_rule_16b_and_rule_13 l1 l2 l3 nudge_predicate) w
       ([AdjustWtsLatPi l2; AdjustWtsPpFf l3 l2; AdjustWtsLatPi l1; AdjustWtsPpFf l2 l1]
        ++ ff_sweep_calls l1 l2 l3
        ++ when nudge_predicate (NudgeOutputLayerNeurons l3 [2; -2]%Q (Some (8 # 10)%Q))
        ++ fb_sweep_calls l1 l2 l3)) /\
  (forall nudge_predicate (e : AndOrExperiment L R),
     emits exp_calls (_train_1_step nudge_predicate) e
       ([AdjustWtsLatPi 0; AdjustWtsPpFf 1 0]
        ++ and_or_ff_sweep_calls (default [] (_current_X e))
        ++ when nudge_predicate
             (NudgeOutputLayerNeurons 1 (default [] (_current_label e)) (Some (8 # 10)%Q))
        ++ and_or_fb_sweep_calls)) /\
  (forall l1 l2 l3 nudge_predicate,
     let cs := rule_16b_and_rule_13_calls l1 l2 l3 nudge_predicate in
     adjustments_then_sweeps cs = true /\ existsb is_nudge cs = nudge_predicate) /\
  (forall inputs label nudge_predicate,
     let cs := and_or_step_calls inputs label nudge_predicate in
     in_stated_step_order cs = true /\ existsb is_nudge cs = nudge_predicate) /\
  (forall l1 l2 l3 nudge_predicate (w : World L),
     emits calls (train_1_step_rule_16b_only l1 l2 l3 nudge_predicate) w
       ([AdjustWtsLatPi l2; AdjustWtsLatPi l1]
        ++ ff_sweep_calls l1 l2 l3
        ++ when nudge_predicate (NudgeOutputLayerNeurons l3 [2; -2]%Q (Some (8 # 10)%Q))
        ++ fb_sweep_calls l1 l2 l3)).
Proof.
  split; [|split; [|split; [|split]]].
  - intros. apply train_1_step_rule_16b_and_rule_13_emits.
  - intros. apply _train_1_step_emits.
  - intros l1 l2 l3 []; by vm_compute.
  - intros inputs label []; by vm_compute.
  - intros. apply train_1_step_rule_16b_only_emits.
Qed.

(** C2, as stated, does not hold: the FF sweep updates the dendrites of
    layer 1 before the basal potentials of layer 2, so its calls are not
    "inputs, then every basal update, then the dendrite updates". *)
Lemma ff_sweep_dendrites_interleaved :
  let m := do_ff_sweep 0 1 2 in
  (m Example.world3).1 = Ok tt /\
  in_stated_ff_order (calls (m Example.world3).2) = false.
Proof. by vm_compute. Qed.

(** C2, amended: the FF sweep goes through the layers in order; on the input
    layer it applies the inputs and then updates the dendrites, on each later
    layer it updates basal potentials and soma from the layer before and then
    that layer's dendrites (the three-layer driver makes no dendrite update on
    its output layer).  The FB sweep updates apical potentials from the top
    hidden layer downwards.  In a training step the calls of the FF sweep
    come before those of the FB sweep, only weight adjustments come before
    the FF sweep, and between the two sweeps there is the nudge when the flag
    is set and nothing otherwise. *)
Theorem sweep_call_order {L R : Type} `{!LayerOps L R} `{!Rng R}
    `{!ExperimentBase L R} :
  (forall l1 l2 l3 (w : World L),
     emits calls (do_ff_sweep l1 l2 l3) w
       [ApplyInputs l1 None; UpdateDendMpsViaIp l1;
        UpdatePyrsBasalAndSomaFf l2 l1; UpdateDendMpsViaIp l2;
        UpdatePyrsBasalAndSomaFf l3 l2] /\
     emits calls (do_fb_sweep l1 l2 l3) w
       [UpdatePyrsApicalSomaFb l2 l3; UpdatePyrsApicalSomaFb l1 l2]) /\
  (forall e : AndOrExperiment L R,
     emits exp_calls __do_ff_sweep e
       [ApplyInputs 0 (_current_X e); UpdateDendMpsViaIp 0;
        UpdatePyrsBasalAndSomaFf 1 0; UpdateDendMpsViaIp 1] /\
     emits exp_calls __do_fb_sweep e [UpdatePyrsApicalSomaFb 0 1]) /\
  (forall l1 l2 l3 nudge_predicate (w : World L),
     exists adjustments nudge,
       forallb (fun c => coarse_stage c =? 0) adjustments = true /\
       nudge = when nudge_predicate (NudgeOutputLayerNeurons l3 [2; -2]%Q (Some (8 # 10)%Q)) /\
       emits calls (train_1_step_rule_16b_and_rule_13 l1 l2 l3 nudge_predicate) w
         (adjustments ++ ff_sweep_calls l1 l2 l3 ++ nudge ++ fb_sweep_calls l1 l2 l3)) /\
  (forall nudge_predicate (e : AndOrExperiment L R),
     exists adjustments nudge,
       forallb (fun c => coarse_stage c =? 0) adjustments = true /\
       nudge = when nudge_predicate
                 (NudgeOutputLayerNeurons 1 (default [] (_current_label e)) (Some (8 # 10)%Q)) /\
       emits exp_calls (_train_1_step nudge_predicate) e
         (adjustments ++ and_or_ff_sweep_calls (default [] (_current_X e))
          ++ nudge ++ and_or_fb_sweep_calls)).
Proof.
  split; [|split; [|split]].
  - intros. split; [apply do_ff_sweep_emits | apply do_fb_sweep_emits].
  - intros e. split; [|apply __do_fb_sweep_emits].
    pose proof (__do_ff_sweep_emits e) as Hff.
    destruct (_current_X e) as [x|] eqn:HX; [exact Hff|].
    (* without inputs the sweep raises before its first call *)
    exists []. unfold __do_ff_sweep, bind, gets, orRaise, on_layers, zoom.
    destruct (deref 0 (world e)) as [[?|?] w0] eqn:Hd; simpl;
      pose proof (deref_inv 0 (world e)) as Hw; rewrite Hd in Hw; simpl in Hw; subst w0.
    + rewrite HX. simpl. unfold exp_calls. simpl.
      split; [by rewrite app_nil_r|]. split; [apply prefix_nil|done].
    + unfold exp_calls. simpl.
      split; [by rewrite app_nil_r|]. split; [apply prefix_nil|done].
  - intros. eexists _, _. split; [|split; [reflexivity|]];
      [|apply train_1_step_rule_16b_and_rule_13_emits]. done.
  - intros. eexists _, _. split; [|split; [reflexivity|]];
      [|apply _train_1_step_emits]. done.
Qed.

(** ** C5: sweeps leave the weights alone *)

Section Frame.
Import SpecLayer.
Context {R : Type} `{!Numerics R} `{!Rng R} `{!ExperimentBase Layer R}.

Lemma apply_inputs_keeps_weights inputs : keeps weights (apply_inputs inputs).
Proof. intros l. unfold apply_inputs. by case_match. Qed.

Lemma update_basal_and_soma_ff_keeps_weights prev :
  keeps weights (update_basal_and_soma_ff prev).
Proof. intros l. unfold update_basal_and_soma_ff. by case_match. Qed.

Lemma update_dendrite_keeps_weights :
  keeps weights update_dendrite_via_inhibitory_plasticity.
Proof. intros l. unfold update_dendrite_via_inhibitory_plasticity. by case_match. Qed.

Lemma update_apical_and_soma_fb_keeps_weights next :
  keeps weights (update_apical_and_soma_fb next).
Proof. intros l. unfold update_apical_and_soma_fb. by repeat case_match. Qed.

Lemma nudge_output_layer_keeps_weights targets lambda_nudge :
  keeps weights (nudge_output_layer targets lambda_nudge).
Proof. intros l. unfold nudge_output_layer. by repeat case_match. Qed.

Lemma deref_keeps_heap_weights r : keeps heap_weights (deref r).
Proof. intros w. by rewrite deref_inv. Qed.

(** A call changes the heap at [self] only, so a method that keeps the
    weights of its layer keeps those of all layers. *)
Lemma call_keeps_heap_weights {A} c self (meth : M Layer A) :
  keeps weights meth -> keeps heap_weights (call c self meth).
Proof.
  intros Hmeth w. unfold call, deref, bind, modify.
  destruct (heap w !! self) as [l|] eqn:Hl; simpl; [|done].
  specialize (Hmeth l). destruct (meth l) as [r l']. simpl in *.
  unfold heap_weights. simpl.
  rewrite list_fmap_insert, Hmeth.
  apply list_insert_id. by rewrite list_lookup_fmap, Hl.
Qed.

Lemma call_with_keeps_heap_weights {A} c self other (meth : Layer -> M Layer A) :
  (forall o, keeps weights (meth o)) ->
  keeps heap_weights (call_with c self other meth).
Proof.
  intros Hmeth. unfold call_with.
  apply keeps_bind; [apply deref_keeps_heap_weights|]. intros _.
  apply keeps_bind; [apply deref_keeps_heap_weights|]. intros o.
  by apply call_keeps_heap_weights.
Qed.

(** A sweep is a sequence of calls of methods that keep the weights. *)
Ltac sweep_keeps_heap_weights :=
  repeat lazymatch goal with
         | |- keeps heap_weights (bind _ _) => apply keeps_bind; [|intros _]
         | |- keeps heap_weights (call _ _ _) => apply call_keeps_heap_weights
         | |- keeps heap_weights (call_with _ _ _ _) => apply call_with_keeps_heap_weights
         end;
  first [ apply apply_inputs_keeps_weights
        | apply update_dendrite_keeps_weights
        | apply update_basal_and_soma_ff_keeps_weights
        | apply update_apical_and_soma_fb_keeps_weights ].

Lemma do_ff_sweep_keeps_heap_weights l1 l2 l3 :
  keeps heap_weights (do_ff_sweep l1 l2 l3).
Proof. unfold do_ff_sweep. sweep_keeps_heap_weights. Qed.

Lemma do_fb_sweep_keeps_heap_weights l1 l2 l3 :
  keeps heap_weights (do_fb_sweep l1 l2 l3).
Proof. unfold do_fb_sweep. sweep_keeps_heap_weights. Qed.

Lemma on_layers_keeps_layer_weights {A} (m : M (World Layer) A) :
  keeps heap_weights m -> keeps (layer_weights (R:=R)) (on_layers m).
Proof. intros Hm e. unfold layer_weights. rewrite on_layers_state. simpl. apply Hm. Qed.

Lemma __do_ff_sweep_keeps_layer_weights : keeps (layer_weights (R:=R)) __do_ff_sweep.
Proof.
  unfold __do_ff_sweep.
  apply keeps_bind;
    [apply on_layers_keeps_layer_weights, deref_keeps_heap_weights|]. intros _.
  apply keeps_bind; [apply keeps_gets|]. intros x.
  apply keeps_bind; [apply keeps_orRaise|]. intros inputs.
  apply on_layers_keeps_layer_weights. sweep_keeps_heap_weights.
Qed.

Lemma __do_fb_sweep_keeps_layer_weights : keeps (layer_weights (R:=R)) __do_fb_sweep.
Proof.
  apply on_layers_keeps_layer_weights, call_with_keeps_heap_weights,
    update_apical_and_soma_fb_keeps_weights.
Qed.

(** C5: no operation of an FF or FB sweep changes a weight matrix.  Each of
    [apply_inputs], [update_basal_and_soma_ff],
    [update_dendrite_via_inhibitory_plasticity] and
    [update_apical_and_soma_fb] leaves the four matrices of its layer as
    they are, whether it returns or raises, and so do nudging and the
    drivers that compose them, for every layer of the network: the FF and
    FB sweeps of [sacramento_main.py] and of [AndOrExperiment]. *)
Theorem sweeps_leave_weights_unchanged :
  (forall inputs l, weights (apply_inputs inputs l).2 = weights l) /\
  (forall prev l, weights (update_basal_and_soma_ff prev l).2 = weights l) /\
  (forall l, weights (update_dendrite_via_inhibitory_plasticity l).2 = weights l) /\
  (forall next l, weights (update_apical_and_soma_fb next l).2 = weights l) /\
  (forall targets lambda_nudge l,
     weights (nudge_output_layer targets lambda_nudge l).2 = weights l) /\
  (forall l1 l2 l3 (w : World Layer),
     heap_weights (do_ff_sweep l1 l2 l3 w).2 = heap_weights w /\
     heap_weights (do_fb_sweep l1 l2 l3 w).2 = heap_weights w) /\
  (forall e : AndOrExperiment Layer R,
     layer_weights (__do_ff_sweep e).2 = layer_weights e /\
     layer_weights (__do_fb_sweep e).2 = layer_weights e).
Proof.
  repeat split.
  - intros. apply apply_inputs_keeps_weights.
  - intros. apply update_basal_and_soma_ff_keeps_weights.
  - intros. apply update_dendrite_keeps_weights.
  - intros. apply update_apical_and_soma_fb_keeps_weights.
  - intros. apply nudge_output_layer_keeps_weights.
  - apply do_ff_sweep_keeps_heap_weights.
  - apply do_fb_sweep_keeps_heap_weights.
  - apply __do_ff_sweep_keeps_layer_weights.
  - apply __do_fb_sweep_keeps_layer_weights.
Qed.
End Frame.

(** ** C6 and C7: nudging and applying inputs *)

Section NudgeAndInputs.
Import SpecLayer.

Lemma nudged_0 (lambda_nudge t c : Q) : lambda_nudge == 0 -> nudged lambda_nudge t c == c.
Proof. intros H. unfold nudged. rewrite H. ring. Qed.

Lemma nudged_1 (lambda_nudge t c : Q) : lambda_nudge == 1 -> nudged lambda_nudge t c == t.
Proof. intros H. unfold nudged. rewrite H. ring. Qed.

Lemma lookup_zip_with_Some' {A B C} (f : A -> B -> C) (xs : list A) (ys : list B) i x y :
  xs !! i = Some x -> ys !! i = Some y -> zip_with f xs ys !! i = Some (f x y).
Proof. intros Hx Hy. apply lookup_zip_with_Some. eauto. Qed.

(** C6: on the output layer, nudging sets the somatic activation of each
    pyramidal neuron to [(1-λ)*current + λ*target], for every λ and so for
    every λ in [0,1]; with λ=0 the activation is unchanged and with λ=1 it
    is the target (as rationals).  On a layer that is not terminal it fails
    with InvalidLayerRole and changes nothing. *)
Theorem nudge_output_layer_blends (targets : list Q) (lambda_nudge : Q) (l : Layer) :
  (is_terminal l = false ->
   nudge_output_layer targets lambda_nudge l = (Raise InvalidLayerRole, l)) /\
  (is_terminal l = true -> length targets = length (pyrs l) ->
   exists l',
     nudge_output_layer targets lambda_nudge l = (Ok tt, l') /\
     length (pyrs l') = length (pyrs l) /\
     forall i p t,
       pyrs l !! i = Some p -> targets !! i = Some t ->
       exists p',
         pyrs l' !! i = Some p' /\
         soma_act p' = ((1 - lambda_nudge) * soma_act p + lambda_nudge * t)%Q /\
         (lambda_nudge == 0 -> soma_act p' == soma_act p) /\
         (lambda_nudge == 1 -> soma_act p' == t)).
Proof.
  unfold nudge_output_layer. split.
  - by intros ->.
  - intros -> Hlen. simpl. rewrite Hlen, Nat.eqb_refl. simpl.
    eexists. split; [reflexivity|]. simpl. split.
    + rewrite length_zip_with. lia.
    + intros i p t Hp Ht. eexists. split.
      * by apply lookup_zip_with_Some'.
      * simpl. split; [done|]. split; [apply nudged_0 | apply nudged_1].
Qed.

Lemma basal_zip_with_with_basal (inputs : list Q) (ps : list PyrNRN) :
  length inputs = length ps ->
  basal_mp <$> zip_with with_basal inputs ps = inputs.
Proof.
  revert ps. induction inputs as [|x inputs IH]; intros [|p ps] Hlen; simpl in *;
    try done.
  f_equal. apply IH. lia.
Qed.

(** C7: [apply_inputs] with a vector whose length is not the number of
    pyramidal neurons fails with DimensionMismatch and leaves the layer as
    it was, potentials, activations and weights; with a vector of that
    length it returns, and the basal potentials of the pyramidal neurons
    are then the entries of the vector, in order, the rest of the layer
    being as before. *)
Theorem apply_inputs_checks_length (inputs : list Q) (l : Layer) :
  (length inputs <> length (pyrs l) ->
   apply_inputs inputs l = (Raise DimensionMismatch, l)) /\
  (length inputs = length (pyrs l) ->
   exists l',
     apply_inputs inputs l = (Ok tt, l') /\
     basal_mp <$> pyrs l' = inputs /\
     (forall i p', pyrs l' !! i = Some p' ->
        exists p x, pyrs l !! i = Some p /\ inputs !! i = Some x /\
                    p' = mkPyrNRN (pyr_id_num p) (apical_mp p) x (soma_mp p) (soma_act p)) /\
     inhibs l' = inhibs l /\ weights l' = weights l /\
     id_num l' = id_num l /\ role l' = role l).
Proof.
  unfold apply_inputs. split.
  - intros Hlen. by rewrite (proj2 (Nat.eqb_neq _ _) Hlen).
  - intros Hlen. rewrite Hlen, Nat.eqb_refl.
    eexists. split; [reflexivity|]. simpl. split; [by apply basal_zip_with_with_basal|].
    split; [|done].
    intros i p' Hp'. apply lookup_zip_with_Some in Hp' as (x & p & -> & Hx & Hp).
    by exists p, x.
Qed.
End NudgeAndInputs.

(** ** C10: when the positions of the "nudged" annotation are recorded *)

Section Bookkeeping.
Context {L R : Type} `{!LayerOps L R} `{!Rng R} `{!ExperimentBase L R}.

Lemma keeps_on_layers {T A} (f : AndOrExperiment L R -> T) (m : M (World L) A) :
  (forall w e, f (set_world w e) = f e) -> keeps f (on_layers m).
Proof. intros Hf e. by rewrite on_layers_state, Hf. Qed.

(** Decompose a computation of the experiment and show that it keeps an
    observation that none of its assignments touches. *)
Ltac keeps_step :=
  lazymatch goal with
  | |- keeps _ (bind _ _) => apply keeps_bind; [|intros ?]
  | |- keeps _ (ret _) => apply keeps_ret
  | |- keeps _ (raise _) => apply keeps_raise
  | |- keeps _ (gets _) => apply keeps_gets
  | |- keeps _ (orRaise _ _) => apply keeps_orRaise
  | |- keeps _ (modify _) => apply keeps_modify; intros ?; reflexivity
  | |- keeps _ (forM _ _) => apply keeps_forM; intros ?
  | |- keeps _ (repeatM _ _) => apply keeps_repeatM
  | |- keeps _ (on_layers _) => apply keeps_on_layers; intros ? ?; reflexivity
  | |- keeps _ (match ?x with _ => _ end) => destruct x
  end.
Ltac keeps_tac := repeat keeps_step.

Lemma _train_1_step_keeps_book b : keeps book (_train_1_step b).
Proof. unfold _train_1_step, __do_ff_sweep, __do_fb_sweep. keeps_tac. Qed.

Lemma __nudge_output_layer_keeps_book : keeps book __nudge_output_layer.
Proof. unfold __nudge_output_layer, __do_fb_sweep. keeps_tac. Qed.

Lemma _hook_post_train_step_keeps : keeps all_but_metrics _hook_post_train_step.
Proof. unfold _hook_post_train_step. keeps_tac. Qed.

Lemma _hook_pre_train_step_keeps : keeps (untouched_by_pre_hook (L:=L) (R:=R)) _hook_pre_train_step.
Proof. unfold _hook_pre_train_step. keeps_tac. Qed.

(** The hook counts the step first, whatever happens next. *)
Lemma _hook_pre_train_step_counts (e : AndOrExperiment L R) :
  _current_step (_hook_pre_train_step e).2 = _current_step e + 1.
Proof.
  unfold _hook_pre_train_step.
  rewrite (bind_ok _ _ e tt (set_current_step (_current_step e + 1) e)) by done.
  transitivity (_current_step (set_current_step (_current_step e + 1) e)); [|done].
  generalize (set_current_step (_current_step e + 1) e). intros e1. cbv beta.
  lazymatch goal with
  | |- _current_step (?m e1).2 = _ => revert e1; change (keeps _current_step m)
  end.
  keeps_tac.
Qed.
(** In any step but the 400th the hook leaves the positions alone,
    whatever the parameters are and whether it returns or raises. *)
Lemma _hook_pre_train_step_other_steps (e : AndOrExperiment L R) :
  _current_step e + 1 <> 400 ->
  _nudge_steps (_hook_pre_train_step e).2 = _nudge_steps e.
Proof.
  intros Hstep. unfold _hook_pre_train_step.
  rewrite (bind_ok _ _ e tt (set_current_step (_current_step e + 1) e)) by done.
  set (e1 := set_current_step (_current_step e + 1) e).
  rewrite (bind_ok _ _ e1 (_current_step e + 1) e1) by done.
  rewrite (proj2 (Nat.eqb_neq _ _) Hstep).
  rewrite (bind_ok _ _ e1 tt e1) by done.
  change (_nudge_steps e) with (_nudge_steps e1). generalize e1. clear e1.
  lazymatch goal with
  | |- forall e1, _nudge_steps (?m e1).2 = _ => change (keeps _nudge_steps m)
  end.
  keeps_tac.
Qed.

(** When the hook returns, an input pattern and its label are selected. *)
Lemma _hook_pre_train_step_selects (e e' : AndOrExperiment L R) :
  _hook_pre_train_step e = (Ok tt, e') ->
  exists i, i < 4 /\ _current_X_index e' = Some i /\ is_Some (_current_label e').
Proof.
  unfold _hook_pre_train_step. intros H.
  bind_inv H u1 e1 H1. bind_inv H step e2 H2. bind_inv H u3 e3 H3.
  bind_inv H rng e4 H4.
  destruct (integers 0 (Z.of_nat (length _X)) rng) as [index rng'].
  bind_inv H u5 e5 H5. bind_inv H u6 e6 H6. injection H6 as <- <-.
  bind_inv H x e7 Hx.
  destruct (_X !! index) as [x'|] eqn:HX; [|done]. injection Hx as <- <-.
  bind_inv H u8 e8 H8. injection H8 as <- <-.
  bind_inv H y e9 Hy.
  destruct (_Y !! index) as [y'|] eqn:HY; [|done]. injection Hy as <- <-.
  injection H as <-. exists index. simpl.
  split; [by apply lookup_lt_Some in HX|]. split; [done|by eexists].
Qed.

Lemma _hook_pre_train_step_records (e e' : AndOrExperiment L R) :
  well_shaped e -> _current_step e + 1 = 400 ->
  _hook_pre_train_step e = (Ok tt, e') ->
  _nudge_steps e' = record_counts e.
Proof.
  intros (Hlen & Hrows & Hns) Hstep. unfold _hook_pre_train_step. intros H.
  bind_inv H u1 e1 H1. injection H1 as <- <-.
  bind_inv H step e2 H2. injection H2 as <- <-. simpl in H.
  rewrite Hstep in H. simpl in H.
  bind_inv H u3 e3 H3.
  transitivity (_nudge_steps e3).
  { lazymatch type of H with
    | ?m e3 = _ => assert (keeps _nudge_steps m) as Hk by keeps_tac
    end.
    specialize (Hk e3). by rewrite H in Hk. }
  clear H. unfold record_counts.
  destruct e as [p1 p2 p3 c ns idx x y rng [K A O X] w]. simpl in *.
  destruct K as [|a0 [|a1 [|a2 [|a3 [|a4 ?]]]]]; try done.
  destruct ns as [|n0 [|n1 [|n2 [|n3 [|n4 ?]]]]]; try done.
  apply Forall_cons in Hrows as [Ha0 Hrows].
  apply Forall_cons in Hrows as [Ha1 Hrows].
  apply Forall_cons in Hrows as [Ha2 Hrows].
  apply Forall_cons in Hrows as [Ha3 _].
  destruct a0 as [|r0 ?]; [done|]. destruct a1 as [|r1 ?]; [done|].
  destruct a2 as [|r2 ?]; [done|]. destruct a3 as [|r3 ?]; [done|].
  cbv in H3. injection H3 as _ <-. reflexivity.
Qed.

Lemma sum_list_insert_S (ns : list nat) i n :
  ns !! i = Some n -> sum_list (<[i := S n]> ns) = S (sum_list ns).
Proof.
  revert i. induction ns as [|m ns IH]; intros [|i] Hi; simpl in *; try done.
  - injection Hi as ->. done.
  - rewrite (IH i Hi). lia.
Qed.

(** When the hook after a training step returns, it has added one column
    to the layer-1 array of the selected input pattern. *)
Lemma _hook_post_train_step_records (e e' : AndOrExperiment L R) :
  well_shaped e ->
  _hook_post_train_step e = (Ok tt, e') ->
  well_shaped e' /\ sum_list (record_counts e') = S (sum_list (record_counts e)).
Proof.
  intros (Hlen & Hrows & Hns) H.
  pose proof (_hook_post_train_step_keeps e) as Hkeep. rewrite H in Hkeep.
  unfold _hook_post_train_step in H.
  bind_inv H hp e1 H1. injection H1 as <- <-.
  destruct (heap (world e)) as [|l1 [|l2 [|l3 hp]]]; try done.
  bind_inv H oi e1 H1. injection H1 as <- <-.
  bind_inv H i e1 H1. destruct (_current_X_index e) as [i'|]; [|done].
  injection H1 as -> <-.
  bind_inv H m e1 H1. injection H1 as <- <-.
  bind_inv H a e1 H1.
  destruct (KEY_LAYER_1 (_metrics e) !! i) as [a0|] eqn:Ha; [|done].
  injection H1 as -> <-.
  destruct (np_append_column a (pyr_apical_mps l1)) as [a'|] eqn:Happ; [|done].
  bind_inv H u1 e1 H1. injection H1 as _ <-.
  assert (KEY_LAYER_1 (_metrics e') = <[i := a']> (KEY_LAYER_1 (_metrics e))) as HK.
  { bind_inv H m1 e1 H1. injection H1 as <- <-.
    bind_inv H u2 e2 H2.
    destruct (append_output _ i (pyr_soma_mps l2 !! 0)) as [r1|]; [|done].
    injection H2 as _ <-.
    bind_inv H m2 e2 H2. injection H2 as <- <-.
    bind_inv H u3 e3 H3.
    destruct (append_output _ i (pyr_soma_mps l2 !! 1)) as [r2|]; [|done].
    injection H3 as _ <-.
    bind_inv H m3 e3 H3. injection H3 as <- <-.
    destruct (append_output _ i (pyr_soma_mps l2 !! 2)) as [r3|]; [|done].
    by injection H as <-. }
  clear H. unfold np_append_column in Happ.
  destruct (length a =? length (pyr_apical_mps l1)) eqn:Hcol; [|done].
  apply Nat.eqb_eq in Hcol. injection Happ as <-.
  pose proof (proj1 (Forall_lookup _ _) Hrows i a Ha) as Hrow. simpl in Hrow.
  destruct a as [|row0 [|row1 [|]]]; try done.
  destruct (pyr_apical_mps l1) as [|x0 [|x1 [|]]]; try done. simpl in HK.
  assert (_nudge_steps e' = _nudge_steps e) as Hn
    by (simpl in Hkeep; unfold all_but_metrics in Hkeep; congruence).
  split.
  - unfold well_shaped. rewrite HK, length_insert, Hn. split; [done|]. split; [|done].
    apply Forall_insert; [done|done].
  - unfold record_counts. rewrite HK, list_fmap_insert. simpl.
    rewrite length_app. simpl. rewrite Nat.add_1_r.
    apply sum_list_insert_S. by rewrite list_lookup_fmap, Ha.
Qed.
(** One iteration of [train]. *)
Abbreviation iteration b :=
  (bind _hook_pre_train_step
        (fun _ => bind (_train_1_step b) (fun _ => _hook_post_train_step))).

Lemma book_counted (e e' : AndOrExperiment L R) :
  book e' = book e -> counted e -> counted e'.
Proof.
  unfold book, counted, well_shaped, record_counts. intros Hb.
  assert (_metrics e' = _metrics e) as -> by congruence.
  assert (_nudge_steps e' = _nudge_steps e) as -> by congruence.
  assert (_current_step e' = _current_step e) as -> by congruence.
  done.
Qed.

Lemma iteration_any b (e : AndOrExperiment L R) :
  let e' := (iteration b e).2 in
  _current_step e' = _current_step e + 1 /\
  parameters e' = parameters e /\
  (_current_step e + 1 <> 400 -> _nudge_steps e' = _nudge_steps e).
Proof.
  pose proof (_hook_pre_train_step_counts e) as Hc.
  pose proof (_hook_pre_train_step_keeps e) as Hk.
  pose proof (_hook_pre_train_step_other_steps e) as Hn.
  unfold bind. destruct (_hook_pre_train_step e) as [[[]|x] e1]; simpl in *.
  - pose proof (_train_1_step_keeps_book b e1) as Hb.
    destruct (_train_1_step b e1) as [[[]|x] e2]; simpl in *.
    + pose proof (_hook_post_train_step_keeps e2) as Hp.
      destruct (_hook_post_train_step e2) as [r e3]. simpl in *.
      unfold untouched_by_pre_hook, book, all_but_metrics in *.
      split; [congruence|]. split; [congruence|]. intros H. rewrite <- (Hn H). congruence.
    + unfold untouched_by_pre_hook, book in *.
      split; [congruence|]. split; [congruence|]. intros H. rewrite <- (Hn H). congruence.
  - unfold untouched_by_pre_hook in *. split; [done|]. split; [congruence|done].
Qed.

Lemma iteration_ok b (e e' : AndOrExperiment L R) :
  counted e -> iteration b e = (Ok tt, e') ->
  counted e' /\
  is_Some (_current_label e') /\
  (_current_step e + 1 = 400 -> _nudge_steps e' = record_counts e).
Proof.
  intros (Hshape & Hsum & Hzero & H399) H.
  pose proof (iteration_any b e) as (Hc & Hp & Hn). rewrite H in Hc, Hp, Hn.
  simpl in Hc, Hp, Hn.
  bind_inv H u1 e1 Hpre. destruct u1. bind_inv H u2 e2 Hstep. destruct u2.
  pose proof (_hook_pre_train_step_keeps e) as Hk1. rewrite Hpre in Hk1.
  pose proof (_train_1_step_keeps_book b e1) as Hk2. rewrite Hstep in Hk2.
  pose proof (_hook_post_train_step_keeps e2) as Hk3. rewrite H in Hk3.
  simpl in Hk1, Hk2, Hk3. unfold untouched_by_pre_hook, book, all_but_metrics in *.
  assert (_metrics e2 = _metrics e) as Hm by congruence.
  assert (_nudge_steps e' = _nudge_steps e1) as Hns by congruence.
  assert (_current_step e + 1 = 400 -> _nudge_steps e' = record_counts e) as Hrec.
  { intros H400. rewrite Hns. by apply _hook_pre_train_step_records. }
  destruct Hshape as (Hlen & Hrows & Hlns).
  assert (length (_nudge_steps e') = 4) as Hlns'.
  { destruct (decide (_current_step e + 1 = 400)) as [H400|H400].
    - rewrite (Hrec H400). unfold record_counts. by rewrite length_fmap.
    - by rewrite (Hn H400). }
  assert (well_shaped e2) as Hshape2.
  { unfold well_shaped. rewrite Hm. repeat split; try done. congruence. }
  destruct (_hook_post_train_step_records e2 e' Hshape2 H) as (Hshape' & Hsum').
  split; [|split; [|done]].
  - split; [done|]. split; [|split].
    + rewrite Hsum', Hc. unfold record_counts in *. rewrite Hm, Hsum. lia.
    + intros Hlt. rewrite Hn by lia. apply Hzero. lia.
    + intros Hge. destruct (decide (_current_step e + 1 = 400)) as [H400|H400].
      * rewrite (Hrec H400), Hsum. lia.
      * rewrite (Hn H400). apply H399. lia.
  - destruct (_hook_pre_train_step_selects e e1 Hpre) as (i & _ & _ & Hlabel).
    by replace (_current_label e') with (_current_label e1) by congruence.
Qed.

Lemma repeat_any n b (e : AndOrExperiment L R) :
  let e' := (repeatM n (iteration b) e).2 in
  _current_step e <= _current_step e' <= _current_step e + n /\
  parameters e' = parameters e /\
  (_current_step e + n < 400 \/ 400 <= _current_step e ->
   _nudge_steps e' = _nudge_steps e).
Proof.
  revert e. induction n as [|n IH]; intros e; cbv zeta; simpl.
  { split; [lia|]. by split. }
  pose proof (iteration_any b e) as (Hc & Hp & Hn).
  specialize (IH (iteration b e).2). cbv zeta in IH.
  destruct (iteration b e) as [[[]|x] e1] eqn:Hiter; simpl in *.
  - rewrite (bind_ok _ _ _ _ _ Hiter).
    destruct IH as (Hc' & Hp' & Hn'). split; [lia|]. split; [congruence|].
    intros Hrange. rewrite Hn' by lia. apply Hn. lia.
  - rewrite (bind_raise _ _ _ _ _ Hiter). simpl.
    split; [lia|]. split; [done|]. intros Hrange. apply Hn. lia.
Qed.

Lemma repeat_ok n b (e e' : AndOrExperiment L R) :
  counted e -> repeatM n (iteration b) e = (Ok tt, e') ->
  counted e' /\
  _current_step e' = _current_step e + n /\
  (1 <= n -> is_Some (_current_label e')) /\
  (_current_step e = 399 -> 1 <= n -> _nudge_steps e' = record_counts e).
Proof.
  revert e. induction n as [|n IH]; intros e Hcounted H; simpl in H.
  { injection H as <-. split; [done|]. split; [lia|]. split; intros; lia. }
  bind_inv H u1 e1 Hiter. destruct u1.
  destruct (iteration_ok b e e1 Hcounted Hiter) as (Hcounted1 & Hlabel1 & Hrec1).
  pose proof (iteration_any b e) as (Hc1 & _ & _). rewrite Hiter in Hc1. simpl in Hc1.
  destruct (IH e1 Hcounted1 H) as (Hcounted' & Hc' & Hlabel' & _).
  pose proof (repeat_any n b e1) as (_ & _ & Hns). rewrite H in Hns. simpl in Hns.
  split; [done|]. split; [lia|]. split.
  - intros _. destruct n as [|n]; [|apply Hlabel'; lia].
    simpl in H. by injection H as <-.
  - intros H399 _. rewrite Hns by lia. apply Hrec1. lia.
Qed.
Lemma new_experiment_counted params :
  counted (new_experiment params) /\
  _current_step (new_experiment params) = 0 /\
  _nudge_steps (new_experiment params) = replicate 4 0 /\
  _current_label (new_experiment params) = None.
Proof.
  unfold counted, well_shaped, record_counts. simpl.
  repeat split; try done; [by repeat constructor | lia].
Qed.

Lemma __nudge_output_layer_needs_label (e e' : AndOrExperiment L R) :
  __nudge_output_layer e = (Ok tt, e') -> is_Some (_current_label e).
Proof.
  unfold __nudge_output_layer. intros H.
  bind_inv H l e1 H1.
  assert (e1 = set_world (world e) e) as ->.
  { pose proof (on_layers_state (deref 1) e) as Hs.
    rewrite H1, deref_inv in Hs. done. }
  bind_inv H y e2 H2. injection H2 as <- <-.
  bind_inv H label e3 H3. simpl in H3.
  destruct (_current_label e); [by eexists|done].
Qed.

Lemma run_any_below_400 (e0 : AndOrExperiment L R) :
  _current_step e0 + Z.to_nat (__self_prediction_steps e0)
    + Z.to_nat (__training_steps e0) < 400 ->
  _nudge_steps (run e0).2 = _nudge_steps e0.
Proof.
  intros Hlt. unfold run, train.
  rewrite (bind_ok _ _ e0 (__self_prediction_steps e0) e0) by done.
  pose proof (repeat_any (Z.to_nat (__self_prediction_steps e0)) false e0)
    as (Hc1 & Hp1 & Hn1).
  destruct (repeatM _ _ e0) as [[[]|x] e1] eqn:Htrain1; simpl in *;
    [rewrite (bind_ok _ _ _ _ _ Htrain1) | rewrite (bind_raise _ _ _ _ _ Htrain1)];
    simpl; [|apply Hn1; lia].
  pose proof (__nudge_output_layer_keeps_book e1) as Hb.
  destruct (__nudge_output_layer e1) as [[[]|x] e2] eqn:Hnudge; simpl in *;
    [rewrite (bind_ok _ _ _ _ _ Hnudge) | rewrite (bind_raise _ _ _ _ _ Hnudge)];
    simpl; unfold book, parameters in *; [|rewrite <- Hn1 by lia; congruence].
  rewrite (bind_ok _ _ e2 (__training_steps e2) e2) by done.
  pose proof (repeat_any (Z.to_nat (__training_steps e2)) true e2) as (_ & _ & Hn2).
  cbv zeta in Hn2. rewrite Hn2.
  - rewrite <- Hn1 by lia. congruence.
  - left. replace (__training_steps e2) with (__training_steps e0) by congruence.
    replace (_current_step e2) with (_current_step e1) by congruence. lia.
Qed.

Lemma run_ok_marks (e0 ef : AndOrExperiment L R) :
  counted e0 -> _current_step e0 = 0 -> _current_label e0 = None ->
  run e0 = (Ok tt, ef) ->
  (_nudge_steps ef = record_counts (nudging_start e0) <->
   Z.to_nat (__self_prediction_steps e0) = 399 /\
   1 <= Z.to_nat (__training_steps e0)).
Proof.
  intros Hcounted0 Hc0 Hlabel0 H. unfold nudging_start. unfold run, train in *.
  bind_inv H sp e1 H1. injection H1 as <- <-.
  bind_inv H u1 e1 Htrain1. destruct u1. rewrite Htrain1. simpl.
  bind_inv H u2 e2 Hnudge. destruct u2.
  bind_inv H ts e3 H3. injection H3 as <- <-.
  destruct (repeat_ok _ _ _ _ Hcounted0 Htrain1) as (Hcounted1 & Hc1 & Hlabel1 & _).
  pose proof (repeat_any (Z.to_nat (__self_prediction_steps e0)) false e0)
    as (_ & Hp1 & _). rewrite Htrain1 in Hp1. simpl in Hp1.
  pose proof (__nudge_output_layer_keeps_book e1) as Hb. rewrite Hnudge in Hb.
  simpl in Hb.
  pose proof (book_counted _ _ Hb Hcounted1) as Hcounted2.
  destruct (repeat_ok _ _ _ _ Hcounted2 H) as (Hcountedf & Hcf & _ & Hrec).
  assert (record_counts e2 = record_counts e1) as Hrc
    by (unfold record_counts, book in *; congruence).
  assert (_current_step e2 = _current_step e1) as Hc2 by (unfold book in *; congruence).
  assert (__training_steps e2 = __training_steps e0) as Hts
    by (unfold book, parameters in *; congruence).
  rewrite Hts in *.
  assert (1 <= Z.to_nat (__self_prediction_steps e0)) as Hsp.
  { destruct (Z.to_nat (__self_prediction_steps e0)) as [|n] eqn:Hn; [|lia].
    simpl in Htrain1. injection Htrain1 as <-.
    apply __nudge_output_layer_needs_label in Hnudge.
    rewrite Hlabel0 in Hnudge. by destruct Hnudge. }
  destruct Hcounted1 as (_ & Hsum1 & _ & _).
  destruct Hcountedf as (_ & _ & Hzero & H399).
  split.
  - intros Heq.
    destruct (decide (_current_step ef < 400)) as [Hlt|Hge].
    + rewrite (Hzero Hlt) in Heq. rewrite <- Heq in Hsum1. simpl in Hsum1. lia.
    + rewrite Heq, Hsum1 in H399. lia.
  - intros [H399' Hts']. rewrite <- Hrc. apply Hrec; lia.
Qed.

(** C10, amended: the positions of the "nudged" annotation are written
    only by the hook of the training step that the counter numbers 400,
    whatever [self_prediction_steps] is; no other step and no other method
    changes them.  That hook sets them to the numbers of columns recorded so
    far, that is in the first 399 steps.  So when fewer than 400 steps run
    in all they stay zero; and when [run] completes, they are the positions
    at which nudging begins exactly when [self_prediction_steps] is 399 and
    at least one nudged step runs: for every other value, the default 400
    among them, they are not. *)
Theorem nudge_steps_set_at_step_400 :
  (forall (e : AndOrExperiment L R) b,
     (_current_step e + 1 <> 400 ->
      _nudge_steps (_hook_pre_train_step e).2 = _nudge_steps e) /\
     (well_shaped e -> _current_step e + 1 = 400 ->
      (_hook_pre_train_step e).1 = Ok tt ->
      _nudge_steps (_hook_pre_train_step e).2 = record_counts e) /\
     _nudge_steps (_train_1_step b e).2 = _nudge_steps e /\
     _nudge_steps (_hook_post_train_step e).2 = _nudge_steps e /\
     _nudge_steps (__nudge_output_layer e).2 = _nudge_steps e) /\
  (forall params,
     let e0 : AndOrExperiment L R := new_experiment params in
     let sp := Z.to_nat (__self_prediction_steps e0) in
     let ts := Z.to_nat (__training_steps e0) in
     (sp + ts < 400 -> _nudge_steps (run e0).2 = replicate 4 0) /\
     ((run e0).1 = Ok tt ->
      (_nudge_steps (run e0).2 = record_counts (nudging_start e0) <->
       sp = 399 /\ 1 <= ts))).
Proof.
  split.
  - intros e b. split; [apply _hook_pre_train_step_other_steps|].
    split; [|split; [|split]].
    + intros Hshape H400 Hok.
      destruct (_hook_pre_train_step e) as [r e'] eqn:H. simpl in *. subst r.
      by apply _hook_pre_train_step_records.
    + pose proof (_train_1_step_keeps_book b e) as Hk. unfold book in Hk. congruence.
    + pose proof (_hook_post_train_step_keeps e) as Hk. unfold all_but_metrics in Hk.
      congruence.
    + pose proof (__nudge_output_layer_keeps_book e) as Hk. unfold book in Hk.
      congruence.
  - intros params e0 sp ts.
    destruct (new_experiment_counted params) as (Hcounted & Hc0 & Hn0 & Hlabel0).
    split.
    + intros Hlt. fold e0 in Hn0. rewrite <- Hn0.
      apply run_any_below_400. fold e0 in Hc0. rewrite Hc0. subst sp ts. lia.
    + intros Hok. destruct (run e0) as [r ef] eqn:Hrun. simpl in *. subst r.
      by apply run_ok_marks.
Qed.
End Bookkeeping.

(** ** C9: the unpacking in [__list_of_arrays_to_delta] *)

Section Unpack.
Import NeuronParser.

Lemma mapR_length {A B} (f : A -> result B) (xs : list A) (ys : list B) :
  mapR f xs = Ok ys -> length ys = length xs.
Proof.
  revert ys. induction xs as [|x xs IH]; intros ys H; simpl in H.
  - by injection H as <-.
  - destruct (f x) as [y|]; [|done]. simpl in H.
    destruct (mapR f xs) as [ys'|]; [|done]. simpl in H.
    injection H as <-. simpl. by rewrite (IH ys').
Qed.

Lemma mapR_lookup {A B} (f : A -> result B) (xs : list A) (ys : list B) i x :
  mapR f xs = Ok ys -> xs !! i = Some x -> exists y, ys !! i = Some y /\ f x = Ok y.
Proof.
  revert ys i. induction xs as [|x' xs IH]; intros ys i H Hx; simpl in H; [done|].
  destruct (f x') as [y'|] eqn:Hf; [|done]. simpl in H.
  destruct (mapR f xs) as [ys'|]; [|done]. simpl in H. injection H as <-.
  destruct i as [|i]; simpl in *.
  - injection Hx as <-. by exists y'.
  - by apply IH.
Qed.

Lemma deltas_from_length n previous_array list_of_arrays deltas :
  deltas_from n previous_array list_of_arrays = Ok deltas ->
  length deltas = length list_of_arrays.
Proof.
  revert previous_array deltas.
  induction list_of_arrays as [|a rest IH]; intros previous_array deltas H; simpl in H.
  - by injection H as <-.
  - destruct (delta_from n previous_array 0 a) as [d|]; [|done]. simpl in H.
    destruct (deltas_from n a rest) as [ds|] eqn:Hds; [|done]. simpl in H.
    injection H as <-. simpl. by rewrite (IH a ds).
Qed.

(** One delta per recorded time step. *)
Lemma __calculate_deltas_length list_of_arrays mode deltas :
  __calculate_deltas list_of_arrays mode = Ok deltas ->
  length deltas = length list_of_arrays.
Proof.
  unfold __calculate_deltas. destruct (lookup_or_raise list_of_arrays 0); [|done].
  apply deltas_from_length.
Qed.

Lemma __file_to_list_of_arrays_reads file_name (fs : Files) :
  (__file_to_list_of_arrays file_name fs).2 = fs.
Proof.
  unfold __file_to_list_of_arrays, bind, liftR.
  by destruct (text_arrays fs file_name).
Qed.

(** C9: [file_to_delta] unpacks the list that [__zip_delta_array] returns
    into two variables.  For a file from which the arrays are read, grouped
    by layer, turned into deltas and zipped, the zipped list has one entry
    per recorded time step and layer; whenever that number is not 2 the
    call raises ValueError, and no JSON file has been written. *)
Theorem file_to_delta_unpack_raises (file_name mode : string) (fs : Files)
    (list_of_arrays : list (list ndarray)) (delta_array : list (list (list float64)))
    (zipped : list (list float64)) :
  (__file_to_list_of_arrays file_name fs).1 = Ok list_of_arrays ->
  mapR (fun array => __calculate_deltas array mode) list_of_arrays = Ok delta_array ->
  __zip_delta_array (length list_of_arrays) delta_array = Ok zipped ->
  length zipped = length (default [] (list_of_arrays !! 0)) * length list_of_arrays /\
  (length zipped <> 2 ->
   file_to_delta file_name mode fs = (Raise ValueError, fs) /\
   json_files (file_to_delta file_name mode fs).2 = json_files fs).
Proof.
  intros Hread Hdeltas Hzip.
  assert (length zipped = length (default [] (list_of_arrays !! 0)) * length list_of_arrays)
    as Hlen.
  { unfold __zip_delta_array, lookup_or_raise in Hzip.
    destruct (delta_array !! 0) as [first|] eqn:Hfirst; [|done]. simpl in Hzip.
    apply mapR_length in Hzip. rewrite Hzip, length_seq.
    destruct (list_of_arrays !! 0) as [arrays|] eqn:Harrays.
    - destruct (mapR_lookup _ _ _ _ _ Hdeltas Harrays) as (first' & Hfirst' & Hcalc).
      rewrite Hfirst in Hfirst'. injection Hfirst' as <-.
      by rewrite (__calculate_deltas_length _ _ _ Hcalc).
    - apply mapR_length in Hdeltas.
      apply lookup_ge_None in Harrays. apply lookup_lt_Some in Hfirst. lia. }
  split; [done|]. intros Hne.
  assert (file_to_delta file_name mode fs = (Raise ValueError, fs)) as ->; [|done].
  unfold file_to_delta.
  pose proof (__file_to_list_of_arrays_reads file_name fs) as Hfs.
  destruct (__file_to_list_of_arrays file_name fs) as [r fs'] eqn:Hfile.
  simpl in *. subst r fs'.
  rewrite (bind_ok _ _ _ _ _ Hfile).
  unfold __list_of_arrays_to_delta, bind, liftR. rewrite Hdeltas, Hzip.
  by destruct zipped as [|? [|? [|]]].
Qed.

(** And when it is 2, the second of the two deltas is passed on as the
    number of layers, and [range] raises TypeError on it: no call writes a
    JSON file. *)
Lemma file_to_delta_never_writes (file_name mode : string) (fs : Files) :
  json_files (file_to_delta file_name mode fs).2 = json_files fs.
Proof.
  unfold file_to_delta, bind.
  pose proof (__file_to_list_of_arrays_reads file_name fs) as Hfs.
  destruct (__file_to_list_of_arrays file_name fs) as [[loa|x] fs']; simpl in *;
    subst fs'; [|done].
  unfold __list_of_arrays_to_delta, bind, liftR.
  destruct (mapR _ loa) as [da|]; [|done].
  destruct (__zip_delta_array _ da) as [z|]; [|done].
  by destruct z as [|? [|? [|]]].
Qed.
End Unpack.

(** ** The schedule and the labels of the experiment *)

Section Schedule.
Context {L R : Type} `{!LayerOps L R} `{!Rng R} `{!ExperimentBase L R}.

(** Without parameters [run] trains 400 steps without nudging and 190 with. *)
Lemma default_schedule :
  __self_prediction_steps (new_experiment (L:=L) (R:=R) ∅) = 400%Z /\
  __training_steps (new_experiment (L:=L) (R:=R) ∅) = 190%Z.
Proof. by split. Qed.

(** The label of an input pattern is its AND, OR and XOR. *)
Lemma labels_are_and_or_xor i (a b : Q) y :
  _X !! i = Some [a; b] -> _Y !! i = Some y ->
  y = [a * b; a + b - a * b; a + b - 2 * a * b]%Q.
Proof.
  destruct i as [|[|[|[|i]]]]; simpl; intros [= <- <-] [= <-]; try reflexivity.
Qed.

(** The hook selects an input pattern together with its own label. *)
Lemma _hook_pre_train_step_label (e e' : AndOrExperiment L R) :
  _hook_pre_train_step e = (Ok tt, e') ->
  exists i, _current_X_index e' = Some i /\
            _current_X e' = _X !! i /\ _current_label e' = _Y !! i.
Proof.
  unfold _hook_pre_train_step. intros H.
  bind_inv H u1 e1 H1. bind_inv H step e2 H2. bind_inv H u3 e3 H3.
  bind_inv H rng e4 H4.
  destruct (integers 0 (Z.of_nat (length _X)) rng) as [index rng'].
  bind_inv H u5 e5 H5. bind_inv H u6 e6 H6. injection H6 as <- <-.
  bind_inv H x e7 Hx.
  destruct (_X !! index) as [x'|] eqn:HX; [|done]. injection Hx as <- <-.
  bind_inv H u8 e8 H8. injection H8 as <- <-.
  bind_inv H y e9 Hy.
  destruct (_Y !! index) as [y'|] eqn:HY; [|done]. injection Hy as <- <-.
  injection H as <-. exists index. simpl. by rewrite HX, HY.
Qed.
End Schedule.

(** ** The grouping of the arrays in [__file_to_list_of_arrays] *)

Section Grouping.
Import NeuronParser.

Lemma lookup_or_raise_Some {A} (l : list A) i a :
  l !! i = Some a -> lookup_or_raise l i = Ok a.
Proof. unfold lookup_or_raise. by intros ->. Qed.

Lemma lookup_or_raise_None {A} (l : list A) i :
  l !! i = None -> lookup_or_raise l i = Raise IndexError.
Proof. unfold lookup_or_raise. by intros ->. Qed.

(** The first entries seen so far, an array without entries apart. *)
Lemma max_layer_empty_array x parsed :
  [] ∈ parsed -> max_layer x parsed = Raise IndexError.
Proof.
  revert x. induction parsed as [|a parsed IH]; intros x Hin.
  - by apply elem_of_nil in Hin.
  - destruct a as [|a0 a]; [done|]. simpl.
    apply elem_of_cons in Hin as [?|Hin]; [done|]. by apply IH.
Qed.

Lemma max_layer_below_1 x parsed :
  (0 <= x)%Q -> (x < 1)%Q ->
  Forall (fun a : ndarray => exists a0, a !! 0 = Some a0 /\ (a0 < 1)%Q) parsed ->
  exists m, max_layer x parsed = Ok m /\ (0 <= m)%Q /\ (m < 1)%Q.
Proof.
  intros H0 H1 Hall. revert x H0 H1.
  induction Hall as [|a parsed (a0 & Ha & Ha0) _ IH]; intros x H0 H1; [by exists x|].
  simpl. rewrite (lookup_or_raise_Some _ _ _ Ha). simpl.
  destruct (Qle_bool a0 x) eqn:Hle; [by apply IH|].
  apply IH; [|done].
  apply Qnot_lt_le. intros Hlt. apply Qlt_le_weak in Hlt.
  assert (a0 <= x)%Q as Hax by (by apply Qle_trans with 0%Q).
  apply Qle_bool_iff in Hax. congruence.
Qed.

Lemma int_of_below_1 m : (0 <= m)%Q -> (m < 1)%Q -> int_of m = 0%Z.
Proof.
  destruct m as [num den]. unfold Qle, Qlt, int_of. simpl. intros H0 H1.
  apply Z.quot_small. lia.
Qed.

Lemma regroup_one_full grouped_arrays s k arrays_separated_by_layer :
  s + k <= length arrays_separated_by_layer -> s + k <= length grouped_arrays ->
  exists acc,
    regroup_one grouped_arrays (seq s k) arrays_separated_by_layer = Ok acc /\
    length acc = length arrays_separated_by_layer /\
    forall i layer, arrays_separated_by_layer !! i = Some layer ->
      acc !! i = Some (if decide (s <= i < s + k)
                       then layer ++ option_list (grouped_arrays !! i) else layer).
Proof.
  revert s arrays_separated_by_layer.
  induction k as [|k IH]; intros s acc0 Hacc Hgroup; simpl.
  { exists acc0. split; [done|]. split; [done|]. intros i layer Hi.
    rewrite decide_False by lia. done. }
  destruct (lookup_lt_is_Some_2 grouped_arrays s) as [a Ha]; [lia|].
  destruct (lookup_lt_is_Some_2 acc0 s) as [layer0 Hlayer0]; [lia|].
  rewrite (lookup_or_raise_Some _ _ _ Ha), (lookup_or_raise_Some _ _ _ Hlayer0). simpl.
  destruct (IH (S s) (<[s := layer0 ++ [a]]> acc0)) as (acc & Hrun & Hlen & Hacc');
    [rewrite length_insert; lia | lia |].
  exists acc. split; [done|]. rewrite length_insert in Hlen. split; [done|].
  intros i layer Hi. destruct (decide (i = s)) as [->|Hne].
  - rewrite (Hacc' s (layer0 ++ [a])).
    + rewrite decide_False by lia. rewrite decide_True by lia.
      rewrite Ha. simpl. congruence.
    + apply list_lookup_insert_eq. by apply lookup_lt_Some in Hlayer0.
  - rewrite (Hacc' i layer) by (by rewrite list_lookup_insert_ne).
    destruct (decide (S s <= i < S s + k)), (decide (s <= i < s + S k)); try done; lia.
Qed.

Lemma regroup_one_short grouped_arrays s k arrays_separated_by_layer :
  s + k <= length arrays_separated_by_layer ->
  s <= length grouped_arrays < s + k ->
  regroup_one grouped_arrays (seq s k) arrays_separated_by_layer = Raise IndexError.
Proof.
  revert s arrays_separated_by_layer.
  induction k as [|k IH]; intros s acc0 Hacc Hgroup; simpl; [lia|].
  destruct (grouped_arrays !! s) as [a|] eqn:Ha.
  - rewrite (lookup_or_raise_Some _ _ _ Ha). simpl.
    destruct (lookup_lt_is_Some_2 acc0 s) as [layer0 Hlayer0]; [lia|].
    rewrite (lookup_or_raise_Some _ _ _ Hlayer0). simpl.
    apply lookup_lt_Some in Ha.
    apply IH; [rewrite length_insert; lia | lia].
  - by rewrite (lookup_or_raise_None _ _ Ha).
Qed.

Lemma regroup_full groups n arrays_separated_by_layer :
  length arrays_separated_by_layer = n ->
  Forall (fun g : list ndarray => length g = n) groups ->
  exists acc,
    regroup groups n arrays_separated_by_layer = Ok acc /\
    length acc = n /\
    forall i layer, arrays_separated_by_layer !! i = Some layer ->
      acc !! i = Some (layer ++ column i groups).
Proof.
  intros Hlen Hall. revert arrays_separated_by_layer Hlen.
  induction Hall as [|g groups Hg _ IH]; intros acc0 Hlen; simpl.
  { exists acc0. split; [done|]. split; [done|]. intros i layer ->.
    by rewrite app_nil_r. }
  destruct (regroup_one_full g 0 n acc0) as (acc1 & Hrun1 & Hlen1 & Hacc1); [lia..|].
  rewrite Hrun1. simpl.
  destruct (IH acc1) as (acc & Hrun & Hlen' & Hacc); [lia|].
  exists acc. split; [done|]. split; [done|].
  intros i layer Hi. pose proof (lookup_lt_Some _ _ _ Hi) as Hlt.
  rewrite (Hacc i _ (Hacc1 i layer Hi)).
  rewrite decide_True by lia. unfold column. simpl.
  destruct (g !! i) as [a|] eqn:Ha; simpl.
  - by rewrite <- app_assoc.
  - apply lookup_ge_None in Ha. lia.
Qed.

Lemma regroup_short full g rest n arrays_separated_by_layer :
  length arrays_separated_by_layer = n ->
  Forall (fun g : list ndarray => length g = n) full ->
  length g < n ->
  regroup (full ++ g :: rest) n arrays_separated_by_layer = Raise IndexError.
Proof.
  intros Hlen Hall Hg. revert arrays_separated_by_layer Hlen.
  induction Hall as [|g0 full Hg0 _ IH]; intros acc0 Hlen; simpl.
  - rewrite (regroup_one_short g 0 n acc0) by lia. done.
  - destruct (regroup_one_full g0 0 n acc0) as (acc1 & Hrun1 & Hlen1 & _); [lia..|].
    rewrite Hrun1. simpl. apply IH. lia.
Qed.

Lemma groups_of_S n parsed count :
  groups_of n parsed (S count)
  = groups_of n parsed count ++ [take n (drop (count * n) parsed)].
Proof. unfold groups_of. by rewrite seq_S, !map_app. Qed.

Lemma groups_of_full n parsed count :
  count * n <= length parsed ->
  Forall (fun g : list ndarray => length g = n) (groups_of n parsed count).
Proof.
  induction count as [|count IH]; intros Hlen; [constructor|].
  rewrite groups_of_S. apply Forall_app. split; [apply IH; lia|].
  constructor; [|constructor]. rewrite length_take, length_drop. lia.
Qed.

Lemma column_groups_of n parsed count i k :
  i < n -> count * n <= length parsed ->
  column i (groups_of n parsed count) !! k
  = if decide (k < count) then parsed !! (k * n + i) else None.
Proof.
  intros Hi. induction count as [|count IH]; intros Hlen.
  { rewrite decide_False by lia. done. }
  rewrite groups_of_S. unfold column in *. rewrite omap_app. simpl.
  assert (length (omap (fun g : list ndarray => g !! i) (groups_of n parsed count)) = count)
    as Hcount.
  { clear IH. assert (count * n <= length parsed) as Hle by lia. clear Hlen.
    induction count as [|count IH]; [done|].
    rewrite groups_of_S, omap_app, length_app, IH by lia. simpl.
    rewrite lookup_take_lt, lookup_drop by done.
    destruct (lookup_lt_is_Some_2 parsed (count * n + i)) as [a ->]; [lia|]. simpl. lia. }
  rewrite lookup_take_lt, lookup_drop by done.
  destruct (lookup_lt_is_Some_2 parsed (count * n + i)) as [a Ha]; [lia|].
  rewrite Ha. simpl.
  destruct (decide (k < count)) as [Hk|Hk].
  - rewrite lookup_app_l by lia. rewrite IH by lia. by rewrite decide_True by lia.
  - rewrite lookup_app_r by lia. rewrite Hcount.
    destruct (decide (k < S count)) as [Hk'|Hk'].
    + replace k with count by lia. by rewrite Nat.sub_diag.
    + destruct (k - count) as [|j] eqn:Hj; [lia|]. done.
Qed.

Lemma range_step_ok stop n :
  1 <= n -> range_step stop n = Ok (map (fun k => k * n) (seq 0 ((stop + n - 1) / n))).
Proof.
  intros Hn. unfold range_step. destruct (n =? 0) eqn:H0; [|done].
  apply Nat.eqb_eq in H0. lia.
Qed.

Lemma separate_by_layer_unfold parsed m :
  max_layer 0%Q parsed = Ok m ->
  1 <= Z.to_nat (int_of m) ->
  let n := Z.to_nat (int_of m) in
  separate_by_layer parsed
  = regroup (groups_of n parsed ((length parsed + n - 1) / n)) n (replicate n []).
Proof.
  intros Hm Hn n. unfold separate_by_layer. rewrite Hm. simpl.
  fold n. rewrite (range_step_ok _ n Hn). done.
Qed.

Lemma ceil_div_exact len n : 1 <= n -> len mod n = 0 -> (len + n - 1) / n = len / n.
Proof.
  intros Hn Hmod.
  pose proof (Nat.div_mod_eq len n) as Hdiv. rewrite Hmod in Hdiv.
  symmetry. apply (Nat.div_unique _ _ _ (n - 1)); lia.
Qed.

Lemma ceil_div_ragged len n :
  1 <= n -> len mod n <> 0 -> (len + n - 1) / n = S (len / n).
Proof.
  intros Hn Hmod.
  pose proof (Nat.div_mod_eq len n) as Hdiv.
  pose proof (Nat.mod_upper_bound len n) as Hup.
  symmetry. apply (Nat.div_unique _ _ _ (len mod n - 1)); lia.
Qed.

Lemma separate_by_layer_exact parsed m :
  max_layer 0%Q parsed = Ok m ->
  let n := Z.to_nat (int_of m) in
  1 <= n -> length parsed mod n = 0 ->
  exists sep,
    separate_by_layer parsed = Ok sep /\ length sep = n /\
    forall i, i < n -> sep !! i = Some (column i (groups_of n parsed (length parsed / n))).
Proof.
  intros Hm n Hn Hmod.
  rewrite (separate_by_layer_unfold parsed m Hm Hn). fold n.
  rewrite (ceil_div_exact _ _ Hn Hmod).
  pose proof (Nat.div_mod_eq (length parsed) n) as Hdiv. rewrite Hmod in Hdiv.
  destruct (regroup_full (groups_of n parsed (length parsed / n)) n (replicate n []))
    as (sep & Hrun & Hlen & Hsep).
  { by rewrite length_replicate. }
  { apply groups_of_full. lia. }
  exists sep. split; [done|]. split; [done|].
  intros i Hi. rewrite (Hsep i []); [done|]. by apply lookup_replicate_2.
Qed.

Lemma separate_by_layer_ragged parsed m :
  max_layer 0%Q parsed = Ok m ->
  let n := Z.to_nat (int_of m) in
  1 <= n -> length parsed mod n <> 0 ->
  separate_by_layer parsed = Raise IndexError.
Proof.
  intros Hm n Hn Hmod.
  rewrite (separate_by_layer_unfold parsed m Hm Hn). fold n.
  rewrite (ceil_div_ragged _ _ Hn Hmod), groups_of_S.
  pose proof (Nat.div_mod_eq (length parsed) n) as Hdiv.
  pose proof (Nat.mod_upper_bound (length parsed) n) as Hup.
  apply regroup_short.
  - by rewrite length_replicate.
  - apply groups_of_full. lia.
  - rewrite length_take, length_drop. lia.
Qed.

Lemma separate_by_layer_no_layer parsed m :
  max_layer 0%Q parsed = Ok m -> Z.to_nat (int_of m) = 0 ->
  separate_by_layer parsed = Raise ValueError.
Proof.
  intros Hm Hn. unfold separate_by_layer. rewrite Hm. simpl. by rewrite Hn.
Qed.

(** X1: how the grouping at the end of [__file_to_list_of_arrays] ends.  A
    recording with an empty array raises IndexError; one whose layer
    numbers are all below 1 (or that has no array at all) raises ValueError,
    from a [range] with step 0; otherwise, with [n >= 1] the integer part
    of the largest layer number, a number of arrays that is not a multiple of [n] raises
    IndexError and a multiple of [n] gives [n] layers. *)
Theorem separate_by_layer_outcome (parsed_arrays : list ndarray) :
  ([] ∈ parsed_arrays -> separate_by_layer parsed_arrays = Raise IndexError) /\
  (Forall (fun a : ndarray => exists a0, a !! 0 = Some a0 /\ (a0 < 1)%Q) parsed_arrays ->
   separate_by_layer parsed_arrays = Raise ValueError) /\
  (forall layer_amount, max_layer 0%Q parsed_arrays = Ok layer_amount ->
     let n := Z.to_nat (int_of layer_amount) in
     1 <= n ->
     (length parsed_arrays mod n <> 0 ->
      separate_by_layer parsed_arrays = Raise IndexError) /\
     (length parsed_arrays mod n = 0 ->
      exists sep, separate_by_layer parsed_arrays = Ok sep /\ length sep = n)).
Proof.
  split; [|split].
  - intros Hin. unfold separate_by_layer.
    by rewrite (max_layer_empty_array _ _ Hin).
  - intros Hall.
    destruct (max_layer_below_1 0%Q parsed_arrays) as (m & Hm & H0 & H1); [done..|].
    apply (separate_by_layer_no_layer _ m Hm).
    by rewrite (int_of_below_1 m H0 H1).
  - intros m Hm n Hn. split.
    + by apply separate_by_layer_ragged.
    + intros Hmod.
      destruct (separate_by_layer_exact parsed_arrays m Hm Hn Hmod) as (sep & ? & ? & _).
      by exists sep.
Qed.

Lemma separate_by_layer_inv parsed sep :
  separate_by_layer parsed = Ok sep ->
  exists m, max_layer 0%Q parsed = Ok m /\ length sep = Z.to_nat (int_of m) /\
            1 <= length sep /\ length parsed mod length sep = 0 /\
            forall i, i < length sep ->
              sep !! i = Some (column i (groups_of (length sep) parsed
                                                   (length parsed / length sep))).
Proof.
  intros Hsep.
  destruct (max_layer 0%Q parsed) as [m|x] eqn:Hm;
    [|unfold separate_by_layer in Hsep; by rewrite Hm in Hsep].
  exists m. split; [done|].
  destruct (decide (Z.to_nat (int_of m) = 0)) as [H0|H0].
  { by rewrite (separate_by_layer_no_layer _ m Hm H0) in Hsep. }
  destruct (decide (length parsed mod Z.to_nat (int_of m) = 0)) as [Hmod|Hmod].
  - destruct (separate_by_layer_exact parsed m Hm ltac:(lia) Hmod)
      as (sep' & Hrun & Hlen & Hcols).
    rewrite Hrun in Hsep. injection Hsep as ->. rewrite Hlen.
    split; [done|]. split; [lia|]. by split.
  - rewrite (separate_by_layer_ragged parsed m Hm) in Hsep; [done|lia|done].
Qed.

(** X2: when the grouping returns, there are [n >= 1] layers, the number
    of arrays is a multiple of [n], every layer has as many arrays as there
    are groups, and array [k] of layer [i] is array [k * n + i] of the
    file: layers are told apart by position, not by the layer number an
    array starts with. *)
Theorem separate_by_layer_transposes (parsed_arrays : list ndarray)
    (arrays_separated_by_layer : list (list ndarray)) :
  separate_by_layer parsed_arrays = Ok arrays_separated_by_layer ->
  let n := length arrays_separated_by_layer in
  1 <= n /\
  length parsed_arrays mod n = 0 /\
  Forall (fun layer : list ndarray => length layer = length parsed_arrays / n)
         arrays_separated_by_layer /\
  forall i k, i < n ->
    arrays_separated_by_layer !! i ≫= (fun layer => layer !! k)
    = parsed_arrays !! (k * n + i).
Proof.
  intros Hsep n.
  destruct (separate_by_layer_inv _ _ Hsep) as (m & Hm & Hlen & Hn & Hmod & Hcols).
  fold n in Hlen, Hn, Hmod, Hcols.
  pose proof (Nat.div_mod_eq (length parsed_arrays) n) as Hdiv. rewrite Hmod in Hdiv.
  assert (forall i k, i < n ->
            arrays_separated_by_layer !! i ≫= (fun layer => layer !! k)
            = parsed_arrays !! (k * n + i)) as Hlookup.
  { intros i k Hi. rewrite (Hcols i Hi). simpl.
    rewrite column_groups_of by lia.
    destruct (decide (k < length parsed_arrays / n)) as [Hk|Hk]; [done|].
    symmetry. apply lookup_ge_None. nia. }
  split; [done|]. split; [done|]. split; [|done].
  apply Forall_lookup. intros i layer Hlayer.
  pose proof (lookup_lt_Some _ _ _ Hlayer) as Hi. fold n in Hi.
  set (T := length parsed_arrays / n) in *.
  destruct (decide (length layer = T)) as [|Hne]; [done|].
  exfalso.
  destruct (decide (length layer < T)) as [Hlt|Hge].
  - pose proof (Hlookup i (length layer) Hi) as Hl. rewrite Hlayer in Hl. simpl in Hl.
    rewrite (proj2 (lookup_ge_None layer (length layer))) in Hl by lia.
    symmetry in Hl. apply lookup_ge_None in Hl. nia.
  - pose proof (Hlookup i T Hi) as Hl. rewrite Hlayer in Hl. simpl in Hl.
    destruct (lookup_lt_is_Some_2 layer T) as [a Ha]; [lia|]. rewrite Ha in Hl.
    symmetry in Hl. apply lookup_lt_Some in Hl. nia.
Qed.

End Grouping.

(** ** The deltas of a layer *)

Section Deltas.
Import NeuronParser.

(** A float minus itself is zero, and nan when it is an infinity. *)
Lemma float64_sub_diag (x : Q) :
  float64_sub x x = if in_float64_range x then Finite 0 else Nan.
Proof.
  unfold float64_sub, in_float64_range.
  destruct (binary64_of_Q x) as [[|]|[|]| |s m e]; try reflexivity.
  unfold SpecFloat.SFsub. by rewrite Z.sub_diag.
Qed.

(** The subtraction rounds: a difference that no float holds is replaced
    by the nearest one, so subtracting a small number can change nothing;
    a difference beyond the largest float is an infinity; and the tenths
    are the floats nearest to them. *)
Lemma float64_sub_rounds :
  float64_sub 1 (1 # 2 ^ 60) = Finite 1 /\
  float64_sub (inject_Z (2 ^ 1023)) (- inject_Z (2 ^ 1023)) = Inf false /\
  float64_sub (- inject_Z (2 ^ 1023)) (inject_Z (2 ^ 1023)) = Inf true /\
  float64_sub (inject_Z (2 ^ 1024)) (inject_Z (2 ^ 1024)) = Nan /\
  float64_sub (3 # 4) (1 # 4) = Finite (1 # 2) /\
  float64_sub (3 # 10) (1 # 10) = Finite (7205759403792793 # 36028797018963968) /\
  float64_sub (3 # 10) (1 # 10) <> Finite (2 # 10).
Proof. repeat split; try (vm_compute; reflexivity). vm_compute. discriminate. Qed.

Lemma delta_from_cons ndl prev index value rest :
  delta_from ndl prev index (value :: rest)
  = rbind (if index =? 0 then Ok []
           else if negb ((index - 1) mod ndl =? 0)
                then rbind (lookup_or_raise prev index) (fun p => Ok [float64_sub p value])
                else Ok [Finite value])
          (fun d => rbind (delta_from ndl prev (S index) rest) (fun ds => Ok (d ++ ds))).
Proof. reflexivity. Qed.

Lemma delta_from_raises ndl prev index cur e :
  delta_from ndl prev index cur = Raise e -> e = IndexError.
Proof.
  revert index. induction cur as [|v cur IH]; intros index H; [done|].
  rewrite delta_from_cons in H.
  destruct (index =? 0); simpl in H.
  - destruct (delta_from ndl prev (S index) cur) eqn:Hrest; simpl in H; [done|].
    injection H as <-. by apply (IH (S index)).
  - destruct (negb _); simpl in H.
    + unfold lookup_or_raise in H. destruct (prev !! index); simpl in H; [|congruence].
      destruct (delta_from ndl prev (S index) cur) eqn:Hrest; simpl in H; [done|].
      injection H as <-. by apply (IH (S index)).
    + destruct (delta_from ndl prev (S index) cur) eqn:Hrest; simpl in H; [done|].
      injection H as <-. by apply (IH (S index)).
Qed.

Lemma delta_from_S ndl prev i cur d :
  delta_from ndl prev (S i) cur = Ok d ->
  length d = length cur /\
  forall j v, cur !! j = Some v ->
    ((i + j) mod ndl = 0 -> d !! j = Some (Finite v)) /\
    ((i + j) mod ndl <> 0 ->
     exists p, prev !! S (i + j) = Some p /\ d !! j = Some (float64_sub p v)).
Proof.
  revert i d. induction cur as [|v0 cur IH]; intros i d H.
  { injection H as <-. split; [done|]. by intros j v Hj. }
  rewrite delta_from_cons in H. simpl (S i =? 0) in H. cbv iota in H.
  replace (S i - 1) with i in H by lia.
  destruct (Nat.eqb_spec (i mod ndl) 0) as [Hid|Hid]; simpl in H.
  - destruct (delta_from ndl prev (S (S i)) cur) as [ds|] eqn:Hrest; [|done].
    simpl in H. injection H as <-.
    destruct (IH (S i) ds Hrest) as (Hlen & Hds). split; [simpl; lia|].
    intros [|j] v Hj; simpl in Hj.
    + injection Hj as <-. rewrite Nat.add_0_r. split; [done|]. by intros ?.
    + replace (i + S j) with (S i + j) by lia. by apply Hds.
  - unfold lookup_or_raise in H. destruct (prev !! S i) as [p|] eqn:Hp; [|done].
    simpl in H.
    destruct (delta_from ndl prev (S (S i)) cur) as [ds|] eqn:Hrest; [|done].
    simpl in H. injection H as <-.
    destruct (IH (S i) ds Hrest) as (Hlen & Hds). split; [simpl; lia|].
    intros [|j] v Hj; simpl in Hj.
    + injection Hj as <-. rewrite Nat.add_0_r. split; [done|]. intros _. by exists p.
    + replace (i + S j) with (S i + j) by lia. by apply Hds.
Qed.

(** What one pass of the inner loop of [__calculate_deltas] returns. *)
Lemma delta_from_0 ndl prev cur d :
  delta_from ndl prev 0 cur = Ok d ->
  length d = length cur - 1 /\
  forall j v, cur !! S j = Some v ->
    (j mod ndl = 0 -> d !! j = Some (Finite v)) /\
    (j mod ndl <> 0 ->
     exists p, prev !! S j = Some p /\ d !! j = Some (float64_sub p v)).
Proof.
  destruct cur as [|v0 cur]; intros H.
  { injection H as <-. split; [done|]. by intros j v Hj. }
  rewrite delta_from_cons in H. simpl in H.
  destruct (delta_from ndl prev 1 cur) as [ds|] eqn:Hrest; [|done].
  simpl in H. injection H as <-.
  destruct (delta_from_S ndl prev 0 cur ds Hrest) as (Hlen & Hds).
  split; [simpl; lia|]. intros j v Hj. simpl in Hj. by apply (Hds j v).
Qed.

Lemma delta_from_total ndl prev index cur :
  index + length cur <= length prev ->
  exists d, delta_from ndl prev index cur = Ok d.
Proof.
  revert index. induction cur as [|v cur IH]; intros index Hlen; [by eexists|].
  simpl in Hlen. rewrite delta_from_cons.
  destruct (IH (S index)) as [ds ->]; [lia|].
  destruct (lookup_lt_is_Some_2 prev index) as [p Hp]; [lia|].
  rewrite (lookup_or_raise_Some _ _ _ Hp).
  destruct (index =? 0); [by eexists|]. destruct (negb _); by eexists.
Qed.

Lemma deltas_from_raises ndl prev arrays e :
  deltas_from ndl prev arrays = Raise e -> e = IndexError.
Proof.
  revert prev. induction arrays as [|cur arrays IH]; intros prev H; [done|].
  simpl in H. destruct (delta_from ndl prev 0 cur) as [d|x] eqn:Hd; simpl in H.
  - destruct (deltas_from ndl cur arrays) as [ds|x] eqn:Hds; simpl in H; [done|].
    injection H as <-. by apply (IH cur).
  - injection H as <-. by apply delta_from_raises in Hd.
Qed.

Lemma deltas_from_lookup ndl prev arrays deltas :
  deltas_from ndl prev arrays = Ok deltas ->
  length deltas = length arrays /\
  forall k cur, arrays !! k = Some cur ->
    exists d, deltas !! k = Some d /\
              delta_from ndl (previous_of prev arrays k) 0 cur = Ok d.
Proof.
  revert prev deltas. induction arrays as [|a arrays IH]; intros prev deltas H.
  { injection H as <-. split; [done|]. by intros k cur Hk. }
  simpl in H. destruct (delta_from ndl prev 0 a) as [d|] eqn:Hd; [|done]. simpl in H.
  destruct (deltas_from ndl a arrays) as [ds|] eqn:Hds; [|done]. simpl in H.
  injection H as <-. destruct (IH a ds Hds) as (Hlen & Hlookup).
  split; [simpl; lia|]. intros [|k] cur Hk; simpl in Hk.
  - injection Hk as <-. by exists d.
  - destruct (Hlookup k cur Hk) as (d' & Hd' & Hrun). exists d'. split; [done|].
    destruct k as [|k]; simpl in *; [done|].
    done.
Qed.

Lemma deltas_from_total ndl prev arrays m :
  length prev = m -> Forall (fun a : ndarray => length a = m) arrays ->
  exists deltas, deltas_from ndl prev arrays = Ok deltas.
Proof.
  intros Hprev Hall. revert prev Hprev.
  induction Hall as [|a arrays Ha _ IH]; intros prev Hprev; [by eexists|].
  simpl. destruct (delta_from_total ndl prev 0 a) as [d ->]; [lia|]. simpl.
  destruct (IH a Ha) as [ds ->]. by eexists.
Qed.

Lemma __calculate_deltas_unfold list_of_arrays mode first :
  list_of_arrays !! 0 = Some first ->
  __calculate_deltas list_of_arrays mode
  = deltas_from (neuron_data_length mode) first list_of_arrays.
Proof.
  intros H. unfold __calculate_deltas. by rewrite (lookup_or_raise_Some _ _ _ H).
Qed.

Lemma __calculate_deltas_lookup list_of_arrays mode deltas :
  __calculate_deltas list_of_arrays mode = Ok deltas ->
  length deltas = length list_of_arrays /\
  forall k cur, list_of_arrays !! k = Some cur ->
    exists prev d,
      list_of_arrays !! (k - 1) = Some prev /\ deltas !! k = Some d /\
      delta_from (neuron_data_length mode) prev 0 cur = Ok d.
Proof.
  intros H. destruct (list_of_arrays !! 0) as [first|] eqn:Hfirst.
  - rewrite (__calculate_deltas_unfold _ _ _ Hfirst) in H.
    destruct (deltas_from_lookup _ _ _ _ H) as (Hlen & Hlookup).
    split; [done|]. intros k cur Hk.
    destruct (Hlookup k cur Hk) as (d & Hd & Hrun).
    destruct k as [|k]; simpl in *.
    + exists first, d. by rewrite Hfirst.
    + rewrite Nat.sub_0_r.
      destruct (lookup_lt_is_Some_2 list_of_arrays k) as [prev Hprev].
      { apply lookup_lt_Some in Hk. simpl in Hk. lia. }
      exists prev, d. rewrite Hprev in Hrun. done.
  - unfold __calculate_deltas in H. by rewrite (lookup_or_raise_None _ _ Hfirst) in H.
Qed.

(** X3: the result of [__calculate_deltas] in closed form.  There is one
    delta per array; the delta of array [k] is computed against array
    [k - 1] (the first against itself), has one entry less than the array,
    keeps a neuron's number as it is and holds elsewhere the float
    difference, previous minus current, with its rounding and its
    infinities.  So in the first delta every entry but the neuron numbers is
    zero, or nan where the value recorded is beyond the finite floats. *)
Theorem __calculate_deltas_closed_form (list_of_arrays : list ndarray) (mode : string)
    (deltas : list (list float64)) :
  __calculate_deltas list_of_arrays mode = Ok deltas ->
  let neuron_data_length := if String.eqb mode "p" then 5 else 4 in
  length deltas = length list_of_arrays /\
  (forall k current_array, list_of_arrays !! k = Some current_array ->
     exists previous_array delta,
       list_of_arrays !! (k - 1) = Some previous_array /\
       deltas !! k = Some delta /\
       length delta = length current_array - 1 /\
       forall j value, current_array !! S j = Some value ->
         (j mod neuron_data_length = 0 -> delta !! j = Some (Finite value)) /\
         (j mod neuron_data_length <> 0 ->
          exists p, previous_array !! S j = Some p /\
                    delta !! j = Some (float64_sub p value))) /\
  (forall delta j x, deltas !! 0 = Some delta -> delta !! j = Some x ->
     j mod neuron_data_length <> 0 ->
     exists first value,
       list_of_arrays !! 0 = Some first /\ first !! S j = Some value /\
       x = if in_float64_range value then Finite 0 else Nan).
Proof.
  intros H ndl.
  destruct (__calculate_deltas_lookup _ _ _ H) as (Hlen & Hlookup).
  split; [done|]. split.
  - intros k cur Hk. destruct (Hlookup k cur Hk) as (prev & d & Hprev & Hd & Hrun).
    exists prev, d. split; [done|]. split; [done|]. by apply delta_from_0.
  - intros d j x Hd Hx Hj.
    destruct (lookup_lt_is_Some_2 list_of_arrays 0) as [first Hfirst].
    { apply lookup_lt_Some in Hd. lia. }
    destruct (Hlookup 0 first Hfirst) as (prev & d' & Hprev & Hd' & Hrun).
    simpl in Hprev. rewrite Hfirst in Hprev. injection Hprev as <-.
    rewrite Hd in Hd'. injection Hd' as <-.
    destruct (delta_from_0 _ _ _ _ Hrun) as (Hdlen & Hentries).
    destruct (lookup_lt_is_Some_2 first (S j)) as [v Hv].
    { apply lookup_lt_Some in Hx. lia. }
    destruct (proj2 (Hentries j v Hv) Hj) as (p & Hp & Hdj).
    rewrite Hv in Hp. injection Hp as <-. rewrite Hx in Hdj. injection Hdj as ->.
    exists first, v. split; [done|]. split; [done|]. apply float64_sub_diag.
Qed.

(** X4: when [__calculate_deltas] returns.  On no array it raises
    IndexError; on arrays of one length it returns; and an array that has a
    value, not a neuron's number, at a position that the array before it
    lacks makes it raise IndexError. *)
Theorem __calculate_deltas_outcome (list_of_arrays : list ndarray) (mode : string) :
  let neuron_data_length := if String.eqb mode "p" then 5 else 4 in
  (list_of_arrays = [] -> __calculate_deltas list_of_arrays mode = Raise IndexError) /\
  (forall m, list_of_arrays <> [] ->
     Forall (fun a : ndarray => length a = m) list_of_arrays ->
     exists deltas, __calculate_deltas list_of_arrays mode = Ok deltas) /\
  (forall k previous_array current_array index,
     list_of_arrays !! k = Some previous_array ->
     list_of_arrays !! S k = Some current_array ->
     length previous_array <= index < length current_array ->
     1 <= index -> (index - 1) mod neuron_data_length <> 0 ->
     __calculate_deltas list_of_arrays mode = Raise IndexError).
Proof.
  intros ndl. split; [by intros ->|]. split.
  - intros m Hne Hall. destruct list_of_arrays as [|first rest]; [done|].
    rewrite (__calculate_deltas_unfold _ _ first) by done.
    apply (deltas_from_total _ _ _ m); [|done].
    by apply Forall_cons in Hall as [? _].
  - intros k prev cur index Hprev Hcur Hindex H1 Hid.
    destruct (__calculate_deltas list_of_arrays mode) as [deltas|e] eqn:H.
    + exfalso.
      destruct (__calculate_deltas_lookup _ _ _ H) as (_ & Hlookup).
      destruct (Hlookup (S k) cur Hcur) as (prev' & d & Hprev' & _ & Hrun).
      simpl in Hprev'. rewrite Nat.sub_0_r, Hprev in Hprev'. injection Hprev' as <-.
      destruct (delta_from_0 _ _ _ _ Hrun) as (_ & Hentries).
      destruct (lookup_lt_is_Some_2 cur (S (index - 1))) as [v Hv]; [lia|].
      destruct (proj2 (Hentries (index - 1) v Hv) Hid) as (p & Hp & _).
      apply lookup_lt_Some in Hp. lia.
    + f_equal. unfold __calculate_deltas in H.
      destruct (lookup_or_raise list_of_arrays 0) as [first|x] eqn:Hfirst; simpl in H.
      * by apply deltas_from_raises in H.
      * unfold lookup_or_raise in Hfirst. destruct (list_of_arrays !! 0); congruence.
Qed.

(** ** Zipping *)

Lemma mapR_total {A B} (f : A -> result B) (xs : list A) :
  Forall (fun x => exists y, f x = Ok y) xs -> exists ys, mapR f xs = Ok ys.
Proof.
  induction 1 as [|x xs [y Hy] _ [ys IH]]; [by eexists|].
  simpl. rewrite Hy, IH. by eexists.
Qed.

Lemma div_mod_interleave n t l : l < n -> (t * n + l) / n = t /\ (t * n + l) mod n = l.
Proof.
  intros Hl. split.
  - symmetry. apply (Nat.div_unique _ _ _ l); lia.
  - symmetry. apply (Nat.mod_unique _ _ t); lia.
Qed.

Lemma __zip_delta_array_lookup num_layers delta_array first zipped :
  delta_array !! 0 = Some first ->
  __zip_delta_array num_layers delta_array = Ok zipped ->
  length zipped = length first * num_layers /\
  forall t l, l < num_layers -> t < length first ->
    exists layer d, delta_array !! l = Some layer /\ layer !! t = Some d /\
                    zipped !! (t * num_layers + l) = Some d.
Proof.
  intros Hfirst H. unfold __zip_delta_array in H.
  rewrite (lookup_or_raise_Some _ _ _ Hfirst) in H. simpl in H.
  pose proof (mapR_length _ _ _ H) as Hlen. rewrite length_seq in Hlen.
  split; [done|]. intros t l Hl Ht.
  destruct (mapR_lookup _ _ _ (t * num_layers + l) (t * num_layers + l) H)
    as (d & Hd & Hf).
  { apply lookup_seq. split; [done|]. nia. }
  destruct (div_mod_interleave num_layers t l Hl) as [Hdiv Hmod].
  rewrite Hdiv, Hmod in Hf. unfold lookup_or_raise in Hf.
  destruct (delta_array !! l) as [layer|]; [|done]. simpl in Hf.
  destruct (layer !! t) as [d'|] eqn:Hd'; [|done]. injection Hf as ->.
  by exists layer, d.
Qed.

Lemma __zip_delta_array_total num_layers delta_array first :
  delta_array !! 0 = Some first ->
  num_layers <= length delta_array ->
  Forall (fun layer : list (list float64) => length first <= length layer)
         (take num_layers delta_array) ->
  exists zipped, __zip_delta_array num_layers delta_array = Ok zipped.
Proof.
  intros Hfirst Hn Hall. unfold __zip_delta_array.
  rewrite (lookup_or_raise_Some _ _ _ Hfirst). simpl.
  apply mapR_total, Forall_forall. intros i Hi.
  apply elem_of_seq in Hi as [_ Hi]. simpl in Hi.
  assert (1 <= num_layers) as Hpos by (destruct num_layers; lia).
  pose proof (Nat.mod_upper_bound i num_layers) as Hmod.
  pose proof (Nat.div_mod_eq i num_layers) as Hdiv.
  destruct (lookup_lt_is_Some_2 delta_array (i mod num_layers)) as [layer Hlayer]; [lia|].
  rewrite (lookup_or_raise_Some _ _ _ Hlayer). simpl.
  assert (length first <= length layer) as Hlong.
  { apply (proj1 (Forall_lookup _ _) Hall (i mod num_layers)).
    rewrite lookup_take_lt by lia. done. }
  destruct (lookup_lt_is_Some_2 layer (i / num_layers)) as [d Hd]; [nia|].
  rewrite (lookup_or_raise_Some _ _ _ Hd). by eexists.
Qed.

(** X5: [__zip_delta_array] interleaves the layers.  On no layer it
    raises IndexError; it returns when the first [num_layers] layers are at
    least as long as the first one; and what it returns has
    [len(delta_array[0]) * num_layers] deltas, delta [t] of layer [l] at
    position [t * num_layers + l]. *)
Theorem __zip_delta_array_interleaves (num_layers : nat)
    (delta_array : list (list (list float64))) :
  (delta_array = [] -> __zip_delta_array num_layers delta_array = Raise IndexError) /\
  (forall first, delta_array !! 0 = Some first ->
     (num_layers <= length delta_array ->
      Forall (fun layer : list (list float64) => length first <= length layer)
             (take num_layers delta_array) ->
      exists zipped, __zip_delta_array num_layers delta_array = Ok zipped) /\
     (forall zipped, __zip_delta_array num_layers delta_array = Ok zipped ->
        length zipped = length first * num_layers /\
        forall t l, l < num_layers -> t < length first ->
          exists layer d, delta_array !! l = Some layer /\ layer !! t = Some d /\
                          zipped !! (t * num_layers + l) = Some d)).
Proof.
  split; [by intros ->|]. intros first Hfirst. split.
  - by apply __zip_delta_array_total.
  - intros zipped. by apply __zip_delta_array_lookup.
Qed.

(** ** The whole path from the parsed arrays to the zipped deltas *)

Lemma mapR_lookup_inv {A B} (f : A -> result B) (xs : list A) (ys : list B) i y :
  mapR f xs = Ok ys -> ys !! i = Some y -> exists x, xs !! i = Some x /\ f x = Ok y.
Proof.
  intros H Hy. pose proof (mapR_length _ _ _ H) as Hlen.
  destruct (lookup_lt_is_Some_2 xs i) as [x Hx].
  { apply lookup_lt_Some in Hy. lia. }
  destruct (mapR_lookup _ _ _ _ _ H Hx) as (y' & Hy' & Hf).
  exists x. split; [done|]. congruence.
Qed.

Lemma zipped_deltas (parsed : list ndarray) (sep : list (list ndarray))
    (mode : string) (delta_array : list (list (list float64))) :
  separate_by_layer parsed = Ok sep ->
  mapR (fun array => __calculate_deltas array mode) sep = Ok delta_array ->
  exists zipped,
    __zip_delta_array (length sep) delta_array = Ok zipped /\
    length zipped = length parsed /\
    forall j cur, parsed !! j = Some cur ->
      exists prev d,
        parsed !! (if j <? length sep then j else j - length sep) = Some prev /\
        zipped !! j = Some d /\
        delta_from (neuron_data_length mode) prev 0 cur = Ok d.
Proof.
  intros Hsep Hda. set (n := length sep).
  destruct (separate_by_layer_inv _ _ Hsep) as (m & Hm & Hlen & Hn & Hmod & Hcols).
  fold n in Hlen, Hn, Hmod, Hcols.
  pose proof (Nat.div_mod_eq (length parsed) n) as Hdiv. rewrite Hmod in Hdiv.
  set (T := length parsed / n) in *.
  assert (forall i k, i < n -> sep !! i ≫= (fun layer => layer !! k)
                               = parsed !! (k * n + i)) as Hcell.
  { intros i k Hi. rewrite (Hcols i Hi). simpl. rewrite column_groups_of by lia.
    case_decide; [done|]. symmetry. apply lookup_ge_None. nia. }
  assert (forall i layer, sep !! i = Some layer -> length layer = T) as HT.
  { intros i layer Hlayer. pose proof (lookup_lt_Some _ _ _ Hlayer) as Hi. fold n in Hi.
    destruct (decide (length layer = T)) as [|Hne]; [done|]. exfalso.
    destruct (decide (length layer < T)) as [Hlt|Hge].
    - pose proof (Hcell i (length layer) Hi) as Hl. rewrite Hlayer in Hl. simpl in Hl.
      rewrite (proj2 (lookup_ge_None layer (length layer))) in Hl by lia.
      symmetry in Hl. apply lookup_ge_None in Hl. nia.
    - pose proof (Hcell i T Hi) as Hl. rewrite Hlayer in Hl. simpl in Hl.
      destruct (lookup_lt_is_Some_2 layer T) as [a Ha]; [lia|]. rewrite Ha in Hl.
      symmetry in Hl. apply lookup_lt_Some in Hl. nia. }
  pose proof (mapR_length _ _ _ Hda) as Hdalen. fold n in Hdalen.
  assert (forall l deltas, delta_array !! l = Some deltas ->
            exists layer, sep !! l = Some layer /\ length deltas = T /\
                          __calculate_deltas layer mode = Ok deltas) as Hlayers.
  { intros l deltas Hl.
    destruct (mapR_lookup_inv _ _ _ _ _ Hda Hl) as (layer & Hlayer & Hcalc).
    exists layer. split; [done|]. split; [|done].
    destruct (__calculate_deltas_lookup _ _ _ Hcalc) as (-> & _). by apply (HT l). }
  destruct (lookup_lt_is_Some_2 delta_array 0) as [first Hfirst]; [lia|].
  destruct (Hlayers 0 first Hfirst) as (_ & _ & Hfirstlen & _).
  destruct (__zip_delta_array_total n delta_array first Hfirst) as [zipped Hzip]; [lia| |].
  { apply Forall_lookup. intros l deltas Hl. apply lookup_take_Some in Hl as [Hl _].
    destruct (Hlayers l deltas Hl) as (_ & _ & -> & _). lia. }
  exists zipped. split; [done|].
  destruct (__zip_delta_array_lookup _ _ _ _ Hfirst Hzip) as (Hzlen & Hz).
  split; [lia|]. intros j cur Hj.
  pose proof (lookup_lt_Some _ _ _ Hj) as Hjlt.
  pose proof (Nat.div_mod_eq j n) as Hjdiv.
  pose proof (Nat.mod_upper_bound j n) as Hjmod.
  set (t := j / n) in *. set (l := j mod n) in *.
  assert (t < T) as Ht by nia.
  destruct (Hz t l) as (deltas & d & Hdeltas & Hd & Hzj); [lia..|].
  replace (t * n + l) with j in Hzj by lia.
  destruct (Hlayers l deltas Hdeltas) as (layer & Hlayer & _ & Hcalc).
  destruct (__calculate_deltas_lookup _ _ _ Hcalc) as (_ & Hlookup).
  assert (layer !! t = Some cur) as Hcur.
  { pose proof (Hcell l t ltac:(lia)) as Hc. rewrite Hlayer in Hc. simpl in Hc.
    replace (t * n + l) with j in Hc by lia. congruence. }
  destruct (Hlookup t cur Hcur) as (prev & d' & Hprev & Hd' & Hrun).
  rewrite Hd in Hd'. injection Hd' as <-.
  exists prev, d. split; [|done].
  pose proof (Hcell l (t - 1) ltac:(lia)) as Hc. rewrite Hlayer in Hc. simpl in Hc.
  rewrite Hprev in Hc. rewrite Hc. f_equal.
  destruct (Nat.ltb_spec j n) as [Hlt|Hge].
  - assert (t = 0) as -> by nia. simpl. lia.
  - assert (1 <= t) by nia. nia.
Qed.

(** X6: grouping, taking deltas and zipping compose to a list in the
    order of the recording.  When the first two return, the zipping
    returns as well, with one delta per array of the file, and the delta at
    position [j] is that of array [j] against array [j - num_layers], for
    the first [num_layers] arrays against themselves. *)
Theorem zipped_deltas_follow_the_recording (parsed_arrays : list ndarray)
    (list_of_arrays : list (list ndarray)) (mode : string)
    (delta_array : list (list (list float64))) :
  separate_by_layer parsed_arrays = Ok list_of_arrays ->
  mapR (fun array => __calculate_deltas array mode) list_of_arrays = Ok delta_array ->
  let num_layers := length list_of_arrays in
  exists zipped_delta_array,
    __zip_delta_array num_layers delta_array = Ok zipped_delta_array /\
    length zipped_delta_array = length parsed_arrays /\
    forall j current_array, parsed_arrays !! j = Some current_array ->
      exists previous_array delta,
        parsed_arrays !! (if j <? num_layers then j else j - num_layers)
          = Some previous_array /\
        zipped_delta_array !! j = Some delta /\
        delta_from (if String.eqb mode "p" then 5 else 4) previous_array 0 current_array
          = Ok delta.
Proof.
  intros Hsep Hda num_layers.
  destruct (zipped_deltas _ _ _ _ Hsep Hda) as (zipped & Hzip & Hlen & Hentries).
  exists zipped. split; [done|]. split; [done|]. exact Hentries.
Qed.

(** ** [file_to_delta] never returns *)

(** X7: [file_to_delta] never returns and writes no file: whatever the
    recording holds, it ends in an exception and leaves the files as they
    are.  When the zipped deltas are exactly two, so that the unpacking of
    [__list_of_arrays_to_delta] passes, the exception is the TypeError of
    [range] on a list. *)
Theorem file_to_delta_always_raises (file_name mode : string) (fs : Files) :
  (exists e, file_to_delta file_name mode fs = (Raise e, fs)) /\
  (forall list_of_arrays delta_array zipped,
     (__file_to_list_of_arrays file_name fs).1 = Ok list_of_arrays ->
     mapR (fun array => __calculate_deltas array mode) list_of_arrays = Ok delta_array ->
     __zip_delta_array (length list_of_arrays) delta_array = Ok zipped ->
     length zipped = 2 ->
     file_to_delta file_name mode fs = (Raise TypeError, fs)).
Proof.
  pose proof (__file_to_list_of_arrays_reads file_name fs) as Hfs.
  unfold file_to_delta, bind.
  destruct (__file_to_list_of_arrays file_name fs) as [[loa|x] fs'] eqn:Hread;
    simpl in Hfs; subst fs'; [|split; [by eexists | by intros ? ? ? [=]]].
  unfold __list_of_arrays_to_delta, bind, liftR.
  destruct (mapR _ loa) as [da|x] eqn:Hda.
  - destruct (__zip_delta_array _ da) as [z|x] eqn:Hzip.
    + split; [destruct z as [|? [|? [|]]]; by eexists|].
      intros loa' da' z' H1 H2 H3 Hlen. simpl in H1. injection H1 as <-.
      rewrite Hda in H2. injection H2 as <-.
      rewrite Hzip in H3. injection H3 as <-.
      by destruct z as [|? [|? [|]]].
    + split; [by eexists|]. intros loa' da' z' H1 H2 H3 _. simpl in H1.
      injection H1 as <-. rewrite Hda in H2. injection H2 as <-. congruence.
  - split; [by eexists|]. intros loa' da' z' H1 H2 _ _. simpl in H1.
    injection H1 as <-. congruence.
Qed.

End Deltas.

(** ** Writing the layers to the files *)

Section Extractor.
Import SpecLayer VisualExtractor.
Context (array2string : list Q -> string).

Lemma pyramidal_loop ps self :
  forM ps (fun neuron =>
    append_pyramidal (float_of_nat (pyr_id_num neuron)) ;;;
    append_pyramidal (apical_mp neuron) ;;;
    append_pyramidal (basal_mp neuron) ;;;
    append_pyramidal (soma_mp neuron) ;;;
    append_pyramidal (soma_act neuron)) self
  = (Ok tt, set_pyramidal_weights
              (pyramidal_weights self
               ++ flat_map (fun neuron =>
                    [float_of_nat (pyr_id_num neuron); apical_mp neuron;
                     basal_mp neuron; soma_mp neuron; soma_act neuron]) ps) self).
Proof.
  revert self. induction ps as [|p ps IH]; intros self; simpl.
  - rewrite app_nil_r. by destruct self.
  - unfold bind at 1. cbn. rewrite IH. cbn. by rewrite <- !app_assoc.
Qed.

Lemma interneuron_loop ns self :
  forM ns (fun neuron =>
    append_interneuron (float_of_nat (inhib_id_num neuron)) ;;;
    append_interneuron (inhib_soma_mp neuron) ;;;
    append_interneuron (inhib_soma_act neuron) ;;;
    append_interneuron (dend_mp neuron)) self
  = (Ok tt, set_interneuron_weights
              (interneuron_weights self
               ++ flat_map (fun neuron =>
                    [float_of_nat (inhib_id_num neuron); inhib_soma_mp neuron;
                     inhib_soma_act neuron; dend_mp neuron]) ns) self).
Proof.
  revert self. induction ns as [|n ns IH]; intros self; simpl.
  - rewrite app_nil_r. by destruct self.
  - unfold bind at 1. cbn. rewrite IH. cbn. by rewrite <- !app_assoc.
Qed.

Lemma __pyramidal_data_extraction_appends layer self :
  __pyramidal_data_extraction layer self
  = (Ok tt, set_pyramidal_weights (pyramidal_weights self ++ pyramidal_array layer) self).
Proof.
  unfold __pyramidal_data_extraction, pyramidal_array, bind. cbn.
  rewrite pyramidal_loop. cbn. by rewrite <- app_assoc.
Qed.

Lemma __interneuron_data_extraction_appends layer self :
  __interneuron_data_extraction layer self
  = (Ok tt, set_interneuron_weights
              (interneuron_weights self ++ interneuron_array layer) self).
Proof.
  unfold __interneuron_data_extraction, interneuron_array, bind. cbn.
  rewrite interneuron_loop. cbn. by rewrite <- app_assoc.
Qed.

(** One layer of the first loop of [layers_to_file], on open files. *)
Lemma pyramidal_pass layers self :
  closed (output_file_p self) = false ->
  forM layers (fun l =>
    __pyramidal_data_extraction l ;;;
    write_pyramidal array2string ;;;
    modify (set_pyramidal_weights [])) self
  = (Ok tt,
     match layers with
     | [] => self
     | l0 :: rest =>
         mkVisualExtractor [] (interneuron_weights self)
           (mkTextFile (name (output_file_p self))
              (written (output_file_p self)
               ++ (array2string (pyramidal_weights self ++ pyramidal_array l0) +:+ newline)
               :: map (fun l => array2string (pyramidal_array l) +:+ newline) rest)
              false)
           (output_file_i self)
     end).
Proof.
  revert self. induction layers as [|l0 rest IH]; intros self Hopen; [done|].
  simpl. unfold bind at 1 2 3. rewrite __pyramidal_data_extraction_appends.
  unfold write_pyramidal, write. cbn. rewrite Hopen. cbn.
  rewrite IH by done. destruct rest as [|l1 rest]; cbn.
  - done.
  - by rewrite <- app_assoc.
Qed.

Lemma interneuron_pass layers self :
  closed (output_file_i self) = false ->
  forM layers (fun l =>
    __interneuron_data_extraction l ;;;
    write_interneuron array2string ;;;
    modify (set_interneuron_weights [])) self
  = (Ok tt,
     match layers with
     | [] => self
     | l0 :: rest =>
         mkVisualExtractor (pyramidal_weights self) []
           (output_file_p self)
           (mkTextFile (name (output_file_i self))
              (written (output_file_i self)
               ++ (array2string (interneuron_weights self ++ interneuron_array l0) +:+ newline)
               :: map (fun l => array2string (interneuron_array l) +:+ newline) rest)
              false)
     end).
Proof.
  revert self. induction layers as [|l0 rest IH]; intros self Hopen; [done|].
  simpl. unfold bind at 1 2 3. rewrite __interneuron_data_extraction_appends.
  unfold write_interneuron, write. cbn. rewrite Hopen. cbn.
  rewrite IH by done. destruct rest as [|l1 rest]; cbn.
  - done.
  - by rewrite <- app_assoc.
Qed.

(** X11: [layers_to_file] on an extractor with open files and empty
    buffers returns, appends one line per layer to each of the two files,
    in the order of the layers, the line of a layer being its array (layer
    number, then five numbers per pyramidal neuron, or four per
    interneuron) printed by [np.array2string], and leaves the buffers
    empty. *)
Theorem layers_to_file_writes_a_line_per_layer (layers : list Layer)
    (self : VisualExtractor) :
  closed (output_file_p self) = false ->
  closed (output_file_i self) = false ->
  pyramidal_weights self = [] ->
  interneuron_weights self = [] ->
  layers_to_file array2string layers self
  = (Ok tt,
     mkVisualExtractor [] []
       (mkTextFile (name (output_file_p self))
          (written (output_file_p self)
           ++ map (fun l => array2string (pyramidal_array l) +:+ newline) layers)
          false)
       (mkTextFile (name (output_file_i self))
          (written (output_file_i self)
           ++ map (fun l => array2string (interneuron_array l) +:+ newline) layers)
          false)).
Proof.
  intros Hp Hi Hbp Hbi. unfold layers_to_file.
  rewrite (bind_ok _ _ _ _ _ (pyramidal_pass layers self Hp)).
  destruct layers as [|l0 rest].
  - simpl. rewrite !app_nil_r. destruct self as [bp bi [] []]. simpl in *. by subst.
  - rewrite interneuron_pass by done. cbn. by rewrite Hbp, Hbi.
Qed.

(** X12: [close] of the extractor of [ai/experiments] returns, may be
    repeated and keeps what was written; [layers_to_file] on a closed
    extractor and at least one layer raises ValueError at its first write
    and leaves the data of the first layer in the pyramidal buffer. *)
Theorem layers_to_file_after_close (l0 : Layer) (rest : list Layer)
    (self : VisualExtractor) :
  let closed_self := (close self).2 in
  close self = (Ok tt, closed_self) /\
  close closed_self = (Ok tt, closed_self) /\
  written (output_file_p closed_self) = written (output_file_p self) /\
  written (output_file_i closed_self) = written (output_file_i self) /\
  layers_to_file array2string (l0 :: rest) closed_self
  = (Raise ValueError,
     set_pyramidal_weights (pyramidal_weights self ++ pyramidal_array l0) closed_self).
Proof.
  cbn. repeat split.
  unfold layers_to_file. simpl. unfold bind at 1 2 3.
  rewrite __pyramidal_data_extraction_appends. unfold bind. reflexivity.
Qed.

End Extractor.

(** ** The arrays of the extractor in the parser *)

Section Layout.
Import SpecLayer VisualExtractor NeuronParser.

Lemma delta_from_id ndl prev i v rest :
  i mod ndl = 0 ->
  delta_from ndl prev (S i) (v :: rest)
  = rbind (delta_from ndl prev (S (S i)) rest) (fun ds => Ok (Finite v :: ds)).
Proof.
  intros Hid. rewrite delta_from_cons. simpl (S i =? 0). cbv iota.
  replace (S i - 1) with i by lia. rewrite Hid. simpl.
  by destruct (delta_from ndl prev (S (S i)) rest).
Qed.

Lemma delta_from_value ndl prev i v p rest :
  i mod ndl <> 0 -> prev !! S i = Some p ->
  delta_from ndl prev (S i) (v :: rest)
  = rbind (delta_from ndl prev (S (S i)) rest) (fun ds => Ok (float64_sub p v :: ds)).
Proof.
  intros Hid Hp. rewrite delta_from_cons. simpl (S i =? 0). cbv iota.
  replace (S i - 1) with i by lia.
  rewrite (proj2 (Nat.eqb_neq _ _) Hid). simpl.
  rewrite (lookup_or_raise_Some _ _ _ Hp). simpl.
  by destruct (delta_from ndl prev (S (S i)) rest).
Qed.

Lemma mod_block k r n : r < n -> (k * n + r) mod n = r.
Proof. intros Hr. symmetry. apply (Nat.mod_unique _ _ k); lia. Qed.

(** A position that is not the first of a block of [n] values. *)
Ltac not_an_id k n r :=
  let H := fresh in
  intros H;
  lazymatch type of H with
  | ?i mod _ = 0 => replace i with (k * n + r) in H by lia
  end;
  rewrite mod_block in H by lia; lia.

Lemma pyramidal_deltas pre k ps cs :
  length pre = S (k * 5) -> length ps = length cs ->
  delta_from 5 (pre ++ flat_map pyramidal_block ps) (S (k * 5))
             (flat_map pyramidal_block cs)
  = Ok (mjoin (zip_with pyramidal_change ps cs)).
Proof.
  revert pre k cs. induction ps as [|p ps IH]; intros pre k [|c cs] Hpre Hlen;
    try done.
  injection Hlen as Hlen.
  cbn [flat_map pyramidal_block app zip_with mjoin list_join pyramidal_change].
  rewrite (delta_from_id 5 _ (k * 5)) by apply Nat.Div0.mod_mul.
  rewrite (delta_from_value 5 _ (S (k * 5)) _ (apical_mp p));
    [|not_an_id k 5 1 | rewrite lookup_app_r by lia; rewrite Hpre;
                        by replace (S (S (k * 5)) - S (k * 5)) with 1 by lia].
  rewrite (delta_from_value 5 _ (S (S (k * 5))) _ (basal_mp p));
    [|not_an_id k 5 2 | rewrite lookup_app_r by lia; rewrite Hpre;
                        by replace (S (S (S (k * 5))) - S (k * 5)) with 2 by lia].
  rewrite (delta_from_value 5 _ (S (S (S (k * 5)))) _ (soma_mp p));
    [|not_an_id k 5 3 | rewrite lookup_app_r by lia; rewrite Hpre;
                        by replace (S (S (S (S (k * 5)))) - S (k * 5)) with 3 by lia].
  rewrite (delta_from_value 5 _ (S (S (S (S (k * 5))))) _ (soma_act p));
    [|not_an_id k 5 4 | rewrite lookup_app_r by lia; rewrite Hpre;
                        by replace (S (S (S (S (S (k * 5))))) - S (k * 5)) with 4 by lia].
  change (S (S (S (S (S (S (k * 5))))))) with (S (S k * 5)).
  change (pre ++ float_of_nat (pyr_id_num p) :: apical_mp p :: basal_mp p :: soma_mp p
              :: soma_act p :: flat_map pyramidal_block ps)
    with (pre ++ pyramidal_block p ++ flat_map pyramidal_block ps).
  rewrite app_assoc, IH; [done| |done].
  rewrite length_app, Hpre. simpl. lia.
Qed.

Lemma interneuron_deltas pre k ps cs :
  length pre = S (k * 4) -> length ps = length cs ->
  delta_from 4 (pre ++ flat_map interneuron_block ps) (S (k * 4))
             (flat_map interneuron_block cs)
  = Ok (mjoin (zip_with interneuron_change ps cs)).
Proof.
  revert pre k cs. induction ps as [|p ps IH]; intros pre k [|c cs] Hpre Hlen;
    try done.
  injection Hlen as Hlen.
  cbn [flat_map interneuron_block app zip_with mjoin list_join interneuron_change].
  rewrite (delta_from_id 4 _ (k * 4)) by apply Nat.Div0.mod_mul.
  rewrite (delta_from_value 4 _ (S (k * 4)) _ (inhib_soma_mp p));
    [|not_an_id k 4 1 | rewrite lookup_app_r by lia; rewrite Hpre;
                        by replace (S (S (k * 4)) - S (k * 4)) with 1 by lia].
  rewrite (delta_from_value 4 _ (S (S (k * 4))) _ (inhib_soma_act p));
    [|not_an_id k 4 2 | rewrite lookup_app_r by lia; rewrite Hpre;
                        by replace (S (S (S (k * 4))) - S (k * 4)) with 2 by lia].
  rewrite (delta_from_value 4 _ (S (S (S (k * 4)))) _ (dend_mp p));
    [|not_an_id k 4 3 | rewrite lookup_app_r by lia; rewrite Hpre;
                        by replace (S (S (S (S (k * 4)))) - S (k * 4)) with 3 by lia].
  change (S (S (S (S (S (k * 4)))))) with (S (S k * 4)).
  change (pre ++ float_of_nat (inhib_id_num p) :: inhib_soma_mp p :: inhib_soma_act p
              :: dend_mp p :: flat_map interneuron_block ps)
    with (pre ++ interneuron_block p ++ flat_map interneuron_block ps).
  rewrite app_assoc, IH; [done| |done].
  rewrite length_app, Hpre. simpl. lia.
Qed.

(** X13: the arrays the extractor writes have the layout the parser
    assumes: one number and then five per pyramidal neuron, four per
    interneuron; and the delta of two such arrays of layers with as many
    neurons is, neuron by neuron, the neuron's number followed by the float
    differences, previous minus current, of its values. *)
Theorem extracted_arrays_fit_the_parser (previous current : Layer) :
  length (pyramidal_array current) = 1 + 5 * length (pyrs current) /\
  length (interneuron_array current) = 1 + 4 * length (inhibs current) /\
  (length (pyrs previous) = length (pyrs current) ->
   delta_from 5 (pyramidal_array previous) 0 (pyramidal_array current)
   = Ok (mjoin (zip_with pyramidal_change (pyrs previous) (pyrs current)))) /\
  (length (inhibs previous) = length (inhibs current) ->
   delta_from 4 (interneuron_array previous) 0 (interneuron_array current)
   = Ok (mjoin (zip_with interneuron_change (inhibs previous) (inhibs current)))).
Proof.
  split; [|split; [|split]].
  - unfold pyramidal_array. simpl. f_equal.
    induction (pyrs current) as [|p ps IH]; simpl; lia.
  - unfold interneuron_array. simpl. f_equal.
    induction (inhibs current) as [|p ps IH]; simpl; lia.
  - intros Hlen. unfold pyramidal_array.
    rewrite delta_from_cons. simpl (0 =? 0). cbv iota.
    pose proof (pyramidal_deltas [float_of_nat (id_num previous)] 0
                  (pyrs previous) (pyrs current) eq_refl Hlen) as Hd.
    simpl in Hd. unfold pyramidal_block in Hd. simpl. rewrite Hd. done.
  - intros Hlen. unfold interneuron_array.
    rewrite delta_from_cons. simpl (0 =? 0). cbv iota.
    pose proof (interneuron_deltas [float_of_nat (id_num previous)] 0
                  (inhibs previous) (inhibs current) eq_refl Hlen) as Hd.
    simpl in Hd. unfold interneuron_block in Hd. simpl. rewrite Hd. done.
Qed.

End Layout.

Section MetricsClose.
Import VisualExtractor MetricsVisualExtractor.

Lemma file_to_delta_raises file_name mode fs :
  exists e, NeuronParser.file_to_delta file_name mode fs = (Raise e, fs).
Proof.
  pose proof (__file_to_list_of_arrays_reads file_name fs) as Hfs.
  unfold NeuronParser.file_to_delta, bind.
  destruct (NeuronParser.__file_to_list_of_arrays file_name fs) as [[loa|x] fs'];
    simpl in Hfs; subst fs'; [|by eexists].
  unfold NeuronParser.__list_of_arrays_to_delta, bind, NeuronParser.liftR.
  destruct (NeuronParser.mapR _ loa) as [da|x]; [|by eexists].
  destruct (NeuronParser.__zip_delta_array _ da) as [z|x]; [|by eexists].
  destruct z as [|? [|? [|]]]; by eexists.
Qed.

(** X15: [close] of the extractor of [metrics/visualization_metrics]
    always raises, in [file_to_delta] on its first file, so it closes
    neither file and no JSON file is written. *)
Theorem close_never_closes (s : State) :
  (exists e, close s = (Raise e, s)) /\
  closed (output_file_i (extractor (close s).2)) = closed (output_file_i (extractor s)) /\
  closed (output_file_p (extractor (close s).2)) = closed (output_file_p (extractor s)) /\
  NeuronParser.json_files (files (close s).2) = NeuronParser.json_files (files s).
Proof.
  assert (exists e, close s = (Raise e, s)) as [e He].
  { destruct (file_to_delta_raises (name (output_file_i (extractor s))) "i" (files s))
      as [e He].
    exists e. unfold close. cbn [forM]. unfold bind, gets, zoom. cbn [get_file].
    rewrite He. by destruct s. }
  rewrite He. split; [by exists e|done].
Qed.
End MetricsClose.

(** ** The JSON document *)

Section Json.
Import NeuronParser JsonExport.

Lemma obind_returns {A B} (r : outcome A) (k : A -> outcome B) b :
  obind r k = Returns b -> exists a, r = Returns a /\ k a = Returns b.
Proof. destruct r as [a| |]; simpl; [|done..]. intros H. by exists a. Qed.

Lemma item_returns delta i x : item delta i = Returns x -> i < length delta.
Proof.
  unfold item. destruct (delta !! i) eqn:H; [|done]. intros _.
  by apply lookup_lt_Some in H.
Qed.

(** A neuron's block must be complete. *)
Lemma neuron_at_returns mode delta i r :
  neuron_at mode delta i = Some (Returns r) ->
  (mode = "p" /\ i mod 5 = 0 /\ i + 4 < length delta) \/
  (mode = "i" /\ i mod 4 = 0 /\ i + 3 < length delta).
Proof.
  unfold neuron_at.
  destruct (String.eqb_spec mode "p") as [->|Hp]; cbn [andb].
  - destruct (Nat.eqb_spec (i mod 5) 0) as [H5|H5]; [|done].
    intros [= H]. left.
    apply obind_returns in H as (? & _ & H). apply obind_returns in H as (? & _ & H).
    apply obind_returns in H as (? & _ & H). apply obind_returns in H as (? & _ & H).
    apply obind_returns in H as (? & H & _). apply item_returns in H. done.
  - destruct (String.eqb_spec mode "i") as [->|Hi]; cbn [andb]; [|done].
    destruct (Nat.eqb_spec (i mod 4) 0) as [H4|H4]; [|done].
    intros [= H]. right.
    apply obind_returns in H as (? & _ & H). apply obind_returns in H as (? & _ & H).
    apply obind_returns in H as (? & _ & H). apply obind_returns in H as (? & H & _).
    apply item_returns in H. done.
Qed.

Lemma fill_returns mode delta indices l0 layers0 filled :
  fill mode delta indices l0 layers0 = Returns filled ->
  length filled = length layers0 /\
  (forall j, j <> l0 -> filled !! j = layers0 !! j) /\
  (forall i, i ∈ indices ->
     (mode = "p" -> i mod 5 = 0 -> i + 4 < length delta) /\
     (mode = "i" -> i mod 4 = 0 -> i + 3 < length delta)).
Proof.
  revert layers0. induction indices as [|i indices IH]; intros layers0 H; simpl in H.
  { injection H as <-. split; [done|]. split; [done|]. intros i Hi.
    by apply elem_of_nil in Hi. }
  assert (forall layers1,
            fill mode delta indices l0 layers1 = Returns filled ->
            length layers1 = length layers0 ->
            (forall j, j <> l0 -> layers1 !! j = layers0 !! j) ->
            ((mode = "p" -> i mod 5 = 0 -> i + 4 < length delta) /\
             (mode = "i" -> i mod 4 = 0 -> i + 3 < length delta)) ->
            length filled = length layers0 /\
            (forall j, j <> l0 -> filled !! j = layers0 !! j) /\
            (forall i', i' ∈ i :: indices ->
               (mode = "p" -> i' mod 5 = 0 -> i' + 4 < length delta) /\
               (mode = "i" -> i' mod 4 = 0 -> i' + 3 < length delta))) as Hstep.
  { intros layers1 Hrest Hlen Hsame Hi.
    destruct (IH layers1 Hrest) as (Hlen' & Hsame' & Hblocks).
    split; [lia|]. split.
    - intros j Hj. rewrite Hsame' by done. by apply Hsame.
    - intros i' Hi'. apply elem_of_cons in Hi' as [->|Hi']; [done|by apply Hblocks]. }
  destruct (neuron_at mode delta i) as [r|] eqn:Hn.
  - apply obind_returns in H as (layer & -> & H).
    destruct (layers0 !! l0) as [slot|] eqn:Hslot; [|done].
    apply (Hstep _ H).
    + by rewrite length_insert.
    + intros j Hj. by rewrite list_lookup_insert_ne.
    + apply neuron_at_returns in Hn as [(-> & H5 & Hlt)|(-> & H4 & Hlt)];
        split; intros; done.
  - apply (Hstep _ H); [done..|].
    unfold neuron_at in Hn. split.
    + intros -> H5. cbn [String.eqb Ascii.eqb Bool.eqb andb] in Hn. by rewrite H5 in Hn.
    + intros -> H4. cbn [String.eqb Ascii.eqb Bool.eqb andb] in Hn. by rewrite H4 in Hn.
Qed.

Lemma whole_blocks len n :
  1 <= n -> (forall i, i < len -> i mod n = 0 -> i + (n - 1) < len) -> len mod n = 0.
Proof.
  intros Hn Hblocks.
  pose proof (Nat.div_mod_eq len n) as Hdiv.
  pose proof (Nat.mod_upper_bound len n) as Hup.
  destruct (decide (len mod n = 0)) as [|Hne]; [done|]. exfalso.
  specialize (Hblocks (n * (len / n))).
  rewrite Nat.mul_comm, Nat.Div0.mod_mul in Hblocks. lia.
Qed.

Lemma round_returns mode n t delta s s' :
  round mode n t delta s = Returns s' ->
  1 <= n /\
  (mode = "p" -> length delta mod 5 = 0) /\
  (mode = "i" -> length delta mod 4 = 0) /\
  exists filled,
    fill mode delta (seq 0 (length delta)) (l s) (layers s) = Returns filled /\
    s' = if (l s + 1) mod n =? n - 1
         then mkLoop ((l s + 1) mod n) (replicate n [])
                     (json_output s ++ [mkTimeEntry (t / 3) filled])
         else mkLoop ((l s + 1) mod n) filled (json_output s).
Proof.
  unfold round. intros H. apply obind_returns in H as (filled & Hfill & H).
  destruct (Nat.eqb_spec n 0) as [|Hn]; [done|].
  split; [lia|].
  destruct (fill_returns _ _ _ _ _ _ Hfill) as (_ & _ & Hblocks).
  split; [|split].
  - intros Hp. apply whole_blocks; [lia|]. intros i Hi H5.
    apply (Hblocks i); [|done..]. apply elem_of_seq. lia.
  - intros Hi. apply whole_blocks; [lia|]. intros i Hlt H4.
    apply (Hblocks i); [|done..]. apply elem_of_seq. lia.
  - exists filled. split; [done|]. by destruct (_ =? _); injection H as <-.
Qed.

Lemma rounds_app mode n t z1 z2 s :
  rounds mode n t (z1 ++ z2) s
  = obind (rounds mode n t z1 s) (rounds mode n (t + length z1) z2).
Proof.
  revert t s. induction z1 as [|d z1 IH]; intros t s; simpl.
  - by rewrite Nat.add_0_r.
  - destruct (round mode n t d s) as [s'| |]; simpl; [|done..].
    rewrite IH. by replace (S t + length z1) with (t + S (length z1)) by lia.
Qed.

Lemma next_l n l0 : 1 <= n -> l0 < n ->
  (l0 + 1) mod n = if l0 + 1 <? n then l0 + 1 else 0.
Proof.
  intros Hn Hl. destruct (Nat.ltb_spec (l0 + 1) n) as [Hlt|Hge].
  - by apply Nat.mod_small.
  - replace (l0 + 1) with n by lia. apply Nat.Div0.mod_same.
Qed.

(** The entries that the rounds from a given state append. *)
Lemma rounds_entries mode n t z s s' :
  l s < n -> length (layers s) = n ->
  rounds mode n t z s = Returns s' ->
  l s' = (l s + length z) mod n /\
  length (layers s') = n /\
  exists new,
    json_output s' = json_output s ++ new /\
    length new = (length z + n - 1 - until_entry n (l s)) / n /\
    (forall k e, new !! k = Some e ->
       time e = (t + until_entry n (l s) + k * n) / 3 /\
       length (NeuronParser.layers e) = n) /\
    (l s + 2 <= n -> forall e, new !! 0 = Some e ->
       NeuronParser.layers e !! (n - 1) = layers s !! (n - 1)).
Proof.
  revert t s. induction z as [|delta z IH]; intros t s Hl Hlen H; simpl in H.
  { injection H as <-. split; [by rewrite Nat.add_0_r, Nat.mod_small|].
    split; [done|]. exists []. rewrite app_nil_r. split; [done|]. split.
    - simpl. symmetry. apply Nat.div_small. unfold until_entry.
      destruct (Nat.leb_spec (l s + 2) n); lia.
    - split; [by intros k e Hk|by intros _ e He]. }
  apply obind_returns in H as (s1 & Hround & H).
  destruct (round_returns _ _ _ _ _ _ Hround) as (Hn & _ & _ & filled & Hfill & Hs1).
  destruct (fill_returns _ _ _ _ _ _ Hfill) as (Hflen & Hfsame & _).
  rewrite (next_l n (l s) Hn Hl) in Hs1.
  assert (l s1 = (l s + 1) mod n) as Hl1.
  { rewrite (next_l n (l s) Hn Hl). subst s1. by destruct (_ =? _). }
  assert (l s1 < n) as Hl1lt by (rewrite Hl1; by apply Nat.mod_upper_bound; lia).
  assert (length (layers s1) = n) as Hlen1.
  { subst s1. destruct (_ =? _); simpl; [by rewrite length_replicate|lia]. }
  destruct (IH (S t) s1 Hl1lt Hlen1 H) as (Hl' & Hlen' & new & Hout & Hcount & Htimes & _).
  split.
  { rewrite Hl', Hl1. simpl length.
    rewrite Nat.Div0.add_mod_idemp_l. f_equal. lia. }
  split; [done|].
  unfold until_entry in *.
  destruct (Nat.ltb_spec (l s + 1) n) as [Hlt|Hge].
  - (* no wrap-around *)
    destruct (Nat.eqb_spec (l s + 1) (n - 1)) as [Hflush|Hnoflush].
    + (* this round appends an entry *)
      subst s1. cbn [l layers json_output time NeuronParser.layers length lookup list_lookup] in *.
      exists (mkTimeEntry (t / 3) filled :: new).
      split; [by rewrite Hout, <- app_assoc|].
      destruct (Nat.leb_spec (l s + 2) n) as [_|?]; [|lia].
      destruct (Nat.leb_spec (l s + 1 + 2) n) as [?|_]; [lia|].
      replace (n - 2 - l s) with 0 in * by lia.
      split.
      { cbn [length]. rewrite Hcount. 
        replace (S (length z) + n - 1 - 0) with (length z + 1 * n) by lia.
        replace (length z + n - 1 - (n - 1)) with (length z) by lia.
        rewrite Nat.div_add by lia. lia. }
      split.
      * intros [|k] e Hk; cbn [lookup list_lookup] in Hk.
        -- injection Hk as <-. split; [|change (length filled = n); lia].
           change (t / 3 = (t + 0 + 0 * n) / 3). f_equal. lia.
        -- destruct (Htimes k e Hk) as [-> ?]. split; [f_equal; lia|done].
      * intros _ e [= <-]. cbn [NeuronParser.layers]. apply Hfsame. lia.
    + subst s1. cbn [l layers json_output time NeuronParser.layers length lookup list_lookup] in *. exists new. split; [done|].
      destruct (Nat.leb_spec (l s + 2) n) as [_|?]; [|lia].
      destruct (Nat.leb_spec (l s + 1 + 2) n) as [_|?]; [|lia].
      split; [rewrite Hcount; f_equal; lia|].
      split.
      * intros k e Hk. destruct (Htimes k e Hk) as [-> ?]. split; [f_equal; lia|done].
      * intros _ e He.
        destruct (IH (S t) (mkLoop (l s + 1) filled (json_output s)) Hl1lt Hlen1 H)
          as (_ & _ & new' & Hout' & _ & _ & Hfirst).
        cbn [l layers json_output time NeuronParser.layers length lookup list_lookup] in *. rewrite Hout in Hout'. apply app_inv_head in Hout'. subst new'.
        rewrite (Hfirst ltac:(lia) e He). apply Hfsame. lia.
  - (* [l] wraps around to 0 *)
    assert (l s = n - 1) as Hls by lia.
    destruct (Nat.eqb_spec 0 (n - 1)) as [Hflush|Hnoflush].
    + (* a single layer: every round appends an entry *)
      assert (n = 1) as -> by lia.
      subst s1. cbn [l layers json_output time NeuronParser.layers length lookup list_lookup] in *. rewrite Hls in *. cbn [l layers json_output time NeuronParser.layers length lookup list_lookup] in *.
      exists (mkTimeEntry (t / 3) filled :: new).
      split; [by rewrite Hout, <- app_assoc|].
      change (if 1 - 1 + 2 <=? 1 then 1 - 2 - (1 - 1) else 1 - 1) with 0 in *.
      change (if 0 + 2 <=? 1 then 1 - 2 - 0 else 1 - 1) with 0 in *.
      rewrite Nat.div_1_r in Hcount.
      split; [cbn [length]; rewrite Hcount, Nat.div_1_r; lia|].
      split; [|intros; lia].
      intros [|k] e Hk; cbn [lookup list_lookup] in Hk.
      * injection Hk as <-. split; [|change (length filled = 1); lia].
        change (t / 3 = (t + 0 + 0 * 1) / 3). f_equal. lia.
      * destruct (Htimes k e Hk) as [-> ?]. split; [f_equal; lia|done].
    + subst s1. cbn [l layers json_output time NeuronParser.layers length lookup list_lookup] in *. exists new. split; [done|].
      destruct (Nat.leb_spec (l s + 2) n) as [?|_]; [lia|].
      destruct (Nat.leb_spec (0 + 2) n) as [_|?]; [|lia].
      split; [rewrite Hcount; f_equal; lia|].
      split; [|intros; lia].
      intros k e Hk. destruct (Htimes k e Hk) as [-> ?]. split; [f_equal; lia|done].
Qed.

End Json.

Section JsonTheorems.
Import NeuronParser JsonExport.

Lemma rounds_returns_blocks mode n t z s s' :
  rounds mode n t z s = Returns s' ->
  (z <> [] -> 1 <= n) /\
  (mode = "p" -> Forall (fun delta : list Q => length delta mod 5 = 0) z) /\
  (mode = "i" -> Forall (fun delta : list Q => length delta mod 4 = 0) z).
Proof.
  revert t s. induction z as [|delta z IH]; intros t s H; simpl in H.
  { split; [done|]. split; intros _; constructor. }
  apply obind_returns in H as (s1 & Hround & H).
  destruct (round_returns _ _ _ _ _ _ Hround) as (Hn & Hp & Hi & _).
  destruct (IH _ _ H) as (_ & Hps & His).
  split; [done|]. split; intros Hmode; constructor; auto.
Qed.

Lemma neuron_at_total mode delta i :
  i < length delta ->
  (mode = "p" -> length delta mod 5 = 0) ->
  (mode = "i" -> length delta mod 4 = 0) ->
  neuron_at mode delta i = None \/ exists r, neuron_at mode delta i = Some (Returns r).
Proof.
  intros Hi Hp Hi4. unfold neuron_at, item.
  destruct (String.eqb_spec mode "p") as [->|Hnp]; cbn [andb].
  - destruct (Nat.eqb_spec (i mod 5) 0) as [H5|H5]; [|by left]. right.
    specialize (Hp eq_refl).
    pose proof (Nat.div_mod_eq i 5). pose proof (Nat.div_mod_eq (length delta) 5).
    destruct (lookup_lt_is_Some_2 delta i) as [x0 ->]; [lia|].
    destruct (lookup_lt_is_Some_2 delta (i + 1)) as [x1 ->]; [lia|].
    destruct (lookup_lt_is_Some_2 delta (i + 2)) as [x2 ->]; [lia|].
    destruct (lookup_lt_is_Some_2 delta (i + 3)) as [x3 ->]; [lia|].
    destruct (lookup_lt_is_Some_2 delta (i + 4)) as [x4 ->]; [lia|].
    by eexists.
  - destruct (String.eqb_spec mode "i") as [->|Hni]; cbn [andb]; [|by left].
    destruct (Nat.eqb_spec (i mod 4) 0) as [H4|H4]; [|by left]. right.
    specialize (Hi4 eq_refl).
    pose proof (Nat.div_mod_eq i 4). pose proof (Nat.div_mod_eq (length delta) 4).
    destruct (lookup_lt_is_Some_2 delta i) as [x0 ->]; [lia|].
    destruct (lookup_lt_is_Some_2 delta (i + 1)) as [x1 ->]; [lia|].
    destruct (lookup_lt_is_Some_2 delta (i + 2)) as [x2 ->]; [lia|].
    destruct (lookup_lt_is_Some_2 delta (i + 3)) as [x3 ->]; [lia|].
    by eexists.
Qed.

Lemma fill_total mode delta indices l0 layers0 :
  l0 < length layers0 ->
  Forall (fun i => i < length delta) indices ->
  (mode = "p" -> length delta mod 5 = 0) ->
  (mode = "i" -> length delta mod 4 = 0) ->
  exists filled, fill mode delta indices l0 layers0 = Returns filled.
Proof.
  intros Hl Hall Hp Hi. revert layers0 Hl.
  induction Hall as [|i indices Hlt _ IH]; intros layers0 Hl; simpl; [by eexists|].
  destruct (neuron_at_total mode delta i Hlt Hp Hi) as [->|[r ->]]; [by apply IH|].
  simpl. destruct (lookup_lt_is_Some_2 layers0 l0 Hl) as [slot ->].
  apply IH. by rewrite length_insert.
Qed.

Lemma rounds_total mode n t z s :
  1 <= n -> l s < n -> length (layers s) = n ->
  (mode = "p" -> Forall (fun delta : list Q => length delta mod 5 = 0) z) ->
  (mode = "i" -> Forall (fun delta : list Q => length delta mod 4 = 0) z) ->
  exists s', rounds mode n t z s = Returns s'.
Proof.
  intros Hn. revert t s. induction z as [|delta z IH]; intros t s Hl Hlen Hp Hi; simpl;
    [by eexists|].
  destruct (fill_total mode delta (seq 0 (length delta)) (l s) (layers s)) as [filled Hfill].
  - lia.
  - apply Forall_forall. intros i Hin. apply elem_of_seq in Hin. lia.
  - intros Hm. specialize (Hp Hm). by apply Forall_cons in Hp as [? _].
  - intros Hm. specialize (Hi Hm). by apply Forall_cons in Hi as [? _].
  - unfold round. rewrite Hfill. simpl obind.
    destruct (Nat.eqb_spec n 0) as [|_]; [lia|].
    destruct (fill_returns _ _ _ _ _ _ Hfill) as (Hflen & _ & _).
    assert ((l s + 1) mod n < n) as Hmod by (apply Nat.mod_upper_bound; lia).
    destruct (_ =? _); cbn [obind]; apply IH; cbn [l layers]; try done.
    + by rewrite length_replicate.
    + intros Hm. specialize (Hp Hm). by apply Forall_cons in Hp as [_ ?].
    + intros Hm. specialize (Hi Hm). by apply Forall_cons in Hi as [_ ?].
    + lia.
    + intros Hm. specialize (Hp Hm). by apply Forall_cons in Hp as [_ ?].
    + intros Hm. specialize (Hi Hm). by apply Forall_cons in Hi as [_ ?].
Qed.

(** X8: [__zipped_delta_to_json], on a list of deltas and a number of
    layers, returns exactly when every delta holds whole neurons: if it
    returns, then there is at least one layer (unless there is no delta) and
    in mode "p" every delta has a multiple of 5 entries, in mode "i" a
    multiple of 4; and under these conditions it returns. *)
Theorem json_needs_whole_neurons (zipped_delta_array : list (list Q)) (num_layers : nat)
    (mode : string) :
  (forall json_output,
     __zipped_delta_to_json zipped_delta_array num_layers mode = Returns json_output ->
     (zipped_delta_array <> [] -> 1 <= num_layers) /\
     (mode = "p" ->
      Forall (fun delta : list Q => length delta mod 5 = 0) zipped_delta_array) /\
     (mode = "i" ->
      Forall (fun delta : list Q => length delta mod 4 = 0) zipped_delta_array)) /\
  (1 <= num_layers ->
   (mode = "p" ->
    Forall (fun delta : list Q => length delta mod 5 = 0) zipped_delta_array) ->
   (mode = "i" ->
    Forall (fun delta : list Q => length delta mod 4 = 0) zipped_delta_array) ->
   exists json_output,
     __zipped_delta_to_json zipped_delta_array num_layers mode = Returns json_output).
Proof.
  unfold __zipped_delta_to_json. split.
  - intros out H. apply obind_returns in H as (s & Hrounds & _).
    by apply rounds_returns_blocks in Hrounds.
  - intros Hn Hp Hi.
    destruct (rounds_total mode num_layers 0 zipped_delta_array
                (mkLoop 0 (replicate num_layers []) [])) as [s ->]; cbn [l layers];
      [done | lia | by rewrite length_replicate | done | done |].
    by eexists.
Qed.

(** X9: the entries of the JSON document.  With [n >= 1] layers the
    document has [(len(zipped) + 1) // n] entries ([len(zipped)] for
    [n = 1]); entry [k] has [n] layers and the time [(k n + n - 2) // 3],
    the position of the delta that completes it, divided by 3; and for
    [n >= 2] the last layer of the first entry is empty. *)
Theorem json_entries (zipped_delta_array : list (list Q)) (num_layers : nat)
    (mode : string) (json_output : list TimeEntry) :
  1 <= num_layers ->
  __zipped_delta_to_json zipped_delta_array num_layers mode = Returns json_output ->
  length json_output
  = (length zipped_delta_array + num_layers - 1 - (num_layers - 2)) / num_layers /\
  (forall k entry, json_output !! k = Some entry ->
     time entry = (k * num_layers + (num_layers - 2)) / 3 /\
     length (NeuronParser.layers entry) = num_layers) /\
  (2 <= num_layers -> forall entry, json_output !! 0 = Some entry ->
     NeuronParser.layers entry !! (num_layers - 1) = Some []).
Proof.
  intros Hn H. unfold __zipped_delta_to_json in H.
  apply obind_returns in H as (s & Hrounds & [= <-]).
  destruct (rounds_entries mode num_layers 0 zipped_delta_array
              (mkLoop 0 (replicate num_layers []) []) s
              ltac:(cbn [l]; lia) ltac:(cbn [layers]; by rewrite length_replicate) Hrounds)
    as (_ & _ & new & Hout & Hcount & Htimes & Hfirst); cbn [l layers] in *.
  simpl in Hout. subst new.
  assert (until_entry num_layers 0 = num_layers - 2) as Huntil.
  { unfold until_entry. destruct (Nat.leb_spec (0 + 2) num_layers); lia. }
  rewrite Huntil in *. split; [done|]. split.
  - intros k entry Hk. destruct (Htimes k entry Hk) as [-> ?]. split; [f_equal; lia|done].
  - intros H2 entry He. rewrite (Hfirst ltac:(lia) entry He).
    apply lookup_replicate_2. lia.
Qed.

(** X10: with two layers or more, a list of deltas that ends with the
    delta completing a group of [num_layers] gives the same document as the
    list without it: what the last delta of such a list holds is not
    exported. *)
Theorem json_drops_the_last_layer (zipped_delta_array : list (list Q)) (delta : list Q)
    (num_layers : nat) (mode : string) (json_output : list TimeEntry) :
  2 <= num_layers ->
  length zipped_delta_array mod num_layers = num_layers - 1 ->
  __zipped_delta_to_json (zipped_delta_array ++ [delta]) num_layers mode
    = Returns json_output ->
  __zipped_delta_to_json zipped_delta_array num_layers mode = Returns json_output.
Proof.
  intros Hn Hlast H. unfold __zipped_delta_to_json in *.
  apply obind_returns in H as (s2 & Hrounds & [= <-]).
  rewrite rounds_app in Hrounds.
  apply obind_returns in Hrounds as (s1 & Hz & Hd). rewrite Hz. simpl obind.
  simpl in Hd. apply obind_returns in Hd as (s2' & Hround & [= ->]).
  destruct (rounds_entries mode num_layers 0 zipped_delta_array
              (mkLoop 0 (replicate num_layers []) []) s1
              ltac:(cbn [l]; lia) ltac:(cbn [layers]; by rewrite length_replicate) Hz)
    as (Hl & _); cbn [l layers] in *.
  simpl in Hl. rewrite Hlast in Hl.
  destruct (round_returns _ _ _ _ _ _ Hround) as (_ & _ & _ & filled & _ & ->).
  rewrite Hl. replace (num_layers - 1 + 1) with num_layers by lia.
  rewrite Nat.Div0.mod_same.
  destruct (Nat.eqb_spec 0 (num_layers - 1)); [lia|done].
Qed.

End JsonTheorems.

Section Labels.
Import SpecLayer VisualExtractor NeuronParser JsonExport.

Lemma mjoin_blocks_lookup {A} (blocks : list (list A)) n j r :
  Forall (fun b => length b = n) blocks -> r < n ->
  mjoin blocks !! (j * n + r) = blocks !! j ≫= (fun b => b !! r).
Proof.
  intros Hall Hr. revert j. induction Hall as [|b blocks Hb _ IH]; intros j; [done|].
  simpl. destruct j as [|j]; simpl.
  - rewrite lookup_app_l by lia. done.
  - rewrite lookup_app_r by lia. rewrite <- IH. f_equal. lia.
Qed.

Lemma zip_with_blocks {A B} (f : A -> A -> list B) n (ps cs : list A) :
  (forall p c, length (f p c) = n) ->
  Forall (fun b => length b = n) (zip_with f ps cs).
Proof.
  intros Hf. revert cs. induction ps as [|p ps IH]; intros [|c cs]; simpl;
    constructor; auto.
Qed.

Lemma finite_values_lookup delta values i x :
  finite_values delta = Some values -> delta !! i = Some x ->
  exists v, x = Finite v /\ values !! i = Some v.
Proof.
  intros H Hx. apply mapM_Some in H.
  destruct (Forall2_lookup_l _ _ _ _ _ H Hx) as (v & Hv & Hf).
  exists v. destruct x; [|done..]. by injection Hf as ->.
Qed.

End Labels.

(** ** Training to the self-predictive state and the rule-13 data *)

Section Loops.
Context {S : Type}.

Lemma emits_repeatM (log : S -> list Call) (body : M S unit) n full s :
  (forall s, emits log body s full) ->
  emits log (repeatM n body) s (concat (replicate n full)).
Proof.
  intros Hbody. revert s. induction n as [|n IH]; intros s; simpl.
  - apply emits_ret.
  - apply emits_bind; [apply Hbody|]. intros _ _. apply IH.
Qed.

Lemma emits_forM_silent {A} (log : S -> list Call) (xs : list A) (body : A -> M S unit) s :
  (forall x s, emits log (body x) s []) -> emits log (forM xs body) s [].
Proof.
  intros Hbody. revert s. induction xs as [|x xs IH]; intros s; simpl.
  - apply emits_ret.
  - apply emits_bind_silent; [apply Hbody|]. intros _ _. apply IH.
Qed.

(** A property that every round of a loop establishes for the next. *)
Lemma repeatM_invariant (I : nat -> S -> Prop) (body : M S unit) n s s' :
  I 0 s ->
  (forall k s1 s2, I k s1 -> body s1 = (Ok tt, s2) -> I (Datatypes.S k) s2) ->
  repeatM n body s = (Ok tt, s') -> I n s'.
Proof.
  intros H0 Hstep. revert I s H0 Hstep. induction n as [|n IH]; intros I s H0 Hstep H.
  - by injection H as <-.
  - simpl in H. bind_inv H u s1 Hbody. destruct u.
    apply (IH (fun k => I (Datatypes.S k)) s1); [by apply (Hstep 0 s) | | done].
    intros k s2 s3. apply Hstep.
Qed.
End Loops.

Section Sacramento.
Context {L R : Type} `{!LayerOps L R} `{!Rng R}.

Lemma call_keeps_rule13 {A} c self (meth : M L A) :
  keeps rule13_post_data (call c self meth).
Proof.
  intros w. unfold call, deref, bind, modify.
  destruct (heap w !! self) as [l|]; simpl; [|done]. by destruct (meth l).
Qed.

Lemma call_with_keeps_rule13 {A} c self other (meth : L -> M L A) :
  keeps rule13_post_data (call_with c self other meth).
Proof.
  unfold call_with.
  apply keeps_bind; [intros w; by rewrite deref_inv|]. intros _.
  apply keeps_bind; [intros w; by rewrite deref_inv|]. intros o.
  apply call_keeps_rule13.
Qed.

Ltac keeps_rule13 :=
  repeat lazymatch goal with
         | |- keeps rule13_post_data (bind _ _) => apply keeps_bind; [|intros ?]
         | |- keeps rule13_post_data (call _ _ _) => apply call_keeps_rule13
         | |- keeps rule13_post_data (call_with _ _ _ _) => apply call_with_keeps_rule13
         | |- keeps rule13_post_data (ret _) => apply keeps_ret
         | |- keeps rule13_post_data (if ?b then _ else _) => destruct b
         | |- keeps rule13_post_data (repeatM _ _) => apply keeps_repeatM
         end.

Lemma do_ff_sweep_keeps_rule13 l1 l2 l3 : keeps rule13_post_data (do_ff_sweep l1 l2 l3).
Proof. unfold do_ff_sweep. keeps_rule13. Qed.

Lemma do_fb_sweep_keeps_rule13 l1 l2 l3 : keeps rule13_post_data (do_fb_sweep l1 l2 l3).
Proof. unfold do_fb_sweep. keeps_rule13. Qed.

Lemma sweeps_keep_rule13 l1 l2 l3 (b : bool) :
  keeps rule13_post_data
    (do_ff_sweep l1 l2 l3 ;;;
     (if b then nudge_layer3_fixed l3 else ret tt) ;;;
     do_fb_sweep l1 l2 l3).
Proof.
  apply keeps_bind; [apply do_ff_sweep_keeps_rule13|]. intros _.
  apply keeps_bind; [|intros _; apply do_fb_sweep_keeps_rule13].
  destruct b; [apply call_keeps_rule13|apply keeps_ret].
Qed.

Lemma train_1_step_rule_16b_only_keeps_rule13 l1 l2 l3 b :
  keeps rule13_post_data (train_1_step_rule_16b_only l1 l2 l3 b).
Proof.
  unfold train_1_step_rule_16b_only.
  do 2 (apply keeps_bind; [apply call_keeps_rule13|intros _]).
  apply sweeps_keep_rule13.
Qed.

Lemma train_to_self_predictive_state_keeps_rule13 l1 l2 l3 n :
  keeps rule13_post_data (train_to_self_predictive_state l1 l2 l3 n).
Proof.
  unfold train_to_self_predictive_state.
  apply keeps_bind; [apply do_ff_sweep_keeps_rule13|]. intros _.
  apply keeps_bind; [apply do_fb_sweep_keeps_rule13|]. intros _.
  apply keeps_repeatM, train_1_step_rule_16b_only_keeps_rule13.
Qed.

Lemma nudge_output_layer_keeps_rule13 cfg l1 l2 l3 :
  keeps rule13_post_data (nudge_output_layer cfg l1 l2 l3).
Proof.
  unfold nudge_output_layer.
  apply keeps_bind; [apply call_keeps_rule13|]. intros _.
  apply do_fb_sweep_keeps_rule13.
Qed.

Lemma train_to_self_predictive_state_emits l1 l2 l3 n (w : World L) :
  emits calls (train_to_self_predictive_state l1 l2 l3 n) w
    (ff_sweep_calls l1 l2 l3 ++ fb_sweep_calls l1 l2 l3
     ++ concat (replicate n (rule_16b_only_calls l1 l2 l3 false))).
Proof.
  unfold train_to_self_predictive_state.
  apply emits_bind; [apply do_ff_sweep_emits|]. intros _ _.
  apply emits_bind; [apply do_fb_sweep_emits|]. intros _ _.
  apply emits_repeatM. intros w'. apply train_1_step_rule_16b_only_emits.
Qed.

Lemma nudge_output_layer_emits cfg l1 l2 l3 (w : World L) :
  emits calls (nudge_output_layer cfg l1 l2 l3) w (nudge_output_layer_calls cfg l1 l2 l3).
Proof.
  unfold nudge_output_layer, nudge_output_layer_calls.
  apply emits_bind_cons; [apply emits_call|]. intros _ _. apply do_fb_sweep_emits.
Qed.

Lemma no_nudge_in_repeated n cs :
  existsb is_nudge cs = false -> existsb is_nudge (concat (replicate n cs)) = false.
Proof.
  intros Hcs. induction n as [|n IH]; simpl; [done|].
  by rewrite existsb_app, Hcs, IH.
Qed.

(** X16: [train_to_self_predictive_state] makes the calls of an FF and an
    FB sweep and then, [n_steps] times, those of a step of rule 16b alone;
    it never nudges, never adjusts a feed-forward weight matrix and leaves
    [rule13_post_data] as it is. *)
Theorem train_to_self_predictive_state_calls (layer1 layer2 layer3 : ref) (n_steps : nat)
    (w : World L) :
  let full :=
    ff_sweep_calls layer1 layer2 layer3 ++ fb_sweep_calls layer1 layer2 layer3
    ++ concat (replicate n_steps
         ([AdjustWtsLatPi layer2; AdjustWtsLatPi layer1]
          ++ ff_sweep_calls layer1 layer2 layer3 ++ fb_sweep_calls layer1 layer2 layer3)) in
  emits calls (train_to_self_predictive_state layer1 layer2 layer3 n_steps) w full /\
  existsb is_nudge full = false /\
  existsb (fun c => stage c =? 1) full = false /\
  rule13_post_data (train_to_self_predictive_state layer1 layer2 layer3 n_steps w).2
  = rule13_post_data w.
Proof.
  intros full. split; [|split; [|split]].
  - apply train_to_self_predictive_state_emits.
  - subst full. rewrite !existsb_app. simpl.
    by apply no_nudge_in_repeated.
  - subst full. rewrite !existsb_app. simpl.
    induction n_steps as [|n IH]; simpl; [done|]. by rewrite IH.
  - apply train_to_self_predictive_state_keeps_rule13.
Qed.

(** *** The rule-13 data *)

Lemma train_1_step_rule_16b_and_rule_13_post l1 l2 l3 b (w : World L) r w' :
  train_1_step_rule_16b_and_rule_13 l1 l2 l3 b w = (r, w') ->
  rule13_post_data w `prefix_of` rule13_post_data w' /\
  (r = Ok tt ->
     exists w1 layer3' layer2' data_pt,
       call (AdjustWtsLatPi l2) l2 adjust_wts_lat_pi w = (Ok tt, w1) /\
       heap w1 !! l3 = Some layer3' /\ heap w1 !! l2 = Some layer2' /\
       (adjust_wts_pp_ff layer2' layer3').1 = Ok data_pt /\
       rule13_post_data w' = rule13_post_data w ++ data_pt /\
       Forall (fun row : list Q => length row = length (hd [] (rule13_post_data w)))
              data_pt).
Proof.
  unfold train_1_step_rule_16b_and_rule_13. intros H.
  pose proof (call_keeps_rule13 (AdjustWtsLatPi l2) l2 adjust_wts_lat_pi w) as Hk1.
  destruct (call (AdjustWtsLatPi l2) l2 adjust_wts_lat_pi w) as [[[]|e] w1] eqn:H1;
    simpl in Hk1;
    [rewrite (bind_ok _ _ _ _ _ H1) in H
    |rewrite (bind_raise _ _ _ _ _ H1) in H; injection H as <- <-;
     split; [by rewrite Hk1|done]].
  pose proof (call_with_keeps_rule13 (AdjustWtsPpFf l3 l2) l3 l2 adjust_wts_pp_ff w1)
    as Hk2.
  destruct (call_with (AdjustWtsPpFf l3 l2) l3 l2 adjust_wts_pp_ff w1)
    as [[data_pt|e] w2] eqn:H2; simpl in Hk2;
    [rewrite (bind_ok _ _ _ _ _ H2) in H
    |rewrite (bind_raise _ _ _ _ _ H2) in H; injection H as <- <-;
     split; [by rewrite Hk2, Hk1|done]].
  unfold bind at 1 in H.
  destruct (np_concatenate_rows (rule13_post_data w2) data_pt) as [d|e] eqn:Hcat;
    [|injection H as <- <-; split; [by rewrite Hk2, Hk1|done]].
  assert (d = rule13_post_data w ++ data_pt /\
          Forall (fun row : list Q => length row = length (hd [] (rule13_post_data w)))
                 data_pt) as [-> Hwidth].
  { unfold np_concatenate_rows in Hcat. rewrite Hk2, Hk1 in Hcat.
    destruct (forallb _ data_pt) eqn:Hall; [|done]. injection Hcat as <-.
    split; [done|]. apply Forall_forall. intros row Hrow.
    rewrite forallb_forall in Hall. apply Nat.eqb_eq, Hall.
    by apply list_elem_of_In. }
  set (w3 := set_rule13_post_data (rule13_post_data w ++ data_pt) w2) in H.
  lazymatch type of H with
  | ?m w3 = _ => assert (keeps rule13_post_data m) as Hk3
  end.
  { apply keeps_bind; [apply call_keeps_rule13|]. intros _.
    apply keeps_bind; [apply call_with_keeps_rule13|]. intros _.
    apply sweeps_keep_rule13. }
  specialize (Hk3 w3). rewrite H in Hk3. simpl in Hk3. split.
  - rewrite Hk3. by apply prefix_app_r.
  - intros _.
    unfold call_with in H2.
    bind_inv H2 l3' w1' Hd3.
    bind_inv H2 l2' w1'' Hd2.
    pose proof (deref_inv l3 w1) as Hw1'. rewrite Hd3 in Hw1'. simpl in Hw1'. subst w1'.
    pose proof (deref_inv l2 w1) as Hw1'. rewrite Hd2 in Hw1'. simpl in Hw1'. subst w1''.
    unfold deref in Hd3, Hd2.
    destruct (heap w1 !! l3) as [layer3'|] eqn:Hl3; [|done]. injection Hd3 as <-.
    destruct (heap w1 !! l2) as [layer2'|] eqn:Hl2; [|done]. injection Hd2 as <-.
    exists w1, layer3', layer2', data_pt. split; [done|]. split; [done|]. split; [done|].
    split; [|by split].
    unfold call, deref, bind, modify in H2. rewrite Hl3 in H2. simpl in H2.
    destruct (adjust_wts_pp_ff layer2' layer3') as [r' l3'']. simpl.
    by injection H2 as -> _.
Qed.

(** X17: [rule13_post_data] only grows.  A step of rules 16b and 13 keeps
    what is recorded, whether it returns or raises, and appends a data
    point of the width of the first row when it returns; a step of rule 16b
    alone, the sweeps, [nudge_output_layer] and
    [train_to_self_predictive_state] leave it as it is. *)
Theorem rule13_post_data_only_grows (layer1 layer2 layer3 : ref) (nudge_predicate : bool)
    (cfg : Config) (n_steps : nat) (w : World L) :
  rule13_post_data w `prefix_of`
    rule13_post_data
      (train_1_step_rule_16b_and_rule_13 layer1 layer2 layer3 nudge_predicate w).2 /\
  (forall w',
     train_1_step_rule_16b_and_rule_13 layer1 layer2 layer3 nudge_predicate w = (Ok tt, w') ->
     exists data_pt,
       rule13_post_data w' = rule13_post_data w ++ data_pt /\
       Forall (fun row : list Q => length row = length (hd [] (rule13_post_data w)))
              data_pt) /\
  rule13_post_data (train_1_step_rule_16b_only layer1 layer2 layer3 nudge_predicate w).2
  = rule13_post_data w /\
  rule13_post_data (do_ff_sweep layer1 layer2 layer3 w).2 = rule13_post_data w /\
  rule13_post_data (do_fb_sweep layer1 layer2 layer3 w).2 = rule13_post_data w /\
  rule13_post_data (nudge_output_layer cfg layer1 layer2 layer3 w).2 = rule13_post_data w /\
  rule13_post_data (train_to_self_predictive_state layer1 layer2 layer3 n_steps w).2
  = rule13_post_data w.
Proof.
  split; [|split].
  - destruct (train_1_step_rule_16b_and_rule_13 layer1 layer2 layer3 nudge_predicate w)
      as [r w'] eqn:Hrun.
    by destruct (train_1_step_rule_16b_and_rule_13_post _ _ _ _ _ _ _ Hrun).
  - intros w' Hw'.
    destruct (train_1_step_rule_16b_and_rule_13_post _ _ _ _ _ _ _ Hw') as [_ Hok].
    destruct (Hok eq_refl) as (_ & _ & _ & data_pt & _ & _ & _ & _ & ? & ?).
    by exists data_pt.
  - split; [apply train_1_step_rule_16b_only_keeps_rule13|].
    split; [apply do_ff_sweep_keeps_rule13|].
    split; [apply do_fb_sweep_keeps_rule13|].
    split; [apply nudge_output_layer_keeps_rule13|].
    apply train_to_self_predictive_state_keeps_rule13.
Qed.

End Sacramento.

(** ** The pilot experiments *)

Section PilotProofs.
Context {L R : Type} `{!LayerOps L R} `{!Rng R}.

Lemma in_world_state {A} (m : M (World L) A) (s : Lab L) :
  (in_world m s).2 = set_lab_world (m (lab_world s)).2 s.
Proof. unfold in_world, zoom. by destruct (m (lab_world s)). Qed.

Lemma in_world_result {A} (m : M (World L) A) (s : Lab L) :
  (in_world m s).1 = (m (lab_world s)).1.
Proof. unfold in_world, zoom. by destruct (m (lab_world s)). Qed.

Lemma in_world_emits {A} (m : M (World L) A) (s : Lab L) full :
  emits calls m (lab_world s) full -> emits lab_calls (in_world m) s full.
Proof.
  intros (made & Hlog & Hpre & Hfull). exists made.
  rewrite in_world_state, in_world_result. by repeat split.
Qed.

Lemma in_world_keeps_lists {A} (m : M (World L) A) : keeps lists (in_world m).
Proof. intros s. by rewrite in_world_state. Qed.

Lemma list_append_emits data row (s : Lab L) :
  emits lab_calls (list_append data row) s [].
Proof. by apply emits_silent. Qed.

Lemma new_list_emits (s : Lab L) : emits lab_calls new_list s [].
Proof. by apply emits_silent. Qed.

Lemma read_list_emits data (s : Lab L) : emits lab_calls (read_list data) s [].
Proof. by apply emits_silent. Qed.

Lemma record_rows_emits (inputs : list (ref * ref)) (s : Lab L) :
  emits lab_calls
    (forM inputs (fun '(data, layer) =>
       let* l := in_world (deref layer) in
       list_append data (pyr_apical_mps l))) s [].
Proof.
  apply emits_forM_silent. intros [data layer] s'.
  apply emits_bind_silent; [apply in_world_emits, emits_deref|]. intros l _.
  apply list_append_emits.
Qed.

Lemma train_data_emits n_steps (learn_cb : M (Lab L) unit) inputs full s :
  (forall s, emits lab_calls learn_cb s full) ->
  emits lab_calls (train_data n_steps learn_cb inputs) s
        (concat (replicate (Z.to_nat n_steps) full)).
Proof.
  intros Hcb. unfold train_data. apply emits_repeatM. intros s'.
  rewrite <- (app_nil_r full).
  apply emits_bind; [apply Hcb|]. intros _ _. apply record_rows_emits.
Qed.

Lemma run_pilot_exp_1b_concat_2b_emits cfg l1 l2 l3 steps (s : Lab L) :
  emits lab_calls (run_pilot_exp_1b_concat_2b cfg l1 l2 l3 steps) s
        (concat_2b_calls cfg l1 l2 l3 steps).
Proof.
  unfold run_pilot_exp_1b_concat_2b, concat_2b_calls.
  apply emits_bind; [apply in_world_emits, do_ff_sweep_emits|]. intros _ _.
  apply emits_bind; [apply in_world_emits, do_fb_sweep_emits|]. intros _ _.
  apply emits_bind_silent; [apply new_list_emits|]. intros data1 _.
  apply emits_bind_silent; [apply new_list_emits|]. intros data2 _.
  apply emits_bind_silent; [apply new_list_emits|]. intros data3 _.
  apply emits_bind.
  { apply train_data_emits. intros s'.
    apply in_world_emits, train_1_step_rule_16b_and_rule_13_emits. }
  intros _ _.
  apply (emits_bind _ _ _ _ (nudge_output_layer_calls cfg l1 l2 l3));
    [apply in_world_emits, nudge_output_layer_emits|]. intros _ _.
  apply emits_bind.
  { apply train_data_emits. intros s'.
    apply in_world_emits, train_1_step_rule_16b_and_rule_13_emits. }
  intros _ _.
  rewrite <- (app_nil_r (ff_sweep_calls l1 l2 l3)).
  apply emits_bind; [apply in_world_emits, do_ff_sweep_emits|]. intros _ _.
  apply emits_bind_silent; [apply read_list_emits|]. intros d1 _.
  apply emits_bind_silent; [apply read_list_emits|]. intros d2 _.
  apply emits_bind_silent; [by apply emits_silent|]. intros post _.
  apply emits_ret.
Qed.

(** *** The rows of the lists *)

Lemma rows_alter (s : Lab L) data row d :
  d < length (lists s) ->
  rows (mkLab (lab_world s) (alter (fun rs => rs ++ [row]) data (lists s))) d
  = rows s d + (if decide (data = d) then 1 else 0).
Proof.
  intros Hd. unfold rows. simpl.
  destruct (lookup_lt_is_Some_2 (lists s) d Hd) as [rs Hrs].
  destruct (decide (data = d)) as [->|Hne].
  - rewrite list_lookup_alter_eq, Hrs. simpl. rewrite length_app. simpl. lia.
  - rewrite list_lookup_alter_ne by done. lia.
Qed.

Lemma record_rows (inputs : list (ref * ref)) (s s' : Lab L) :
  forM inputs (fun '(data, layer) =>
    let* l := in_world (deref layer) in
    list_append data (pyr_apical_mps l)) s = (Ok tt, s') ->
  lab_world s' = lab_world s /\
  length (lists s') = length (lists s) /\
  forall d, d < length (lists s) -> rows s' d = rows s d + hits inputs d.
Proof.
  revert s. induction inputs as [|[data layer] inputs IH]; intros s H; simpl in H.
  { injection H as <-. split; [done|]. split; [done|]. intros d _. unfold hits. simpl. lia. }
  bind_inv H u s1 Hrow. destruct u.
  bind_inv Hrow l s0 Hd.
  assert (s0 = s) as ->.
  { pose proof (in_world_state (deref layer) s) as Hs. rewrite Hd, deref_inv in Hs.
    simpl in Hs. rewrite Hs. by destruct s. }
  injection Hrow as <-.
  destruct (IH _ H) as (Hw & Hlen & Hrows). simpl in Hw, Hlen.
  rewrite length_alter in Hlen.
  split; [done|]. split; [done|]. intros d Hd'.
  rewrite Hrows by (simpl; by rewrite length_alter).
  rewrite rows_alter by done. unfold hits. simpl.
  rewrite filter_cons. simpl.
  destruct (decide (data = d)); simpl; lia.
Qed.

Lemma train_data_rows n_steps (learn_cb : M (Lab L) unit) inputs s s' :
  keeps lists learn_cb ->
  train_data n_steps learn_cb inputs s = (Ok tt, s') ->
  length (lists s') = length (lists s) /\
  forall d, d < length (lists s) ->
    rows s' d = rows s d + Z.to_nat n_steps * hits inputs d.
Proof.
  intros Hcb Hrun. unfold train_data in Hrun.
  refine (repeatM_invariant
            (fun k s1 => length (lists s1) = length (lists s) /\
                         forall d, d < length (lists s) ->
                           rows s1 d = rows s d + k * hits inputs d)
            _ _ _ _ _ _ Hrun); [split; [done|intros; lia]|].
  intros k s1 s2 (Hlen & Hrows) Hbody.
  bind_inv Hbody u s1' Hlearn. destruct u.
  pose proof (Hcb s1) as Hlists. rewrite Hlearn in Hlists. simpl in Hlists.
  destruct (record_rows _ _ _ Hbody) as (_ & Hlen' & Hrows').
  split; [congruence|]. intros d Hd.
  rewrite Hrows' by congruence.
  replace (rows s1' d) with (rows s1 d) by (unfold rows; by rewrite Hlists).
  rewrite Hrows by done. lia.
Qed.

Lemma train_data_post n_steps (learn_cb : M (Lab L) unit) inputs s :
  (forall s, rule13_post_data (lab_world s)
             `prefix_of` rule13_post_data (lab_world (learn_cb s).2)) ->
  rule13_post_data (lab_world s)
  `prefix_of` rule13_post_data (lab_world (train_data n_steps learn_cb inputs s).2).
Proof.
  intros Hcb. unfold train_data. generalize (Z.to_nat n_steps). intros n. revert s.
  induction n as [|n IH]; intros s; simpl; [done|].
  unfold bind at 1 2. specialize (Hcb s).
  destruct (learn_cb s) as [[[]|e] s1]; simpl in *; [|done].
  lazymatch goal with
  | |- context [forM inputs ?body s1] =>
      destruct (forM inputs body s1) as [[[]|e] s2] eqn:Hrec
  end.
  - destruct (record_rows _ _ _ Hrec) as (Hw & _ & _).
    etrans; [exact Hcb|]. rewrite <- Hw. apply IH.
  - simpl. etrans; [exact Hcb|].
    (* the rows are recorded without touching the world *)
    assert (forall inputs s1 r s2,
              forM inputs (fun '(data, layer) =>
                let* l := in_world (deref layer) in
                list_append data (pyr_apical_mps l)) s1 = (r, s2) ->
              lab_world s2 = lab_world s1) as Hworld.
    { clear. induction inputs as [|[data layer] inputs IH]; intros s1 r s2 H; simpl in H.
      - by injection H as _ <-.
      - unfold bind at 1 2 in H.
        pose proof (in_world_state (deref layer) s1) as Hs. rewrite deref_inv in Hs.
        destruct (in_world (deref layer) s1) as [[l|e] s0]; simpl in Hs; subst s0.
        + simpl in H. by rewrite (IH _ _ _ H).
        + by injection H as _ <-. }
    by rewrite (Hworld _ _ _ _ Hrec).
Qed.

End PilotProofs.

Section PilotTheorems.
Context {L R : Type} `{!LayerOps L R} `{!Rng R}.

Lemma in_world_ok_lists {A} (m : M (World L) A) (s s' : Lab L) r :
  in_world m s = (r, s') -> lists s' = lists s.
Proof. intros H. pose proof (in_world_keeps_lists m s) as Hk. by rewrite H in Hk. Qed.

Lemma in_world_post {A} (m : M (World L) A) (s s' : Lab L) r :
  (forall w, rule13_post_data w `prefix_of` rule13_post_data (m w).2) ->
  in_world m s = (r, s') ->
  rule13_post_data (lab_world s) `prefix_of` rule13_post_data (lab_world s').
Proof.
  intros Hm H. pose proof (in_world_state m s) as Hs. rewrite H in Hs. simpl in Hs.
  subst s'. simpl. apply Hm.
Qed.

Lemma keeps_prefix {A} (m : M (World L) A) :
  keeps rule13_post_data m ->
  forall w, rule13_post_data w `prefix_of` rule13_post_data (m w).2.
Proof. intros Hk w. by rewrite Hk. Qed.

Lemma step_13_prefix l1 l2 l3 b (w : World L) :
  rule13_post_data w
  `prefix_of` rule13_post_data (train_1_step_rule_16b_and_rule_13 l1 l2 l3 b w).2.
Proof.
  destruct (train_1_step_rule_16b_and_rule_13 l1 l2 l3 b w) as [r w'] eqn:Hrun.
  by destruct (train_1_step_rule_16b_and_rule_13_post _ _ _ _ _ _ _ Hrun).
Qed.

Lemma hits_three d1 d2 d3 (l1 l2 l3 : ref) :
  d1 <> d2 -> d1 <> d3 -> d2 <> d3 ->
  hits [(d1, l1); (d2, l2); (d3, l3)] d1 = 1 /\
  hits [(d1, l1); (d2, l2); (d3, l3)] d2 = 1 /\
  hits [(d1, l1); (d2, l2); (d3, l3)] d3 = 1.
Proof.
  intros H12 H13 H23. unfold hits. rewrite !filter_cons, filter_nil. simpl.
  repeat split; repeat case_decide; simpl; congruence.
Qed.

Lemma run_pilot_exp_1b_concat_2b_ok cfg l1 l2 l3 steps (s s' : Lab L) d1 d2 post :
  run_pilot_exp_1b_concat_2b cfg l1 l2 l3 steps s = (Ok (d1, d2, post), s') ->
  length d1 = Z.to_nat steps + 200 /\
  length d2 = Z.to_nat steps + 200 /\
  post = drop 1 (rule13_post_data (lab_world s')) /\
  rule13_post_data (lab_world s) `prefix_of` rule13_post_data (lab_world s').
Proof.
  unfold run_pilot_exp_1b_concat_2b. intros H.
  bind_inv H u s1 Hff. bind_inv H u' s2 Hfb.
  bind_inv H data1 s3 Hn1. injection Hn1 as <- <-.
  bind_inv H data2 s4 Hn2. injection Hn2 as <- <-.
  bind_inv H data3 s5 Hn3. injection Hn3 as <- <-.
  bind_inv H u1 s6 Ht1. bind_inv H u2 s7 Hnudge. bind_inv H u3 s8 Ht2.
  bind_inv H u4 s9 Hff2. destruct u1, u3.
  bind_inv H d1' s10 Hr1. injection Hr1 as <- <-.
  bind_inv H d2' s11 Hr2. injection Hr2 as <- <-.
  bind_inv H post' s12 Hp. injection Hp as <- <-.
  injection H as <- <- <- <-.
  pose proof (in_world_ok_lists _ _ _ _ Hff) as Hl1.
  pose proof (in_world_ok_lists _ _ _ _ Hfb) as Hl2.
  simpl in *. rewrite !length_app in *. simpl in *.
  set (n0 := length (lists s2)) in *.
  set (s5 := mkLab (lab_world s2) (((lists s2 ++ [[]]) ++ [[]]) ++ [[]])) in *.
  assert (length (lists s5) = n0 + 3) as Hlen5.
  { subst s5. simpl. rewrite !length_app. simpl. lia. }
  assert (rows s5 n0 = 0 /\ rows s5 (n0 + 1) = 0) as [Hrow1 Hrow2].
  { subst s5. unfold rows. cbn [lists]. rewrite <- !app_assoc. cbn [app]. split.
    - unfold n0. by rewrite list_lookup_middle.
    - rewrite lookup_app_r by (unfold n0; lia).
      by replace (n0 + 1 - length (lists s2)) with 1 by (unfold n0; lia). }
  destruct (hits_three n0 (n0 + 1) (n0 + 1 + 1) l1 l2 l3) as (Hh1 & Hh2 & _); [lia..|].
  destruct (train_data_rows _ _ _ _ _ (in_world_keeps_lists _) Ht1) as (Hlen6 & Hrows6).
  pose proof (in_world_ok_lists _ _ _ _ Hnudge) as Hl7.
  destruct (train_data_rows _ _ _ _ _ (in_world_keeps_lists _) Ht2) as (Hlen8 & Hrows8).
  pose proof (in_world_ok_lists _ _ _ _ Hff2) as Hl9.
  assert (forall d, rows s9 d = rows s8 d) as H98 by (intros; unfold rows; by rewrite Hl9).
  assert (forall d, rows s7 d = rows s6 d) as H76 by (intros; unfold rows; by rewrite Hl7).
  fold (rows s9 n0). fold (rows s9 (n0 + 1)).
  rewrite !H98, !Hrows8, !H76, !Hrows6, Hrow1, Hrow2, Hh1, Hh2 by (rewrite ?Hl7; lia).
  split; [simpl; lia|]. split; [simpl; lia|]. split; [done|].
  etrans; [apply (in_world_post _ _ _ _ (keeps_prefix _ (do_ff_sweep_keeps_rule13 _ _ _)) Hff)|].
    etrans; [apply (in_world_post _ _ _ _ (keeps_prefix _ (do_fb_sweep_keeps_rule13 _ _ _)) Hfb)|].
    change (lab_world s2) with (lab_world s5).
    pose proof (train_data_post steps
                  (in_world (train_1_step_rule_16b_and_rule_13 l1 l2 l3 false))
                  [(n0, l1); (n0 + 1, l2); (n0 + 1 + 1, l3)] s5) as Hp1.
    rewrite Ht1 in Hp1. etrans; [apply Hp1|].
    { intros s0. rewrite in_world_state. simpl. apply step_13_prefix. }
    etrans; [apply (in_world_post _ _ _ _
                      (keeps_prefix _ (nudge_output_layer_keeps_rule13 _ _ _ _)) Hnudge)|].
    pose proof (train_data_post 200
                  (in_world (train_1_step_rule_16b_and_rule_13 l1 l2 l3 true))
                  [(n0, l1); (n0 + 1, l2); (n0 + 1 + 1, l3)] s7) as Hp2.
    rewrite Ht2 in Hp2. etrans; [apply Hp2|].
    { intros s0. rewrite in_world_state. simpl. apply step_13_prefix. }
    apply (in_world_post _ _ _ _ (keeps_prefix _ (do_ff_sweep_keeps_rule13 _ _ _)) Hff2).
Qed.

End PilotTheorems.

Section PilotCalls.
Context {L R : Type} `{!LayerOps L R} `{!Rng R}.

Lemma apical_mp_of_emits layer i (s : Lab L) : emits lab_calls (apical_mp_of layer i) s [].
Proof.
  unfold apical_mp_of.
  apply emits_bind_silent; [apply in_world_emits, emits_deref|]. intros l _.
  apply emits_orRaise.
Qed.

Lemma apical_mp_of_state layer i (s : Lab L) : (apical_mp_of layer i s).2 = s.
Proof.
  unfold apical_mp_of, bind.
  pose proof (in_world_state (deref layer) s) as Hs. rewrite deref_inv in Hs.
  destruct (in_world (deref layer) s) as [[l|e] s0]; simpl in *; subst s0;
    [|by destruct s].
  destruct (pyr_apical_mps l !! i); by destruct s.
Qed.

(** The rows that a round of the first pilot experiments records. *)
Lemma record_apicals_emits l1 l2 data1 data2 (s : Lab L) :
  emits lab_calls
    (let* a0 := apical_mp_of l1 0 in
     let* a1 := apical_mp_of l1 1 in
     list_append data1 [a0; a1] ;;;
     let* b0 := apical_mp_of l2 0 in
     let* b1 := apical_mp_of l2 1 in
     let* b2 := apical_mp_of l2 2 in
     list_append data2 [b0; b1; b2]) s [].
Proof.
  apply emits_bind_silent; [apply apical_mp_of_emits|]. intros a0 _.
  apply emits_bind_silent; [apply apical_mp_of_emits|]. intros a1 _.
  apply emits_bind_silent; [apply list_append_emits|]. intros _ _.
  apply emits_bind_silent; [apply apical_mp_of_emits|]. intros b0 _.
  apply emits_bind_silent; [apply apical_mp_of_emits|]. intros b1 _.
  apply emits_bind_silent; [apply apical_mp_of_emits|]. intros b2 _.
  apply list_append_emits.
Qed.

Lemma run_pilot_experiment_1a_emits l1 l2 l3 (s : Lab L) :
  emits lab_calls (run_pilot_experiment_1a l1 l2 l3) s (pilot_1a_calls l1 l2 l3).
Proof.
  unfold run_pilot_experiment_1a, pilot_1a_calls.
  apply emits_bind; [apply in_world_emits, do_ff_sweep_emits|]. intros _ _.
  apply emits_bind; [apply in_world_emits, do_fb_sweep_emits|]. intros _ _.
  apply emits_bind_silent; [apply new_list_emits|]. intros data1 _.
  apply emits_bind_silent; [apply new_list_emits|]. intros data2 _.
  rewrite <- (app_nil_r (concat _)).
  apply emits_bind.
  { apply emits_repeatM. intros s'. rewrite <- (app_nil_r (rule_16b_only_calls _ _ _ _)).
    apply emits_bind; [apply in_world_emits, train_1_step_rule_16b_only_emits|].
    intros _ _. apply record_apicals_emits. }
  intros _ _.
  apply emits_bind_silent; [apply read_list_emits|]. intros d1 _.
  apply emits_bind_silent; [apply read_list_emits|]. intros d2 _.
  apply emits_ret.
Qed.

Lemma run_pilot_experiment_1b_emits l1 l2 l3 (s : Lab L) :
  emits lab_calls (run_pilot_experiment_1b l1 l2 l3) s (pilot_1b_calls l1 l2 l3).
Proof.
  unfold run_pilot_experiment_1b, pilot_1b_calls.
  apply emits_bind; [apply in_world_emits, do_ff_sweep_emits|]. intros _ _.
  apply emits_bind; [apply in_world_emits, do_fb_sweep_emits|]. intros _ _.
  apply emits_bind_silent; [apply new_list_emits|]. intros data1 _.
  apply emits_bind_silent; [apply new_list_emits|]. intros data2 _.
  rewrite <- (app_nil_r (concat _)).
  apply emits_bind.
  { apply emits_repeatM. intros s'.
    rewrite <- (app_nil_r (rule_16b_and_rule_13_calls _ _ _ _)).
    apply emits_bind; [apply in_world_emits, train_1_step_rule_16b_and_rule_13_emits|].
    intros _ _. apply record_apicals_emits. }
  intros _ _.
  apply emits_bind_silent; [apply read_list_emits|]. intros d1 _.
  apply emits_bind_silent; [apply read_list_emits|]. intros d2 _.
  apply emits_bind_silent; [by apply emits_silent|]. intros post _.
  apply emits_ret.
Qed.

Lemma run_pilot_experiment_2_rule_16b_only_emits cfg l1 l2 l3 (s : Lab L) :
  emits lab_calls (run_pilot_experiment_2_rule_16b_only cfg l1 l2 l3) s
        (pilot_2_calls cfg l1 l2 l3).
Proof.
  unfold run_pilot_experiment_2_rule_16b_only, pilot_2_calls.
  apply emits_bind; [apply in_world_emits, train_to_self_predictive_state_emits|].
  intros _ _.
  apply (emits_bind _ _ _ _ (nudge_output_layer_calls cfg l1 l2 l3));
    [apply in_world_emits, nudge_output_layer_emits|]. intros _ _.
  apply emits_bind.
  { apply emits_repeatM. intros s'.
    apply in_world_emits, train_1_step_rule_16b_only_emits. }
  intros _ _. apply in_world_emits, do_ff_sweep_emits.
Qed.

Lemma run_pilot_experiment_2b_emits cfg l1 l2 l3 (s : Lab L) :
  emits lab_calls (run_pilot_experiment_2b_rule_16b_and_rule_13 cfg l1 l2 l3) s
        (pilot_2b_calls cfg l1 l2 l3).
Proof.
  unfold run_pilot_experiment_2b_rule_16b_and_rule_13, pilot_2b_calls.
  apply emits_bind; [apply in_world_emits, train_to_self_predictive_state_emits|].
  intros _ _.
  apply (emits_bind _ _ _ _ (nudge_output_layer_calls cfg l1 l2 l3));
    [apply in_world_emits, nudge_output_layer_emits|]. intros _ _.
  apply emits_bind_silent; [apply new_list_emits|]. intros data1 _.
  apply emits_bind_silent; [apply new_list_emits|]. intros data2 _.
  apply emits_bind_silent; [apply new_list_emits|]. intros data3 _.
  apply (emits_bind _ _ _ _
           (concat (replicate 200 (rule_16b_and_rule_13_calls l1 l2 l3 true)))).
  { apply (train_data_emits 200). intros s'.
    apply in_world_emits, train_1_step_rule_16b_and_rule_13_emits. }
  intros _ _.
  rewrite <- (app_nil_r (ff_sweep_calls l1 l2 l3)).
  apply emits_bind; [apply in_world_emits, do_ff_sweep_emits|]. intros _ _.
  apply emits_bind_silent; [apply read_list_emits|]. intros d1 _.
  apply emits_bind_silent; [apply read_list_emits|]. intros d2 _.
  apply emits_ret.
Qed.

Lemma build_small_three_layer_network_refs cfg (w : World L) :
  exists w',
    build_small_three_layer_network cfg w
    = (Ok (length (heap w), length (heap w) + 1, length (heap w) + 2), w') /\
    calls w' = calls w /\ rule13_post_data w' = rule13_post_data w /\
    length (heap w') = length (heap w) + 3 /\ heap w `prefix_of` heap w'.
Proof.
  unfold build_small_three_layer_network. repeat case_match. eexists.
  split; [reflexivity|]. simpl. rewrite length_app. simpl.
  split; [done|]. split; [done|]. split; [lia|]. by apply prefix_app_r.
Qed.

Lemma main_emits cfg (s : Lab L) :
  let n := length (heap (lab_world s)) in
  emits lab_calls (main cfg) s (concat_2b_calls cfg n (n + 1) (n + 2) 400).
Proof.
  intros n. unfold main.
  destruct (build_small_three_layer_network_refs cfg (lab_world s))
    as (w' & Hbuild & Hcalls & _).
  apply emits_bind_silent.
  { apply emits_silent. unfold lab_calls. rewrite in_world_state, Hbuild. by simpl. }
  intros [[l1 l2] l3] Hr. rewrite in_world_result, Hbuild in Hr. simpl in Hr.
  injection Hr as <- <- <-.
  apply run_pilot_exp_1b_concat_2b_emits.
Qed.

Lemma count_nudges_app cs1 cs2 :
  count_nudges (cs1 ++ cs2) = count_nudges cs1 + count_nudges cs2.
Proof. unfold count_nudges. by rewrite List.filter_app, length_app. Qed.

Lemma count_nudges_repeated n cs :
  count_nudges (concat (replicate n cs)) = n * count_nudges cs.
Proof.
  induction n as [|n IH]; simpl; [done|]. by rewrite count_nudges_app, IH.
Qed.

(** X18: the method calls of the pilot experiments and of [main], in
    order, and how often each nudges the output layer: 1a and 1b never,
    2 (rule 16b alone) 41 times, 2b and the concatenated experiment 201
    times, for every number of steps to the self-predictive state. *)
Theorem pilot_experiment_calls (cfg : Config) (layer1 layer2 layer3 : ref)
    (steps_to_self_pred : Z) (s : Lab L) :
  emits lab_calls (run_pilot_experiment_1a layer1 layer2 layer3) s
        (pilot_1a_calls layer1 layer2 layer3) /\
  emits lab_calls (run_pilot_experiment_1b layer1 layer2 layer3) s
        (pilot_1b_calls layer1 layer2 layer3) /\
  emits lab_calls (run_pilot_experiment_2_rule_16b_only cfg layer1 layer2 layer3) s
        (pilot_2_calls cfg layer1 layer2 layer3) /\
  emits lab_calls (run_pilot_experiment_2b_rule_16b_and_rule_13 cfg layer1 layer2 layer3) s
        (pilot_2b_calls cfg layer1 layer2 layer3) /\
  emits lab_calls (run_pilot_exp_1b_concat_2b cfg layer1 layer2 layer3 steps_to_self_pred) s
        (concat_2b_calls cfg layer1 layer2 layer3 steps_to_self_pred) /\
  (let n := length (heap (lab_world s)) in
   emits lab_calls (main cfg) s (concat_2b_calls cfg n (n + 1) (n + 2) 400)) /\
  count_nudges (pilot_1a_calls layer1 layer2 layer3) = 0 /\
  count_nudges (pilot_1b_calls layer1 layer2 layer3) = 0 /\
  count_nudges (pilot_2_calls cfg layer1 layer2 layer3) = 41 /\
  count_nudges (pilot_2b_calls cfg layer1 layer2 layer3) = 201 /\
  count_nudges (concat_2b_calls cfg layer1 layer2 layer3 steps_to_self_pred) = 201.
Proof.
  split; [apply run_pilot_experiment_1a_emits|].
  split; [apply run_pilot_experiment_1b_emits|].
  split; [apply run_pilot_experiment_2_rule_16b_only_emits|].
  split; [apply run_pilot_experiment_2b_emits|].
  split; [apply run_pilot_exp_1b_concat_2b_emits|].
  split; [apply main_emits|].
  unfold pilot_1a_calls, pilot_1b_calls, pilot_2_calls, pilot_2b_calls, concat_2b_calls,
    self_predictive_calls.
  rewrite !count_nudges_app, !count_nudges_repeated.
  repeat split; cbn; lia.
Qed.

End PilotCalls.

Section PilotData.
Context {L R : Type} `{!LayerOps L R} `{!Rng R}.

Lemma apical_mp_of_ok layer i (s s' : Lab L) a :
  apical_mp_of layer i s = (Ok a, s') -> s' = s.
Proof. intros H. pose proof (apical_mp_of_state layer i s) as Hs. by rewrite H in Hs. Qed.

Lemma record_apicals (m : M (World L) unit) l1 l2 data1 data2 k (s s' : Lab L) :
  data1 <> data2 ->
  two_and_three data1 data2 k s ->
  (in_world m ;;;
   let* a0 := apical_mp_of l1 0 in
   let* a1 := apical_mp_of l1 1 in
   list_append data1 [a0; a1] ;;;
   let* b0 := apical_mp_of l2 0 in
   let* b1 := apical_mp_of l2 1 in
   let* b2 := apical_mp_of l2 2 in
   list_append data2 [b0; b1; b2]) s = (Ok tt, s') ->
  two_and_three data1 data2 (S k) s'.
Proof.
  intros Hne (r1 & r2 & H1 & H2 & Hk1 & Hk2 & Hw1 & Hw2) H.
  bind_inv H u s1 Hm. pose proof (in_world_ok_lists _ _ _ _ Hm) as Hl1.
  bind_inv H a0 s2 Ha0. apply apical_mp_of_ok in Ha0 as ->.
  bind_inv H a1 s2 Ha1. apply apical_mp_of_ok in Ha1 as ->.
  bind_inv H u1 s2 Happ1. injection Happ1 as _ <-.
  bind_inv H b0 s2 Hb0. apply apical_mp_of_ok in Hb0 as ->.
  bind_inv H b1 s2 Hb1. apply apical_mp_of_ok in Hb1 as ->.
  bind_inv H b2 s2 Hb2. apply apical_mp_of_ok in Hb2 as ->.
  injection H as <-. unfold two_and_three. cbn [lists]. rewrite Hl1.
  exists (r1 ++ [[a0; a1]]), (r2 ++ [[b0; b1; b2]]).
  split; [|split; [|split; [|split; [|split]]]].
  - rewrite list_lookup_alter_ne by done. by rewrite list_lookup_alter_eq, H1.
  - by rewrite list_lookup_alter_eq, list_lookup_alter_ne, H2.
  - rewrite length_app. simpl. lia.
  - rewrite length_app. simpl. lia.
  - apply Forall_app. split; [done|]. by constructor.
  - apply Forall_app. split; [done|]. by constructor.
Qed.

Lemma two_new_lists (s : Lab L) :
  let s' := mkLab (lab_world s) ((lists s ++ [[]]) ++ [[]]) in
  two_and_three (length (lists s)) (length (lists s) + 1) 0 s'.
Proof.
  exists [], []. simpl. rewrite <- app_assoc. simpl.
  split; [by rewrite list_lookup_middle|].
  split; [|by repeat split].
  rewrite lookup_app_r by lia. by replace (length (lists s) + 1 - length (lists s)) with 1 by lia.
Qed.

Lemma run_pilot_experiment_1a_ok l1 l2 l3 (s s' : Lab L) d1 d2 :
  run_pilot_experiment_1a l1 l2 l3 s = (Ok (d1, d2), s') ->
  length d1 = 150 /\ Forall (fun row : list Q => length row = 2) d1 /\
  length d2 = 150 /\ Forall (fun row : list Q => length row = 3) d2 /\
  rule13_post_data (lab_world s') = rule13_post_data (lab_world s).
Proof.
  unfold run_pilot_experiment_1a. intros H.
  bind_inv H u s1 Hff. bind_inv H u' s2 Hfb.
  bind_inv H data1 s3 Hn1. injection Hn1 as <- <-.
  bind_inv H data2 s4 Hn2. injection Hn2 as <- <-.
  bind_inv H u1 s5 Hloop. destruct u1.
  bind_inv H d1' s6 Hr1. injection Hr1 as <- <-.
  bind_inv H d2' s7 Hr2. injection Hr2 as <- <-.
  injection H as <- <- <-.
  cbn [lists] in Hloop. rewrite length_app in Hloop. cbn [length] in Hloop.
  pose proof (repeatM_invariant
                (two_and_three (length (lists s2)) (length (lists s2) + 1))
                _ _ _ _ (two_new_lists s2)
                (fun k sa sb =>
                   record_apicals _ l1 l2 (length (lists s2)) (length (lists s2) + 1)
                                  k sa sb ltac:(lia)) Hloop)
    as (r1 & r2 & H1 & H2 & Hk1 & Hk2 & Hw1 & Hw2).
  cbn [lists]. rewrite length_app. cbn [length]. rewrite H1, H2. cbn [default].
  split; [done|]. split; [done|]. split; [done|]. split; [done|].
  assert (keeps (fun s : Lab L => rule13_post_data (lab_world s))
            (repeatM 150
               (in_world (train_1_step_rule_16b_only l1 l2 l3 false) ;;;
                let* a0 := apical_mp_of l1 0 in
                let* a1 := apical_mp_of l1 1 in
                list_append (length (lists s2)) [a0; a1] ;;;
                let* b0 := apical_mp_of l2 0 in
                let* b1 := apical_mp_of l2 1 in
                let* b2 := apical_mp_of l2 2 in
                list_append (length (lists s2) + 1) [b0; b1; b2]))) as Hkeep.
  { apply keeps_repeatM.
    apply keeps_bind.
    { intros s0. rewrite in_world_state. simpl.
      apply train_1_step_rule_16b_only_keeps_rule13. }
    intros _.
    repeat (apply keeps_bind; [intros s0; by rewrite apical_mp_of_state|]; intro).
    apply keeps_bind; [by intros s0|]. intros _.
    repeat (apply keeps_bind; [intros s0; by rewrite apical_mp_of_state|]; intro).
    by intros s0. }
  specialize (Hkeep (mkLab (lab_world s2) ((lists s2 ++ [[]]) ++ [[]]))).
  rewrite Hloop in Hkeep. simpl in Hkeep. rewrite Hkeep.
  pose proof (in_world_state (do_fb_sweep l1 l2 l3) s1) as Hs2. rewrite Hfb in Hs2.
  pose proof (in_world_state (do_ff_sweep l1 l2 l3) s) as Hs1. rewrite Hff in Hs1.
  simpl in Hs1, Hs2. subst s2 s1. simpl.
  by rewrite do_fb_sweep_keeps_rule13, do_ff_sweep_keeps_rule13.
Qed.

Lemma run_pilot_experiment_1b_ok l1 l2 l3 (s s' : Lab L) d1 d2 post :
  run_pilot_experiment_1b l1 l2 l3 s = (Ok (d1, d2, post), s') ->
  length d1 = 150 /\ Forall (fun row : list Q => length row = 2) d1 /\
  length d2 = 150 /\ Forall (fun row : list Q => length row = 3) d2 /\
  post = rule13_post_data (lab_world s').
Proof.
  unfold run_pilot_experiment_1b. intros H.
  bind_inv H u s1 Hff. bind_inv H u' s2 Hfb.
  bind_inv H data1 s3 Hn1. injection Hn1 as <- <-.
  bind_inv H data2 s4 Hn2. injection Hn2 as <- <-.
  bind_inv H u1 s5 Hloop. destruct u1.
  bind_inv H d1' s6 Hr1. injection Hr1 as <- <-.
  bind_inv H d2' s7 Hr2. injection Hr2 as <- <-.
  bind_inv H post' s8 Hp. injection Hp as <- <-.
  injection H as <- <- <- <-.
  cbn [lists] in Hloop. rewrite length_app in Hloop. cbn [length] in Hloop.
  pose proof (repeatM_invariant
                (two_and_three (length (lists s2)) (length (lists s2) + 1))
                _ _ _ _ (two_new_lists s2)
                (fun k sa sb =>
                   record_apicals _ l1 l2 (length (lists s2)) (length (lists s2) + 1)
                                  k sa sb ltac:(lia)) Hloop)
    as (r1 & r2 & H1 & H2 & Hk1 & Hk2 & Hw1 & Hw2).
  cbn [lists]. rewrite length_app. cbn [length]. rewrite H1, H2. cbn [default].
  by repeat split.
Qed.

Lemma run_pilot_experiment_2b_ok cfg l1 l2 l3 (s s' : Lab L) d1 d2 :
  run_pilot_experiment_2b_rule_16b_and_rule_13 cfg l1 l2 l3 s = (Ok (d1, d2), s') ->
  length d1 = 200 /\ length d2 = 200.
Proof.
  unfold run_pilot_experiment_2b_rule_16b_and_rule_13. intros H.
  bind_inv H u s1 Hsp. bind_inv H u' s2 Hnudge.
  bind_inv H data1 s3 Hn1. injection Hn1 as <- <-.
  bind_inv H data2 s4 Hn2. injection Hn2 as <- <-.
  bind_inv H data3 s5 Hn3. injection Hn3 as <- <-.
  bind_inv H u1 s6 Ht. destruct u1.
  bind_inv H u4 s9 Hff2.
  bind_inv H d1' s10 Hr1. injection Hr1 as <- <-.
  bind_inv H d2' s11 Hr2. injection Hr2 as <- <-.
  injection H as <- <- <-.
  simpl in *. rewrite !length_app in *. simpl in *.
  set (n0 := length (lists s2)) in *.
  set (s5 := mkLab (lab_world s2) (((lists s2 ++ [[]]) ++ [[]]) ++ [[]])) in *.
  assert (length (lists s5) = n0 + 3) as Hlen5.
  { subst s5. simpl. rewrite !length_app. simpl. lia. }
  assert (rows s5 n0 = 0 /\ rows s5 (n0 + 1) = 0) as [Hrow1 Hrow2].
  { subst s5. unfold rows. cbn [lists]. rewrite <- !app_assoc. cbn [app]. split.
    - unfold n0. by rewrite list_lookup_middle.
    - rewrite lookup_app_r by (unfold n0; lia).
      by replace (n0 + 1 - length (lists s2)) with 1 by (unfold n0; lia). }
  destruct (hits_three n0 (n0 + 1) (n0 + 1 + 1) l1 l2 l3) as (Hh1 & Hh2 & _); [lia..|].
  destruct (train_data_rows _ _ _ _ _ (in_world_keeps_lists _) Ht) as (Hlen6 & Hrows6).
  pose proof (in_world_ok_lists _ _ _ _ Hff2) as Hl9.
  assert (forall d, rows s9 d = rows s6 d) as H96 by (intros; unfold rows; by rewrite Hl9).
  fold (rows s9 n0). fold (rows s9 (n0 + 1)).
  rewrite !H96, !Hrows6, Hrow1, Hrow2, Hh1, Hh2 by lia.
  split; simpl; lia.
Qed.

Lemma main_ok cfg (s s' : Lab L) d1 d2 post :
  main cfg s = (Ok (d1, d2, post), s') ->
  length d1 = 600 /\ length d2 = 600 /\
  post = drop 1 (rule13_post_data (lab_world s')) /\
  rule13_post_data (lab_world s) `prefix_of` rule13_post_data (lab_world s').
Proof.
  unfold main. intros H. bind_inv H refs s1 Hbuild.
  destruct refs as [[l1 l2] l3].
  destruct (run_pilot_exp_1b_concat_2b_ok _ _ _ _ _ _ _ _ _ _ H) as (H1 & H2 & H3 & H4).
  split; [simpl in H1; lia|]. split; [simpl in H2; lia|]. split; [done|].
  destruct (build_small_three_layer_network_refs cfg (lab_world s))
    as (w' & Hb & _ & Hpost & _).
  pose proof (in_world_state (build_small_three_layer_network cfg) s) as Hs.
  rewrite Hbuild, Hb in Hs. simpl in Hs. subst s1. simpl in H4. by rewrite Hpost in H4.
Qed.

(** X19: what the pilot experiments return.  1a and 1b return 150 rows of
    two and of three apical potentials, 1a leaves [rule13_post_data] alone
    and 1b returns all of it; 2b returns 200 rows per list; the
    concatenated experiment returns [steps_to_self_pred + 200] rows per
    list, both calls of [train_data] appending to the same lists, and
    [rule13_post_data] without its first row; [main] returns 600 rows. *)
Theorem pilot_experiment_data (cfg : Config) (layer1 layer2 layer3 : ref)
    (steps_to_self_pred : Z) (s s' : Lab L) (data1 data2 : list (list Q))
    (post : matrix) :
  (run_pilot_experiment_1a layer1 layer2 layer3 s = (Ok (data1, data2), s') ->
   length data1 = 150 /\ Forall (fun row : list Q => length row = 2) data1 /\
   length data2 = 150 /\ Forall (fun row : list Q => length row = 3) data2 /\
   rule13_post_data (lab_world s') = rule13_post_data (lab_world s)) /\
  (run_pilot_experiment_1b layer1 layer2 layer3 s = (Ok (data1, data2, post), s') ->
   length data1 = 150 /\ Forall (fun row : list Q => length row = 2) data1 /\
   length data2 = 150 /\ Forall (fun row : list Q => length row = 3) data2 /\
   post = rule13_post_data (lab_world s')) /\
  (run_pilot_experiment_2b_rule_16b_and_rule_13 cfg layer1 layer2 layer3 s
     = (Ok (data1, data2), s') ->
   length data1 = 200 /\ length data2 = 200) /\
  (run_pilot_exp_1b_concat_2b cfg layer1 layer2 layer3 steps_to_self_pred s
     = (Ok (data1, data2, post), s') ->
   length data1 = Z.to_nat steps_to_self_pred + 200 /\
   length data2 = Z.to_nat steps_to_self_pred + 200 /\
   post = drop 1 (rule13_post_data (lab_world s')) /\
   rule13_post_data (lab_world s) `prefix_of` rule13_post_data (lab_world s')) /\
  (main cfg s = (Ok (data1, data2, post), s') ->
   length data1 = 600 /\ length data2 = 600 /\
   post = drop 1 (rule13_post_data (lab_world s'))).
Proof.
  split; [apply run_pilot_experiment_1a_ok|].
  split; [apply run_pilot_experiment_1b_ok|].
  split; [apply run_pilot_experiment_2b_ok|].
  split; [apply run_pilot_exp_1b_concat_2b_ok|].
  intros Hmain. destruct (main_ok _ _ _ _ _ _ Hmain) as (? & ? & ? & _). done.
Qed.

End PilotData.

(** ** C8: what two runs with the same seeds share *)

Section Related.
Context {S1 S2 : Type}.

Lemma related_bind {A1 A2 B1 B2} (P : S1 -> S2 -> Prop) (m1 : M S1 A1) (m2 : M S2 A2)
    Q (k1 : A1 -> M S1 B1) (k2 : A2 -> M S2 B2) Q' :
  related P m1 m2 Q ->
  (forall a1 a2, related (Q a1 a2) (k1 a1) (k2 a2) Q') ->
  related P (bind m1 k1) (bind m2 k2) Q'.
Proof.
  intros Hm Hk s1 s2 HP. specialize (Hm s1 s2 HP). unfold bind.
  destruct (m1 s1) as [[a1|e1] s1'], (m2 s2) as [[a2|e2] s2']; try done.
  by apply Hk.
Qed.

Lemma agree_bind {A B1 B2} (P : S1 -> S2 -> Prop) (m1 : M S1 A) (m2 : M S2 A)
    (k1 : A -> M S1 B1) (k2 : A -> M S2 B2) Q' :
  agree P m1 m2 ->
  (forall a, related P (k1 a) (k2 a) Q') ->
  related P (bind m1 k1) (bind m2 k2) Q'.
Proof.
  intros Hm Hk. eapply related_bind; [exact Hm|].
  intros a1 a2 s1 s2 [-> HP]. by apply Hk.
Qed.

Lemma agree_ret {A} (P : S1 -> S2 -> Prop) (a : A) : agree P (ret a) (ret a).
Proof. by intros s1 s2 HP. Qed.

Lemma agree_repeatM (P : S1 -> S2 -> Prop) n (body1 : M S1 unit) (body2 : M S2 unit) :
  agree P body1 body2 -> agree P (repeatM n body1) (repeatM n body2).
Proof.
  intros Hbody. induction n as [|n IH]; [apply agree_ret|].
  cbn [repeatM]. apply agree_bind; [exact Hbody | intros _; exact IH].
Qed.
End Related.

Lemma same_at_insert {A} (k1 k2 : nat) (l1 l2 : list A) i x :
  same_at k1 k2 l1 l2 -> i < 3 -> is_Some (l1 !! (k1 + i)) ->
  same_at k1 k2 (<[k1 + i := x]> l1) (<[k2 + i := x]> l2).
Proof.
  intros Hsame Hi Hsome j Hj.
  assert (is_Some (l2 !! (k2 + i))) as Hsome2 by (by rewrite <- Hsame).
  apply lookup_lt_is_Some in Hsome, Hsome2.
  destruct (decide (j = i)) as [->|Hne].
  - by rewrite !list_lookup_insert_eq.
  - rewrite !list_lookup_insert_ne by lia. by apply Hsame.
Qed.

Lemma same_at_alter {A} (k1 k2 : nat) (f : A -> A) (l1 l2 : list A) i :
  same_at k1 k2 l1 l2 -> i < 3 ->
  same_at k1 k2 (alter f (k1 + i) l1) (alter f (k2 + i) l2).
Proof.
  intros Hsame Hi j Hj. destruct (decide (j = i)) as [->|Hne].
  - rewrite !list_lookup_alter_eq. by rewrite Hsame.
  - rewrite !list_lookup_alter_ne by lia. by apply Hsame.
Qed.

Section SameLayers.
Context {L R : Type} `{!LayerOps L R} `{!Rng R}.
Context (k1 k2 : ref) (first1 first2 : list Q) (rest1 rest2 : matrix).
Hypothesis same_width : length first1 = length first2.
Local Set Default Proof Using "All".

Abbreviation Worlds := (alike (L:=L) k1 k2 (first1 :: rest1) (first2 :: rest2)).

Lemma agree_deref x1 x2 : paired k1 k2 x1 x2 -> agree Worlds (deref x1) (deref x2).
Proof.
  intros (i & Hi & -> & ->) w1 w2 HW. unfold deref.
  rewrite (proj1 HW i Hi). by destruct (heap w2 !! (k2 + i)).
Qed.

Lemma agree_call {A} c1 c2 x1 x2 (meth : M L A) :
  paired k1 k2 x1 x2 -> agree Worlds (call c1 x1 meth) (call c2 x2 meth).
Proof.
  intros (i & Hi & -> & ->) w1 w2 [Hheap Hrule]. unfold call, bind, deref, modify.
  pose proof (Hheap i Hi) as Hl.
  destruct (heap w1 !! (k1 + i)) as [l|] eqn:Hl1; rewrite <- Hl; [|done].
  cbn. destruct (meth l) as [[a|e] l']; [|done].
  split; [done|]. split; [|exact Hrule].
  cbn. apply same_at_insert; [done..|]. by rewrite Hl1.
Qed.

Lemma agree_call_with {A} c1 c2 x1 x2 y1 y2 (meth : L -> M L A) :
  paired k1 k2 x1 x2 -> paired k1 k2 y1 y2 ->
  agree Worlds (call_with c1 x1 y1 meth) (call_with c2 x2 y2 meth).
Proof.
  intros Hx Hy. unfold call_with.
  apply agree_bind; [by apply agree_deref|]. intros _.
  apply agree_bind; [by apply agree_deref|]. intros o.
  by apply agree_call.
Qed.

(** [rule13_post_data = np.concatenate((rule13_post_data, data_pt), axis=0)] *)
Lemma agree_concatenate (data_pt : matrix) :
  agree Worlds
    (fun w => match np_concatenate_rows (rule13_post_data w) data_pt with
              | Ok d => (Ok tt, set_rule13_post_data d w)
              | Raise e => (Raise e, w)
              end)
    (fun w => match np_concatenate_rows (rule13_post_data w) data_pt with
              | Ok d => (Ok tt, set_rule13_post_data d w)
              | Raise e => (Raise e, w)
              end).
Proof.
  intros w1 w2 [Hheap (new & Hr1 & Hr2)]. unfold np_concatenate_rows.
  rewrite Hr1, Hr2. cbn [app hd]. rewrite same_width.
  destruct (forallb _ data_pt); [|done].
  split; [done|]. split; [done|]. exists (new ++ data_pt). cbn.
  by rewrite <- !app_assoc.
Qed.

(** Decompose two drivers that differ in their references only. *)
Ltac pair_up := first [exists 0; lia | exists 1; lia | exists 2; lia].
Ltac agree_step :=
  unfold agree;
  lazymatch goal with
  | |- related _ (bind _ _) (bind _ _) _ => apply agree_bind; [|intros ?]
  | |- related _ (call _ _ _) (call _ _ _) _ => apply agree_call; pair_up
  | |- related _ (call_with _ _ _ _) (call_with _ _ _ _) _ =>
      apply agree_call_with; pair_up
  | |- related _ (ret _) (ret _) _ => apply agree_ret
  | |- related _ (repeatM _ _) (repeatM _ _) _ => apply agree_repeatM
  | |- related _ (if ?b then _ else _) (if ?b then _ else _) _ => destruct b
  end.

Lemma agree_do_ff_sweep :
  agree Worlds (do_ff_sweep k1 (k1 + 1) (k1 + 2)) (do_ff_sweep k2 (k2 + 1) (k2 + 2)).
Proof. unfold do_ff_sweep. repeat agree_step. Qed.

Lemma agree_do_fb_sweep :
  agree Worlds (do_fb_sweep k1 (k1 + 1) (k1 + 2)) (do_fb_sweep k2 (k2 + 1) (k2 + 2)).
Proof. unfold do_fb_sweep. repeat agree_step. Qed.

Lemma agree_nudge_output_layer cfg :
  agree Worlds (nudge_output_layer cfg k1 (k1 + 1) (k1 + 2))
          (nudge_output_layer cfg k2 (k2 + 1) (k2 + 2)).
Proof.
  unfold nudge_output_layer.
  apply agree_bind; [agree_step | intros _; apply agree_do_fb_sweep].
Qed.

Lemma agree_train_1_step_rule_16b_and_rule_13 b :
  agree Worlds (train_1_step_rule_16b_and_rule_13 k1 (k1 + 1) (k1 + 2) b)
          (train_1_step_rule_16b_and_rule_13 k2 (k2 + 1) (k2 + 2) b).
Proof.
  unfold train_1_step_rule_16b_and_rule_13, nudge_layer3_fixed.
  apply agree_bind; [agree_step | intros _].
  apply agree_bind; [agree_step | intros data_pt].
  apply agree_bind; [apply agree_concatenate | intros _].
  apply agree_bind; [agree_step | intros _].
  apply agree_bind; [agree_step | intros _].
  apply agree_bind; [apply agree_do_ff_sweep | intros _].
  apply agree_bind; [destruct b; agree_step | intros _].
  apply agree_do_fb_sweep.
Qed.

(** *** The experiment around the drivers *)

Lemma agree_in_world {A} same_lists (m1 m2 : M (World L) A) :
  agree Worlds m1 m2 ->
  agree (alike_labs k1 k2 (first1 :: rest1) (first2 :: rest2) same_lists)
        (in_world m1) (in_world m2).
Proof.
  intros Hm s1 s2 [HW HL]. specialize (Hm _ _ HW). unfold in_world, zoom.
  destruct (m1 (lab_world s1)) as [[a1|e1] w1'], (m2 (lab_world s2)) as [[a2|e2] w2'];
    try done.
  destruct Hm as [-> HW']. split; [done|]. split; [exact HW' | exact HL].
Qed.

Section Lists.
Context (d1 d2 : ref).

Abbreviation Labs := (alike_labs (L:=L) k1 k2 (first1 :: rest1) (first2 :: rest2) (same_at d1 d2)).

Lemma agree_list_append x1 x2 row :
  paired d1 d2 x1 x2 -> agree Labs (list_append x1 row) (list_append x2 row).
Proof.
  intros (i & Hi & -> & ->) s1 s2 [HW HL]. unfold list_append, modify.
  split; [done|]. split; [done|]. cbn. by apply same_at_alter.
Qed.

Lemma agree_record x1 x2 y1 y2 :
  paired d1 d2 x1 x2 -> paired k1 k2 y1 y2 ->
  agree Labs (let* l := in_world (deref y1) in list_append x1 (pyr_apical_mps l))
          (let* l := in_world (deref y2) in list_append x2 (pyr_apical_mps l)).
Proof.
  intros Hx Hy. apply agree_bind; [by apply agree_in_world, agree_deref|].
  intros l. by apply agree_list_append.
Qed.

Lemma agree_train_data n (learn_cb1 learn_cb2 : M (Lab L) unit) :
  agree Labs learn_cb1 learn_cb2 ->
  agree Labs
    (train_data n learn_cb1 [(d1, k1); (d1 + 1, k1 + 1); (d1 + 2, k1 + 2)])
    (train_data n learn_cb2 [(d2, k2); (d2 + 1, k2 + 1); (d2 + 2, k2 + 2)]).
Proof.
  intros Hcb. unfold train_data. apply agree_repeatM.
  apply agree_bind; [exact Hcb|]. intros _. cbn [forM].
  apply agree_bind; [apply agree_record; pair_up|]. intros _.
  apply agree_bind; [apply agree_record; pair_up|]. intros _.
  apply agree_bind; [apply agree_record; pair_up|]. intros _.
  apply agree_ret.
Qed.

(** [run_pilot_exp_1b_concat_2b] from the first call of [train_data] on. *)
Lemma related_recording cfg steps :
  related Labs
    (train_data steps
       (in_world (train_1_step_rule_16b_and_rule_13 k1 (k1 + 1) (k1 + 2) false))
       [(d1, k1); (d1 + 1, k1 + 1); (d1 + 2, k1 + 2)] ;;;
     in_world (nudge_output_layer cfg k1 (k1 + 1) (k1 + 2)) ;;;
     train_data 200
       (in_world (train_1_step_rule_16b_and_rule_13 k1 (k1 + 1) (k1 + 2) true))
       [(d1, k1); (d1 + 1, k1 + 1); (d1 + 2, k1 + 2)] ;;;
     in_world (do_ff_sweep k1 (k1 + 1) (k1 + 2)) ;;;
     let* data1 := read_list d1 in
     let* data2 := read_list (d1 + 1) in
     let* post := gets (fun s => drop 1 (rule13_post_data (lab_world s))) in
     ret (data1, data2, post))
    (train_data steps
       (in_world (train_1_step_rule_16b_and_rule_13 k2 (k2 + 1) (k2 + 2) false))
       [(d2, k2); (d2 + 1, k2 + 1); (d2 + 2, k2 + 2)] ;;;
     in_world (nudge_output_layer cfg k2 (k2 + 1) (k2 + 2)) ;;;
     train_data 200
       (in_world (train_1_step_rule_16b_and_rule_13 k2 (k2 + 1) (k2 + 2) true))
       [(d2, k2); (d2 + 1, k2 + 1); (d2 + 2, k2 + 2)] ;;;
     in_world (do_ff_sweep k2 (k2 + 1) (k2 + 2)) ;;;
     let* data1 := read_list d2 in
     let* data2 := read_list (d2 + 1) in
     let* post := gets (fun s => drop 1 (rule13_post_data (lab_world s))) in
     ret (data1, data2, post))
    (fun a1 a2 s1 s2 =>
       same_but_rule13 rest1 rest2 (Ok a1) (Ok a2) /\
       same_at k1 k2 (heap (lab_world s1)) (heap (lab_world s2))).
Proof.
  apply agree_bind.
  { apply agree_train_data, agree_in_world, agree_train_1_step_rule_16b_and_rule_13. }
  intros _. apply agree_bind; [apply agree_in_world, agree_nudge_output_layer|].
  intros _. apply agree_bind.
  { apply agree_train_data, agree_in_world, agree_train_1_step_rule_16b_and_rule_13. }
  intros _. apply agree_bind; [apply agree_in_world, agree_do_ff_sweep|].
  intros _ s1 s2 [[Hheap (new & Hr1 & Hr2)] HL].
  unfold bind, read_list, gets, ret. cbn.
  pose proof (HL 0 ltac:(lia)) as H0. rewrite !Nat.add_0_r in H0.
  rewrite H0, (HL 1) by lia. split; [|exact Hheap]. split; [done|]. split; [done|].
  exists new. by rewrite Hr1, Hr2.
Qed.
End Lists.

Lemma bind_new_list {B} (k : ref -> M (Lab L) B) (s : Lab L) :
  bind new_list k s = k (length (lists s)) (mkLab (lab_world s) (lists s ++ [[]])).
Proof. reflexivity. Qed.

Lemma related_run_pilot_exp_1b_concat_2b cfg steps :
  related (alike_labs k1 k2 (first1 :: rest1) (first2 :: rest2) (fun _ _ => True))
    (run_pilot_exp_1b_concat_2b cfg k1 (k1 + 1) (k1 + 2) steps)
    (run_pilot_exp_1b_concat_2b cfg k2 (k2 + 1) (k2 + 2) steps)
    (fun a1 a2 s1 s2 =>
       same_but_rule13 rest1 rest2 (Ok a1) (Ok a2) /\
       same_at k1 k2 (heap (lab_world s1)) (heap (lab_world s2))).
Proof.
  unfold run_pilot_exp_1b_concat_2b.
  apply agree_bind; [apply agree_in_world, agree_do_ff_sweep|]. intros _.
  apply agree_bind; [apply agree_in_world, agree_do_fb_sweep|]. intros _.
  intros s1 s2 [HW _]. rewrite !bind_new_list. cbn [lists lab_world].
  rewrite !length_app. cbn [length].
  replace (length (lists s1) + 1 + 1) with (length (lists s1) + 2) by lia.
  replace (length (lists s2) + 1 + 1) with (length (lists s2) + 2) by lia.
  apply (related_recording (length (lists s1)) (length (lists s2)) cfg steps).
  split; [exact HW|]. cbn [lists]. intros i Hi.
  rewrite <- !app_assoc. cbn [app].
  rewrite !lookup_app_r by lia. by rewrite !Nat.add_sub'.
Qed.

End SameLayers.

Section SeededRuns.
Context {L R : Type} `{!LayerOps L R} `{!Rng R} `{!ExperimentBase L R}.

(** The three layers that [build_small_three_layer_network] creates are
    the same in every world. *)
Lemma build_small_three_layer_network_layers cfg :
  exists l1 l2 l3, forall w : World L,
    build_small_three_layer_network cfg w
    = (Ok (length (heap w), length (heap w) + 1, length (heap w) + 2),
       set_heap (heap w ++ [l1; l2; l3]) w).
Proof.
  unfold build_small_three_layer_network.
  destruct (Layer_init (default_rng (wt_init_seed cfg)) (n_input_pyr_nrns cfg) 1 None
              (Some 2) (Some 3) (Some 1)) as [l1 rng1].
  destruct (Layer_init rng1 (n_hidden_pyr_nrns cfg) 3 (Some 2) (Some 3) (Some 2) (Some 3))
    as [l2 rng2].
  destruct (Layer_init rng2 (n_output_pyr_nrns cfg) 0 (Some 3) None None None)
    as [l3 rng3].
  by exists l1, l2, l3.
Qed.

(** What [main] returns depends on the process it runs in through
    [rule13_post_data] only. *)
Lemma main_same_but_rule13 cfg (s1 s2 : Lab L) first1 rest1 first2 rest2 :
  rule13_post_data (lab_world s1) = first1 :: rest1 ->
  rule13_post_data (lab_world s2) = first2 :: rest2 ->
  length first1 = length first2 ->
  same_but_rule13 rest1 rest2 (main cfg s1).1 (main cfg s2).1 /\
  (forall a1, (main cfg s1).1 = Ok a1 ->
     same_at (length (heap (lab_world s1))) (length (heap (lab_world s2)))
             (heap (lab_world (main cfg s1).2)) (heap (lab_world (main cfg s2).2))).
Proof.
  intros Hr1 Hr2 Hwidth.
  destruct (build_small_three_layer_network_layers cfg) as (l1 & l2 & l3 & Hbuild).
  set (k1 := length (heap (lab_world s1))). set (k2 := length (heap (lab_world s2))).
  assert (forall s : Lab L,
            in_world (build_small_three_layer_network cfg) s
            = (Ok (length (heap (lab_world s)), length (heap (lab_world s)) + 1,
                   length (heap (lab_world s)) + 2),
               set_lab_world (set_heap (heap (lab_world s) ++ [l1; l2; l3])
                                       (lab_world s)) s)) as Hin.
  { intros s. unfold in_world, zoom. by rewrite Hbuild. }
  unfold main. rewrite (bind_ok _ _ _ _ _ (Hin s1)), (bind_ok _ _ _ _ _ (Hin s2)).
  fold k1 k2.
  pose proof (related_run_pilot_exp_1b_concat_2b k1 k2 first1 first2 rest1 rest2 Hwidth
                cfg 400
                (set_lab_world (set_heap (heap (lab_world s1) ++ [l1; l2; l3])
                                         (lab_world s1)) s1)
                (set_lab_world (set_heap (heap (lab_world s2) ++ [l1; l2; l3])
                                         (lab_world s2)) s2)) as Hrun.
  assert (forall (s : Lab L) i,
            (heap (lab_world s) ++ [l1; l2; l3]) !! (length (heap (lab_world s)) + i)
            = [l1; l2; l3] !! i) as Hnew.
  { intros s i. rewrite lookup_app_r by lia. by rewrite Nat.add_sub'. }
  lazymatch type of Hrun with
  | ?P -> _ => assert P as Halike
  end.
  { split; [|done]. split; [|exists []; cbn; by rewrite Hr1, Hr2, !app_nil_r].
    intros i Hi. cbn. unfold k1, k2. by rewrite !Hnew. }
  specialize (Hrun Halike).
  destruct (run_pilot_exp_1b_concat_2b cfg k1 (k1 + 1) (k1 + 2) 400 _)
    as [[[[d1 d2] p1]|e1] s1'],
    (run_pilot_exp_1b_concat_2b cfg k2 (k2 + 1) (k2 + 2) 400 _)
    as [[[[d1' d2'] p2]|e2] s2']; try done.
  destruct Hrun as [Hsame Hlayers]. split; [exact Hsame|]. intros a1 _. exact Hlayers.
Qed.

(** A second run of [main] in the same process returns what the first one
    returned, with the rows that the run adds to [rule13_post_data] once
    more at the end. *)
Lemma main_twice cfg (s s' : Lab L) first rest d1 d2 p1 :
  rule13_post_data (lab_world s) = first :: rest ->
  main cfg s = (Ok (d1, d2, p1), s') ->
  exists new, p1 = rest ++ new /\ (main cfg s').1 = Ok (d1, d2, p1 ++ new).
Proof.
  intros Hr Hmain.
  destruct (main_ok _ _ _ _ _ _ Hmain) as (_ & _ & Hp1 & [made Hmade]).
  rewrite Hr in Hmade. rewrite Hmade in Hp1. cbn in Hp1.
  pose proof (proj1 (main_same_but_rule13 cfg s s' first rest first (rest ++ made)
                       Hr Hmade eq_refl)) as Hsame.
  rewrite Hmain in Hsame. cbn in Hsame.
  destruct (main cfg s').1 as [[[d1' d2'] p2]|e]; [|done].
  destruct Hsame as (<- & <- & new & Hnew & ->).
  rewrite Hp1 in Hnew. apply app_inv_head in Hnew as ->.
  exists new. by rewrite Hp1.
Qed.

(** *** The inputs and labels sampled *)

Lemma _hook_pre_train_step_selection (e e' : AndOrExperiment L R) :
  _hook_pre_train_step e = (Ok tt, e') -> selection e' = select (_rng_labels e).
Proof.
  intros H. unfold _hook_pre_train_step in H.
  bind_inv H u1 e1 H1. injection H1 as _ <-.
  bind_inv H step e2 H2. injection H2 as <- <-.
  bind_inv H u3 e3 H3.
  assert (_rng_labels e3 = _rng_labels e) as Hrng.
  { lazymatch type of H3 with
    | ?m _ = _ => assert (keeps _rng_labels m) as Hk
    end.
    { destruct (_ =? _); [|apply keeps_ret].
      apply keeps_forM. intros i.
      repeat (apply keeps_bind; [first [apply keeps_gets | apply keeps_orRaise]|]; intro).
      destruct (_ <? _); [by apply keeps_modify|apply keeps_raise]. }
    specialize (Hk (set_current_step (_current_step e + 1) e)). by rewrite H3 in Hk. }
  bind_inv H rng e4 H4. injection H4 as <- <-. rewrite Hrng in H.
  unfold select.
  destruct (integers 0 (Z.of_nat (length _X)) (_rng_labels e)) as [index rng'].
  bind_inv H u5 e5 H5. injection H5 as _ <-.
  bind_inv H u6 e6 H6. injection H6 as _ <-.
  bind_inv H x e7 Hx.
  destruct (_X !! index) as [x'|] eqn:HX; [|done]. injection Hx as <- <-.
  bind_inv H u8 e8 H8. injection H8 as _ <-.
  bind_inv H y e9 Hy.
  destruct (_Y !! index) as [y'|] eqn:HY; [|done]. injection Hy as <- <-.
  by injection H as <-.
Qed.

Lemma selection_of_book (e e' : AndOrExperiment L R) :
  book e' = book e -> selection e' = selection e.
Proof. unfold book, selection. intros H. injection H. intros. congruence. Qed.

Lemma selection_of_all_but_metrics (e e' : AndOrExperiment L R) :
  all_but_metrics e' = all_but_metrics e -> selection e' = selection e.
Proof.
  unfold all_but_metrics, selection. intros H. injection H. intros. congruence.
Qed.

(** One training step between its hooks draws once, whatever the layers
    do. *)
Lemma training_step_selection b (e e' : AndOrExperiment L R) :
  (_hook_pre_train_step ;;; _train_1_step b ;;; _hook_post_train_step) e = (Ok tt, e') ->
  selection e' = select (_rng_labels e) /\ parameters e' = parameters e.
Proof.
  intros H. bind_inv H u1 e1 Hpre. bind_inv H u2 e2 Hstep. destruct u1, u2.
  pose proof (_hook_pre_train_step_keeps e) as Hk1. rewrite Hpre in Hk1.
  pose proof (_train_1_step_keeps_book b e1) as Hk2. rewrite Hstep in Hk2.
  pose proof (_hook_post_train_step_keeps e2) as Hk3. rewrite H in Hk3.
  cbn in Hk1, Hk2, Hk3. split.
  - rewrite (selection_of_all_but_metrics _ _ Hk3), (selection_of_book _ _ Hk2).
    by apply _hook_pre_train_step_selection.
  - unfold untouched_by_pre_hook in Hk1. unfold book in Hk2. unfold all_but_metrics in Hk3.
    congruence.
Qed.

Lemma train_selection n b (e e' : AndOrExperiment L R) :
  train n b e = (Ok tt, e') ->
  selection e' = selection_after (Z.to_nat n) (selection e) /\
  parameters e' = parameters e.
Proof.
  unfold train, selection_after. generalize (Z.to_nat n). clear n. intros n.
  revert e. induction n as [|n IH]; intros e H.
  - by injection H as <-.
  - cbn [repeatM] in H. bind_inv H u e1 Hstep. destruct u.
    destruct (training_step_selection _ _ _ Hstep) as [Hsel Hpar].
    destruct (IH _ H) as [-> ->]. split; [|done].
    rewrite Nat.iter_succ_r. by rewrite Hsel.
Qed.

Lemma run_selection (e e' : AndOrExperiment L R) :
  run e = (Ok tt, e') ->
  selection e'
  = selection_after (Z.to_nat (__self_prediction_steps e) + Z.to_nat (__training_steps e))
                    (selection e).
Proof.
  unfold run. intros H.
  bind_inv H sp e1 Hsp. injection Hsp as <- <-.
  bind_inv H u1 e2 Htrain1. destruct u1.
  bind_inv H u2 e3 Hnudge. destruct u2.
  bind_inv H ts e4 Hts. injection Hts as <- <-.
  destruct (train_selection _ _ _ _ Htrain1) as [Hsel1 Hpar1].
  pose proof (__nudge_output_layer_keeps_book e2) as Hk. rewrite Hnudge in Hk. cbn in Hk.
  destruct (train_selection _ _ _ _ H) as [-> _].
  rewrite (selection_of_book _ _ Hk), Hsel1.
  assert (__training_steps e3 = __training_steps e) as ->.
  { unfold book in Hk. unfold parameters in *. congruence. }
  unfold selection_after. by rewrite Nat.add_comm, Nat.iter_add.
Qed.

End SeededRuns.

(** ** The recordings of the experiment and its graphs *)

Section Hooks.
Context {L R : Type} `{!LayerOps L R} `{!Rng R} `{!ExperimentBase L R}.
Import AndOrGraphs.

Lemma append_output_ok rows i v r :
  append_output rows i v = Ok r ->
  exists row x, rows !! i = Some row /\ v = Some x /\ r = <[i := row ++ [x]]> rows.
Proof.
  unfold append_output. destruct (rows !! i) as [row|]; [|done].
  destruct v as [x|]; [|done]. intros [= <-]. by exists row, x.
Qed.

(** What the hook after a training step has done when it returns. *)
Lemma _hook_post_train_step_effect (e e' : AndOrExperiment L R) :
  _hook_post_train_step e = (Ok tt, e') ->
  exists i l1 l2 a a' r_and r_or r_xor s0 s1 s2,
    _current_X_index e = Some i /\ heap (world e) = [l1; l2] /\
    KEY_LAYER_1 (_metrics e) !! i = Some a /\
    np_append_column a (pyr_apical_mps l1) = Ok a' /\
    KEY_OUTPUT_ACTIVATIONS_AND (_metrics e) !! i = Some r_and /\
    KEY_OUTPUT_ACTIVATIONS_OR (_metrics e) !! i = Some r_or /\
    KEY_OUTPUT_ACTIVATIONS_XOR (_metrics e) !! i = Some r_xor /\
    pyr_soma_mps l2 !! 0 = Some s0 /\ pyr_soma_mps l2 !! 1 = Some s1 /\
    pyr_soma_mps l2 !! 2 = Some s2 /\
    _metrics e'
    = mkMetrics (<[i := a']> (KEY_LAYER_1 (_metrics e)))
                (<[i := r_and ++ [s0]]> (KEY_OUTPUT_ACTIVATIONS_AND (_metrics e)))
                (<[i := r_or ++ [s1]]> (KEY_OUTPUT_ACTIVATIONS_OR (_metrics e)))
                (<[i := r_xor ++ [s2]]> (KEY_OUTPUT_ACTIVATIONS_XOR (_metrics e))) /\
    all_but_metrics e' = all_but_metrics e.
Proof.
  intros H.
  pose proof (_hook_post_train_step_keeps e) as Hkeep. rewrite H in Hkeep.
  unfold _hook_post_train_step in H.
  bind_inv H hp e1 H1. injection H1 as <- <-.
  destruct (heap (world e)) as [|l1 [|l2 [|l3 hp]]]; try done.
  bind_inv H oi e1 H1. injection H1 as <- <-.
  bind_inv H i e1 H1. destruct (_current_X_index e) as [i'|]; [|done].
  injection H1 as -> <-.
  bind_inv H m e1 H1. injection H1 as <- <-.
  bind_inv H a e1 H1.
  destruct (KEY_LAYER_1 (_metrics e) !! i) as [a0|] eqn:Ha; [|done].
  injection H1 as -> <-.
  destruct (np_append_column a (pyr_apical_mps l1)) as [a'|] eqn:Happ; [|done].
  bind_inv H u1 e1 H1. injection H1 as _ <-.
  bind_inv H m1 e1 H1. injection H1 as <- <-.
  bind_inv H u2 e2 H2.
  destruct (append_output _ i (pyr_soma_mps l2 !! 0)) as [r1|] eqn:Hand; [|done].
  injection H2 as _ <-.
  bind_inv H m2 e2 H2. injection H2 as <- <-.
  bind_inv H u3 e3 H3.
  destruct (append_output _ i (pyr_soma_mps l2 !! 1)) as [r2|] eqn:Hor; [|done].
  injection H3 as _ <-.
  bind_inv H m3 e3 H3. injection H3 as <- <-.
  destruct (append_output _ i (pyr_soma_mps l2 !! 2)) as [r3|] eqn:Hxor; [|done].
  injection H as <-.
  apply append_output_ok in Hand as (r_and & s0 & Hand & Hs0 & ->).
  apply append_output_ok in Hor as (r_or & s1 & Hor & Hs1 & ->).
  apply append_output_ok in Hxor as (r_xor & s2 & Hxor & Hs2 & ->).
  simpl in *.
  exists i, l1, l2, a, a', r_and, r_or, r_xor, s0, s1, s2.
  repeat split; done.
Qed.

Lemma np_append_column_two row0 row1 column a' :
  np_append_column [row0; row1] column = Ok a' ->
  exists c0 c1, column = [c0; c1] /\ a' = [row0 ++ [c0]; row1 ++ [c1]].
Proof.
  unfold np_append_column. destruct column as [|c0 [|c1 [|]]]; try done.
  simpl. intros [= <-]. by exists c0, c1.
Qed.

Lemma pattern_charted_ext (e e' : AndOrExperiment L R) i n :
  _metrics e' = _metrics e -> _nudge_steps e' = _nudge_steps e ->
  pattern_charted e i n -> pattern_charted e' i n.
Proof. unfold pattern_charted. by intros -> ->. Qed.

Lemma charted_ext (e e' : AndOrExperiment L R) :
  _metrics e' = _metrics e -> _nudge_steps e' = _nudge_steps e ->
  charted e -> charted e'.
Proof.
  intros Hm Hn (HK & Hns & Hall). unfold charted. rewrite Hm, Hn.
  split; [done|]. split; [done|]. intros i Hi. destruct (Hall i Hi) as [n Hp].
  exists n. by apply (pattern_charted_ext e).
Qed.

Lemma charted_well_shaped (e : AndOrExperiment L R) : charted e -> well_shaped e.
Proof.
  intros (HK & Hns & Hall). split; [done|]. split; [|done].
  apply Forall_lookup. intros i a Ha.
  destruct (Hall i) as (n & row0 & row1 & ? & ? & ? & ? & HKi & _).
  { apply lookup_lt_Some in Ha. lia. }
  rewrite Ha in HKi. by injection HKi as ->.
Qed.

Lemma _hook_post_train_step_charted (e e' : AndOrExperiment L R) :
  charted e -> _hook_post_train_step e = (Ok tt, e') ->
  charted e' /\
  exists i n, _current_X_index e = Some i /\ i < 4 /\
    pattern_charted e i n /\ pattern_charted e' i (S n) /\
    forall j k, j <> i -> pattern_charted e j k -> pattern_charted e' j k.
Proof.
  intros (HK & Hns & Hall) H.
  destruct (_hook_post_train_step_effect e e' H)
    as (i & l1 & l2 & a & a' & r_and & r_or & r_xor & s0 & s1 & s2 & Hi & Hheap & Ha
        & Happ & Hand & Hor & Hxor & Hs0 & Hs1 & Hs2 & Hm & Hrest).
  assert (i < 4) as Hi4 by (apply lookup_lt_Some in Ha; lia).
  assert (_nudge_steps e' = _nudge_steps e) as Hn
    by (unfold all_but_metrics in Hrest; congruence).
  destruct (Hall i Hi4) as (n & row0 & row1 & a_and & a_or & a_xor & m & HKi & Handi
                            & Hori & Hxori & Hmi & Hl0 & Hl1 & Hland & Hlor & Hlxor & Hle).
  rewrite Ha in HKi. injection HKi as ->.
  rewrite Hand in Handi. injection Handi as <-.
  rewrite Hor in Hori. injection Hori as <-.
  rewrite Hxor in Hxori. injection Hxori as <-.
  apply np_append_column_two in Happ as (c0 & c1 & Hcol & ->).
  assert (pattern_charted e' i (S n)) as Hnew.
  { exists (row0 ++ [c0]), (row1 ++ [c1]), (r_and ++ [s0]), (r_or ++ [s1]),
      (r_xor ++ [s2]), m.
    rewrite Hm, Hn. simpl.
    rewrite !list_lookup_insert_eq by (by eapply lookup_lt_Some).
    rewrite !length_app. simpl. repeat split; try done; lia. }
  assert (forall j k, j <> i -> pattern_charted e j k -> pattern_charted e' j k) as Hold.
  { intros j k Hne (r0 & r1 & b_and & b_or & b_xor & m' & ?). 
    exists r0, r1, b_and, b_or, b_xor, m'. rewrite Hm, Hn. simpl.
    rewrite !list_lookup_insert_ne by done. done. }
  split.
  - split; [by rewrite Hm; simpl; rewrite length_insert|]. split; [congruence|].
    intros j Hj. destruct (decide (j = i)) as [->|Hne]; [by exists (S n)|].
    destruct (Hall j Hj) as [k Hk]. exists k. by apply Hold.
  - exists i, n. repeat split; try done.
    exists row0, row1, r_and, r_or, r_xor, m. repeat split; done.
Qed.

Lemma _hook_pre_train_step_charted (e e' : AndOrExperiment L R) :
  charted e -> _hook_pre_train_step e = (Ok tt, e') -> charted e'.
Proof.
  intros Hc H.
  pose proof (_hook_pre_train_step_keeps e) as Hk. rewrite H in Hk. simpl in Hk.
  assert (_metrics e' = _metrics e) as Hm by (unfold untouched_by_pre_hook in Hk; congruence).
  destruct (decide (_current_step e + 1 = 400)) as [H400|H400].
  - pose proof (_hook_pre_train_step_records e e' (charted_well_shaped e Hc) H400 H) as Hn.
    destruct Hc as (HK & Hns & Hall). unfold charted. rewrite Hm.
    split; [done|]. split; [rewrite Hn; unfold record_counts; by rewrite length_fmap|].
    intros i Hi.
    destruct (Hall i Hi) as (n & row0 & row1 & a_and & a_or & a_xor & m & HKi & Handi
                              & Hori & Hxori & Hmi & Hl0 & Hl1 & Hland & Hlor & Hlxor & Hle).
    exists n, row0, row1, a_and, a_or, a_xor, n. rewrite Hm, Hn.
    repeat split; try done.
    unfold record_counts. rewrite list_lookup_fmap, HKi. simpl. by rewrite Hl0.
  - pose proof (_hook_pre_train_step_other_steps e H400) as Hn. rewrite H in Hn.
    by apply (charted_ext e).
Qed.

(** Decompose a computation and show that it keeps what none of its
    assignments touches. *)
Ltac frame_step :=
  lazymatch goal with
  | |- keeps _ (bind _ _) => apply keeps_bind; [|intros ?]
  | |- keeps _ (ret _) => apply keeps_ret
  | |- keeps _ (raise _) => apply keeps_raise
  | |- keeps _ (gets _) => apply keeps_gets
  | |- keeps _ (orRaise _ _) => apply keeps_orRaise
  | |- keeps _ (modify _) => apply keeps_modify; intros ?; reflexivity
  | |- keeps _ (on_layers _) => apply keeps_on_layers; intros ? ?; reflexivity
  | |- keeps _ (match ?x with _ => _ end) => destruct x
  end.

Lemma run_method_keeps_book (m : Method) :
  m <> HookPreTrainStep -> m <> HookPostTrainStep ->
  keeps (fun e : AndOrExperiment L R => (_metrics e, _nudge_steps e)) (run_method m).
Proof.
  intros Hpre Hpost. destruct m; try done; simpl;
    unfold build_network, _train_1_step, __nudge_output_layer, __do_ff_sweep, __do_fb_sweep;
    repeat frame_step.
Qed.

Lemma AndOrExperiment_init_charted params :
  charted (AndOrExperiment_init (L:=L) (R:=R) params).
Proof.
  split; [done|]. split; [done|]. intros i Hi. exists 0.
  exists [], [], [], [], [], 0. simpl.
  destruct i as [|[|[|[|i]]]]; try lia; by repeat split.
Qed.

Lemma reachable_charted (e : AndOrExperiment L R) : reachable e -> charted e.
Proof.
  induction 1 as [params|e m e' _ IH Hrun]; [apply AndOrExperiment_init_charted|].
  assert (m = HookPreTrainStep \/ m = HookPostTrainStep \/
          (m <> HookPreTrainStep /\ m <> HookPostTrainStep)) as [->|[->|[Hpre Hpost]]]
    by (destruct m; auto).
  - by apply (_hook_pre_train_step_charted e).
  - by apply (_hook_post_train_step_charted e).
  - pose proof (run_method_keeps_book m Hpre Hpost e) as Hk. rewrite Hrun in Hk.
    simpl in Hk. injection Hk as Hm Hn. by apply (charted_ext e).
Qed.

End Hooks.

Section Charts.
Context {L R : Type} `{!LayerOps L R} `{!Rng R} `{!ExperimentBase L R}.
Import AndOrGraphs NeuronParser.

(** X22: the hook after a training step, when it returns on an experiment
    whose recordings are in step, has appended the two apical potentials of
    layer 1 and the first three soma potentials of layer 2 to the
    recordings of the current input pattern, one point each, changed
    nothing else, and the recordings are in step again. *)
Theorem post_hook_adds_a_point_to_each_recording (e e' : AndOrExperiment L R) :
  charted e ->
  _hook_post_train_step e = (Ok tt, e') ->
  exists i l1 l2 a0 a1 s0 s1 s2 row0 row1 r_and r_or r_xor,
    _current_X_index e = Some i /\ heap (world e) = [l1; l2] /\
    pyr_apical_mps l1 = [a0; a1] /\
    pyr_soma_mps l2 !! 0 = Some s0 /\ pyr_soma_mps l2 !! 1 = Some s1 /\
    pyr_soma_mps l2 !! 2 = Some s2 /\
    KEY_LAYER_1 (_metrics e) !! i = Some [row0; row1] /\
    KEY_OUTPUT_ACTIVATIONS_AND (_metrics e) !! i = Some r_and /\
    KEY_OUTPUT_ACTIVATIONS_OR (_metrics e) !! i = Some r_or /\
    KEY_OUTPUT_ACTIVATIONS_XOR (_metrics e) !! i = Some r_xor /\
    _metrics e'
    = mkMetrics (<[i := [row0 ++ [a0]; row1 ++ [a1]]]> (KEY_LAYER_1 (_metrics e)))
                (<[i := r_and ++ [s0]]> (KEY_OUTPUT_ACTIVATIONS_AND (_metrics e)))
                (<[i := r_or ++ [s1]]> (KEY_OUTPUT_ACTIVATIONS_OR (_metrics e)))
                (<[i := r_xor ++ [s2]]> (KEY_OUTPUT_ACTIVATIONS_XOR (_metrics e))) /\
    all_but_metrics e' = all_but_metrics e /\
    charted e'.
Proof.
  intros Hc H.
  destruct (_hook_post_train_step_effect e e' H)
    as (i & l1 & l2 & a & a' & r_and & r_or & r_xor & s0 & s1 & s2 & Hi & Hheap & Ha
        & Happ & Hand & Hor & Hxor & Hs0 & Hs1 & Hs2 & Hm & Hrest).
  destruct (_hook_post_train_step_charted e e' Hc H) as [Hc' _].
  destruct Hc as (_ & _ & Hall).
  destruct (Hall i) as (n & row0 & row1 & ? & ? & ? & ? & HKi & _).
  { apply lookup_lt_Some in Ha. destruct Hc' as (HK' & _). rewrite Hm in HK'. simpl in HK'.
    rewrite length_insert in HK'. lia. }
  rewrite Ha in HKi. injection HKi as ->.
  apply np_append_column_two in Happ as (c0 & c1 & Hcol & ->).
  exists i, l1, l2, c0, c1, s0, s1, s2, row0, row1, r_and, r_or, r_xor.
  repeat (apply conj; [done|]). exact Hc'.
Qed.

(** X23: in every experiment reached from [__init__] by method calls that
    return, there are four input patterns, the five recordings of a pattern
    have the same number of points, and the position of its "nudged"
    annotation is at most that number. *)
Theorem reachable_experiments_are_charted (e : AndOrExperiment L R) :
  reachable e ->
  length (KEY_LAYER_1 (_metrics e)) = 4 /\
  length (_nudge_steps e) = 4 /\
  forall i, i < 4 ->
    exists n row0 row1 a_and a_or a_xor m,
      KEY_LAYER_1 (_metrics e) !! i = Some [row0; row1] /\
      KEY_OUTPUT_ACTIVATIONS_AND (_metrics e) !! i = Some a_and /\
      KEY_OUTPUT_ACTIVATIONS_OR (_metrics e) !! i = Some a_or /\
      KEY_OUTPUT_ACTIVATIONS_XOR (_metrics e) !! i = Some a_xor /\
      _nudge_steps e !! i = Some m /\
      length row0 = n /\ length row1 = n /\
      length a_and = n /\ length a_or = n /\ length a_xor = n /\
      m <= n.
Proof.
  intros Hr. destruct (reachable_charted e Hr) as (HK & Hn & Hall).
  split; [done|]. split; [done|]. intros i Hi.
  destruct (Hall i Hi) as (n & Hp). exists n. exact Hp.
Qed.

(** X24: [extract_metrics] on an experiment whose recordings are in step
    returns sixteen graphs, four per metric in the order of the input
    patterns; the graph of pattern [i] is annotated at [_nudge_steps[i]],
    which lies within its series or right after them; the graphs of layer 1
    have two series and the others one. *)
Theorem extract_metrics_of_charted (e : AndOrExperiment L R) :
  charted e ->
  exists graphs,
    extract_metrics e = Ok graphs /\
    length graphs = 16 /\
    forall g i graph, g < 4 -> i < 4 -> graphs !! (4 * g + i) = Some graph ->
      exists n m,
        pattern_charted e i n /\
        _nudge_steps e !! i = Some m /\
        xaxis_annotations (extra graph) = [mkXAnnotation m "nudged"] /\
        m <= n /\
        length (series graph) = (if g =? 0 then 2 else 1) /\
        Forall (fun s => length (serie_data s) = n) (series graph).
Proof.
  intros (HK & Hns & Hall).
  destruct (Hall 0 ltac:(lia)) as (n0 & Hp0). destruct (Hall 1 ltac:(lia)) as (n1 & Hp1).
  destruct (Hall 2 ltac:(lia)) as (n2 & Hp2). destruct (Hall 3 ltac:(lia)) as (n3 & Hp3).
  pose proof Hp0 as (r00 & r01 & a0 & o0 & x0 & m0 & HK0 & HA0 & HO0 & HX0 & HM0 & ? & ?
                     & ? & ? & ? & ?).
  pose proof Hp1 as (r10 & r11 & a1 & o1 & x1 & m1 & HK1 & HA1 & HO1 & HX1 & HM1 & ? & ?
                     & ? & ? & ? & ?).
  pose proof Hp2 as (r20 & r21 & a2 & o2 & x2 & m2 & HK2 & HA2 & HO2 & HX2 & HM2 & ? & ?
                     & ? & ? & ? & ?).
  pose proof Hp3 as (r30 & r31 & a3 & o3 & x3 & m3 & HK3 & HA3 & HO3 & HX3 & HM3 & ? & ?
                     & ? & ? & ? & ?).
  unfold extract_metrics, __extract_layer_metrics, __extract_output_activations_metrics.
  cbn [length _X seq mapR].
  unfold layer_graph, output_graph.
  rewrite !(lookup_or_raise_Some _ _ _ HK0), !(lookup_or_raise_Some _ _ _ HK1),
    !(lookup_or_raise_Some _ _ _ HK2), !(lookup_or_raise_Some _ _ _ HK3),
    !(lookup_or_raise_Some _ _ _ HA0), !(lookup_or_raise_Some _ _ _ HA1),
    !(lookup_or_raise_Some _ _ _ HA2), !(lookup_or_raise_Some _ _ _ HA3),
    !(lookup_or_raise_Some _ _ _ HO0), !(lookup_or_raise_Some _ _ _ HO1),
    !(lookup_or_raise_Some _ _ _ HO2), !(lookup_or_raise_Some _ _ _ HO3),
    !(lookup_or_raise_Some _ _ _ HX0), !(lookup_or_raise_Some _ _ _ HX1),
    !(lookup_or_raise_Some _ _ _ HX2), !(lookup_or_raise_Some _ _ _ HX3),
    !(lookup_or_raise_Some _ _ _ HM0), !(lookup_or_raise_Some _ _ _ HM1),
    !(lookup_or_raise_Some _ _ _ HM2), !(lookup_or_raise_Some _ _ _ HM3).
  cbn [rbind lookup_or_raise lookup list_lookup _X _Y app].
  eexists. split; [reflexivity|]. split; [reflexivity|].
  intros g i graph Hg Hi.
  destruct g as [|[|[|[|g]]]]; try lia;
    destruct i as [|[|[|[|i]]]]; try lia;
    cbn [Nat.mul Nat.add lookup list_lookup]; intros [= <-];
    cbn [extra series xaxis_annotations Nat.eqb length];
    first [ exists n0, m0; split; [exact Hp0|]
          | exists n1, m1; split; [exact Hp1|]
          | exists n2, m2; split; [exact Hp2|]
          | exists n3, m3; split; [exact Hp3|] ];
    (split; [done|]); (split; [done|]); (split; [done|]); (split; [done|]);
    repeat constructor; done.
Qed.

End Charts.

(** ** Before and after the selection of a pattern *)

Section Selection.
Context {L R : Type} `{!LayerOps L R} `{!Rng R} `{!ExperimentBase L R}.

(** X20: the hook before a training step, when it returns, has drawn an
    index below 4 from the label generator, selected the input pattern at
    that index, set the label to AND, OR and XOR of its two inputs, counted
    the step, and left the metrics and the layers as they are. *)
Theorem pre_hook_selects_a_labelled_pattern (e e' : AndOrExperiment L R) :
  _hook_pre_train_step e = (Ok tt, e') ->
  exists i a b,
    integers 0 4 (_rng_labels e) = (i, _rng_labels e') /\
    i < 4 /\
    _current_X_index e' = Some i /\
    _X !! i = Some [a; b] /\
    _current_X e' = Some [a; b] /\
    _current_label e' = Some [a * b; a + b - a * b; a + b - 2 * a * b]%Q /\
    _current_step e' = _current_step e + 1 /\
    _metrics e' = _metrics e /\ world e' = world e.
Proof.
  intros H.
  pose proof (_hook_pre_train_step_counts e) as Hstep. rewrite H in Hstep.
  pose proof (_hook_pre_train_step_keeps e) as Hkeep. rewrite H in Hkeep.
  simpl in Hstep, Hkeep. unfold untouched_by_pre_hook in Hkeep.
  unfold _hook_pre_train_step in H.
  bind_inv H u1 e1 H1. injection H1 as _ <-.
  bind_inv H step e2 H2. injection H2 as <- <-.
  bind_inv H u3 e3 H3.
  assert (_rng_labels e3 = _rng_labels e) as Hrng.
  { lazymatch type of H3 with
    | ?m _ = _ => assert (keeps _rng_labels m) as Hk
    end.
    { destruct (_ =? _); [|apply keeps_ret].
      apply keeps_forM. intros i.
      repeat (apply keeps_bind; [first [apply keeps_gets | apply keeps_orRaise]|]; intro).
      destruct (_ <? _); [by apply keeps_modify|apply keeps_raise]. }
    specialize (Hk (set_current_step (_current_step e + 1) e)). by rewrite H3 in Hk. }
  bind_inv H rng e4 H4. injection H4 as <- <-. rewrite Hrng in H.
  change (Z.of_nat (length _X)) with 4%Z in H.
  destruct (integers 0 4 (_rng_labels e)) as [index rng'] eqn:Hdraw.
  bind_inv H u5 e5 H5. injection H5 as _ <-.
  bind_inv H u6 e6 H6. injection H6 as _ <-.
  bind_inv H x e7 Hx.
  destruct (_X !! index) as [x'|] eqn:HX; [|done]. injection Hx as <- <-.
  bind_inv H u8 e8 H8. injection H8 as _ <-.
  bind_inv H y e9 Hy.
  destruct (_Y !! index) as [y'|] eqn:HY; [|done]. injection Hy as <- <-.
  injection H as <-. injection Hkeep as _ Hm Hw. simpl in *.
  assert (index < 4) as Hlt by (by apply lookup_lt_Some in HX).
  assert (exists a b, x' = [a; b]) as (a & b & ->).
  { destruct index as [|[|[|[|]]]]; simpl in HX; try lia; injection HX as <-; by eexists _, _. }
  exists index, a, b. split; [done|]. split; [done|]. split; [done|]. split; [done|].
  split; [done|]. split; [by rewrite (labels_are_and_or_xor index a b y' HX HY)|].
  split; [done|]. by split.
Qed.

Lemma set_world_world (e : AndOrExperiment L R) : set_world (world e) e = e.
Proof. by destruct e. Qed.

Lemma on_layers_deref r (e : AndOrExperiment L R) l :
  heap (world e) !! r = Some l -> on_layers (deref r) e = (Ok l, e).
Proof.
  intros Hl. unfold on_layers, zoom, deref. rewrite Hl. by rewrite set_world_world.
Qed.

Lemma __do_ff_sweep_without_input (e : AndOrExperiment L R) :
  _current_X e = None ->
  (__do_ff_sweep e).1 <> Ok tt /\ (__do_ff_sweep e).2 = e /\
  (1 <= length (heap (world e)) -> __do_ff_sweep e = (Raise AttributeError, e)).
Proof.
  intros HX. unfold __do_ff_sweep.
  destruct (heap (world e) !! 0) as [l|] eqn:Hl.
  - rewrite (bind_ok _ _ _ _ _ (on_layers_deref 0 e l Hl)).
    unfold bind, gets, orRaise. rewrite HX. simpl. done.
  - assert (on_layers (deref 0) e = (Raise IndexError, e)) as Hd.
    { unfold on_layers, zoom, deref. rewrite Hl. by rewrite set_world_world. }
    rewrite (bind_raise _ _ _ _ _ Hd). simpl. split; [done|]. split; [done|].
    intros Hlen. apply lookup_ge_None in Hl. lia.
Qed.

(** X21: before the first hook no pattern is selected.  Then the FF sweep
    cannot return (it raises AttributeError when the input layer exists),
    nor can a training step, which makes its two weight adjustments at most;
    and without a label [__nudge_output_layer] cannot return and changes
    nothing (it raises TypeError when the output layer exists). *)
Theorem no_training_before_a_pattern_is_selected (e : AndOrExperiment L R) :
  (_current_X e = None ->
   (1 <= length (heap (world e)) -> __do_ff_sweep e = (Raise AttributeError, e)) /\
   forall nudge_predicate,
     (_train_1_step nudge_predicate e).1 <> Ok tt /\
     exists made,
       exp_calls (_train_1_step nudge_predicate e).2 = exp_calls e ++ made /\
       made `prefix_of` [AdjustWtsLatPi 0; AdjustWtsPpFf 1 0]) /\
  (_current_label e = None ->
   (2 <= length (heap (world e)) -> __nudge_output_layer e = (Raise TypeError, e)) /\
   (__nudge_output_layer e).1 <> Ok tt /\ (__nudge_output_layer e).2 = e) /\
  (forall params,
     _current_X (new_experiment (L:=L) (R:=R) params) = None /\
     _current_label (new_experiment (L:=L) (R:=R) params) = None).
Proof.
  split; [|split].
  - intros HX. split; [apply (__do_ff_sweep_without_input e HX)|].
    intros b. unfold _train_1_step.
    rewrite (bind_ok _ _ e (heap (world e)) e) by done.
    destruct (heap (world e)) as [|l1 [|l2 [|l3 hp]]] eqn:Hheap;
      try (split; [done|]; exists []; split; [by rewrite app_nil_r|apply prefix_nil]).
    pose proof (on_layers_emits _ e _
      (emits_call (AdjustWtsLatPi 0) 0 adjust_wts_lat_pi (world e)))
      as (made1 & Hlog1 & Hpre1 & Hfull1).
    pose proof (keeps_on_layers (_current_X (L:=L) (R:=R))
      (call (AdjustWtsLatPi 0) 0 adjust_wts_lat_pi) ltac:(done) e) as HX1.
    destruct (on_layers (call (AdjustWtsLatPi 0) 0 adjust_wts_lat_pi) e)
      as [[[]|x] e1] eqn:H1; cbn [fst snd] in Hlog1, Hfull1, HX1.
    2: { rewrite (bind_raise _ _ _ _ _ H1). cbn [fst snd]. split; [done|]. exists made1.
         split; [done|]. etrans; [exact Hpre1|]. by exists [AdjustWtsPpFf 1 0]. }
    rewrite (bind_ok _ _ _ _ _ H1).
    rewrite (Hfull1 tt eq_refl) in Hlog1.
    pose proof (on_layers_emits _ e1 _
      (emits_call_with (AdjustWtsPpFf 1 0) 1 0 adjust_wts_pp_ff (world e1)))
      as (made2 & Hlog2 & Hpre2 & Hfull2).
    pose proof (keeps_on_layers (_current_X (L:=L) (R:=R))
      (call_with (AdjustWtsPpFf 1 0) 1 0 adjust_wts_pp_ff) ltac:(done) e1) as HX2.
    destruct (on_layers (call_with (AdjustWtsPpFf 1 0) 1 0 adjust_wts_pp_ff) e1)
      as [[data_pt|x] e2] eqn:H2; cbn [fst snd] in Hlog2, Hfull2, HX2.
    2: { rewrite (bind_raise _ _ _ _ _ H2). cbn [fst snd]. split; [done|].
         exists ([AdjustWtsLatPi 0] ++ made2).
         rewrite Hlog2, Hlog1, <- app_assoc.
         split; [done|]. by apply (prefix_app [AdjustWtsLatPi 0] made2 [AdjustWtsPpFf 1 0]). }
    rewrite (bind_ok _ _ _ _ _ H2).
    rewrite (Hfull2 data_pt eq_refl) in Hlog2.
    assert (exp_calls e2 = exp_calls e ++ [AdjustWtsLatPi 0; AdjustWtsPpFf 1 0]) as Hc2.
    { rewrite Hlog2, Hlog1, <- app_assoc. done. }
    rewrite HX1, HX in HX2.
    destruct (__do_ff_sweep_without_input e2 HX2) as (Hnot & Hsame & _).
    destruct (__do_ff_sweep e2) as [[[]|x] e3] eqn:H3; simpl in Hnot, Hsame; [done|].
    rewrite (bind_raise _ _ _ _ _ H3). simpl. split; [done|].
    exists [AdjustWtsLatPi 0; AdjustWtsPpFf 1 0]. subst e3. by split.
  - intros HY. unfold __nudge_output_layer.
    destruct (heap (world e) !! 1) as [l|] eqn:Hl.
    + rewrite (bind_ok _ _ _ _ _ (on_layers_deref 1 e l Hl)).
      unfold bind, gets, orRaise. rewrite HY. simpl. done.
    + assert (on_layers (deref 1) e = (Raise IndexError, e)) as Hd.
      { unfold on_layers, zoom, deref. rewrite Hl. by rewrite set_world_world. }
      rewrite (bind_raise _ _ _ _ _ Hd). simpl. split; [|done].
      intros Hlen. apply lookup_ge_None in Hl. lia.
  - intros params. by split.
Qed.

End Selection.

(** ** The numbers of a line of text *)

Section Numbers.
Import Stdlib.Strings.Ascii.
Import NeuronParser ArrayText.
Local Arguments String.append !_ _ / : simpl nomatch.

Lemma app_assoc_string (a b c : string) : (a +:+ b) +:+ c = a +:+ b +:+ c.
Proof. induction a as [|x a IH]; cbn [String.append]; [done|]. by rewrite IH. Qed.

Lemma plain_cons c t :
  plain (String c t) = true ->
  c <> " "%char /\ c <> ascii_of_nat 10 /\ c <> "["%char /\ c <> "]"%char /\
  c <> ","%char /\ plain t = true.
Proof.
  simpl. intros H. apply andb_prop in H as [Hc Ht].
  apply negb_true_iff in Hc.
  repeat (apply orb_false_elim in Hc as [Hc ?]).
  repeat split; try done;
    intros ->; by rewrite ?Ascii.eqb_refl in *.
Qed.

Lemma sub_spaces_plain b t u :
  plain t = true -> sub_spaces b (t +:+ String "]" u) = t +:+ sub_spaces false (String "]" u).
Proof.
  revert b. induction t as [|c t IH]; intros b Ht.
  - done.
  - apply plain_cons in Ht as (Hsp & _ & _ & _ & _ & Ht).
    cbn [String.append sub_spaces].
    destruct (Ascii.eqb_spec c " ") as [|_]; [done|]. by rewrite IH.
Qed.

Lemma sub_spaces_suffix (body : string) (b : bool) (tok : string) :
  plain tok = true ->
  exists X,
    (if b then ", " else "") +:+ sub_spaces b (body +:+ " " +:+ tok +:+ "]")
    = X +:+ ", " +:+ tok +:+ "]".
Proof.
  intros Htok. revert b. induction body as [|c body IH]; intros b.
  - exists "". cbn [String.append sub_spaces]. rewrite Ascii.eqb_refl.
    rewrite (sub_spaces_plain true tok "" Htok). by destruct b.
  - cbn [String.append sub_spaces].
    destruct (Ascii.eqb_spec c " ") as [->|Hc].
    + destruct (IH true) as (X & HX). exists X. by destruct b.
    + destruct (IH false) as (X & HX). simpl in HX. rewrite HX.
      exists ((if b then ", " else "") +:+ String c X).
      by rewrite app_assoc_string.
Qed.

Lemma remove_char_app c a b :
  remove_char c (a +:+ b) = remove_char c a +:+ remove_char c b.
Proof.
  induction a as [|x a IH]; simpl; [done|].
  destruct (Ascii.eqb x c); simpl; by rewrite IH.
Qed.

Lemma remove_char_plain c t :
  c = ascii_of_nat 10 \/ c = "["%char \/ c = "]"%char ->
  plain t = true -> remove_char c t = t.
Proof.
  intros Hc. induction t as [|x t IH]; intros Ht; [done|].
  apply plain_cons in Ht as (_ & Hnl & Hopen & Hclose & _ & Ht).
  simpl. destruct (Ascii.eqb_spec x c) as [->|_].
  - by destruct Hc as [->|[->| ->]].
  - by rewrite IH.
Qed.

Lemma sub_dot_comma_cons c c2 s :
  sub_dot_comma (String c (String c2 s))
  = if Ascii.eqb c "." && Ascii.eqb c2 ","
    then String "," (sub_dot_comma s)
    else String c (sub_dot_comma (String c2 s)).
Proof. reflexivity. Qed.

Lemma split_comma_space_cons c c2 s :
  split_comma_space (String c (String c2 s))
  = if Ascii.eqb c "," && Ascii.eqb c2 " "
    then "" :: split_comma_space s
    else cons_first c (split_comma_space (String c2 s)).
Proof. reflexivity. Qed.

Lemma sub_dot_comma_other c s :
  c <> "."%char -> sub_dot_comma (String c s) = String c (sub_dot_comma s).
Proof.
  intros Hc. destruct s as [|c2 s]; [done|]. rewrite sub_dot_comma_cons.
  by destruct (Ascii.eqb_spec c ".").
Qed.

Lemma sub_dot_comma_no_comma c c2 s :
  c2 <> ","%char ->
  sub_dot_comma (String c (String c2 s)) = String c (sub_dot_comma (String c2 s)).
Proof.
  intros Hc. rewrite sub_dot_comma_cons.
  destruct (Ascii.eqb_spec c2 ","); [done|]. by rewrite andb_false_r.
Qed.

Lemma sub_dot_comma_plain t :
  plain t = true -> sub_dot_comma (t +:+ "]") = t +:+ "]".
Proof.
  induction t as [|c t IH]; intros Ht; [done|].
  apply plain_cons in Ht as (_ & _ & _ & _ & _ & Ht).
  specialize (IH Ht). cbn [String.append].
  destruct t as [|c2 t].
  - cbn [String.append]. by rewrite sub_dot_comma_no_comma.
  - cbn [String.append] in *.
    apply plain_cons in Ht as (_ & _ & _ & _ & Hcomma & _).
    rewrite sub_dot_comma_no_comma by done. by rewrite IH.
Qed.

Lemma sub_dot_comma_suffix Y tok :
  plain tok = true ->
  exists Z, sub_dot_comma (Y +:+ ", " +:+ tok +:+ "]") = Z +:+ ", " +:+ tok +:+ "]".
Proof.
  intros Htok.
  assert (sub_dot_comma (" " +:+ tok +:+ "]") = " " +:+ tok +:+ "]") as Hspace.
  { cbn [String.append]. rewrite sub_dot_comma_other by done.
    by rewrite (sub_dot_comma_plain tok Htok). }
  assert (sub_dot_comma (", " +:+ tok +:+ "]") = ", " +:+ tok +:+ "]") as Hbase.
  { cbn [String.append] in *. rewrite sub_dot_comma_other by done. by rewrite Hspace. }
  remember (String.length Y) as n eqn:Hn.
  revert Y Hn. induction n as [n IH] using lt_wf_ind. intros Y Hn.
  destruct Y as [|c Y]; [by exists ""|].
  destruct Y as [|c2 Y].
  - cbn [String.append] in *.
    destruct (Ascii.eqb_spec c ".") as [->|Hc].
    + exists "". rewrite sub_dot_comma_cons. cbn [Ascii.eqb Bool.eqb andb].
      cbn [String.append]. by rewrite Hspace.
    + rewrite sub_dot_comma_other by done. rewrite Hbase. by exists (String c "").
  - cbn [String.append]. rewrite sub_dot_comma_cons.
    destruct (Ascii.eqb c "." && Ascii.eqb c2 ",").
    + destruct (IH (String.length Y) ltac:(simpl in Hn; lia) Y eq_refl) as (Z & HZ).
      cbn [String.append] in HZ. rewrite HZ. by exists (String "," Z).
    + destruct (IH (String.length (String c2 Y)) ltac:(simpl in *; lia) (String c2 Y) eq_refl)
        as (Z & HZ).
      cbn [String.append] in HZ. rewrite HZ. by exists (String c Z).
Qed.

Lemma split_comma_space_other c s :
  c <> ","%char -> split_comma_space (String c s) = cons_first c (split_comma_space s).
Proof.
  intros Hc. destruct s as [|c2 s]; [done|]. rewrite split_comma_space_cons.
  by destruct (Ascii.eqb_spec c ",").
Qed.

Lemma split_comma_space_no_space c c2 s :
  c2 <> " "%char ->
  split_comma_space (String c (String c2 s))
  = cons_first c (split_comma_space (String c2 s)).
Proof.
  intros Hc. rewrite split_comma_space_cons.
  destruct (Ascii.eqb_spec c2 " "); [done|]. by rewrite andb_false_r.
Qed.

Lemma split_comma_space_plain t : plain t = true -> split_comma_space t = [t].
Proof.
  induction t as [|c t IH]; intros Ht; [done|].
  apply plain_cons in Ht as (_ & _ & _ & _ & Hcomma & Ht).
  rewrite split_comma_space_other by done. by rewrite IH.
Qed.

Lemma split_comma_space_suffix W tok :
  plain tok = true ->
  exists ts, ts <> [] /\ split_comma_space (W +:+ ", " +:+ tok) = ts ++ [tok].
Proof.
  intros Htok.
  assert (split_comma_space (", " +:+ tok) = [""; tok]) as Hbase.
  { cbn [String.append]. rewrite split_comma_space_cons. cbn [Ascii.eqb Bool.eqb andb].
    by rewrite (split_comma_space_plain tok Htok). }
  remember (String.length W) as n eqn:Hn.
  revert W Hn. induction n as [n IH] using lt_wf_ind. intros W Hn.
  destruct W as [|c W]; [by exists [""]|].
  destruct W as [|c2 W].
  - cbn [String.append] in *.
    rewrite split_comma_space_no_space by done. rewrite Hbase.
    by exists [String c ""].
  - cbn [String.append]. rewrite split_comma_space_cons.
    destruct (Ascii.eqb c "," && Ascii.eqb c2 " ").
    + destruct (IH (String.length W) ltac:(simpl in Hn; lia) W eq_refl)
        as (ts & Hts & Hsplit).
      cbn [String.append] in Hsplit. rewrite Hsplit. by exists ("" :: ts).
    + destruct (IH (String.length (String c2 W)) ltac:(simpl in *; lia) (String c2 W)
                  eq_refl) as (ts & Hts & Hsplit).
      cbn [String.append] in Hsplit. rewrite Hsplit.
      destruct ts as [|t ts]; [done|]. by exists (String c t :: ts).
Qed.

(** The last of the numbers of a line is what stands between its last
    space and its closing bracket. *)
Lemma numbers_of_last body tok :
  plain tok = true ->
  exists ts, numbers_of (body +:+ " " +:+ tok +:+ "]") = ts ++ [tok].
Proof.
  intros Htok. unfold numbers_of.
  destruct (sub_spaces_suffix body false tok Htok) as (X & HX).
  change (sub_spaces false (body +:+ " " +:+ tok +:+ "]") = X +:+ ", " +:+ tok +:+ "]") in HX.
  rewrite HX, remove_char_app.
  assert (forall c, c = ascii_of_nat 10 \/ c = "["%char \/ c = "]"%char ->
            c <> "]"%char ->
            remove_char c (", " +:+ tok +:+ "]") = ", " +:+ tok +:+ "]") as Hkeep.
  { intros c Hc Hnot. rewrite !remove_char_app, (remove_char_plain c tok Hc Htok).
    destruct Hc as [->|[->|?]]; done. }
  rewrite (Hkeep (ascii_of_nat 10) ltac:(by left) ltac:(done)).
  destruct (sub_dot_comma_suffix (remove_char (ascii_of_nat 10) X) tok Htok) as (Z & ->).
  rewrite remove_char_app, (Hkeep "["%char ltac:(by right; left) ltac:(done)).
  rewrite !remove_char_app.
  rewrite (remove_char_plain "]" tok ltac:(by right; right) Htok).
  change (remove_char "]" ", ") with ", ". change (remove_char "]" "]") with "".
  replace (tok +:+ "") with tok by (clear; induction tok as [|c t IH]; simpl; congruence).
  destruct (split_comma_space_suffix (remove_char "]" (remove_char "[" Z)) tok Htok)
    as (ts & _ & ->).
  by exists ts.
Qed.

Section Float.
Context (float : string -> option Q).

Lemma parse_numbers_app ts us acc :
  parse_numbers float (ts ++ us) acc
  = rbind (parse_numbers float ts acc) (parse_numbers float us).
Proof.
  revert acc. induction ts as [|t ts IH]; intros acc; [done|].
  cbn [app parse_numbers].
  destruct (negb (String.eqb t "") && negb (endswith "1." t)).
  - destruct (float t); [apply IH|done].
  - destruct (negb (String.eqb t "")); [|apply IH].
    destruct (float (removesuffix "1." t)); [apply IH|done].
Qed.

Lemma parse_numbers_raises ts acc e :
  parse_numbers float ts acc = Raise e -> e = ValueError.
Proof.
  revert acc. induction ts as [|t ts IH]; intros acc; [done|].
  cbn [parse_numbers].
  destruct (negb (String.eqb t "") && negb (endswith "1." t)).
  - destruct (float t); [apply IH|congruence].
  - destruct (negb (String.eqb t "")); [|apply IH].
    destruct (float (removesuffix "1." t)); [apply IH|congruence].
Qed.

Lemma parse_numbers_grows ts acc arr :
  parse_numbers float ts acc = Ok arr -> exists more, arr = acc ++ more.
Proof.
  revert acc. induction ts as [|t ts IH]; intros acc; cbn [parse_numbers].
  - intros [= <-]. exists []. by rewrite app_nil_r.
  - destruct (negb (String.eqb t "") && negb (endswith "1." t)).
    + destruct (float t) as [x|]; [|done]. intros H.
      destruct (IH _ H) as (more & ->). exists (x :: more). by rewrite <- app_assoc.
    + destruct (negb (String.eqb t "")); [|apply IH].
      destruct (float (removesuffix "1." t)) as [x|]; [|done]. intros H.
      destruct (IH _ H) as (more & ->). exists (x :: more). by rewrite <- app_assoc.
Qed.

(** X25: the last number of a line.  On a line that ends with a space,
    a text [tok] without space, newline, bracket or comma, and the closing
    bracket, [parse_into_np_array] raises nothing but ValueError; when it
    returns, the last entry of the array is [float(tok)], or [float] of
    [tok] less its last two characters when these are "1." (so that "21."
    is read as 2); and, [float("")] being an error, a line that ends in
    " 1.]" raises ValueError. *)
Theorem last_number_of_a_line (body tok : string) :
  plain tok = true ->
  (float "" = None -> tok = "1." ->
   parse_into_np_array float (body +:+ " " +:+ tok +:+ "]") = Raise ValueError) /\
  (forall e, parse_into_np_array float (body +:+ " " +:+ tok +:+ "]") = Raise e ->
     e = ValueError) /\
  (forall output_array,
     parse_into_np_array float (body +:+ " " +:+ tok +:+ "]") = Ok output_array ->
     tok <> "" ->
     exists x,
       last output_array = Some x /\
       float (if endswith "1." tok then removesuffix "1." tok else tok) = Some x).
Proof.
  intros Htok. unfold parse_into_np_array.
  destruct (numbers_of_last body tok Htok) as (ts & ->).
  rewrite parse_numbers_app.
  split; [|split].
  - intros Hempty ->.
    destruct (parse_numbers float ts []) as [acc|e] eqn:Hts.
    + cbn. by rewrite Hempty.
    + cbn. by rewrite (parse_numbers_raises _ _ _ Hts).
  - intros e. destruct (parse_numbers float ts []) as [acc|e'] eqn:Hts.
    + cbn [rbind]. apply parse_numbers_raises.
    + cbn [rbind]. intros [= <-]. by apply (parse_numbers_raises _ _ _ Hts).
  - intros arr. destruct (parse_numbers float ts []) as [acc|e'] eqn:Hts; [|done].
    cbn [rbind parse_numbers]. intros H Hne.
    assert (String.eqb tok "" = false) as Hnot by (by apply String.eqb_neq).
    rewrite Hnot in H. cbn [negb andb] in H.
    destruct (endswith "1." tok); cbn [negb] in H.
    + destruct (float (removesuffix "1." tok)) as [x|]; [|done].
      injection H as <-. exists x. by rewrite last_snoc.
    + destruct (float tok) as [x|]; [|done].
      injection H as <-. exists x. by rewrite last_snoc.
Qed.

End Float.
End Numbers.

(** ** Reading the lines of a recording *)

Section Reading.
Import Stdlib.Strings.Ascii.
Import NeuronParser ArrayText.
Local Arguments String.append !_ _ / : simpl nomatch.

Lemma endswith_cons suffix c s :
  endswith suffix (String c s) = String.eqb (String c s) suffix || endswith suffix s.
Proof. reflexivity. Qed.

Lemma endswith_bracket_app a b :
  b <> "" -> endswith "]" (a +:+ b) = endswith "]" b.
Proof.
  intros Hb. induction a as [|c a IH]; [done|].
  cbn [String.append]. rewrite endswith_cons, IH.
  destruct (a +:+ b) as [|c2 s] eqn:Hab.
  - destruct a; [done|]. by cbn [String.append] in Hab.
  - cbn [String.eqb]. by destruct (Ascii.eqb c "]").
Qed.

Lemma endswith_bracket_inv s : endswith "]" s = true -> exists a, s = a +:+ "]".
Proof.
  induction s as [|c s IH]; [done|].
  rewrite endswith_cons. intros [Heq|Hs]%orb_prop.
  - apply String.eqb_eq in Heq as ->. by exists "".
  - destruct (IH Hs) as (a & ->). by exists (String c a).
Qed.

Lemma endswith_bracket_nonempty s : endswith "]" s = true -> s <> "".
Proof. by intros H ->. Qed.

Lemma lstrip_bracket a : exists a', lstrip (a +:+ "]") = a' +:+ "]".
Proof.
  induction a as [|c a IH]; [by exists ""|].
  cbn [String.append lstrip]. destruct (isspace c); [done|]. by exists (String c a).
Qed.

Lemma rstrip_bracket a : rstrip (a +:+ "]") = a +:+ "]".
Proof.
  induction a as [|c a IH]; [done|].
  cbn [String.append rstrip]. rewrite IH.
  destruct (a +:+ "]") as [|c2 s] eqn:Hs; [|done]. by destruct a.
Qed.

Lemma strip_bracket s : endswith "]" s = true -> strip s <> "".
Proof.
  intros (a & ->)%endswith_bracket_inv. unfold strip.
  destruct (lstrip_bracket a) as (a' & ->). rewrite rstrip_bracket. by destruct a'.
Qed.

Lemma continue_line_eq line file :
  continue_line line file
  = if endswith "]" line then (line, file)
    else match file with
         | [] => (line, [])
         | next_line :: rest =>
             if String.eqb next_line "" then (line, rest)
             else continue_line (line +:+ " " +:+ next_line) rest
         end.
Proof. by destruct file. Qed.

Lemma concat_space_cons a l :
  l <> [] -> String.concat " " (a :: l) = a +:+ " " +:+ String.concat " " l.
Proof. by destruct l. Qed.

Lemma concat_space_join a p l :
  String.concat " " ((a +:+ " " +:+ p) :: l) = String.concat " " (a :: p :: l).
Proof.
  destruct l as [|x l]; [done|].
  rewrite (concat_space_cons (a +:+ " " +:+ p)) by done.
  rewrite (concat_space_cons a) by done. rewrite (concat_space_cons p) by done.
  by rewrite !app_assoc_string.
Qed.

Lemma endswith_bracket_joined lines last_line :
  endswith "]" last_line = true ->
  endswith "]" (String.concat " " (lines ++ [last_line])) = true.
Proof.
  intros Hlast. induction lines as [|p ps IH]; [done|].
  cbn [app]. rewrite concat_space_cons by (by destruct ps).
  rewrite endswith_bracket_app.
  - rewrite (endswith_bracket_app " "); [done|]. by apply endswith_bracket_nonempty.
  - by destruct (String.concat " " (ps ++ [last_line])).
Qed.

Lemma continue_line_wrapped lines line rest last_line :
  endswith "]" line = false ->
  Forall (fun p => p <> "" /\ endswith "]" p = false) lines ->
  endswith "]" last_line = true ->
  continue_line line (lines ++ last_line :: rest)
  = (String.concat " " (line :: lines ++ [last_line]), rest).
Proof.
  intros Hline Hlines Hlast. revert line Hline.
  induction Hlines as [|p ps [Hp Hpend] _ IH]; intros line Hline.
  - cbn [app]. rewrite continue_line_eq, Hline.
    assert (String.eqb last_line "" = false) as ->
      by (by apply String.eqb_neq, endswith_bracket_nonempty).
    rewrite continue_line_eq.
    rewrite endswith_bracket_app by done.
    rewrite (endswith_bracket_app " ") by (by apply endswith_bracket_nonempty).
    by rewrite Hlast.
  - cbn [app]. rewrite continue_line_eq, Hline.
    assert (String.eqb p "" = false) as -> by (by apply String.eqb_neq).
    rewrite IH.
    + by rewrite concat_space_join.
    + rewrite endswith_bracket_app by done. by rewrite (endswith_bracket_app " ").
Qed.

Lemma get_complete_line_wrapped lines last_line rest :
  wrapped lines last_line ->
  get_complete_line (lines ++ last_line :: rest)
  = (strip (String.concat " " (lines ++ [last_line])), rest).
Proof.
  intros [Hlines Hlast]. unfold get_complete_line.
  destruct Hlines as [|p ps [Hp Hpend] Hps].
  - cbn [app readline].
    assert (String.eqb last_line "" = false) as ->
      by (by apply String.eqb_neq, endswith_bracket_nonempty).
    by rewrite continue_line_eq, Hlast.
  - cbn [app readline].
    assert (String.eqb p "" = false) as -> by (by apply String.eqb_neq).
    by rewrite (continue_line_wrapped ps p rest last_line Hpend Hps Hlast).
Qed.

Lemma continue_line_length line file :
  length (continue_line line file).2 <= length file.
Proof.
  revert line. induction file as [|next_line rest IH]; intros line.
  - rewrite continue_line_eq. by destruct (endswith "]" line).
  - rewrite continue_line_eq. destruct (endswith "]" line); [done|].
    destruct (String.eqb next_line ""); cbn [snd length]; [lia|].
    specialize (IH (line +:+ " " +:+ next_line)). lia.
Qed.

Lemma get_complete_line_length file :
  (get_complete_line file).1 = "" \/ length (get_complete_line file).2 < length file.
Proof.
  unfold get_complete_line. destruct file as [|line rest]; [by left|].
  cbn [readline]. destruct (String.eqb line ""); [by left|]. right.
  pose proof (continue_line_length line rest) as Hlen.
  destruct (continue_line line rest) as [l f]. cbn [snd length] in *. lia.
Qed.

Section Float.
Context (float : string -> option Q).

Lemma read_loop_total fuel file parsed_arrays :
  length file < fuel -> is_Some (read_loop float fuel file parsed_arrays).
Proof.
  revert file parsed_arrays. induction fuel as [|fuel IH]; intros file acc Hfuel; [lia|].
  cbn [read_loop].
  pose proof (get_complete_line_length file) as Hlen.
  destruct (get_complete_line file) as [line file']. cbn [fst snd] in Hlen.
  destruct (String.eqb_spec line "") as [->|Hline]; [done|].
  destruct Hlen as [?|Hlen]; [done|].
  destruct (parse_into_np_array float line); [|done].
  apply IH. lia.
Qed.

(** The lines of the arrays, one after the other. *)
Lemma read_loop_wrapped (groups : list (list string * string)) fuel acc tail :
  Forall (fun g => wrapped g.1 g.2) groups ->
  length groups < fuel ->
  tail = [] \/ (exists rest, tail = "" :: rest) ->
  read_loop float fuel (concat (map (fun g => g.1 ++ [g.2]) groups) ++ tail) acc
  = Some (rbind (mapR (fun g => parse_into_np_array float
                                  (strip (String.concat " " (g.1 ++ [g.2])))) groups)
                (fun arrays => Ok (acc ++ arrays))).
Proof.
  intros Hgroups. revert fuel acc.
  induction Hgroups as [|[lines last_line] groups Hg _ IH]; intros fuel acc Hfuel Htail.
  - destruct fuel as [|fuel]; [simpl in Hfuel; lia|].
    cbn [map concat app read_loop mapR rbind]. rewrite app_nil_r.
    by destruct Htail as [->|[rest ->]].
  - destruct fuel as [|fuel]; [simpl in Hfuel; lia|].
    cbn [map concat fst snd length] in *. rewrite <- !app_assoc. cbn [app].
    cbn [read_loop].
    rewrite (get_complete_line_wrapped lines last_line _ Hg).
    destruct Hg as [_ Hlast].
    assert (String.eqb (strip (String.concat " " (lines ++ [last_line]))) "" = false) as ->.
    { apply String.eqb_neq, strip_bracket. by apply endswith_bracket_joined. }
    cbn [mapR fst snd].
    destruct (parse_into_np_array float (strip (String.concat " " (lines ++ [last_line]))))
      as [array|e]; [|done].
    rewrite IH by (done || lia). cbn [rbind]. f_equal.
    destruct (mapR _ groups) as [arrays|e]; [|done].
    cbn [rbind]. by rewrite <- app_assoc.
Qed.

(** X26: the reading loop of [__file_to_list_of_arrays] ends on every
    file.  On a file made of arrays, each printed on one or more lines that
    are not empty and of which only the last ends with a bracket, it parses
    array by array the lines joined by single spaces and stripped, and
    stops at the first array that cannot be parsed; what follows an empty
    line after these arrays is not read. *)
Theorem read_arrays_joins_wrapped_lines (groups : list (list string * string))
    (rest : list string) :
  (forall file, is_Some (read_arrays float file)) /\
  (Forall (fun g => wrapped g.1 g.2) groups ->
   let arrays :=
     mapR (fun g => parse_into_np_array float (strip (String.concat " " (g.1 ++ [g.2]))))
          groups in
   let file := concat (map (fun g => g.1 ++ [g.2]) groups) in
   read_arrays float file = Some arrays /\
   read_arrays float (file ++ "" :: rest) = Some arrays).
Proof.
  split.
  - intros file. apply read_loop_total. lia.
  - intros Hgroups arrays file.
    assert (length groups <= length file) as Hlen.
    { subst file. clear. induction groups as [|[lines last_line] groups IH]; [done|].
      cbn [map concat length fst snd]. rewrite !length_app. cbn [length]. lia. }
    assert (forall r : result (list ndarray), rbind r (fun a => Ok ([] ++ a)) = r) as Hid
      by (by intros [a|e]).
    split.
    + unfold read_arrays. rewrite <- (app_nil_r file) at 2.
      rewrite (read_loop_wrapped groups _ [] [] Hgroups) by (lia || by left).
      by rewrite Hid.
    + unfold read_arrays.
      rewrite (read_loop_wrapped groups _ [] ("" :: rest) Hgroups).
      * by rewrite Hid.
      * rewrite length_app. lia.
      * right. by exists rest.
Qed.

End Float.
End Reading.

(** ** From the layers recorded to the zipped deltas *)

Section Recording.
Import SpecLayer VisualExtractor NeuronParser.

Lemma Qle_bool_float_of_nat a b :
  Qle_bool (float_of_nat a) (float_of_nat b) = (a <=? b).
Proof.
  unfold float_of_nat, Qle_bool, inject_Z. cbn [Qnum Qden].
  rewrite !Z.mul_1_r.
  destruct (Nat.leb_spec a b) as [Hle|Hgt].
  - apply Z.leb_le. lia.
  - apply Z.leb_gt. lia.
Qed.

Lemma int_of_float_of_nat n : Z.to_nat (int_of (float_of_nat n)) = n.
Proof.
  unfold int_of, float_of_nat, inject_Z. cbn [Qnum Qden].
  rewrite Z.quot_1_r. lia.
Qed.

Lemma max_layer_ids (arrays : list ndarray) (ids : list nat) x :
  Forall2 (fun (a : ndarray) id => a !! 0 = Some (float_of_nat id)) arrays ids ->
  max_layer (float_of_nat x) arrays = Ok (float_of_nat (max_list ids `max` x)).
Proof.
  intros H. revert x. induction H as [|a k arrays ids Ha _ IH]; intros x.
  - done.
  - cbn [max_layer]. rewrite (lookup_or_raise_Some _ _ _ Ha). cbn [rbind].
    rewrite Qle_bool_float_of_nat.
    change (max_list (k :: ids)) with (k `max` max_list ids).
    destruct (Nat.leb_spec k x) as [Hle|Hgt]; rewrite IH; f_equal; f_equal; lia.
Qed.

Section Arrays.
(** The array written for a layer, the number of values per neuron, the
    neurons of a layer and the change of a neuron, for pyramidal neurons or
    for interneurons. *)
Context {N : Type} (array : Layer -> ndarray) (mode : string)
        (neurons : Layer -> list N) (change : N -> N -> list float64).
Hypothesis array_head : forall l, array l !! 0 = Some (float_of_nat (id_num l)).
Hypothesis array_length :
  forall l, length (array l) = 1 + neuron_data_length mode * length (neurons l).
Hypothesis array_delta : forall previous current,
  length (neurons previous) = length (neurons current) ->
  delta_from (neuron_data_length mode) (array previous) 0 (array current)
  = Ok (mjoin (zip_with change (neurons previous) (neurons current))).

Lemma recording_heads (snapshots : list (list Layer)) :
  Forall2 (fun (a : ndarray) id => a !! 0 = Some (float_of_nat id))
          (mjoin (map (map array) snapshots)) (id_num <$> mjoin snapshots).
Proof using array_head.
  induction snapshots as [|snap snapshots IH]; [constructor|].
  cbn [map mjoin list_join]. rewrite fmap_app. apply Forall2_app; [|exact IH].
  clear IH. induction snap as [|l snap IH]; cbn; constructor; [apply array_head|exact IH].
Qed.

Lemma recording_max_layer (snapshots : list (list Layer)) :
  max_layer 0 (mjoin (map (map array) snapshots))
  = Ok (float_of_nat (max_list (id_num <$> mjoin snapshots))).
Proof using array_head.
  change 0%Q with (float_of_nat 0).
  rewrite (max_layer_ids _ _ 0 (recording_heads snapshots)). by rewrite Nat.max_0_r.
Qed.

Lemma recording_length (snapshots : list (list Layer)) n :
  Forall (fun snap => length snap = n) snapshots ->
  length (mjoin (map (map array) snapshots)) = length snapshots * n.
Proof.
  induction 1 as [|snap snapshots Hsnap _ IH]; [done|].
  change (length (map array snap ++ mjoin (map (map array) snapshots))
          = S (length snapshots) * n).
  rewrite length_app, length_map, IH. lia.
Qed.

Lemma recording_lookup (snapshots : list (list Layer)) n t i :
  Forall (fun snap => length snap = n) snapshots -> i < n ->
  mjoin (map (map array) snapshots) !! (t * n + i)
  = array <$> (snapshots !! t ≫= (fun snap => snap !! i)).
Proof.
  intros Hall Hi.
  assert (Forall (fun b : list ndarray => length b = n) (map (map array) snapshots))
    as Hblocks.
  { apply Forall_map. eapply Forall_impl; [exact Hall|].
    intros snap Hsnap. cbn. by rewrite length_map. }
  rewrite (mjoin_blocks_lookup _ n t i Hblocks Hi).
  rewrite list_lookup_fmap. destruct (snapshots !! t) as [snap|]; [|done].
  cbn. by rewrite list_lookup_fmap.
Qed.

Lemma recording_regrouped (snapshots : list (list Layer)) n :
  Forall (fun snap => length snap = n) snapshots ->
  (forall sep,
     separate_by_layer (mjoin (map (map array) snapshots)) = Ok sep ->
     length sep = max_list (id_num <$> mjoin snapshots)) /\
  (1 <= n -> max_list (id_num <$> mjoin snapshots) = n ->
   exists sep,
     separate_by_layer (mjoin (map (map array) snapshots)) = Ok sep /\
     length sep = n /\
     forall i t, i < n ->
       sep !! i ≫= (fun layer => layer !! t)
       = array <$> (snapshots !! t ≫= (fun snap => snap !! i))).
Proof using array_head.
  intros Hall. split.
  - intros sep Hsep.
    destruct (separate_by_layer_inv _ _ Hsep) as (m & Hm & Hlen & _).
    rewrite recording_max_layer in Hm. injection Hm as <-.
    by rewrite int_of_float_of_nat in Hlen.
  - intros Hn Hmax.
    pose proof (recording_length snapshots n Hall) as Hlen.
    destruct (separate_by_layer_exact _ _ (recording_max_layer snapshots))
      as (sep & Hsep & Hsep_len & Hcols).
    + rewrite int_of_float_of_nat. lia.
    + rewrite int_of_float_of_nat, Hmax, Hlen. apply Nat.Div0.mod_mul.
    + rewrite int_of_float_of_nat, Hmax in *.
      exists sep. split; [done|]. split; [done|]. intros i t Hi.
      rewrite (Hcols i Hi). cbn [mbind option_bind].
      rewrite Hlen, Nat.div_mul by lia.
      rewrite column_groups_of by (rewrite ?Hlen; lia).
      case_decide as Ht.
      * by apply recording_lookup.
      * rewrite (lookup_ge_None_2 snapshots t) by lia. done.
Qed.

Lemma recording_zipped (snapshots : list (list Layer)) (counts : list nat) :
  snapshots <> [] -> 1 <= length counts ->
  Forall (fun snap => Forall2 (fun l c => length (neurons l) = c) snap counts) snapshots ->
  max_list (id_num <$> mjoin snapshots) = length counts ->
  exists list_of_arrays delta_array zipped,
    separate_by_layer (mjoin (map (map array) snapshots)) = Ok list_of_arrays /\
    mapR (fun a => __calculate_deltas a mode) list_of_arrays = Ok delta_array /\
    __zip_delta_array (length list_of_arrays) delta_array = Ok zipped /\
    length zipped = length snapshots * length counts /\
    forall t i current,
      snapshots !! t ≫= (fun snap => snap !! i) = Some current ->
      exists previous,
        snapshots !! (t - 1) ≫= (fun snap => snap !! i) = Some previous /\
        zipped !! (t * length counts + i)
        = Some (mjoin (zip_with change (neurons previous) (neurons current))).
Proof using array_head array_length array_delta.
  intros Hne Hn Hcounts Hmax. set (n := length counts) in *.
  assert (Forall (fun snap : list Layer => length snap = n) snapshots) as Hall.
  { eapply Forall_impl; [exact Hcounts|]. intros snap H. by apply Forall2_length in H. }
  assert (forall t i l, snapshots !! t ≫= (fun snap => snap !! i) = Some l ->
            i < n /\ t < length snapshots /\ counts !! i = Some (length (neurons l)))
    as Hcell.
  { intros t i l H. destruct (snapshots !! t) as [snap|] eqn:Hsnap; [|done].
    cbn in H. pose proof (Forall_lookup_1 _ _ _ _ Hcounts Hsnap) as H2.
    destruct (Forall2_lookup_l _ _ _ _ _ H2 H) as (c & Hc & Hlc).
    split; [by apply lookup_lt_Some in Hc|].
    split; [by apply lookup_lt_Some in Hsnap|]. by rewrite Hlc. }
  destruct (proj2 (recording_regrouped snapshots n Hall) Hn Hmax)
    as (sep & Hsep & Hsep_len & Hcols).
  pose proof (recording_length snapshots n Hall) as Hlen.
  assert (exists delta_array,
            mapR (fun a => __calculate_deltas a mode) sep = Ok delta_array)
    as [delta_array Hda].
  { apply mapR_total. apply Forall_lookup_2. intros i column Hcolumn.
    assert (i < n) as Hi by (apply lookup_lt_Some in Hcolumn; lia).
    destruct (counts !! i) as [c|] eqn:Hc; [|apply lookup_ge_None in Hc; lia].
    assert (forall t a, column !! t = Some a ->
              length a = 1 + neuron_data_length mode * c) as Hlens.
    { intros t a Ha. specialize (Hcols i t Hi). rewrite Hcolumn in Hcols. cbn in Hcols.
      rewrite Ha in Hcols. symmetry in Hcols.
      apply fmap_Some in Hcols as (l & Hl & ->).
      destruct (Hcell _ _ _ Hl) as (_ & _ & Hcl). rewrite array_length. congruence. }
    assert (exists first, column !! 0 = Some first) as [first Hfirst].
    { specialize (Hcols i 0 Hi). rewrite Hcolumn in Hcols. cbn in Hcols.
      destruct snapshots as [|snap snapshots]; [done|].
      apply Forall_cons in Hall as [Hsnap _].
      destruct (lookup_lt_is_Some_2 snap i) as [l Hl]; [lia|].
      cbn in Hcols. rewrite Hl in Hcols. by eexists. }
    rewrite (__calculate_deltas_unfold _ _ _ Hfirst).
    apply (deltas_from_total _ _ _ (1 + neuron_data_length mode * c)).
    - by apply (Hlens 0).
    - apply Forall_lookup_2. intros t a Ha. by apply (Hlens t). }
  destruct (zipped_deltas _ _ _ _ Hsep Hda) as (zipped & Hzip & Hzlen & Hentries).
  exists sep, delta_array, zipped.
  split; [done|]. split; [done|]. split; [done|]. split; [by rewrite Hzlen|].
  intros t i current Hcur.
  destruct (Hcell _ _ _ Hcur) as (Hi & Ht & Hc).
  assert (exists previous, snapshots !! (t - 1) ≫= (fun snap => snap !! i) = Some previous)
    as [previous Hprev].
  { destruct (lookup_lt_is_Some_2 snapshots (t - 1)) as [snap Hsnap]; [lia|].
    rewrite Hsnap. cbn.
    pose proof (Forall_lookup_1 _ _ _ _ Hall Hsnap) as Hsnap_len. cbn in Hsnap_len.
    apply lookup_lt_is_Some_2. lia. }
  exists previous. split; [done|].
  destruct (Hcell _ _ _ Hprev) as (_ & _ & Hp).
  destruct (Hentries (t * n + i) (array current)) as (prev & d & Hprev' & Hd & Hdelta).
  { rewrite (recording_lookup snapshots n t i Hall Hi). by rewrite Hcur. }
  rewrite Hsep_len in Hprev'.
  assert (prev = array previous) as ->.
  { destruct (Nat.ltb_spec (t * n + i) n) as [Hlt|Hge].
    - assert (t = 0) as -> by nia. change (0 - 1) with 0 in Hprev.
      rewrite (recording_lookup snapshots n 0 i Hall Hi), Hprev in Hprev'.
      by injection Hprev'.
    - destruct t as [|t']; [cbn in Hge; lia|].
      replace (S t' * n + i - n) with ((S t' - 1) * n + i) in Hprev'
        by (cbn [Nat.mul Nat.sub]; rewrite Nat.sub_0_r; lia).
      set (t := S t') in *.
      rewrite (recording_lookup snapshots n (t - 1) i Hall Hi), Hprev in Hprev'.
      by injection Hprev'. }
  rewrite array_delta in Hdelta by congruence.
  injection Hdelta as <-. exact Hd.
Qed.

End Arrays.

Lemma pyramidal_array_delta previous current :
  length (pyrs previous) = length (pyrs current) ->
  delta_from 5 (pyramidal_array previous) 0 (pyramidal_array current)
  = Ok (mjoin (zip_with pyramidal_change (pyrs previous) (pyrs current))).
Proof.
  intros Hlen. unfold pyramidal_array.
  rewrite delta_from_cons. simpl (0 =? 0). cbv iota.
  pose proof (pyramidal_deltas [float_of_nat (id_num previous)] 0
                (pyrs previous) (pyrs current) eq_refl Hlen) as Hd.
  simpl in Hd. unfold pyramidal_block in Hd. simpl. rewrite Hd. done.
Qed.

Lemma interneuron_array_delta previous current :
  length (inhibs previous) = length (inhibs current) ->
  delta_from 4 (interneuron_array previous) 0 (interneuron_array current)
  = Ok (mjoin (zip_with interneuron_change (inhibs previous) (inhibs current))).
Proof.
  intros Hlen. unfold interneuron_array.
  rewrite delta_from_cons. simpl (0 =? 0). cbv iota.
  pose proof (interneuron_deltas [float_of_nat (id_num previous)] 0
                (inhibs previous) (inhibs current) eq_refl Hlen) as Hd.
  simpl in Hd. unfold interneuron_block in Hd. simpl. rewrite Hd. done.
Qed.

Lemma pyramidal_array_length l :
  length (pyramidal_array l) = 1 + neuron_data_length "p" * length (pyrs l).
Proof.
  unfold pyramidal_array. cbn [length]. f_equal.
  change (neuron_data_length "p") with 5.
  induction (pyrs l) as [|p ps IH]; [done|]. cbn [flat_map]. rewrite length_app, IH.
  cbn [length]. lia.
Qed.

Lemma interneuron_array_length l :
  length (interneuron_array l) = 1 + neuron_data_length "i" * length (inhibs l).
Proof.
  unfold interneuron_array. cbn [length]. f_equal.
  change (neuron_data_length "i") with 4.
  induction (inhibs l) as [|p ps IH]; [done|]. cbn [flat_map]. rewrite length_app, IH.
  cbn [length]. lia.
Qed.

(** X27: the parser finds the layers of a recording by their numbers.
    When the arrays parsed are those the extractor built for [n] layers at
    each of some times, the grouping, if it returns, gives as many layers as
    the largest layer number says; and when that number is [n], it returns
    [n] layers, the array at time [t] of layer [i] being the array of the
    [i]-th layer recorded at time [t]. *)
Theorem recorded_layers_are_regrouped (snapshots : list (list Layer)) (n : nat) :
  Forall (fun snap => length snap = n) snapshots ->
  let recording := mjoin (map (map pyramidal_array) snapshots) in
  let largest := max_list (id_num <$> mjoin snapshots) in
  (forall arrays_separated_by_layer,
     separate_by_layer recording = Ok arrays_separated_by_layer ->
     length arrays_separated_by_layer = largest) /\
  (1 <= n -> largest = n ->
   exists arrays_separated_by_layer,
     separate_by_layer recording = Ok arrays_separated_by_layer /\
     length arrays_separated_by_layer = n /\
     forall i t, i < n ->
       arrays_separated_by_layer !! i ≫= (fun layer => layer !! t)
       = pyramidal_array <$> (snapshots !! t ≫= (fun snap => snap !! i))).
Proof.
  intros Hall recording largest.
  apply (recording_regrouped pyramidal_array); [done|exact Hall].
Qed.

(** X28: from the layers recorded to the zipped deltas.  When the arrays
    parsed are those the extractor built for layers numbered up to their
    count [n], each with the same number of neurons at every time, grouping,
    [__calculate_deltas] and [__zip_delta_array] all return; there is one
    zipped delta per layer and time, and the delta at position [t n + i]
    lists, neuron by neuron, the neuron's number and the float differences
    of its values between the [i]-th layer at time [t - 1] and at time [t]
    (at the first time, against itself).  This holds for pyramidal neurons
    in mode "p" and for interneurons in mode "i". *)
Theorem recorded_changes_reach_the_zipped_deltas (snapshots : list (list Layer))
    (counts : list nat) :
  let n := length counts in
  snapshots <> [] -> 1 <= n ->
  max_list (id_num <$> mjoin snapshots) = n ->
  (Forall (fun snap => Forall2 (fun l c => length (pyrs l) = c) snap counts) snapshots ->
   exists list_of_arrays delta_array zipped,
     separate_by_layer (mjoin (map (map pyramidal_array) snapshots)) = Ok list_of_arrays /\
     mapR (fun a => __calculate_deltas a "p") list_of_arrays = Ok delta_array /\
     __zip_delta_array (length list_of_arrays) delta_array = Ok zipped /\
     length zipped = length snapshots * n /\
     forall t i current,
       snapshots !! t ≫= (fun snap => snap !! i) = Some current ->
       exists previous,
         snapshots !! (t - 1) ≫= (fun snap => snap !! i) = Some previous /\
         zipped !! (t * n + i)
         = Some (mjoin (zip_with pyramidal_change (pyrs previous) (pyrs current)))) /\
  (Forall (fun snap => Forall2 (fun l c => length (inhibs l) = c) snap counts) snapshots ->
   exists list_of_arrays delta_array zipped,
     separate_by_layer (mjoin (map (map interneuron_array) snapshots)) = Ok list_of_arrays /\
     mapR (fun a => __calculate_deltas a "i") list_of_arrays = Ok delta_array /\
     __zip_delta_array (length list_of_arrays) delta_array = Ok zipped /\
     length zipped = length snapshots * n /\
     forall t i current,
       snapshots !! t ≫= (fun snap => snap !! i) = Some current ->
       exists previous,
         snapshots !! (t - 1) ≫= (fun snap => snap !! i) = Some previous /\
         zipped !! (t * n + i)
         = Some (mjoin (zip_with interneuron_change (inhibs previous) (inhibs current)))).
Proof.
  intros n Hne Hn Hmax. split; intros Hcounts.
  - apply (recording_zipped pyramidal_array "p" pyrs pyramidal_change); try done.
    + apply pyramidal_array_length.
    + apply pyramidal_array_delta.
  - apply (recording_zipped interneuron_array "i" inhibs interneuron_change); try done.
    + apply interneuron_array_length.
    + apply interneuron_array_delta.
Qed.

End Recording.

(** ** The theorems at concrete inputs *)

(** C1 on the three-layer network of the example: a nudged step returns and
    has made exactly the calls of the sequence. *)
Lemma train_step_call_order_witness :
  calls (train_1_step_rule_16b_and_rule_13 0 1 2 true Example.world3).2
  = rule_16b_and_rule_13_calls 0 1 2 true.
Proof.
  destruct (proj1 train_step_call_order 0 1 2 true Example.world3)
    as (made & Hlog & _ & Hfull).
  rewrite Hlog. rewrite (Hfull tt); [reflexivity | by vm_compute].
Defined.

(** C2 on the same network: the FF sweep returns and has made its five
    calls. *)
Lemma sweep_call_order_witness :
  calls (do_ff_sweep 0 1 2 Example.world3).2 = ff_sweep_calls 0 1 2.
Proof.
  destruct (proj1 (proj1 sweep_call_order 0 1 2 Example.world3))
    as (made & Hlog & _ & Hfull).
  rewrite Hlog. rewrite (Hfull tt); [reflexivity | by vm_compute].
Defined.

(** C6 on an input layer, where nudging is refused, and on an output layer. *)
Lemma nudge_output_layer_blends_witness :
  SpecLayer.nudge_output_layer [1; 0]%Q (8 # 10)%Q Example.input_layer
    = (Raise InvalidLayerRole, Example.input_layer) /\
  exists l',
    SpecLayer.nudge_output_layer [1; 0]%Q (8 # 10)%Q Example.output_layer = (Ok tt, l') /\
    length (SpecLayer.pyrs l') = 2.
Proof.
  split.
  - apply (proj1 (nudge_output_layer_blends [1; 0]%Q (8 # 10)%Q Example.input_layer)).
    reflexivity.
  - destruct (proj2 (nudge_output_layer_blends [1; 0]%Q (8 # 10)%Q Example.output_layer)
                eq_refl eq_refl) as (l' & Hrun & Hlen & _).
    exists l'. split; [exact Hrun | exact Hlen].
Defined.

(** C7 on a layer of two pyramidal neurons, with three inputs and with two. *)
Lemma apply_inputs_checks_length_witness :
  SpecLayer.apply_inputs [1; 0; 1]%Q Example.input_layer
    = (Raise DimensionMismatch, Example.input_layer) /\
  exists l',
    SpecLayer.apply_inputs [1; 0]%Q Example.input_layer = (Ok tt, l') /\
    SpecLayer.basal_mp <$> SpecLayer.pyrs l' = [1; 0]%Q.
Proof.
  split.
  - apply (proj1 (apply_inputs_checks_length [1; 0; 1]%Q Example.input_layer)).
    simpl. lia.
  - destruct (proj2 (apply_inputs_checks_length [1; 0]%Q Example.input_layer) eq_refl)
      as (l' & Hrun & Hbasal & _).
    exists l'. split; [exact Hrun | exact Hbasal].
Defined.



(** C9 on a file of two layers and two time steps: four zipped deltas. *)
Lemma file_to_delta_unpack_raises_witness :
  NeuronParser.file_to_delta "run_pyramidal.txt" "p" Example.files
  = (Raise ValueError, Example.files).
Proof.
  eapply (file_to_delta_unpack_raises "run_pyramidal.txt" "p" Example.files).
  - reflexivity.
  - reflexivity.
  - reflexivity.
  - simpl. lia.
Defined.

(** C10, as stated, does not hold: with [self_prediction_steps] 399, which
    is not 400, the run completes and the recorded positions are those at
    which nudging begins. *)
Lemma nudge_steps_mark_start_at_399 :
  let e0 := Example.experiment (<["self_prediction_steps" := 399%Z]> ∅) in
  __self_prediction_steps e0 <> 400%Z /\
  (run e0).1 = Ok tt /\
  _nudge_steps (run e0).2 = record_counts (nudging_start e0).
Proof.
  split; [vm_compute; discriminate|]. split; vm_compute; reflexivity.
Qed.

(** C10 on a run of 15 steps, where the positions stay zero, and on a run
    with 399 steps before nudging, where they mark its beginning. *)
Lemma nudge_steps_set_at_step_400_witness :
  _nudge_steps
    (run (Example.experiment (<["self_prediction_steps" := 10%Z]>
                                (<["training_steps" := 5%Z]> ∅)))).2
    = [0; 0; 0; 0] /\
  let e0 := Example.experiment (<["self_prediction_steps" := 399%Z]> ∅) in
  _nudge_steps (run e0).2 = record_counts (nudging_start e0).
Proof.
  split.
  - apply (proj1 (proj2 nudge_steps_set_at_step_400
                    (<["self_prediction_steps" := 10%Z]> (<["training_steps" := 5%Z]> ∅)))).
    vm_compute. lia.
  - apply (proj2 (proj2 nudge_steps_set_at_step_400
                    (<["self_prediction_steps" := 399%Z]> ∅))).
    + by vm_compute.
    + vm_compute. lia.
Defined.

(** ** The further properties at concrete inputs *)

(** X1 on a recording with an empty line, on one whose only layer number
    is 0, on one that lacks its last array and on the recording of the
    example. *)
Lemma separate_by_layer_outcome_witness :
  NeuronParser.separate_by_layer ([] :: Example.recorded_arrays) = Raise IndexError /\
  NeuronParser.separate_by_layer [[0; 7]%Q] = Raise ValueError /\
  NeuronParser.separate_by_layer (take 3 Example.recorded_arrays) = Raise IndexError /\
  exists sep,
    NeuronParser.separate_by_layer Example.recorded_arrays = Ok sep /\ length sep = 2.
Proof.
  split; [|split; [|split]].
  - apply (proj1 (separate_by_layer_outcome ([] :: Example.recorded_arrays))).
    apply list_elem_of_here.
  - apply (proj1 (proj2 (separate_by_layer_outcome [[0; 7]%Q]))).
    constructor; [|constructor]. exists 0%Q. split; reflexivity.
  - apply (proj2 (proj2 (separate_by_layer_outcome (take 3 Example.recorded_arrays)))
             2%Q eq_refl); [vm_compute; lia | vm_compute; lia].
  - apply (proj2 (proj2 (separate_by_layer_outcome Example.recorded_arrays))
             2%Q eq_refl); [vm_compute; lia | reflexivity].
Defined.

(** X2 on the recording of the example: the second array of the second
    layer is the fourth array of the file. *)
Lemma separate_by_layer_transposes_witness :
  exists sep,
    NeuronParser.separate_by_layer Example.recorded_arrays = Ok sep /\
    sep !! 1 ≫= (fun layer => layer !! 1) = Example.recorded_arrays !! 3.
Proof.
  eexists. split; [reflexivity|].
  apply (proj2 (proj2 (proj2
    (separate_by_layer_transposes Example.recorded_arrays _ eq_refl))) 1 1).
  vm_compute. lia.
Defined.

(** X3 on the two arrays of a layer whose neuron goes from [Sample.before]
    to [Sample.after]: the first delta is zero but for the neuron number,
    and in the second the activation, which went from 1 to 2^-60, has
    changed by 1. *)
Lemma __calculate_deltas_closed_form_witness :
  exists deltas,
    NeuronParser.__calculate_deltas
      [VisualExtractor.pyramidal_array Sample.before;
       VisualExtractor.pyramidal_array Sample.after] "p" = Ok deltas /\
    length deltas = 2 /\
    deltas !! 0 ≫= (.!! 4) = Some (NeuronParser.Finite 0) /\
    deltas !! 1 ≫= (.!! 4) = Some (NeuronParser.Finite 1).
Proof.
  eexists. split; [vm_compute; reflexivity|].
  pose proof (__calculate_deltas_closed_form
                [VisualExtractor.pyramidal_array Sample.before;
                 VisualExtractor.pyramidal_array Sample.after] "p" _ eq_refl)
    as (Hlen & _ & _).
  split; [exact Hlen|]. split; reflexivity.
Defined.

(** X4 on no array, on the arrays of the example and on an array that is
    longer than the one before it. *)
Lemma __calculate_deltas_outcome_witness :
  NeuronParser.__calculate_deltas [] "p" = Raise IndexError /\
  (exists deltas, NeuronParser.__calculate_deltas Example.recorded_arrays "p" = Ok deltas) /\
  NeuronParser.__calculate_deltas [[1; 0; 1]; [1; 0; 1; 2]]%Q "p" = Raise IndexError.
Proof.
  split; [|split].
  - apply (proj1 (__calculate_deltas_outcome [] "p")). reflexivity.
  - apply (proj1 (proj2 (__calculate_deltas_outcome Example.recorded_arrays "p")) 6).
    + discriminate.
    + repeat (constructor; [reflexivity|]). constructor.
  - apply (proj2 (proj2 (__calculate_deltas_outcome [[1; 0; 1]; [1; 0; 1; 2]]%Q "p"))
             0 [1; 0; 1]%Q [1; 0; 1; 2]%Q 3);
      [reflexivity | reflexivity | simpl; lia | lia | vm_compute; lia].
Defined.

(** X5 on no layer and on two layers of two deltas each. *)
Lemma __zip_delta_array_interleaves_witness :
  NeuronParser.__zip_delta_array 2 [] = Raise IndexError /\
  exists zipped,
    NeuronParser.__zip_delta_array 2
      [[[NeuronParser.Finite 1]; [NeuronParser.Finite 2]];
       [[NeuronParser.Finite 3]; [NeuronParser.Finite 4]]] = Ok zipped /\
    length zipped = 4.
Proof.
  split.
  - apply (proj1 (__zip_delta_array_interleaves 2 [])). reflexivity.
  - destruct (proj2 (__zip_delta_array_interleaves 2
                       [[[NeuronParser.Finite 1]; [NeuronParser.Finite 2]];
                        [[NeuronParser.Finite 3]; [NeuronParser.Finite 4]]])
                [[NeuronParser.Finite 1]; [NeuronParser.Finite 2]] eq_refl)
      as [Hruns Hzipped].
    destruct Hruns as [zipped Hrun].
    + simpl. lia.
    + repeat (constructor; [simpl; lia|]). constructor.
    + exists zipped. split; [exact Hrun|]. apply (proj1 (Hzipped zipped Hrun)).
Defined.

(** X6 on the recording of the example. *)
Lemma zipped_deltas_follow_the_recording_witness :
  exists list_of_arrays delta_array zipped,
    NeuronParser.separate_by_layer Example.recorded_arrays = Ok list_of_arrays /\
    NeuronParser.mapR (fun array => NeuronParser.__calculate_deltas array "p") list_of_arrays
      = Ok delta_array /\
    NeuronParser.__zip_delta_array (length list_of_arrays) delta_array = Ok zipped /\
    length zipped = 4.
Proof.
  eexists. eexists.
  destruct (zipped_deltas_follow_the_recording Example.recorded_arrays _ "p" _
              eq_refl eq_refl) as (zipped & Hrun & Hlen & _).
  exists zipped. split; [reflexivity|]. split; [reflexivity|].
  split; [exact Hrun | exact Hlen].
Defined.

(** X7 on a recording of one layer and two time steps, whose two zipped
    deltas pass the unpacking. *)
Lemma file_to_delta_always_raises_witness :
  NeuronParser.file_to_delta "one_pyramidal.txt" "p" Sample.one_layer_files
  = (Raise TypeError, Sample.one_layer_files).
Proof.
  eapply (proj2 (file_to_delta_always_raises "one_pyramidal.txt" "p"
                   Sample.one_layer_files)).
  - reflexivity.
  - reflexivity.
  - reflexivity.
  - reflexivity.
Defined.

(** X8 on four deltas of five numbers each. *)
Lemma json_needs_whole_neurons_witness :
  exists json_output,
    JsonExport.__zipped_delta_to_json Sample.zipped_deltas 2 "p"
      = JsonExport.Returns json_output /\
    Forall (fun delta : list Q => length delta mod 5 = 0) Sample.zipped_deltas.
Proof.
  destruct (proj2 (json_needs_whole_neurons Sample.zipped_deltas 2 "p"))
    as [json_output Hrun].
  - lia.
  - intros _. repeat (constructor; [reflexivity|]). constructor.
  - discriminate.
  - exists json_output. split; [exact Hrun|].
    apply (proj1 (proj2 (proj1 (json_needs_whole_neurons Sample.zipped_deltas 2 "p")
                           json_output Hrun))).
    reflexivity.
Defined.

(** X9 on the same deltas: two entries. *)
Lemma json_entries_witness :
  exists json_output,
    JsonExport.__zipped_delta_to_json Sample.zipped_deltas 2 "p"
      = JsonExport.Returns json_output /\
    length json_output = 2.
Proof.
  eexists. split; [reflexivity|].
  apply (proj1 (json_entries Sample.zipped_deltas 2 "p" _ ltac:(lia) eq_refl)).
Defined.

(** X10 on the same deltas: the fourth one is not exported. *)
Lemma json_drops_the_last_layer_witness :
  JsonExport.__zipped_delta_to_json (take 3 Sample.zipped_deltas) 2 "p"
  = JsonExport.__zipped_delta_to_json Sample.zipped_deltas 2 "p".
Proof.
  transitivity (JsonExport.__zipped_delta_to_json
                  (take 3 Sample.zipped_deltas ++ [[0; -1 # 10; 1 # 10; 0; 0]%Q]) 2 "p");
    [|reflexivity].
  eapply (json_drops_the_last_layer (take 3 Sample.zipped_deltas)
            [0; -1 # 10; 1 # 10; 0; 0]%Q 2 "p").
  - lia.
  - reflexivity.
  - reflexivity.
Defined.

(** X11 on a new extractor and the two layers of the example. *)
Lemma layers_to_file_writes_a_line_per_layer_witness :
  VisualExtractor.written
    (VisualExtractor.output_file_p
       (VisualExtractor.layers_to_file Sample.array2string
          [Example.input_layer; Example.output_layer]
          (VisualExtractor.VisualExtractor_init "run")).2)
  = ["11" +:+ VisualExtractor.newline; "11" +:+ VisualExtractor.newline].
Proof.
  rewrite (layers_to_file_writes_a_line_per_layer Sample.array2string
             [Example.input_layer; Example.output_layer]
             (VisualExtractor.VisualExtractor_init "run")); reflexivity.
Defined.

(** X13 on the two layers of the example, which have two pyramidal neurons
    each. *)
Lemma extracted_arrays_fit_the_parser_witness :
  NeuronParser.delta_from 5 (VisualExtractor.pyramidal_array Example.input_layer) 0
    (VisualExtractor.pyramidal_array Example.output_layer)
  = Ok (mjoin (zip_with pyramidal_change (SpecLayer.pyrs Example.input_layer)
                        (SpecLayer.pyrs Example.output_layer))) /\
  NeuronParser.delta_from 4 (VisualExtractor.interneuron_array Example.input_layer) 0
    (VisualExtractor.interneuron_array Example.input_layer)
  = Ok (mjoin (zip_with interneuron_change (SpecLayer.inhibs Example.input_layer)
                        (SpecLayer.inhibs Example.input_layer))).
Proof.
  split.
  - apply (proj1 (proj2 (proj2
      (extracted_arrays_fit_the_parser Example.input_layer Example.output_layer)))).
    reflexivity.
  - apply (proj2 (proj2 (proj2
      (extracted_arrays_fit_the_parser Example.input_layer Example.input_layer)))).
    reflexivity.
Defined.


(** X17 on the three-layer network of the example: a nudged step adds a
    data point. *)
Lemma rule13_post_data_only_grows_witness :
  exists data_pt,
    rule13_post_data (train_1_step_rule_16b_and_rule_13 0 1 2 true Example.world3).2
    = rule13_post_data Example.world3 ++ data_pt.
Proof.
  destruct (proj1 (proj2 (rule13_post_data_only_grows 0 1 2 true Example.config 0
                            Example.world3))
              (train_1_step_rule_16b_and_rule_13 0 1 2 true Example.world3).2)
    as (data_pt & Hgrows & _).
  - apply returns_with_state. vm_compute. reflexivity.
  - exists data_pt. exact Hgrows.
Defined.

(** X19 on the three-layer network of the example: pilot experiment 1a
    returns two lists of 150 rows. *)
Lemma pilot_experiment_data_witness :
  exists data1 data2,
    (run_pilot_experiment_1a 0 1 2 Sample.lab).1 = Ok (data1, data2) /\
    length data1 = 150 /\ length data2 = 150.
Proof.
  assert (exists data1 data2,
            (run_pilot_experiment_1a 0 1 2 Sample.lab).1 = Ok (data1, data2))
    as (data1 & data2 & Hok) by (eexists; eexists; vm_compute; reflexivity).
  exists data1, data2. split; [exact Hok|].
  destruct (proj1 (pilot_experiment_data Example.config 0 1 2 0 Sample.lab
                     (run_pilot_experiment_1a 0 1 2 Sample.lab).2 data1 data2 [])
              (returns_with_state _ _ _ Hok))
    as (Hdata1 & _ & Hdata2 & _).
  split; [exact Hdata1 | exact Hdata2].
Defined.

(** X20 on the experiment of the example. *)
Lemma pre_hook_selects_a_labelled_pattern_witness :
  exists i x,
    _current_X_index Sample.selected = Some i /\
    _X !! i = Some x /\
    _current_X Sample.selected = Some x.
Proof.
  destruct (pre_hook_selects_a_labelled_pattern (Example.experiment ∅) Sample.selected)
    as (i & a & b & _ & _ & Hindex & HX & Hcurrent & _).
  - apply returns_with_state. vm_compute. reflexivity.
  - exists i, [a; b]. split; [exact Hindex|]. split; [exact HX | exact Hcurrent].
Defined.

(** X21 on the experiment of the example, before its first step. *)
Lemma no_training_before_a_pattern_is_selected_witness :
  __do_ff_sweep (Example.experiment ∅) = (Raise AttributeError, Example.experiment ∅) /\
  __nudge_output_layer (Example.experiment ∅) = (Raise TypeError, Example.experiment ∅).
Proof.
  split.
  - apply (proj1 (proj1 (no_training_before_a_pattern_is_selected (Example.experiment ∅))
                    eq_refl)).
    vm_compute. lia.
  - apply (proj1 (proj1 (proj2
      (no_training_before_a_pattern_is_selected (Example.experiment ∅))) eq_refl)).
    vm_compute. lia.
Defined.

(** The experiment of the example and the one after its first hook are
    reached by method calls that return. *)
Lemma selected_is_reachable : reachable Sample.selected.
Proof.
  apply (reachable_call (Example.experiment ∅) HookPreTrainStep).
  - apply (reachable_call (AndOrExperiment_init ∅) (BuildNetwork ∅)).
    + apply reachable_init.
    + apply returns_with_state. vm_compute. reflexivity.
  - apply returns_with_state. vm_compute. reflexivity.
Qed.

(** X22 on the experiment of the example after its first hook. *)
Lemma post_hook_adds_a_point_to_each_recording_witness :
  exists e',
    _hook_post_train_step Sample.selected = (Ok tt, e') /\
    AndOrGraphs.charted e'.
Proof.
  exists (_hook_post_train_step Sample.selected).2.
  assert (_hook_post_train_step Sample.selected
          = (Ok tt, (_hook_post_train_step Sample.selected).2)) as Hrun
    by (apply returns_with_state; vm_compute; reflexivity).
  split; [exact Hrun|].
  destruct (post_hook_adds_a_point_to_each_recording Sample.selected _
              (reachable_charted _ selected_is_reachable) Hrun)
    as (i & l1 & l2 & a0 & a1 & s0 & s1 & s2 & row0 & row1 & r_and & r_or & r_xor & H).
  apply H.
Defined.

(** X23 on the same experiment. *)
Lemma reachable_experiments_are_charted_witness :
  length (KEY_LAYER_1 (_metrics Sample.selected)) = 4 /\
  length (_nudge_steps Sample.selected) = 4.
Proof.
  destruct (reachable_experiments_are_charted Sample.selected selected_is_reachable)
    as (Hmetrics & Hsteps & _).
  split; [exact Hmetrics | exact Hsteps].
Defined.

(** X24 on the same experiment: sixteen graphs. *)
Lemma extract_metrics_of_charted_witness :
  exists graphs,
    AndOrGraphs.extract_metrics Sample.selected = Ok graphs /\ length graphs = 16.
Proof.
  destruct (extract_metrics_of_charted Sample.selected
              (reachable_charted _ selected_is_reachable))
    as (graphs & Hrun & Hlen & _).
  exists graphs. split; [exact Hrun | exact Hlen].
Defined.

(** X25 on two lines: one that ends in " 1.]" and one that ends in
    " 21.]", whose last number is read as 2. *)
Lemma last_number_of_a_line_witness :
  ArrayText.parse_into_np_array Sample.float "[2. 1.]" = Raise ValueError /\
  exists output_array,
    ArrayText.parse_into_np_array Sample.float "[3. 21.]" = Ok output_array /\
    last output_array = Some 2%Q.
Proof.
  split.
  - apply (proj1 (last_number_of_a_line Sample.float "[2." "1." eq_refl) eq_refl eq_refl).
  - eexists. split; [reflexivity|].
    destruct (proj2 (proj2 (last_number_of_a_line Sample.float "[3." "21." eq_refl))
                _ eq_refl ltac:(discriminate)) as (x & Hlast & Hx).
    rewrite Hlast. vm_compute in Hx. exact (eq_sym Hx).
Defined.

(** X26 on a file of two arrays, the first on two lines, an empty line and
    a third array, which is not read. *)
Lemma read_arrays_joins_wrapped_lines_witness :
  ArrayText.read_arrays Sample.float ["[1. 2."; " 3.]"; "[4.]"; ""; "[5.]"]
  = Some (Ok [[1; 2; 3]; [4]]%Q).
Proof.
  apply (proj2 (proj2 (read_arrays_joins_wrapped_lines Sample.float
                         [(["[1. 2."], " 3.]"); ([], "[4.]")] ["[5.]"])
                  ltac:(repeat constructor; done))).
Defined.

(** X27 on two layers numbered 1 and 2, recorded twice. *)
Lemma recorded_layers_are_regrouped_witness :
  exists arrays_separated_by_layer,
    NeuronParser.separate_by_layer
      (mjoin (map (map VisualExtractor.pyramidal_array) Sample.snapshots))
    = Ok arrays_separated_by_layer /\
    length arrays_separated_by_layer = 2.
Proof.
  destruct (proj2 (recorded_layers_are_regrouped Sample.snapshots 2
                     ltac:(repeat constructor)) ltac:(lia) eq_refl)
    as (sep & Hsep & Hlen & _).
  exists sep. split; [exact Hsep | exact Hlen].
Defined.

(** X28 on the same recording: four zipped deltas. *)
Lemma recorded_changes_reach_the_zipped_deltas_witness :
  exists list_of_arrays delta_array zipped,
    NeuronParser.separate_by_layer
      (mjoin (map (map VisualExtractor.pyramidal_array) Sample.snapshots))
    = Ok list_of_arrays /\
    NeuronParser.mapR (fun a => NeuronParser.__calculate_deltas a "p") list_of_arrays
    = Ok delta_array /\
    NeuronParser.__zip_delta_array (length list_of_arrays) delta_array = Ok zipped /\
    length zipped = 4.
Proof.
  destruct (proj1 (recorded_changes_reach_the_zipped_deltas Sample.snapshots [1; 1]
                     ltac:(discriminate) ltac:(simpl; lia) eq_refl)
              ltac:(repeat constructor))
    as (list_of_arrays & delta_array & zipped & Hsep & Hdeltas & Hzip & Hlen & _).
  exists list_of_arrays, delta_array, zipped.
  split; [exact Hsep|]. split; [exact Hdeltas|]. split; [exact Hzip | exact Hlen].
Defined.
